(* ===== verification/_CoqProject ===== *)
-Q . S2P
Prelude.v
Regs.v
Command.v
Decode.v
Tensor.v
Prog.v
Runtime.v
Driver.v
TbDesc.v
CArith.v
SerialDiv.v
Golden.v
GoldenRows.v
Annot.v
Fifo.v
ExtMem.v
Mem.v
Dma.v
BackendMem.v
Backend.v
VecBackend.v
PoolBackend.v
PoolData.v
RowBlocks.v
SoftmaxBackend.v
SoftmaxData.v
LnormBackend.v
LnormData.v
ConvBlocks.v
MacPath.v
MacFront.v
GemmBackend.v
GemmData.v
ConvBackend.v
ConvData.v
Hw.v
NpuCore.v
HwPhases.v
HwSubmit.v
HwDma.v
HwBackend.v
HwVec.v
Perf.v
HwPool.v
HwRows.v
HwMac.v
HwCommand.v
HwQueue.v
DmaSubmit.v
Tb.v
TbTests.v
TbHw.v
TbBuf.v
TbDma.v
TbBackend.v
TbVec.v
TbPool.v
TbRows.v
TbMac.v
Reset.v
Interleave.v
Concurrent.v
ConcurrentHw.v
