(* ===== verification/Prelude.v ===== *)
(** * lg-npu: a verification development

    The repository holds a small neural-network accelerator: RTL
    ([src/rtl], [src/include]), a user-space library that builds command
    descriptors, converts tensors and drives the registers ([src/sw/runtime],
    [src/sw/uapi]), a Linux driver for the same device ([src/sw/driver]), a
    header of compiler macros ([src/sw/shared]) and a C++ testbench with
    reference models of every operator ([src/tb/integration/npu_tb.h]). This
    library models the C and C++ code and the part of the RTL the software
    relies on, and proves what makes each part correct and the parts fit.

    ** How the program's parts interact

    The host writes a sixteen-word descriptor into the command window, rings
    DOORBELL, and learns of the completion from STATUS or from the interrupt.
    The hardware fetches the words, decodes them, queues the command, issues it
    to a backend and raises the pending interrupt. The library does this from
    user space on a mapped base address; the driver does it in the kernel
    under a mutex, a spinlock and a completion; the testbench does it on the
    pins of the simulated design and compares the result with its reference
    models. The buffers are windows of the same address space; a DMA engine
    with five registers moves bytes between them and an external memory, over
    the port the host uses.

    ** Files

    - [Prelude]: words of [w] bits as [Z] with [wrap] and [fits], undefined
      behaviour as a value ([res], [ub]), array accesses, counting loops with
      their induction rules, the tactic [words] and the hint base [words].
    - [Regs]: the five copies of the register map, over one enumeration.
    - [Command]: [lgnpu_cmd.h], [command_builder.c]: parameter structs, the
      descriptor, [derive_out_dim], the six builders.
    - [Decode]: the decoder, the field views and the dispatcher of the RTL
      ([npu_cmd_decode.sv], [npu_cmd_pkg.sv], [npu_dispatch.sv]).
    - [Tensor]: [lgnpu_tensor.h], [tensor_desc.c]: validation, sizes,
      addressing, conversion NCHW to NHWC.
    - [Prog]: effectful programs over an interface of calls, their traces
      ([exec]) and their runs in an environment ([run]); polling, straight and
      state-carrying loops.
    - [Runtime]: [liblgnpu.c], [submit.c], [mmio_helpers.h] as programs over
      volatile loads and stores.
    - [Driver]: every function of [sw/driver/] as programs over the kernel
      services it calls.
    - [TbDesc], [CArith], [Golden], [GoldenRows]: the testbench's descriptors,
      C [int] arithmetic, and the reference models [ref_vec], [ref_gemm],
      [ref_conv], [isqrt_hw], [ref_softmax], [ref_lnorm], [ref_pool].
    - [Annot]: the arithmetic of [annotations.h].
    - [ExtMem]: the testbench's external memory; [Mem]: the host side of
      [npu_buffer_router] and the three banks; [Dma]: [npu_dma_reader],
      [npu_dma_writer], [npu_dma_frontend] and the port multiplexer of
      [npu_shell], one function per clock edge, against an external memory
      that stalls as it likes.
    - [Fifo], [Hw]: [fifo.sv] and the control path ([npu_reg_block],
      [npu_cmd_fetch], [npu_cmd_decode], [npu_queue], [npu_scheduler],
      [npu_status], [npu_irq_ctrl], [npu_perf_counters] as wired in
      [npu_shell]), one function per clock edge; [HwPhases]: the phases of a command in it, one lemma per
      edge; [HwSubmit]: [npu_submit] and [npu_poll_idle] run on it. [Hw] holds
      the DMA engine and the buffers of [Dma] and [ExtMem] at its port;
      [HwDma]: a transfer clock by clock in there; [DmaSubmit]:
      [npu_dma_start], [npu_dma_poll] and [lgnpu_dma_transfer] run on it.
    - [BackendMem]: the backends' ports of the memories with the arbitration
      of weight and bias reads; [Backend]: what a backend is to the core, and
      the contract it keeps; [VecBackend]: the vector backend ([vec_ctrl],
      [vec_backend]); [PoolBackend], [PoolData]: control and data of the
      pooling backend ([pool_ctrl], [pool_composite]); [SoftmaxBackend],
      [SoftmaxData] and [LnormBackend], [LnormData]: the same for softmax
      ([softmax_ctrl], [softmax_exp_lut], [softmax_composite]) and layer
      normalisation ([lnorm_ctrl], [lnorm_composite]). [SerialDiv] is the divider
      step of two of them, [RowBlocks] what the two that work row by row share:
      the cells of a row, and rows replaced one after the other.
    - [ConvBlocks]: the blocks of the matrix datapath ([conv_loader], [conv_pe],
      [conv_accum], [postproc], [conv_writer], [pipeline_reg], [skid_buffer]);
      [MacPath]: the datapath that matrix and convolution backend share, and its
      schedule; [MacFront]: everything around it but the loop indices, with the
      class of what those promise; [GemmBackend]: the indices of [gemm_ctrl] and
      [gemm_addr_gen]; [GemmData]: what the whole computes and when it says so;
      [ConvBackend], [ConvData]: the same for [conv_ctrl] and [conv_addr_gen].
    - [NpuCore]: [npu_core] with these six backends: dispatch, the selector of
      the ports, the handshake. [HwBackend]: any backend on the whole machine;
      [HwVec], [HwPool], [HwRows], [HwMac]: commands of the library on it, the
      third for softmax and layer normalisation, the last for convolutions and
      matrix products; [HwCommand]: what all six have in common, from the
      descriptor to the end of the command; [HwQueue]: two examples of a command
      queued behind a matrix product.
      [Perf]: what the performance counters count and the library reads.
    - [Tb], [TbTests], [TbHw]: class [NpuTb] (bus functional model, tests,
      [TestResult]), what its tests check, and its pins and its way of waiting
      on the clocked hardware; [TbBuf]: its accesses to the buffer windows;
      [TbDma]: its DMA tests run on that hardware; [TbBackend]: its tests of
      an operator, for any backend, [TbVec], [TbPool], [TbRows], [TbMac]: for
      the six.
    - [Reset]: [npu_reset_ctrl] and [reset_sync] around the control path, with
      the resets of the library and of the testbench.
    - [Interleave], [Concurrent], [ConcurrentHw]: any number of system calls
      and handler runs interleaved call by call, over a machine interface, then
      over the kernel objects and the clocked hardware.

    State corresponds to the code field by field: C structs are records with
    the C names, registers of the RTL are fields named as the flops, a pointer
    that the code tests for NULL is an option, a buffer is the list of its
    elements. The device behind the C code is never a definition of the C
    model: [Runtime] and [Driver] are programs whose calls an environment
    answers, [Hw] and [Reset] are such environments.

    ** Interfaces

    [Prog.Calls] says what is known of the result of every call and
    [Prog.Env] answers the calls; theorems on traces hold for every device
    that keeps the first. [Driver.Kernel] and [KernelLaws] hold the constants
    and helpers of Linux; [linux] is an instance, so the laws are satisfiable.
    [Hw.Core] is what the shell sees of the backends and [CoreLaws] the
    contract they keep: idle until a command comes, then busy for a known time
    and done in the last clock of it. The theorems on the shell are proved
    against the contract; [Hw.latency] discharges it with a bare counter,
    [NpuCore.npu_core_core] with the core and its backends.
    [Backend.Backend] is what the core sees of one backend, [BackendLaws] the
    contract it keeps (at rest, deaf and silent; busy for a time known from the
    command, whatever the memories answer; [done] last) and [BackendEffect]
    what its commands do to the buffers. The core and the machine are proved
    right for every backend that keeps them; [VecBackend], [PoolData],
    [SoftmaxData] and [LnormData] show that theirs do, so what a backend does on
    its own it does in the machine. The two matrix backends keep the laws of rest
    only ([MacFront.mac_laws], no command is [bk_runnable]); [HwMac.passes] is the
    weaker contract they keep for a command, and the other backends too
    ([HwCommand.contract_passes]), so the theorems of [HwCommand] hold for every
    operator while those under [runnable] ([HwSubmit], [Perf.library_profiles])
    are about the four that keep the stronger one.
    [MacFront.MacFront] is what the matrix datapath needs of a sequencer and an
    address generator, [FrontRest] what they promise at rest, [FrontLaws] for a
    command.
    [TbBuf.Buffered] is a description of the machine that survives an access
    to a buffer.
    [Driver.UserMem] is what user memory holds. [Concurrent.Machine],
    [MachineLaws] and [CompletionLaws] state what the documentation of mutexes,
    spinlocks and completions promises; [kobj] (a device that may answer
    anything) and [ConcurrentHw.machine] (the clocked hardware) discharge them.

    ** What the theorems show

    - Descriptors. [builders_roundtrip]: the hardware decodes from a built
      descriptor the command requested, for every builder and all well-typed
      parameters; [tb_desc_agree]: the testbench encodes alike;
      [derive_out_dim_counts], [derive_out_dim_oversized]: the derived output
      size and where it goes wrong.
    - Tensors. [convert_nchw_correct], [nhwc_offset_bijective],
      [tensor_validate_codes], and [convert_nchw_int_overflow] for accepted
      descriptors that overflow [int].
    - Traces of the library and of the driver: [submit_trace],
      [poll_idle_spec], [cmd_submit_trace], [dma_transfer_trace],
      [ioctl_requests], [probe_registers_iff_success], [locking_discipline].
    - Concurrency. [mutual_exclusion] is the invariant of every reachable
      state; [starts_are_own]: whatever interleaves, what a doorbell or DMA start
      launches is the caller's own request, all of it and nothing else, and what
      the others did since its lock is what needs no lock: the handler may still
      complete, and a reset may still come between; [no_deadlock];
      [no_lost_wakeup]. [stale_completion] is a schedule on the clocked hardware
      in which an abandoned submission makes the next one succeed too early.
    - The way of a command through the hardware. [fifo_implements_queue];
      [request_reaches_backend]: for each of the six operators, from the
      parameters of the C call to the backend, 36 clocks after the doorbell, and
      to the idle machine if the command is one that ends; [status_timeline],
      [poll_idle_too_early] and [back_to_back_submit_drops_first]: what a host
      can and cannot rely on; [tb_wait_is_completion]: why the testbench's wait
      is sound.
    - DMA. [dma_transfers]: a transfer copies exactly its elements in both
      directions, however the external memory stalls, and is [done] in exactly
      one clock; [dma_tests_pass] composes
      testbench, registers, engine, buffers and external memory: both tests
      pass on the hardware for all data and places; [driver_dma_outcome]
      does so for the driver, for every timing of its polls and every address;
      [dma_round_trip]; [library_dma_never_moves],
      [dma_below_windows_hangs], [opposite_start_corrupts] and
      [host_write_lost] say what goes wrong outside those conditions.
    - The six operators. [vec_matches_reference], [pool_matches_reference],
      [softmax_matches_reference], [lnorm_matches_reference],
      [gemm_matches_reference], [conv_matches_reference]: each backend computes
      the testbench's model, clock by clock; [library_vec_computes] and its five
      companions: so does a command built and submitted by the library, from its
      parameters to the bytes in the buffers; [vec_test_passes] and its five
      companions: so the testbench's tests pass. [divider_divides] and
      [serial_divides]: the serial dividers.
    - Where they go wrong. [vec_length_zero_hangs], [library_vec_zero_hangs],
      [library_pool_empty_hangs], [library_softmax_empty_hangs],
      [library_lnorm_empty_hangs]: a command without an output never ends;
      [wide_average]: an average over 256 rows divides by zero;
      [gemm_done_early], [conv_done_early]: the matrix backends say [done] up to
      nine clocks before the last byte is stored;
      [library_gemm_interrupts_early], [library_conv_interrupts_early]: so the
      interrupt and the status register do. The examples
      [queued_vec_strands_gemm] and [queued_gemm_takes_next_shift] run what that
      does to a command in the queue.
    - Performance counters. [library_profiles]: what the library reads from them
      after a command; [stall_stays_zero]: one of them never counts.
    - Reset. [soft_reset_recovers]: a soft reset at any time, under any bus
      traffic, leaves nothing of the old state but window and memories;
      [enable_after_reset]: which stores it swallows; [testbench_resets];
      [out_of_reset_refines]: a program that asks for no reset sees of the chip
      what it sees of the core alone.
    - Reference models. [ref_conv_correct], [ref_gemm_correct],
      [ref_softmax_correct], [ref_lnorm_correct], [ref_pool_correct],
      [isqrt_exact]: for which inputs the models are free of undefined
      behaviour, and the mathematical function they compute;
      [run_test_verdict]: the tests pass exactly on that function's values.
    - Header arithmetic. [bit_counts_exact], [gnu_counts], [rotations],
      [alignment].

    A theorem named after what goes wrong ([poll_idle_too_early],
    [back_to_back_submit_drops_first], [stale_completion],
    [derive_out_dim_oversized], [convert_nchw_int_overflow],
    [opposite_start_corrupts], [library_dma_never_moves]) describes the code
    as it is, not a wish.

    ** Bounds and fuel

    Loops with a counter use fuel [S hi] for a bound [hi]; [for_up_ind],
    [for_ret_straight], [poll_iff] and [for_prog_iff] show it is enough, so no
    theorem has a running-out-of-fuel case. [for_ret] keeps the [uint32_t]
    counter at its width. [until_ready] of the testbench is given one turn per
    access, which is enough since registers are always ready
    ([tb_is_late_host]) and so is a buffer window with the DMA engine at rest
    (the accesses of [dma_tests_pass]). The times 36, 37 and 38 + D count clock edges from the
    doorbell store to issue, busy and the pending interrupt of a command whose
    backend says [done] in its clock [D]; it is at rest in its clock
    [HwCommand.rest_clock], the next one for a vector ([3 * length + 2]), pooling,
    softmax and layer normalisation, while a convolution or product of [n]
    multiplications needs [5 * n + 14] or [5 * n + 12]. [conv_test_ok] and [gemm_test_ok] ask that this is within the
    2000 clocks the testbench lets pass, since the status is not to be trusted.
    Driver polls are bounded by 10000, testbench polls by
    200000, as in the code. [size_t] has 64 bits, [int] 32.

    ** Modelling choices to know about

    - A signed overflow, an access out of bounds, a NULL base, a division by
      zero or a shift too far is [UB], never a value.
    - [Hw.hw_step] has no soft reset: it is the core as [npu_reset_ctrl] leaves
      it while bit 0 of CTRL is clear. [Reset.chip_step] puts the controller
      around it, and [out_of_reset_refines] carries what is proved of programs
      on [hw_step] over to the chip, for those that never write that bit.
    - A CTRL write by LGNPU_IOCTL_RESET or LGNPU_IOCTL_ENABLE takes no lock:
      [Concurrent.bystander] lists it with what may come between the accesses of
      a submission, and [starts_are_own] does not exclude it.
    - Bit counts and byte swaps of [annotations.h] are its plain C versions.
      Line 506 rejects the compilers that would take them; the branches over the
      built-ins of gcc, clang and MSVC compute the same bit counts ([gnu_counts],
      [msvc_clz64]).
    - The theorems on the shell hold for every core that keeps the contract,
      whatever it computes; [NpuCore] is one. Its convolutions and matrix
      products are not [runnable]: these backends are not [done] last, so
      [HwMac] follows the machine through them, from an idle machine and with
      nothing queued behind; [HwQueue] shows two runs with something queued.
    - [lnorm_ctrl] reads the addresses from the command bus one clock after it
      has accepted the command. [LnormBackend.lnorm_port] keeps the bus with it,
      as the scheduler's register holds it ([HwRows.lnorm_bus_held]).
    - The row and its result may be the same bytes for softmax and layer
      normalisation ([rows_operands]): no output byte is a later input byte.
    - The sizes of a pooling command are at least one and at most 65535
      ([pool_cmd_ok]); it reads the input it has not overwritten, so the output
      must lie apart from the input ([pool_operands]).
    - SRAM cells start at zero, as the simulation body of the wrapper sets
      them; bank addresses are cut to the bank's width, so a window repeats it.
    - Copies from user memory return what [UserMem] holds; a concurrent change
      of that memory by the caller is not modelled.
    - [memcpy_toio] is one call in [Driver]; on the clocked machine it is one
      store per clock, in ascending order.
    - [LGNPU_IRQ_STATUS_PENDING], used by [npu_irq.c], is defined nowhere in
      the repository: it is a parameter.
    - In [Concurrent] an interrupt may arrive at any time on any processor whose
      interrupts are on, since the line is shared; handlers may even overlap.

    ** Not modelled

    [conv_line_buffer] and [conv_window_gen], which nothing instantiates; the
    assertions of the simulation; the ASIC bodies of the memory wrappers; the
    attribute, platform and diagnostic macros of the shared
    headers, which have no run-time meaning; the registration tables of the
    driver; tracing and printed text of the testbench beyond the order and kind
    of its messages; the host tests and their mock device, the Python models,
    the build and synthesis scripts. *)

From Stdlib Require Import ZArith Lia.
From stdpp Require Export base numbers list option.

Open Scope Z_scope.

(** ** Machine words

    A [w]-bit unsigned C value is a [Z] in [[0, 2^w)]; every arithmetic
    operation of the source that can leave that range is followed by [wrap]. *)

Definition wrap (w z : Z) : Z := z mod 2 ^ w.

Definition fits (w z : Z) : Prop := 0 <= z < 2 ^ w.

#[export] Instance fits_dec w z : Decision (fits w z).
Proof. unfold fits. apply _. Defined.

Declare Scope cword_scope.
Delimit Scope cword_scope with cword.
Abbreviation u8 := (wrap 8).
Abbreviation u16 := (wrap 16).
Abbreviation u32 := (wrap 32).
Abbreviation u64 := (wrap 64).
Infix "&" := Z.land (at level 40, left associativity) : cword_scope.
Infix ".|" := Z.lor (at level 50, left associativity) : cword_scope.

(** Signed 32-bit [int]: arithmetic outside this range is undefined. *)
Definition INT_MAX : Z := 2 ^ 31 - 1.
Definition INT_MIN : Z := - 2 ^ 31.

Create HintDb words discriminated.

Lemma fits_wrap w z : 0 <= w -> fits w (wrap w z).
Proof. intros Hw. unfold fits, wrap. apply Z.mod_pos_bound. lia. Qed.

Lemma wrap_small w z : fits w z -> wrap w z = z.
Proof. unfold fits, wrap. intros. by apply Z.mod_small. Qed.

Lemma fits_mono w w' z : 0 <= w <= w' -> fits w z -> fits w' z.
Proof.
  unfold fits. intros Hw [Hlo Hhi]. split; [done|].
  eapply Z.lt_le_trans; [exact Hhi|]. apply Z.pow_le_mono_r; lia.
Qed.

Lemma fits_0 w : 0 <= w -> fits w 0.
Proof. unfold fits. lia. Qed.

Lemma fits_testbit w z i : 0 <= w -> fits w z -> w <= i -> Z.testbit z i = false.
Proof.
  intros Hw Hz Hi. apply (proj1 (Z.bounded_iff_bits_nonneg' w z Hw (proj1 Hz))); [exact Hz|done].
Qed.

Lemma testbit_fits w z :
  0 <= w -> 0 <= z -> (forall i, w <= i -> Z.testbit z i = false) -> fits w z.
Proof. intros Hw Hz Hb. by apply Z.bounded_iff_bits_nonneg'. Qed.

Lemma fits_lor w a b : 0 <= w -> fits w a -> fits w b -> fits w (Z.lor a b).
Proof.
  intros Hw Ha Hb. apply testbit_fits; [done| |].
  - apply Z.lor_nonneg. unfold fits in *. lia.
  - intros i Hi. rewrite Z.lor_spec. by rewrite !(fits_testbit w).
Qed.

Lemma fits_land_r w a b : 0 <= w -> fits w b -> fits w (Z.land a b).
Proof.
  intros Hw Hb. apply testbit_fits; [done| |].
  - apply Z.land_nonneg. right. apply Hb.
  - intros i Hi. rewrite Z.land_spec, (fits_testbit w b) by done. apply andb_false_r.
Qed.

Lemma fits_shiftl w n a : 0 <= n -> 0 <= w -> fits w a -> fits (w + n) (Z.shiftl a n).
Proof.
  unfold fits. intros Hn Hw [? ?]. rewrite Z.shiftl_mul_pow2, Z.pow_add_r by done. nia.
Qed.

#[export] Hint Resolve fits_wrap fits_0 fits_lor : words.

(** [mask n]: the constant [2^n - 1] that the source writes as [0x1FU] etc. *)
Lemma land_mask n a : 0 <= n -> Z.land a (2 ^ n - 1) = wrap n a.
Proof. intros. unfold wrap. rewrite <- Z.land_ones, Z.ones_equiv by done. f_equal. Qed.

(** ** Packing two fields into one word, and slicing it back *)

Definition slice (lo n z : Z) : Z := wrap n (Z.shiftr z lo).

Lemma lor_shiftl_add n a b : 0 <= n -> fits n a -> Z.lor a (Z.shiftl b n) = a + b * 2 ^ n.
Proof.
  intros Hn Ha. rewrite <- Z.shiftl_mul_pow2 by done.
  symmetry. apply Z.add_nocarry_lor. apply Z.bits_inj'. intros i Hi.
  rewrite Z.land_spec, Z.bits_0.
  destruct (decide (i < n)).
  - rewrite Z.shiftl_spec_low by done. apply andb_false_r.
  - rewrite (fits_testbit n a) by (done || lia). done.
Qed.

Lemma pack_low n a b : 0 <= n -> fits n a -> wrap n (Z.lor a (Z.shiftl b n)) = a.
Proof.
  intros Hn Ha. rewrite lor_shiftl_add by done. unfold wrap.
  rewrite Z.mod_add by lia. by apply Z.mod_small.
Qed.

Lemma pack_high n a b : 0 <= n -> fits n a -> Z.shiftr (Z.lor a (Z.shiftl b n)) n = b.
Proof.
  intros Hn Ha. rewrite lor_shiftl_add, Z.shiftr_div_pow2 by done.
  rewrite Z.div_add by lia. rewrite Z.div_small by done. lia.
Qed.

Lemma pack_slice n m a b :
  0 <= n -> fits n a -> fits m b -> slice n m (Z.lor a (Z.shiftl b n)) = b.
Proof. intros. unfold slice. rewrite pack_high by done. by apply wrap_small. Qed.

Lemma wrap_wrap_le n m a : 0 <= n <= m -> wrap n (wrap m a) = wrap n a.
Proof.
  intros. unfold wrap. apply Z.mod_mod_divide.
  exists (2 ^ (m - n)). rewrite <- Z.pow_add_r by lia. f_equal. lia.
Qed.

(** Bounds of a concrete width: [fits 16 x] as the inequality [lia] reads. *)
Lemma fits8_iff z : fits 8 z <-> 0 <= z < 256.
Proof. done. Qed.
Lemma fits16_iff z : fits 16 z <-> 0 <= z < 65536.
Proof. done. Qed.
Lemma fits32_iff z : fits 32 z <-> 0 <= z < 4294967296.
Proof. done. Qed.
Lemma fits64_iff z : fits 64 z <-> 0 <= z < 18446744073709551616.
Proof. done. Qed.

(** [words]: expose every [fits]/[wrap] of a concrete width to [lia]. *)
Ltac words :=
  repeat match goal with
  | H : fits 8 _ |- _ => rewrite fits8_iff in H
  | H : fits 16 _ |- _ => rewrite fits16_iff in H
  | H : fits 32 _ |- _ => rewrite fits32_iff in H
  | H : fits 64 _ |- _ => rewrite fits64_iff in H
  | H : _ /\ _ |- _ => destruct H
  | |- fits 8 _ => rewrite fits8_iff
  | |- fits 16 _ => rewrite fits16_iff
  | |- fits 32 _ => rewrite fits32_iff
  | |- fits 64 _ => rewrite fits64_iff
  end.

(** A counter of [n] bits, one step further. *)
Lemma wrap_succ n a i : 0 <= n -> wrap n (wrap n (a + Z.of_nat i) + 1) = wrap n (a + Z.of_nat (S i)).
Proof.
  intros Hn. unfold wrap. rewrite Zplus_mod_idemp_l. f_equal. lia.
Qed.

(** The first index at which a decidable property holds. *)
Lemma first_true (P : nat -> bool) n :
  P n = true -> exists m, (m <= n)%nat /\ P m = true /\ forall k, (k < m)%nat -> P k = false.
Proof.
  revert P. induction n as [|n IH]; intros P Hn; (destruct (P 0%nat) eqn:H0; [exists 0%nat; split_and!; [lia|done|lia]|]).
  - congruence.
  - destruct (IH (fun k => P (S k)) Hn) as (m & Hm & Hp & Hmin). exists (S m). split_and!; [lia|done|].
    intros [|k] Hk; [done|]. apply Hmin. lia.
Qed.

(** Products of bounded factors. *)
Lemma mul_bound a b A B : 0 <= a <= A -> 0 <= b <= B -> 0 <= a * b <= A * B.
Proof. intros. split; [nia|]. apply Z.mul_le_mono_nonneg; lia. Qed.

(** ** Undefined behaviour

    [res A] is the outcome of a piece of C code: a value, or the reason why
    the execution has no defined meaning. *)

Inductive ub := IntOverflow | OutOfBounds | NullDeref | DivByZero | BadShift | Throws | NoFuel.

#[export] Instance ub_eq_dec : EqDecision ub.
Proof. solve_decision. Defined.

Inductive res (A : Type) :=
| Ok (a : A)
| UB (u : ub).
Arguments Ok {A} a.
Arguments UB {A} u.

#[export] Instance res_ret : MRet res := fun A a => Ok a.
#[export] Instance res_bind : MBind res := fun A B f m =>
  match m with Ok a => f a | UB u => UB u end.

Definition of_option {A} (u : ub) (o : option A) : res A :=
  match o with Some a => Ok a | None => UB u end.

(** [int] arithmetic of the abstract machine. *)
Definition int_of (z : Z) : res Z :=
  if decide (INT_MIN <= z <= INT_MAX) then Ok z else UB IntOverflow.

(** Array accesses at an integer index. *)
Definition load {A} (b : list A) (i : Z) : res A :=
  if decide (0 <= i) then of_option OutOfBounds (b !! Z.to_nat i) else UB OutOfBounds.

Definition store {A} (b : list A) (i : Z) (a : A) : res (list A) :=
  if decide (0 <= i < Z.of_nat (length b)) then Ok (<[Z.to_nat i := a]> b)
  else UB OutOfBounds.

(** ** Counting loops

    [for (uintw_t i = 0; i < hi; ++i) body], the counter kept at its width.
    The fuel [S hi] is enough whenever the bound is a [w]-bit value
    ([for_up_ind]). *)

Fixpoint for_fuel {S} (w : Z) (fuel : nat) (i hi : Z)
    (body : Z -> S -> res S) (s : S) : res S :=
  match fuel with
  | O => UB NoFuel
  | Datatypes.S f =>
      if i <? hi then s' ← body i s; for_fuel w f (wrap w (i + 1)) hi body s'
      else Ok s
  end.

Definition for_up {S} (w hi : Z) (body : Z -> S -> res S) (s : S) : res S :=
  for_fuel w (Datatypes.S (Z.to_nat hi)) 0 hi body s.

Section for_loop.
Context {S : Type} (w hi : Z) (body : Z -> S -> res S) (I : Z -> S -> Prop).
Hypothesis Hhi : fits w hi.

(** A loop whose body is defined on every iteration ends, with the
    invariant at the bound. *)
Lemma for_fuel_ind fuel i s :
  0 <= i <= hi -> (Z.to_nat (hi - i) < fuel)%nat -> I i s ->
  (forall j t, i <= j < hi -> I j t -> exists t', body j t = Ok t' /\ I (j + 1) t') ->
  exists s', for_fuel w fuel i hi body s = Ok s' /\ I hi s'.
Proof using Hhi.
  revert i s. induction fuel as [|f IH]; intros i s Hi Hf HI Hstep; [lia|]. simpl.
  destruct (Z.ltb_spec i hi).
  - destruct (Hstep i s) as (t & Ht & HI'); [lia|done|]. rewrite Ht. simpl.
    rewrite wrap_small by (unfold fits in *; lia).
    apply IH; [lia|lia|done|]. intros j u Hj. apply Hstep. lia.
  - exists s. split; [done|]. by replace hi with i by lia.
Qed.

Lemma for_up_ind s :
  I 0 s ->
  (forall j t, 0 <= j < hi -> I j t -> exists t', body j t = Ok t' /\ I (j + 1) t') ->
  exists s', for_up w hi body s = Ok s' /\ I hi s'.
Proof using Hhi.
  intros. apply for_fuel_ind; try done; unfold fits in *; lia.
Qed.

(** A loop whose body is undefined at iteration [k], and defined before,
    is undefined for the same reason. *)
Lemma for_fuel_ub fuel i k u s :
  0 <= i <= k -> k < hi -> (Z.to_nat (hi - i) < fuel)%nat -> I i s ->
  (forall j t, i <= j < k -> I j t -> exists t', body j t = Ok t' /\ I (j + 1) t') ->
  (forall t, I k t -> body k t = UB u) ->
  for_fuel w fuel i hi body s = UB u.
Proof using Hhi.
  revert i s. induction fuel as [|f IH]; intros i s Hi Hk Hf HI Hstep Hub; [lia|]. simpl.
  rewrite (proj2 (Z.ltb_lt i hi)) by lia.
  destruct (decide (i = k)) as [->|].
  - by rewrite (Hub s HI).
  - destruct (Hstep i s) as (t & Ht & HI'); [lia|done|]. rewrite Ht. simpl.
    rewrite wrap_small by (unfold fits in *; lia).
    apply IH; [lia|lia|lia|done| |done]. intros j v Hj. apply Hstep. lia.
Qed.

Lemma for_up_ub k u s :
  0 <= k < hi -> I 0 s ->
  (forall j t, 0 <= j < k -> I j t -> exists t', body j t = Ok t' /\ I (j + 1) t') ->
  (forall t, I k t -> body k t = UB u) ->
  for_up w hi body s = UB u.
Proof using Hhi.
  intros. apply (for_fuel_ub _ 0 k); try done; unfold fits in *; lia.
Qed.
End for_loop.
