(* ===== verification/Regs.v ===== *)
(** * The register map

    Four C/C++ headers and one SystemVerilog package each carry their own copy
    of the MMIO address map: [sw/uapi/lgnpu_regs.h] (the copy the runtime
    includes), [sw/uapi/npu_regs.h] (the file the generator writes),
    [sw/driver/lgnpu_drv.h] (the kernel mirror), [tb/integration/npu_tb.h] (the
    testbench) and [include/pkg/npu_addrmap_pkg.sv] (the hardware). Each copy is
    one table over the same enumeration of registers and windows. *)

From S2P Require Import Prelude.
From stdpp Require Import sets finite.

Open Scope Z_scope.

Inductive reg :=
| R_CTRL | R_STATUS | R_DOORBELL
| R_IRQ_STATUS | R_IRQ_ENABLE | R_IRQ_CLEAR | R_FEATURE_ID
| R_PERF_CYCLES | R_PERF_ACTIVE | R_PERF_STALL
| R_DMA_EXT_ADDR | R_DMA_LOC_ADDR | R_DMA_LEN | R_DMA_CTRL | R_DMA_STATUS.

#[export] Instance reg_eq_dec : EqDecision reg.
Proof. solve_decision. Defined.

Definition all_regs : list reg :=
  [R_CTRL; R_STATUS; R_DOORBELL; R_IRQ_STATUS; R_IRQ_ENABLE; R_IRQ_CLEAR;
   R_FEATURE_ID; R_PERF_CYCLES; R_PERF_ACTIVE; R_PERF_STALL;
   R_DMA_EXT_ADDR; R_DMA_LOC_ADDR; R_DMA_LEN; R_DMA_CTRL; R_DMA_STATUS].

Inductive region := CMD_QUEUE | WEIGHT_BUF | ACT_BUF | PSUM_BUF.

#[export] Instance region_eq_dec : EqDecision region.
Proof. solve_decision. Defined.

(** sw/uapi/lgnpu_regs.h *)
Definition uapi_reg (r : reg) : Z :=
  match r with
  | R_CTRL => 0x00000 | R_STATUS => 0x00004 | R_DOORBELL => 0x00008
  | R_IRQ_STATUS => 0x0000C | R_IRQ_ENABLE => 0x00010 | R_IRQ_CLEAR => 0x00014
  | R_FEATURE_ID => 0x00018 | R_PERF_CYCLES => 0x00020 | R_PERF_ACTIVE => 0x00024
  | R_PERF_STALL => 0x00028 | R_DMA_EXT_ADDR => 0x00030 | R_DMA_LOC_ADDR => 0x00034
  | R_DMA_LEN => 0x00038 | R_DMA_CTRL => 0x0003C | R_DMA_STATUS => 0x00040
  end.

Definition uapi_region (r : region) : Z :=
  match r with
  | CMD_QUEUE => 0x01000 | WEIGHT_BUF => 0x10000
  | ACT_BUF => 0x20000 | PSUM_BUF => 0x30000
  end.

Definition LGNPU_CMD_ENTRY_BYTES : Z := 64.

Definition LGNPU_CTRL_SOFT_RESET : Z := 1 ≪ 0.
Definition LGNPU_CTRL_ENABLE : Z := 1 ≪ 1.
Definition LGNPU_STATUS_IDLE : Z := 1 ≪ 0.
Definition LGNPU_STATUS_BUSY : Z := 1 ≪ 1.
Definition LGNPU_STATUS_QUEUE_FULL : Z := 1 ≪ 2.
Definition LGNPU_DMA_CTRL_START : Z := 1 ≪ 0.
Definition LGNPU_DMA_CTRL_DIR : Z := 1 ≪ 1.
Definition LGNPU_DMA_STATUS_BUSY : Z := 1 ≪ 0.

(** sw/uapi/npu_regs.h *)
Definition gen_reg (r : reg) : Z :=
  match r with
  | R_CTRL => 0x00000 | R_STATUS => 0x00004 | R_DOORBELL => 0x00008
  | R_IRQ_STATUS => 0x0000C | R_IRQ_ENABLE => 0x00010 | R_IRQ_CLEAR => 0x00014
  | R_FEATURE_ID => 0x00018 | R_PERF_CYCLES => 0x00020 | R_PERF_ACTIVE => 0x00024
  | R_PERF_STALL => 0x00028 | R_DMA_EXT_ADDR => 0x00030 | R_DMA_LOC_ADDR => 0x00034
  | R_DMA_LEN => 0x00038 | R_DMA_CTRL => 0x0003C | R_DMA_STATUS => 0x00040
  end.

Definition gen_region (r : region) : Z :=
  match r with
  | CMD_QUEUE => 0x01000 | WEIGHT_BUF => 0x10000
  | ACT_BUF => 0x20000 | PSUM_BUF => 0x30000
  end.

(** sw/driver/lgnpu_drv.h *)
Definition drv_reg (r : reg) : Z :=
  match r with
  | R_CTRL => 0x00000 | R_STATUS => 0x00004 | R_DOORBELL => 0x00008
  | R_IRQ_STATUS => 0x0000C | R_IRQ_ENABLE => 0x00010 | R_IRQ_CLEAR => 0x00014
  | R_FEATURE_ID => 0x00018 | R_PERF_CYCLES => 0x00020 | R_PERF_ACTIVE => 0x00024
  | R_PERF_STALL => 0x00028 | R_DMA_EXT_ADDR => 0x00030 | R_DMA_LOC_ADDR => 0x00034
  | R_DMA_LEN => 0x00038 | R_DMA_CTRL => 0x0003C | R_DMA_STATUS => 0x00040
  end.

Definition drv_region (r : region) : Z :=
  match r with
  | CMD_QUEUE => 0x01000 | WEIGHT_BUF => 0x10000
  | ACT_BUF => 0x20000 | PSUM_BUF => 0x30000
  end.

Definition LGNPU_MMIO_SIZE : Z := 0x40000.

(** tb/integration/npu_tb.h *)
Definition tb_reg (r : reg) : Z :=
  match r with
  | R_CTRL => 0x00000 | R_STATUS => 0x00004 | R_DOORBELL => 0x00008
  | R_IRQ_STATUS => 0x0000C | R_IRQ_ENABLE => 0x00010 | R_IRQ_CLEAR => 0x00014
  | R_FEATURE_ID => 0x00018 | R_PERF_CYCLES => 0x00020 | R_PERF_ACTIVE => 0x00024
  | R_PERF_STALL => 0x00028 | R_DMA_EXT_ADDR => 0x00030 | R_DMA_LOC_ADDR => 0x00034
  | R_DMA_LEN => 0x00038 | R_DMA_CTRL => 0x0003C | R_DMA_STATUS => 0x00040
  end.

Definition tb_region (r : region) : Z :=
  match r with
  | CMD_QUEUE => 0x01000 | WEIGHT_BUF => 0x10000
  | ACT_BUF => 0x20000 | PSUM_BUF => 0x30000
  end.

(** include/pkg/npu_addrmap_pkg.sv *)
Definition rtl_reg (r : reg) : Z :=
  match r with
  | R_CTRL => 0x00000 | R_STATUS => 0x00004 | R_DOORBELL => 0x00008
  | R_IRQ_STATUS => 0x0000C | R_IRQ_ENABLE => 0x00010 | R_IRQ_CLEAR => 0x00014
  | R_FEATURE_ID => 0x00018 | R_PERF_CYCLES => 0x00020 | R_PERF_ACTIVE => 0x00024
  | R_PERF_STALL => 0x00028 | R_DMA_EXT_ADDR => 0x00030 | R_DMA_LOC_ADDR => 0x00034
  | R_DMA_LEN => 0x00038 | R_DMA_CTRL => 0x0003C | R_DMA_STATUS => 0x00040
  end.

Definition rtl_region (r : region) : Z :=
  match r with
  | CMD_QUEUE => 0x01000 | WEIGHT_BUF => 0x10000
  | ACT_BUF => 0x20000 | PSUM_BUF => 0x30000
  end.

(** ** Facts the other files use *)

Lemma all_regs_complete r : r ∈ all_regs.
Proof. destruct r; unfold all_regs; set_solver. Qed.

Lemma uapi_reg_inj r1 r2 : uapi_reg r1 = uapi_reg r2 -> r1 = r2.
Proof. by destruct r1, r2. Qed.

(** Inverse of the map, the hardware's address decoder. *)
Definition reg_at (off : Z) : option reg := list_find (fun r => rtl_reg r = off) all_regs ≫= fun p => Some p.2.

Lemma reg_at_uapi r : reg_at (uapi_reg r) = Some r.
Proof. by destruct r. Qed.

Lemma uapi_drv r : uapi_reg r = drv_reg r.
Proof. by destruct r. Qed.

Lemma uapi_reg_range r : 0 <= uapi_reg r < 256 /\ uapi_reg r mod 4 = 0.
Proof. by destruct r. Qed.

(** The five copies of the register map agree, every register offset is
    32-bit aligned, distinct from the others and below the command window, and
    the 64-byte command window ends before the first buffer window. *)
Theorem reg_maps_agree :
  (forall r, gen_reg r = uapi_reg r /\ drv_reg r = uapi_reg r /\
             tb_reg r = uapi_reg r /\ rtl_reg r = uapi_reg r) /\
  (forall w, gen_region w = uapi_region w /\ drv_region w = uapi_region w /\
             tb_region w = uapi_region w /\ rtl_region w = uapi_region w) /\
  NoDup (uapi_reg <$> all_regs) /\
  (forall r, uapi_reg r mod 4 = 0 /\ 0 <= uapi_reg r < uapi_region CMD_QUEUE) /\
  uapi_region CMD_QUEUE + LGNPU_CMD_ENTRY_BYTES <= uapi_region WEIGHT_BUF /\
  uapi_region PSUM_BUF < LGNPU_MMIO_SIZE.
Proof.
  split_and!; [by intros []|by intros []| |by intros []|done..].
  apply (bool_decide_unpack _). by vm_compute.
Qed.
