(* ===== verification/Command.v ===== *)
(** * Command descriptors and their builders

    Models [sw/uapi/lgnpu_cmd.h] (opcodes, parameter structs, the 16-word
    descriptor) and [sw/runtime/command_builder.c] (one builder per opcode).
    A C pointer argument is an [option]; a builder returns its [int] result
    together with the final contents of [*desc]. *)

From S2P Require Import Prelude Regs.

Open Scope Z_scope.
Open Scope cword_scope.

(** ** Data *)

Inductive npu_opcode :=
| LGNPU_OP_CONV | LGNPU_OP_GEMM | LGNPU_OP_SOFTMAX
| LGNPU_OP_VEC | LGNPU_OP_LNORM | LGNPU_OP_POOL.

#[export] Instance npu_opcode_eq_dec : EqDecision npu_opcode.
Proof. solve_decision. Defined.

Definition opcode_val (o : npu_opcode) : Z :=
  match o with
  | LGNPU_OP_CONV => 0x1 | LGNPU_OP_GEMM => 0x2 | LGNPU_OP_SOFTMAX => 0x3
  | LGNPU_OP_VEC => 0x4 | LGNPU_OP_LNORM => 0x5 | LGNPU_OP_POOL => 0x6
  end.

Definition LGNPU_ACT_NONE : Z := 0.
Definition LGNPU_ACT_RELU : Z := 1.
Definition LGNPU_ACT_LEAKY_RELU : Z := 2.

Definition LGNPU_VEC_ADD : Z := 0.
Definition LGNPU_VEC_MUL : Z := 1.

Definition LGNPU_POOL_MAX : Z := 0.
Definition LGNPU_POOL_AVG : Z := 1.

(** [LGNPU_CMD_ENTRY_BYTES / sizeof(uint32_t)] *)
Definition LGNPU_CMD_WORDS : Z := LGNPU_CMD_ENTRY_BYTES / 4.

Record npu_cmd_desc := mk_desc { words : list Z }.

(** A C object of type [struct npu_cmd_desc]: sixteen 32-bit words. *)
Definition desc_wf (d : npu_cmd_desc) : Prop :=
  Z.of_nat (length (words d)) = LGNPU_CMD_WORDS /\ Forall (fits 32) (words d).

Record npu_conv_params := mk_conv {
  cv_act_in_addr : Z; cv_act_out_addr : Z; cv_weight_addr : Z; cv_bias_addr : Z;
  cv_in_h : Z; cv_in_w : Z; cv_in_c : Z; cv_out_k : Z;
  cv_filt_r : Z; cv_filt_s : Z; cv_stride_h : Z; cv_stride_w : Z;
  cv_pad_h : Z; cv_pad_w : Z; cv_out_h : Z; cv_out_w : Z;
  cv_quant_shift : Z; cv_act_mode : Z }.

Record npu_gemm_params := mk_gemm {
  gm_a_addr : Z; gm_c_addr : Z; gm_b_addr : Z; gm_bias_addr : Z;
  gm_M : Z; gm_N : Z; gm_K : Z; gm_quant_shift : Z; gm_act_mode : Z }.

Record npu_softmax_params := mk_softmax {
  sm_in_addr : Z; sm_out_addr : Z; sm_num_rows : Z; sm_row_len : Z }.

Record npu_vec_params := mk_vec {
  vc_a_addr : Z; vc_out_addr : Z; vc_b_addr : Z; vc_length : Z;
  vc_vec_op : Z; vc_quant_shift : Z; vc_act_mode : Z }.

Record npu_lnorm_params := mk_lnorm {
  ln_in_addr : Z; ln_out_addr : Z; ln_num_rows : Z; ln_row_len : Z;
  ln_norm_shift : Z }.

Record npu_pool_params := mk_pool {
  pl_in_addr : Z; pl_out_addr : Z; pl_in_h : Z; pl_in_w : Z; pl_in_c : Z;
  pl_pool_r : Z; pl_pool_s : Z; pl_stride_h : Z; pl_stride_w : Z;
  pl_pad_h : Z; pl_pad_w : Z; pl_out_h : Z; pl_out_w : Z; pl_pool_mode : Z }.

(** The field types of the structs: [uint16_t] unless [uint8_t]. *)
Definition conv_wf (p : npu_conv_params) : Prop :=
  Forall (fits 16) [cv_act_in_addr p; cv_act_out_addr p; cv_weight_addr p; cv_bias_addr p;
    cv_in_h p; cv_in_w p; cv_in_c p; cv_out_k p; cv_filt_r p; cv_filt_s p;
    cv_stride_h p; cv_stride_w p; cv_pad_h p; cv_pad_w p; cv_out_h p; cv_out_w p] /\
  Forall (fits 8) [cv_quant_shift p; cv_act_mode p].

Definition gemm_wf (p : npu_gemm_params) : Prop :=
  Forall (fits 16) [gm_a_addr p; gm_c_addr p; gm_b_addr p; gm_bias_addr p;
    gm_M p; gm_N p; gm_K p] /\
  Forall (fits 8) [gm_quant_shift p; gm_act_mode p].

Definition softmax_wf (p : npu_softmax_params) : Prop :=
  Forall (fits 16) [sm_in_addr p; sm_out_addr p; sm_num_rows p; sm_row_len p].

Definition vec_wf (p : npu_vec_params) : Prop :=
  Forall (fits 16) [vc_a_addr p; vc_out_addr p; vc_b_addr p; vc_length p] /\
  Forall (fits 8) [vc_vec_op p; vc_quant_shift p; vc_act_mode p].

Definition lnorm_wf (p : npu_lnorm_params) : Prop :=
  Forall (fits 16) [ln_in_addr p; ln_out_addr p; ln_num_rows p; ln_row_len p] /\
  fits 8 (ln_norm_shift p).

Definition pool_wf (p : npu_pool_params) : Prop :=
  Forall (fits 16) [pl_in_addr p; pl_out_addr p; pl_in_h p; pl_in_w p; pl_in_c p;
    pl_pool_r p; pl_pool_s p; pl_stride_h p; pl_stride_w p;
    pl_pad_h p; pl_pad_w p; pl_out_h p; pl_out_w p] /\
  fits 8 (pl_pool_mode p).

(** ** Helpers *)

(** [desc->words[i] = v] *)
Definition set_word (i : nat) (v : Z) (d : npu_cmd_desc) : npu_cmd_desc :=
  mk_desc (<[i := v]> (words d)).

(** [memset(desc, 0, sizeof( *desc ))] *)
Definition cmd_clear (d : npu_cmd_desc) : npu_cmd_desc :=
  mk_desc (replicate (Z.to_nat LGNPU_CMD_WORDS) 0).

(** Arguments are [uint16_t]; the arithmetic is [uint32_t] with wrap-around. *)
Definition derive_out_dim (in_dim pad filt stride provided : Z) : Z :=
  if negb (provided =? 0) then provided
  else if stride =? 0 then 0
  else u16 (u32 (u32 (u32 (in_dim + u32 (2 * pad)) - filt) / stride + 1)).

(** [(quant_shift & 0x1FU) | (((uint32_t)act_mode & 0x3U) << 5)] *)
Definition shift_act_word (quant_shift act_mode : Z) : Z :=
  (quant_shift & 0x1F) .| ((act_mode & 0x3) ≪ 5).

(** [(uint32_t)lo | ((uint32_t)hi << 16)] *)
Definition pad_out_word (pad out : Z) : Z := pad .| u32 (out ≪ 16).

(** ** Builders *)

Definition npu_cmd_build_conv (desc : option npu_cmd_desc) (p : option npu_conv_params)
    : Z * option npu_cmd_desc :=
  match desc, p with
  | Some d, Some p =>
      let d := cmd_clear d in
      let out_h := derive_out_dim (cv_in_h p) (cv_pad_h p) (cv_filt_r p) (cv_stride_h p) (cv_out_h p) in
      let out_w := derive_out_dim (cv_in_w p) (cv_pad_w p) (cv_filt_s p) (cv_stride_w p) (cv_out_w p) in
      let d := set_word 0 (opcode_val LGNPU_OP_CONV) d in
      let d := set_word 1 (cv_act_in_addr p) d in
      let d := set_word 2 (cv_act_out_addr p) d in
      let d := set_word 3 (cv_weight_addr p) d in
      let d := set_word 4 (cv_bias_addr p) d in
      let d := set_word 5 (cv_in_h p) d in
      let d := set_word 6 (cv_in_w p) d in
      let d := set_word 7 (cv_in_c p) d in
      let d := set_word 8 (cv_out_k p) d in
      let d := set_word 9 (cv_filt_r p) d in
      let d := set_word 10 (cv_filt_s p) d in
      let d := set_word 11 (cv_stride_h p) d in
      let d := set_word 12 (cv_stride_w p) d in
      let d := set_word 13 (pad_out_word (cv_pad_h p) out_h) d in
      let d := set_word 14 (pad_out_word (cv_pad_w p) out_w) d in
      let d := set_word 15 (shift_act_word (cv_quant_shift p) (cv_act_mode p)) d in
      (0, Some d)
  | _, _ => (-1, desc)
  end.

Definition npu_cmd_build_gemm (desc : option npu_cmd_desc) (p : option npu_gemm_params)
    : Z * option npu_cmd_desc :=
  match desc, p with
  | Some d, Some p =>
      let d := cmd_clear d in
      let d := set_word 0 (opcode_val LGNPU_OP_GEMM) d in
      let d := set_word 1 (gm_a_addr p) d in
      let d := set_word 2 (gm_c_addr p) d in
      let d := set_word 3 (gm_b_addr p) d in
      let d := set_word 4 (gm_bias_addr p) d in
      let d := set_word 5 (gm_M p) d in
      let d := set_word 6 (gm_N p) d in
      let d := set_word 7 (gm_K p) d in
      let d := set_word 15 (shift_act_word (gm_quant_shift p) (gm_act_mode p)) d in
      (0, Some d)
  | _, _ => (-1, desc)
  end.

Definition npu_cmd_build_softmax (desc : option npu_cmd_desc) (p : option npu_softmax_params)
    : Z * option npu_cmd_desc :=
  match desc, p with
  | Some d, Some p =>
      let d := cmd_clear d in
      let d := set_word 0 (opcode_val LGNPU_OP_SOFTMAX) d in
      let d := set_word 1 (sm_in_addr p) d in
      let d := set_word 2 (sm_out_addr p) d in
      let d := set_word 5 (sm_num_rows p) d in
      let d := set_word 6 (sm_row_len p) d in
      (0, Some d)
  | _, _ => (-1, desc)
  end.

Definition npu_cmd_build_vec (desc : option npu_cmd_desc) (p : option npu_vec_params)
    : Z * option npu_cmd_desc :=
  match desc, p with
  | Some d, Some p =>
      let d := cmd_clear d in
      let d := set_word 0 (opcode_val LGNPU_OP_VEC) d in
      let d := set_word 1 (vc_a_addr p) d in
      let d := set_word 2 (vc_out_addr p) d in
      let d := set_word 3 (vc_b_addr p) d in
      let d := set_word 5 (vc_length p) d in
      let d := set_word 6 (vc_vec_op p) d in
      let d := set_word 15 (shift_act_word (vc_quant_shift p) (vc_act_mode p)) d in
      (0, Some d)
  | _, _ => (-1, desc)
  end.

Definition npu_cmd_build_lnorm (desc : option npu_cmd_desc) (p : option npu_lnorm_params)
    : Z * option npu_cmd_desc :=
  match desc, p with
  | Some d, Some p =>
      let d := cmd_clear d in
      let d := set_word 0 (opcode_val LGNPU_OP_LNORM) d in
      let d := set_word 1 (ln_in_addr p) d in
      let d := set_word 2 (ln_out_addr p) d in
      let d := set_word 5 (ln_num_rows p) d in
      let d := set_word 6 (ln_row_len p) d in
      let d := set_word 15 (ln_norm_shift p & 0x1F) d in
      (0, Some d)
  | _, _ => (-1, desc)
  end.

Definition npu_cmd_build_pool (desc : option npu_cmd_desc) (p : option npu_pool_params)
    : Z * option npu_cmd_desc :=
  match desc, p with
  | Some d, Some p =>
      let d := cmd_clear d in
      let out_h := derive_out_dim (pl_in_h p) (pl_pad_h p) (pl_pool_r p) (pl_stride_h p) (pl_out_h p) in
      let out_w := derive_out_dim (pl_in_w p) (pl_pad_w p) (pl_pool_s p) (pl_stride_w p) (pl_out_w p) in
      let d := set_word 0 (opcode_val LGNPU_OP_POOL) d in
      let d := set_word 1 (pl_in_addr p) d in
      let d := set_word 2 (pl_out_addr p) d in
      let d := set_word 5 (pl_in_h p) d in
      let d := set_word 6 (pl_in_w p) d in
      let d := set_word 7 (pl_in_c p) d in
      let d := set_word 9 (pl_pool_r p) d in
      let d := set_word 10 (pl_pool_s p) d in
      let d := set_word 11 (pl_stride_h p) d in
      let d := set_word 12 (pl_stride_w p) d in
      let d := set_word 13 (pad_out_word (pl_pad_h p) out_h) d in
      let d := set_word 14 (pad_out_word (pl_pad_w p) out_w) d in
      let d := set_word 15 (pl_pool_mode p & 0x1) d in
      (0, Some d)
  | _, _ => (-1, desc)
  end.

(** ** Output dimensions *)

Lemma derive_out_dim_provided in_dim pad filt stride provided :
  provided <> 0 -> derive_out_dim in_dim pad filt stride provided = provided.
Proof. intros. unfold derive_out_dim. by rewrite (proj2 (Z.eqb_neq _ _)). Qed.

Lemma derive_out_dim_fits in_dim pad filt stride provided :
  fits 16 provided -> fits 16 (derive_out_dim in_dim pad filt stride provided).
Proof.
  intros. unfold derive_out_dim. destruct (negb _); [done|].
  destruct (stride =? 0); [by apply fits_0|by apply fits_wrap].
Qed.

(** The filter fits: no 32-bit step wraps, only the final cast can. *)
Lemma derive_out_dim_small in_dim pad filt stride :
  fits 16 in_dim -> fits 16 pad -> fits 16 filt -> fits 16 stride -> 0 < stride ->
  filt <= in_dim + 2 * pad ->
  derive_out_dim in_dim pad filt stride 0 = u16 ((in_dim + 2 * pad - filt) / stride + 1).
Proof.
  intros ????? Hf. unfold derive_out_dim. simpl.
  rewrite (proj2 (Z.eqb_neq stride 0)) by lia. words.
  rewrite (wrap_small 32 (2 * pad)) by (words; lia).
  rewrite (wrap_small 32 (in_dim + 2 * pad)) by (words; lia).
  rewrite (wrap_small 32 (in_dim + 2 * pad - filt)) by (words; lia).
  assert (0 <= (in_dim + 2 * pad - filt) / stride <= in_dim + 2 * pad - filt).
  { split; [apply Z.div_pos; lia|]. apply Z.div_le_upper_bound; nia. }
  by rewrite (wrap_small 32 (_ + 1)) by (words; lia).
Qed.

(** The filter is larger than the padded input: the subtraction wraps. *)
Lemma derive_out_dim_wraps in_dim pad filt stride :
  fits 16 in_dim -> fits 16 pad -> fits 16 filt -> fits 16 stride -> 0 < stride ->
  in_dim + 2 * pad < filt ->
  derive_out_dim in_dim pad filt stride 0 =
    u16 (u32 ((2 ^ 32 - (filt - in_dim - 2 * pad)) / stride + 1)).
Proof.
  intros ????? Hf. unfold derive_out_dim. simpl.
  rewrite (proj2 (Z.eqb_neq stride 0)) by lia. words.
  rewrite (wrap_small 32 (2 * pad)) by (words; lia).
  rewrite (wrap_small 32 (in_dim + 2 * pad)) by (words; lia).
  replace (u32 (in_dim + 2 * pad - filt)) with (2 ^ 32 - (filt - in_dim - 2 * pad)); [done|].
  unfold wrap. rewrite <- (Z.mod_small (2 ^ 32 - _) (2 ^ 32)) by lia.
  rewrite <- (Z.mod_add (in_dim + 2 * pad - filt) 1 (2 ^ 32)) by lia. f_equal. lia.
Qed.

(** ** What the builders leave in the descriptor *)

Lemma shift_act_word_fits qs am : fits 7 (shift_act_word qs am).
Proof.
  unfold shift_act_word. apply fits_lor; [lia|..].
  - apply (fits_mono 5); [lia|]. apply fits_land_r; by vm_compute.
  - apply (fits_shiftl 2 5); [lia..|]. apply fits_land_r; by vm_compute.
Qed.

Lemma pad_out_word_fits pad out : fits 16 pad -> fits 32 (pad_out_word pad out).
Proof.
  intros. apply fits_lor; [lia| |by apply fits_wrap]. by apply (fits_mono 16).
Qed.

Lemma pad_out_word_low pad out :
  fits 16 pad -> fits 16 out -> u16 (pad_out_word pad out) = pad.
Proof.
  intros. unfold pad_out_word. rewrite (wrap_small 32) by by apply (fits_shiftl 16 16).
  by apply pack_low.
Qed.

Lemma pad_out_word_high pad out :
  fits 16 pad -> fits 16 out -> slice 16 16 (pad_out_word pad out) = out.
Proof.
  intros. unfold pad_out_word. rewrite (wrap_small 32) by by apply (fits_shiftl 16 16).
  by apply pack_slice.
Qed.

Lemma land_1F a : a & 0x1F = wrap 5 a.
Proof. by apply (land_mask 5). Qed.
Lemma land_3 a : a & 0x3 = wrap 2 a.
Proof. by apply (land_mask 2). Qed.
Lemma land_1 a : a & 0x1 = wrap 1 a.
Proof. by apply (land_mask 1). Qed.

Lemma shift_act_word_low qs am : wrap 5 (shift_act_word qs am) = wrap 5 qs.
Proof.
  unfold shift_act_word. rewrite land_1F, land_3. apply pack_low; [lia|by apply fits_wrap].
Qed.

Lemma shift_act_word_high qs am : slice 5 2 (shift_act_word qs am) = wrap 2 am.
Proof.
  unfold shift_act_word. rewrite land_1F, land_3. apply pack_slice; [lia|by apply fits_wrap..].
Qed.

(** ** Properties of the output dimensions *)

(** When the window fits in the padded input and the result fits 16 bits,
    the derived output dimension is the number of window positions: position
    [o] is counted exactly if the window starting at [o * stride] ends inside
    the padded input. *)
Theorem derive_out_dim_counts in_dim pad filt stride :
  fits 16 in_dim -> fits 16 pad -> fits 16 filt -> fits 16 stride -> 0 < stride ->
  filt <= in_dim + 2 * pad -> (in_dim + 2 * pad - filt) / stride + 1 < 2 ^ 16 ->
  forall o, 0 <= o ->
    (o < derive_out_dim in_dim pad filt stride 0 <-> o * stride + filt <= in_dim + 2 * pad).
Proof.
  intros Hi Hp Hf Hs Hpos Hfit Hb o Ho. rewrite derive_out_dim_small by done.
  assert (0 <= (in_dim + 2 * pad - filt) / stride) by (apply Z.div_pos; lia).
  rewrite wrap_small by (unfold fits; lia). split; intros H1.
  - assert (o <= (in_dim + 2 * pad - filt) / stride) as H2 by lia.
    pose proof (Z.mul_div_le (in_dim + 2 * pad - filt) stride Hpos). nia.
  - enough (o <= (in_dim + 2 * pad - filt) / stride) by lia.
    apply Z.div_le_lower_bound; lia.
Qed.

Lemma derive_out_dim_counts_witness :
  27 < derive_out_dim 28 1 3 1 0 <-> 27 * 1 + 3 <= 28 + 2 * 1.
Proof. apply (derive_out_dim_counts 28 1 3 1); by vm_compute. Defined.

(** A window larger than the padded input is not rejected: with stride 1 the
    32-bit subtraction wraps, and a window that is [k + 2] elements too large
    is given an output dimension of [65535 - k]. *)
Theorem derive_out_dim_oversized in_dim pad filt k :
  fits 16 in_dim -> fits 16 pad -> fits 16 filt -> 0 <= k ->
  filt = in_dim + 2 * pad + 2 + k ->
  derive_out_dim in_dim pad filt 1 0 = 65535 - k.
Proof.
  intros Hi Hp Hf Hk ->. rewrite derive_out_dim_wraps by (done || lia).
  rewrite Z.div_1_r, (wrap_small 32) by (words; lia). words.
  unfold wrap. symmetry. apply (Z.mod_unique _ _ 65535); lia.
Qed.

Lemma derive_out_dim_oversized_witness : derive_out_dim 3 0 5 1 0 = 65535.
Proof. apply (derive_out_dim_oversized 3 0 5 0); by vm_compute. Defined.

(** With a NULL descriptor or NULL parameters every builder returns -1 and
    writes nothing. *)
Theorem builders_null :
  (forall d p, npu_cmd_build_conv None p = (-1, None) /\ npu_cmd_build_conv d None = (-1, d)) /\
  (forall d p, npu_cmd_build_gemm None p = (-1, None) /\ npu_cmd_build_gemm d None = (-1, d)) /\
  (forall d p, npu_cmd_build_softmax None p = (-1, None) /\ npu_cmd_build_softmax d None = (-1, d)) /\
  (forall d p, npu_cmd_build_vec None p = (-1, None) /\ npu_cmd_build_vec d None = (-1, d)) /\
  (forall d p, npu_cmd_build_lnorm None p = (-1, None) /\ npu_cmd_build_lnorm d None = (-1, d)) /\
  (forall d p, npu_cmd_build_pool None p = (-1, None) /\ npu_cmd_build_pool d None = (-1, d)).
Proof. split_and!; intros [] p; done. Qed.
