(* ===== verification/Decode.v ===== *)
(** * The hardware side of the descriptor

    Models the combinational part of [rtl/control/npu_cmd_decode.sv] (the
    [S_CHECK] state), the packed structs and field views of
    [include/pkg/npu_cmd_pkg.sv] and the routing of [rtl/core/npu_dispatch.sv],
    and proves that the builders of [Command] are inverted by them. *)

From S2P Require Import Prelude Regs Command.

Open Scope Z_scope.

(** ** The shared command type and its views *)

Record conv_cmd_t := mk_conv_cmd {
  c_opcode : Z; c_act_in_addr : Z; c_act_out_addr : Z; c_weight_addr : Z; c_bias_addr : Z;
  c_in_h : Z; c_in_w : Z; c_in_c : Z; c_out_k : Z; c_filt_r : Z; c_filt_s : Z;
  c_stride_h : Z; c_stride_w : Z; c_pad_h : Z; c_pad_w : Z; c_out_h : Z; c_out_w : Z;
  c_quant_shift : Z; c_act_mode : Z }.

Record gemm_cmd_t := mk_gemm_cmd {
  g_a_addr : Z; g_c_addr : Z; g_b_addr : Z; g_bias_addr : Z;
  g_m_dim : Z; g_n_dim : Z; g_k_dim : Z; g_quant_shift : Z; g_act_mode : Z }.

Record softmax_cmd_t := mk_softmax_cmd {
  s_in_addr : Z; s_out_addr : Z; s_num_rows : Z; s_row_len : Z }.

Record vec_cmd_t := mk_vec_cmd {
  v_a_addr : Z; v_out_addr : Z; v_b_addr : Z; v_length : Z; v_vec_op : Z;
  v_quant_shift : Z; v_act_mode : Z }.

Record lnorm_cmd_t := mk_lnorm_cmd {
  l_in_addr : Z; l_out_addr : Z; l_num_rows : Z; l_row_len : Z; l_norm_shift : Z }.

Record pool_cmd_t := mk_pool_cmd {
  p_in_addr : Z; p_out_addr : Z; p_in_h : Z; p_in_w : Z; p_in_c : Z;
  p_pool_r : Z; p_pool_s : Z; p_stride_h : Z; p_stride_w : Z;
  p_pad_h : Z; p_pad_w : Z; p_out_h : Z; p_out_w : Z; p_pool_mode : Z }.

Definition conv_to_gemm_cmd (c : conv_cmd_t) : gemm_cmd_t :=
  mk_gemm_cmd (c_act_in_addr c) (c_act_out_addr c) (c_weight_addr c) (c_bias_addr c)
    (c_in_h c) (c_in_w c) (c_in_c c) (c_quant_shift c) (c_act_mode c).

Definition conv_to_softmax_cmd (c : conv_cmd_t) : softmax_cmd_t :=
  mk_softmax_cmd (c_act_in_addr c) (c_act_out_addr c) (c_in_h c) (c_in_w c).

(** [vec_op = cmd.in_w[0]] *)
Definition conv_to_vec_cmd (c : conv_cmd_t) : vec_cmd_t :=
  mk_vec_cmd (c_act_in_addr c) (c_act_out_addr c) (c_weight_addr c) (c_in_h c)
    (wrap 1 (c_in_w c)) (c_quant_shift c) (c_act_mode c).

Definition conv_to_lnorm_cmd (c : conv_cmd_t) : lnorm_cmd_t :=
  mk_lnorm_cmd (c_act_in_addr c) (c_act_out_addr c) (c_in_h c) (c_in_w c) (c_quant_shift c).

(** [pool_mode = cmd.quant_shift[0]] *)
Definition conv_to_pool_cmd (c : conv_cmd_t) : pool_cmd_t :=
  mk_pool_cmd (c_act_in_addr c) (c_act_out_addr c) (c_in_h c) (c_in_w c) (c_in_c c)
    (c_filt_r c) (c_filt_s c) (c_stride_h c) (c_stride_w c) (c_pad_h c) (c_pad_w c)
    (c_out_h c) (c_out_w c) (wrap 1 (c_quant_shift c)).

(** ** Decoding *)

(** [desc_regs[i]] of a 16-entry register array. *)
Definition dw (regs : list Z) (i : nat) : Z := default 0 (regs !! i).

(** The opcodes the decoder accepts; any other raises [decode_err]. *)
Definition opcode_known (o : Z) : bool :=
  bool_decide (o ∈ opcode_val <$> [LGNPU_OP_CONV; LGNPU_OP_GEMM; LGNPU_OP_SOFTMAX;
                                   LGNPU_OP_VEC; LGNPU_OP_LNORM; LGNPU_OP_POOL]).

Definition decode_fields (regs : list Z) : conv_cmd_t :=
  mk_conv_cmd (wrap 4 (dw regs 0)) (u16 (dw regs 1)) (u16 (dw regs 2)) (u16 (dw regs 3))
    (u16 (dw regs 4)) (u16 (dw regs 5)) (u16 (dw regs 6)) (u16 (dw regs 7)) (u16 (dw regs 8))
    (u16 (dw regs 9)) (u16 (dw regs 10)) (u16 (dw regs 11)) (u16 (dw regs 12))
    (u16 (dw regs 13)) (u16 (dw regs 14)) (slice 16 16 (dw regs 13)) (slice 16 16 (dw regs 14))
    (wrap 5 (dw regs 15)) (slice 5 2 (dw regs 15)).

(** [None] is [decode_err]. *)
Definition npu_cmd_decode (regs : list Z) : option conv_cmd_t :=
  let c := decode_fields regs in
  if opcode_known (c_opcode c) then Some c else None.

(** The command a backend receives. *)
Inductive hw_cmd :=
| HwGemm (c : gemm_cmd_t) | HwSoftmax (c : softmax_cmd_t) | HwVec (c : vec_cmd_t)
| HwLnorm (c : lnorm_cmd_t) | HwPool (c : pool_cmd_t) | HwConv (c : conv_cmd_t).

Definition npu_dispatch (c : conv_cmd_t) : hw_cmd :=
  if c_opcode c =? opcode_val LGNPU_OP_GEMM then HwGemm (conv_to_gemm_cmd c)
  else if c_opcode c =? opcode_val LGNPU_OP_SOFTMAX then HwSoftmax (conv_to_softmax_cmd c)
  else if c_opcode c =? opcode_val LGNPU_OP_VEC then HwVec (conv_to_vec_cmd c)
  else if c_opcode c =? opcode_val LGNPU_OP_LNORM then HwLnorm (conv_to_lnorm_cmd c)
  else if c_opcode c =? opcode_val LGNPU_OP_POOL then HwPool (conv_to_pool_cmd c)
  else HwConv c.

(** What the hardware executes for a descriptor. *)
Definition hw_execute (d : npu_cmd_desc) : option hw_cmd := npu_dispatch <$> npu_cmd_decode (words d).

(** ** One builder call, whatever the opcode

    [npu_params] gathers the six parameter structs, so that what holds of every
    builder is stated once. *)

Inductive npu_params :=
| PConv (p : npu_conv_params) | PGemm (p : npu_gemm_params)
| PSoftmax (p : npu_softmax_params) | PVec (p : npu_vec_params)
| PLnorm (p : npu_lnorm_params) | PPool (p : npu_pool_params).

Definition params_wf (p : npu_params) : Prop :=
  match p with
  | PConv p => conv_wf p | PGemm p => gemm_wf p | PSoftmax p => softmax_wf p
  | PVec p => vec_wf p | PLnorm p => lnorm_wf p | PPool p => pool_wf p
  end.

Definition build_cmd (desc : option npu_cmd_desc) (p : npu_params) : Z * option npu_cmd_desc :=
  match p with
  | PConv p => npu_cmd_build_conv desc (Some p)
  | PGemm p => npu_cmd_build_gemm desc (Some p)
  | PSoftmax p => npu_cmd_build_softmax desc (Some p)
  | PVec p => npu_cmd_build_vec desc (Some p)
  | PLnorm p => npu_cmd_build_lnorm desc (Some p)
  | PPool p => npu_cmd_build_pool desc (Some p)
  end.

(** The backend command a caller asks for: every field as given, except the
    documented masks (5-bit shift, 2-bit activation, 1-bit selectors) and the
    output dimensions, which default to the derived ones. *)
Definition requested (p : npu_params) : hw_cmd :=
  match p with
  | PConv p => HwConv (mk_conv_cmd (opcode_val LGNPU_OP_CONV)
      (cv_act_in_addr p) (cv_act_out_addr p) (cv_weight_addr p) (cv_bias_addr p)
      (cv_in_h p) (cv_in_w p) (cv_in_c p) (cv_out_k p) (cv_filt_r p) (cv_filt_s p)
      (cv_stride_h p) (cv_stride_w p) (cv_pad_h p) (cv_pad_w p)
      (derive_out_dim (cv_in_h p) (cv_pad_h p) (cv_filt_r p) (cv_stride_h p) (cv_out_h p))
      (derive_out_dim (cv_in_w p) (cv_pad_w p) (cv_filt_s p) (cv_stride_w p) (cv_out_w p))
      (wrap 5 (cv_quant_shift p)) (wrap 2 (cv_act_mode p)))
  | PGemm p => HwGemm (mk_gemm_cmd (gm_a_addr p) (gm_c_addr p) (gm_b_addr p) (gm_bias_addr p)
      (gm_M p) (gm_N p) (gm_K p) (wrap 5 (gm_quant_shift p)) (wrap 2 (gm_act_mode p)))
  | PSoftmax p => HwSoftmax (mk_softmax_cmd (sm_in_addr p) (sm_out_addr p)
      (sm_num_rows p) (sm_row_len p))
  | PVec p => HwVec (mk_vec_cmd (vc_a_addr p) (vc_out_addr p) (vc_b_addr p) (vc_length p)
      (wrap 1 (vc_vec_op p)) (wrap 5 (vc_quant_shift p)) (wrap 2 (vc_act_mode p)))
  | PLnorm p => HwLnorm (mk_lnorm_cmd (ln_in_addr p) (ln_out_addr p)
      (ln_num_rows p) (ln_row_len p) (wrap 5 (ln_norm_shift p)))
  | PPool p => HwPool (mk_pool_cmd (pl_in_addr p) (pl_out_addr p)
      (pl_in_h p) (pl_in_w p) (pl_in_c p) (pl_pool_r p) (pl_pool_s p)
      (pl_stride_h p) (pl_stride_w p) (pl_pad_h p) (pl_pad_w p)
      (derive_out_dim (pl_in_h p) (pl_pad_h p) (pl_pool_r p) (pl_stride_h p) (pl_out_h p))
      (derive_out_dim (pl_in_w p) (pl_pad_w p) (pl_pool_s p) (pl_stride_w p) (pl_out_w p))
      (wrap 1 (pl_pool_mode p)))
  end.

(** Words the command format reserves ("must be zero") for each opcode. *)
Definition reserved_words (p : npu_params) : list nat :=
  match p with
  | PConv _ => []
  | PGemm _ => seq 8 7
  | PSoftmax _ => [3; 4]%nat ++ seq 7 9
  | PVec _ => 4%nat :: seq 7 8
  | PLnorm _ => [3; 4]%nat ++ seq 7 8
  | PPool _ => [3; 4; 8]%nat
  end.

(** The descriptor a builder leaves does not depend on what it held. *)
Lemma build_cmd_total d p : exists d', build_cmd (Some d) p = (0, Some d').
Proof. destruct p; eexists; reflexivity. Qed.

Lemma cmd_clear_words d : words (cmd_clear d) = replicate 16 0.
Proof. done. Qed.

(** Bring a hypothesis [..._wf p] down to one [fits] per field. *)
Ltac field_bounds :=
  repeat match goal with
  | H : _ /\ _ |- _ => destruct H
  | H : Forall _ (_ :: _) |- _ => apply Forall_cons_1 in H
  | H : Forall _ [] |- _ => clear H
  end.

Lemma wrap_opcode o : wrap 4 (opcode_val o) = opcode_val o.
Proof. by destruct o. Qed.

Lemma opcode_known_val o : opcode_known (opcode_val o) = true.
Proof. by destruct o. Qed.

Lemma u16_id z : fits 16 z -> u16 z = z.
Proof. apply wrap_small. Qed.

Create Rewrite HintDb descr.
#[export] Hint Rewrite shift_act_word_low shift_act_word_high wrap_opcode opcode_known_val land_1F land_1 : descr.
#[export] Hint Rewrite pad_out_word_low pad_out_word_high u16_id
  using (first [done | by apply derive_out_dim_fits]) : descr.

Lemma fits_8_16 z : fits 8 z -> fits 16 z.
Proof. by apply fits_mono. Qed.

(** The descriptor word by word: the tables of docs/spec/command_format.md. *)
Definition desc_layout (p : npu_params) : list Z :=
  match p with
  | PConv p => [opcode_val LGNPU_OP_CONV; cv_act_in_addr p; cv_act_out_addr p; cv_weight_addr p; cv_bias_addr p;
      cv_in_h p; cv_in_w p; cv_in_c p; cv_out_k p; cv_filt_r p; cv_filt_s p;
      cv_stride_h p; cv_stride_w p;
      pad_out_word (cv_pad_h p)
        (derive_out_dim (cv_in_h p) (cv_pad_h p) (cv_filt_r p) (cv_stride_h p) (cv_out_h p));
      pad_out_word (cv_pad_w p)
        (derive_out_dim (cv_in_w p) (cv_pad_w p) (cv_filt_s p) (cv_stride_w p) (cv_out_w p));
      shift_act_word (cv_quant_shift p) (cv_act_mode p)]
  | PGemm p => [opcode_val LGNPU_OP_GEMM; gm_a_addr p; gm_c_addr p; gm_b_addr p; gm_bias_addr p; gm_M p; gm_N p; gm_K p;
      0; 0; 0; 0; 0; 0; 0; shift_act_word (gm_quant_shift p) (gm_act_mode p)]
  | PSoftmax p => [opcode_val LGNPU_OP_SOFTMAX; sm_in_addr p; sm_out_addr p; 0; 0; sm_num_rows p; sm_row_len p;
      0; 0; 0; 0; 0; 0; 0; 0; 0]
  | PVec p => [opcode_val LGNPU_OP_VEC; vc_a_addr p; vc_out_addr p; vc_b_addr p; 0; vc_length p; vc_vec_op p;
      0; 0; 0; 0; 0; 0; 0; 0; shift_act_word (vc_quant_shift p) (vc_act_mode p)]
  | PLnorm p => [opcode_val LGNPU_OP_LNORM; ln_in_addr p; ln_out_addr p; 0; 0; ln_num_rows p; ln_row_len p;
      0; 0; 0; 0; 0; 0; 0; 0; Z.land (ln_norm_shift p) 0x1F]
  | PPool p => [opcode_val LGNPU_OP_POOL; pl_in_addr p; pl_out_addr p; 0; 0; pl_in_h p; pl_in_w p; pl_in_c p; 0;
      pl_pool_r p; pl_pool_s p; pl_stride_h p; pl_stride_w p;
      pad_out_word (pl_pad_h p)
        (derive_out_dim (pl_in_h p) (pl_pad_h p) (pl_pool_r p) (pl_stride_h p) (pl_out_h p));
      pad_out_word (pl_pad_w p)
        (derive_out_dim (pl_in_w p) (pl_pad_w p) (pl_pool_s p) (pl_stride_w p) (pl_out_w p));
      Z.land (pl_pool_mode p) 0x1]
  end.

Lemma build_cmd_layout d p : build_cmd (Some d) p = (0, Some (mk_desc (desc_layout p))).
Proof. by destruct p. Qed.

Lemma desc_layout_fits p : params_wf p -> Forall (fits 32) (desc_layout p).
Proof.
  assert (H16 : forall z, fits 16 z -> fits 32 z) by (intros; by apply (fits_mono 16)).
  assert (Hsa : forall a b, fits 32 (shift_act_word a b)).
  { intros. eapply fits_mono; [|apply shift_act_word_fits]. done. }
  intros Hwf. destruct p as [p|p|p|p|p|p]; destruct p; simpl in *;
    cbv [conv_wf gemm_wf softmax_wf vec_wf lnorm_wf pool_wf] in Hwf; cbn in Hwf; field_bounds;
    repeat apply Forall_cons_2; try apply Forall_nil_2; try done;
    eauto using fits_8_16, pad_out_word_fits;
    by apply fits_land_r.
Qed.

Lemma length_desc_layout p : length (desc_layout p) = 16%nat.
Proof. by destruct p. Qed.

Lemma decode_layout p :
  params_wf p -> npu_dispatch <$> npu_cmd_decode (desc_layout p) = Some (requested p).
Proof.
  intros Hwf. unfold npu_cmd_decode.
  destruct p as [p|p|p|p|p|p]; destruct p; simpl in Hwf;
    cbv [conv_wf gemm_wf softmax_wf vec_wf lnorm_wf pool_wf] in Hwf; cbn in Hwf; field_bounds;
    cbv [requested desc_layout decode_fields dw];
    cbn -[derive_out_dim wrap slice pad_out_word shift_act_word opcode_known opcode_val];
    autorewrite with descr; cbv [npu_dispatch conv_to_gemm_cmd conv_to_softmax_cmd conv_to_vec_cmd
      conv_to_lnorm_cmd conv_to_pool_cmd];
    cbn -[derive_out_dim wrap slice pad_out_word shift_act_word];
    autorewrite with descr; rewrite ?wrap_wrap_le by lia; done.
Qed.

(** ** Properties of the builders *)

(** C1. Building a descriptor from well-typed parameters and handing it to the
    hardware decoder gives back exactly the requested command: every builder
    returns 0, leaves a well-formed 16-word descriptor, and the decoder and
    dispatcher accept it and route every field to the right backend. *)
Theorem builders_roundtrip p d :
  params_wf p ->
  exists d', build_cmd (Some d) p = (0, Some d') /\ desc_wf d' /\
             hw_execute d' = Some (requested p).
Proof.
  intros Hwf. exists (mk_desc (desc_layout p)). split_and!.
  - apply build_cmd_layout.
  - split; [by destruct p|by apply desc_layout_fits].
  - by apply decode_layout.
Qed.

Definition ex_conv : npu_conv_params :=
  mk_conv 0x1000 0x2000 0x3000 0x4000 28 28 3 16 3 3 1 1 1 1 0 0 7 1.

Lemma builders_roundtrip_witness :
  params_wf (PConv ex_conv) /\
  exists d', build_cmd (Some (mk_desc (replicate 16 0xFFFFFFFF))) (PConv ex_conv) = (0, Some d') /\
    desc_wf d' /\ hw_execute d' = Some (requested (PConv ex_conv)).
Proof.
  assert (H : params_wf (PConv ex_conv)).
  { split; apply (bool_decide_unpack _); by vm_compute. }
  split; [exact H|]. apply (builders_roundtrip (PConv ex_conv)). exact H.
Defined.

(** A builder erases whatever the descriptor held: the result depends on the
    parameters only, word 0 is the opcode, and every word that the command
    format reserves for the opcode is zero. *)
Theorem builders_clear_reserved p d1 d2 d' :
  build_cmd (Some d1) p = (0, Some d') ->
  build_cmd (Some d2) p = (0, Some d') /\
  (forall i, i ∈ reserved_words p -> words d' !! i = Some 0) /\
  exists o, words d' !! 0%nat = Some (opcode_val o).
Proof.
  rewrite !build_cmd_layout. intros [= <-]. split_and!; [done| |].
  - intros i Hi. destruct p; simpl in Hi |- *; by repeat (apply elem_of_cons in Hi as [->|Hi]; [done|]); apply elem_of_nil in Hi.
  - destruct p; by eexists.
Qed.

Lemma builders_clear_reserved_witness :
  exists d', build_cmd (Some (mk_desc [])) (PGemm (mk_gemm 1 2 3 4 5 6 7 8 9)) = (0, Some d') /\
    words d' !! 9%nat = Some 0.
Proof.
  eexists. split; [reflexivity|].
  apply (builders_clear_reserved (PGemm (mk_gemm 1 2 3 4 5 6 7 8 9)) (mk_desc []) (mk_desc [])
           _ eq_refl).
  by apply (bool_decide_unpack _); vm_compute.
Defined.

(** The vec sub-operation is written unmasked but the hardware looks at its
    lowest bit only: an even non-zero [vec_op], which the command format
    documents as MUL, is executed as ADD. *)
Theorem vec_even_op_runs_add p d d' :
  vec_wf p -> vc_vec_op p <> LGNPU_VEC_ADD -> Z.even (vc_vec_op p) = true ->
  npu_cmd_build_vec (Some d) (Some p) = (0, Some d') ->
  exists c, hw_execute d' = Some (HwVec c) /\ v_vec_op c = LGNPU_VEC_ADD /\
            words d' !! 6%nat = Some (vc_vec_op p).
Proof.
  intros Hwf _ Heven Hb.
  change (build_cmd (Some d) (PVec p) = (0, Some d')) in Hb.
  rewrite build_cmd_layout in Hb. injection Hb as <-. eexists. split_and!.
  - exact (decode_layout (PVec p) Hwf).
  - simpl. unfold wrap. change (2 ^ 1) with 2. by rewrite Zmod_even, Heven.
  - done.
Qed.

Lemma vec_even_op_runs_add_witness :
  exists c d', hw_execute d' = Some (HwVec c) /\ v_vec_op c = LGNPU_VEC_ADD /\
    words d' !! 6%nat = Some 2.
Proof.
  destruct (vec_even_op_runs_add (mk_vec 0 64 0 16 2 0 0) (mk_desc []) _ ltac:(split; apply (bool_decide_unpack _); by vm_compute) ltac:(done) eq_refl eq_refl) as (c & H).
  eauto.
Defined.
