(* ===== verification/Tensor.v ===== *)
(** * Tensor descriptors and layout conversion

    Models [sw/uapi/lgnpu_tensor.h] and [sw/runtime/tensor_desc.c]: the
    descriptor, its validation, the NHWC addressing function and the
    NCHW-to-NHWC conversion. [size_t] is 64 bits wide (LP64); [int] is 32 bits
    and its overflow is undefined behaviour, as are accesses outside a buffer.
    A buffer is the list of its [int8_t] elements. *)

From S2P Require Import Prelude.

Open Scope Z_scope.

(** ** Data *)

Inductive npu_tensor_err :=
| LGNPU_TENSOR_OK | LGNPU_TENSOR_ERR_NULL_PTR | LGNPU_TENSOR_ERR_ZERO_DIM
| LGNPU_TENSOR_ERR_BATCH_UNSUP | LGNPU_TENSOR_ERR_LAYOUT_UNKNOWN
| LGNPU_TENSOR_ERR_OVERFLOW | LGNPU_TENSOR_ERR_BUF_TOO_SMALL.

#[export] Instance npu_tensor_err_eq_dec : EqDecision npu_tensor_err.
Proof. solve_decision. Defined.

Definition LGNPU_LAYOUT_NHWC : Z := 0.
Definition LGNPU_LAYOUT_NCHW : Z := 1.
Definition LGNPU_LAYOUT_COUNT : Z := 2.

Record npu_tensor_desc := mk_tensor {
  base_addr : Z; dim_n : Z; dim_h : Z; dim_w : Z; dim_c : Z; layout : Z; dtype : Z }.

(** Field types; [layout] is an enum object, which can hold any 32-bit value. *)
Definition tensor_wf (d : npu_tensor_desc) : Prop :=
  fits 16 (base_addr d) /\ fits 16 (dim_n d) /\ fits 16 (dim_h d) /\ fits 16 (dim_w d) /\
  fits 16 (dim_c d) /\ fits 32 (layout d) /\ fits 32 (dtype d).

(** ** Validation *)

(** [__builtin_mul_overflow] into a [uint32_t]. *)
Definition mul_overflow_u32 (a b : Z) : bool * Z := (negb (a * b <? 2 ^ 32), u32 (a * b)).

Definition npu_tensor_validate (desc : option npu_tensor_desc) : npu_tensor_err :=
  match desc with
  | None => LGNPU_TENSOR_ERR_NULL_PTR
  | Some d =>
      if (dim_n d =? 0) || (dim_h d =? 0) || (dim_w d =? 0) || (dim_c d =? 0)
      then LGNPU_TENSOR_ERR_ZERO_DIM
      else if negb (dim_n d =? 1) then LGNPU_TENSOR_ERR_BATCH_UNSUP
      else if LGNPU_LAYOUT_COUNT <=? layout d then LGNPU_TENSOR_ERR_LAYOUT_UNKNOWN
      else
        let '(o1, hw) := mul_overflow_u32 (dim_h d) (dim_w d) in
        let '(o2, hwc) := mul_overflow_u32 hw (dim_c d) in
        if o1 || o2 then LGNPU_TENSOR_ERR_OVERFLOW else LGNPU_TENSOR_OK
  end.

(** ** Sizes and addresses, in [size_t] *)

Definition npu_tensor_element_count (d : npu_tensor_desc) : Z :=
  u64 (u64 (u64 (dim_n d * dim_h d) * dim_w d) * dim_c d).

Definition npu_tensor_byte_size (d : npu_tensor_desc) : Z := npu_tensor_element_count d.

Definition npu_tensor_nhwc_offset (d : npu_tensor_desc) (n h w c : Z) : Z :=
  u64 (base_addr d +
    u64 (u64 (u64 (u64 (u64 (n * dim_h d) + h) * dim_w d) + w) * dim_c d + c)).

Definition npu_tensor_is_canonical (l : Z) : bool := l =? LGNPU_LAYOUT_NHWC.

(** ** Conversion *)

(** The innermost loop body: [dh[w * C] = sh[w]], the product in [int]. *)
Definition nchw_body (src : list Z) (C sh dh w : Z) (dst : list Z) : res (list Z) :=
  i ← int_of (w * C);
  v ← load src (sh + w);
  store dst (dh + i) v.

Definition convert_nchw_to_nhwc (dst src : list Z) (N H W C : Z) : res (list Z) :=
  let HW := u64 (H * W) in
  let WC := u64 (W * C) in
  let HWC := u64 (HW * C) in
  for_up 16 N (fun n dst =>
    let dn := u64 (n * HWC) in
    let sn := u64 (n * HWC) in
    for_up 16 C (fun c dst =>
      let dc := dn + c in
      let sc := sn + u64 (c * HW) in
      for_up 16 H (fun h dst =>
        let sh := sc + u64 (h * W) in
        let dh := dc + u64 (h * WC) in
        for_up 16 W (fun w dst => nchw_body src C sh dh w dst) dst) dst) dst) dst.

(** [memmove(out, in, n)] *)
Definition memmove (out inp : list Z) (n : Z) : res (list Z) :=
  if decide (n <= Z.of_nat (length out) /\ n <= Z.of_nat (length inp))
  then Ok (take (Z.to_nat n) inp ++ drop (Z.to_nat n) out) else UB OutOfBounds.

(** The result code and the final contents of [dst]. *)
Definition npu_tensor_convert_to_nhwc (dst src : option (list Z))
    (desc : option npu_tensor_desc) (buf_bytes : Z) : res (npu_tensor_err * option (list Z)) :=
  match dst, src with
  | Some out, Some inp =>
      let err := npu_tensor_validate desc in
      if decide (err <> LGNPU_TENSOR_OK) then Ok (err, dst)
      else match desc with
      | None => UB NullDeref
      | Some d =>
          let total := npu_tensor_byte_size d in
          if buf_bytes <? total then Ok (LGNPU_TENSOR_ERR_BUF_TOO_SMALL, dst)
          else if layout d =? LGNPU_LAYOUT_NHWC then
            out' ← memmove out inp total; Ok (LGNPU_TENSOR_OK, Some out')
          else if layout d =? LGNPU_LAYOUT_NCHW then
            out' ← convert_nchw_to_nhwc out inp (dim_n d) (dim_h d) (dim_w d) (dim_c d);
            Ok (LGNPU_TENSOR_OK, Some out')
          else Ok (LGNPU_TENSOR_ERR_LAYOUT_UNKNOWN, dst)
      end
  | _, _ => Ok (LGNPU_TENSOR_ERR_NULL_PTR, dst)
  end.

(** ** The mathematical layouts *)

Definition nhwc_index (H W C n h w c : Z) : Z := ((n * H + h) * W + w) * C + c.
Definition nchw_index (H W C n h w c : Z) : Z := ((n * C + c) * H + h) * W + w.

Example convert_2x2x2 :
  npu_tensor_convert_to_nhwc (Some (replicate 9 0)) (Some [1; 2; 3; 4; 5; 6; 7; 8])
    (Some (mk_tensor 0 1 2 2 2 LGNPU_LAYOUT_NCHW 0)) 8
  = Ok (LGNPU_TENSOR_OK, Some [1; 5; 2; 6; 3; 7; 4; 8; 0]).
Proof. reflexivity. Qed.

(** ** Validation: lemmas *)

Definition tensor_valid (d : npu_tensor_desc) : Prop :=
  dim_n d = 1 /\ 0 < dim_h d /\ 0 < dim_w d /\ 0 < dim_c d /\
  layout d < LGNPU_LAYOUT_COUNT /\ dim_h d * dim_w d * dim_c d < 2 ^ 32.

(** The two chained overflow tests are one test on the full product. *)
Lemma mul_overflow_chain h w c :
  fits 16 h -> fits 16 w -> 0 < c ->
  let '(o1, hw) := mul_overflow_u32 h w in
  o1 || (mul_overflow_u32 hw c).1 = negb (h * w * c <? 2 ^ 32).
Proof.
  intros Hh Hw Hc. simpl. words.
  assert (0 <= h * w < 2 ^ 32) by nia.
  rewrite (wrap_small 32 (h * w)) by (by unfold fits).
  rewrite (proj2 (Z.ltb_lt (h * w) (2 ^ 32))) by lia. done.
Qed.

Lemma tensor_validate_ok d :
  tensor_wf d -> npu_tensor_validate (Some d) = LGNPU_TENSOR_OK <-> tensor_valid d.
Proof.
  intros (Hb & Hn & Hh & Hw & Hc & Hl & _). unfold npu_tensor_validate, tensor_valid, LGNPU_LAYOUT_COUNT.
  destruct (dim_n d =? 0) eqn:En; [simpl; split; [done|lia]|].
  destruct (dim_h d =? 0) eqn:Eh; [simpl; split; [done|lia]|].
  destruct (dim_w d =? 0) eqn:Ew; [simpl; split; [done|lia]|].
  destruct (dim_c d =? 0) eqn:Ec; [simpl; split; [done|lia]|]. simpl.
  destruct (dim_n d =? 1) eqn:E1; simpl; [|split; [done|lia]].
  destruct (2 <=? layout d) eqn:El; [split; [done|lia]|].
  assert (0 < dim_c d) by (words; lia).
  pose proof (mul_overflow_chain (dim_h d) (dim_w d) (dim_c d) Hh Hw ltac:(done)) as Hm.
  cbv beta iota zeta delta [mul_overflow_u32 fst] in Hm |- *. rewrite Hm. words.
  destruct (Z.ltb_spec (dim_h d * dim_w d * dim_c d) (2 ^ 32)); simpl; split; intros;
    try done; first [by split_and!; lia | lia].
Qed.

Lemma element_count_exact d :
  tensor_wf d -> npu_tensor_element_count d = dim_n d * dim_h d * dim_w d * dim_c d.
Proof.
  intros (Hb & Hn & Hh & Hw & Hc & _). unfold npu_tensor_element_count. words.
  assert (0 <= dim_n d * dim_h d <= 65535 * 65535) by (apply mul_bound; lia).
  assert (0 <= dim_n d * dim_h d * dim_w d <= 65535 * 65535 * 65535) by (apply mul_bound; lia).
  assert (0 <= dim_n d * dim_h d * dim_w d * dim_c d <= 65535 * 65535 * 65535 * 65535)
    by (apply mul_bound; lia).
  rewrite (wrap_small 64 (dim_n d * dim_h d)) by (words; lia).
  rewrite (wrap_small 64 (_ * dim_w d)) by (words; lia).
  by rewrite wrap_small by (words; lia).
Qed.

(** ** Index arithmetic *)

Section index.
Context (H W C : Z).
Hypotheses (HH : 0 < H) (HW : 0 < W) (HC : 0 < C).

Lemma nhwc_index_bound n h w c :
  0 <= n -> 0 <= h < H -> 0 <= w < W -> 0 <= c < C ->
  n * (H * W * C) <= nhwc_index H W C n h w c < (n + 1) * (H * W * C).
Proof using HH HW HC.
  intros. unfold nhwc_index.
  assert (n * H <= n * H + h <= n * H + (H - 1)) by lia.
  assert (n * H * W <= (n * H + h) * W + w <= (n * H + H) * W - 1) by nia.
  nia.
Qed.

Lemma nchw_index_bound n h w c :
  0 <= n -> 0 <= h < H -> 0 <= w < W -> 0 <= c < C ->
  n * (H * W * C) <= nchw_index H W C n h w c < (n + 1) * (H * W * C).
Proof using HH HW HC.
  intros. unfold nchw_index.
  assert (n * C <= n * C + c <= n * C + (C - 1)) by lia.
  assert (n * C * H <= (n * C + c) * H + h <= (n * C + C) * H - 1) by nia.
  nia.
Qed.

(** Mixed-radix digits are unique. *)
Lemma digit_inj b q r q' r' :
  0 <= r < b -> 0 <= r' < b -> q * b + r = q' * b + r' -> q = q' /\ r = r'.
Proof using. intros. assert (q = q') by nia. subst. lia. Qed.

Lemma nhwc_index_inj n h w c n' h' w' c' :
  0 <= h < H -> 0 <= w < W -> 0 <= c < C -> 0 <= h' < H -> 0 <= w' < W -> 0 <= c' < C ->
  nhwc_index H W C n h w c = nhwc_index H W C n' h' w' c' ->
  n = n' /\ h = h' /\ w = w' /\ c = c'.
Proof using.
  unfold nhwc_index. intros ?????? E.
  apply digit_inj in E as [E ->]; [|done..].
  apply digit_inj in E as [E ->]; [|done..].
  by apply digit_inj in E as [-> ->].
Qed.

Lemma nchw_index_inj n h w c n' h' w' c' :
  0 <= h < H -> 0 <= w < W -> 0 <= c < C -> 0 <= h' < H -> 0 <= w' < W -> 0 <= c' < C ->
  nchw_index H W C n h w c = nchw_index H W C n' h' w' c' ->
  n = n' /\ h = h' /\ w = w' /\ c = c'.
Proof using.
  unfold nchw_index. intros ?????? E.
  apply digit_inj in E as [E ->]; [|done..].
  apply digit_inj in E as [E ->]; [|done..].
  by apply digit_inj in E as [-> ->].
Qed.

(** Every position of one image is the NHWC index of exactly one element. *)
Lemma nhwc_index_surj i :
  0 <= i < H * W * C ->
  exists h w c, 0 <= h < H /\ 0 <= w < W /\ 0 <= c < C /\ nhwc_index H W C 0 h w c = i.
Proof using HH HW HC.
  intros Hi. exists (i / C / W), ((i / C) `mod` W), (i `mod` C).
  assert (0 < W * H) by nia. pose proof (Z.mod_pos_bound i C HC). pose proof (Z.mod_pos_bound (i / C) W HW).
  assert (0 <= i / C < H * W).
  { split; [apply Z.div_pos; lia|]. apply Z.div_lt_upper_bound; lia. }
  assert (0 <= i / C / W < H).
  { split; [apply Z.div_pos; lia|]. apply Z.div_lt_upper_bound; lia. }
  split_and!; try lia. unfold nhwc_index.
  pose proof (Z.div_mod i C ltac:(lia)). pose proof (Z.div_mod (i / C) W ltac:(lia)).
  replace ((0 * H + i / C / W) * W + (i / C) `mod` W) with (i / C) by lia. lia.
Qed.
End index.

(** ** The conversion loops *)

(** Reading a list at a [Z] index that is known to be non-negative. *)
Definition at_ {A} (l : list A) (i : Z) : option A := l !! Z.to_nat i.

Lemma load_at (l : list Z) i :
  0 <= i < Z.of_nat (length l) -> exists v, load l i = Ok v /\ at_ l i = Some v.
Proof.
  intros Hi. unfold load, at_. rewrite decide_True by lia.
  destruct (lookup_lt_is_Some_2 l (Z.to_nat i)) as [v Hv]; [lia|].
  exists v. by rewrite Hv.
Qed.

Lemma store_at (l : list Z) i v :
  0 <= i < Z.of_nat (length l) ->
  exists l', store l i v = Ok l' /\ length l' = length l /\ at_ l' i = Some v /\
             forall j, 0 <= j -> j <> i -> at_ l' j = at_ l j.
Proof.
  intros Hi. unfold store, at_. rewrite decide_True by lia. eexists. split_and!; [done|..].
  - apply length_insert.
  - apply list_lookup_insert_eq. lia.
  - intros j Hj Hne. apply list_lookup_insert_ne. lia.
Qed.

Lemma offset_small a b : 0 <= a -> 0 <= b -> a * b < 2 ^ 32 -> u64 (a * b) = a * b.
Proof. intros. apply wrap_small. unfold fits. nia. Qed.

Section convert.
Context (src dst0 : list Z) (H W C : Z).
Hypotheses (HH : 0 < H) (HW : 0 < W) (HC : 0 < C).
Hypotheses (H16 : fits 16 H) (W16 : fits 16 W) (C16 : fits 16 C).
Hypothesis Htotal : H * W * C < 2 ^ 32.
Hypothesis Hsrc : H * W * C <= Z.of_nat (length src).
Hypothesis Hdst : H * W * C <= Z.of_nat (length dst0).

Local Abbreviation nhwc := (nhwc_index H W C 0).
Local Abbreviation nchw := (nchw_index H W C 0).

(** Elements visited before [(c, h, w)] in the loop order. *)
Definition visited (c h w c' h' w' : Z) : Prop :=
  c' < c \/ (c' = c /\ (h' < h \/ (h' = h /\ w' < w))).

(** The state of [dst] when the loops reach [(c, h, w)]: visited elements are
    in place, everything beyond the tensor is untouched. *)
Definition progress (c h w : Z) (s : list Z) : Prop :=
  length s = length dst0 /\
  (forall c' h' w', 0 <= h' < H -> 0 <= w' < W -> 0 <= c' < C -> visited c h w c' h' w' ->
     at_ s (nhwc h' w' c') = at_ src (nchw h' w' c')) /\
  (forall j, H * W * C <= j -> at_ s j = at_ dst0 j).

Lemma progress_weaken c h w c2 h2 w2 s :
  (forall c' h' w', 0 <= h' < H -> 0 <= w' < W -> 0 <= c' < C ->
     visited c2 h2 w2 c' h' w' -> visited c h w c' h' w') ->
  progress c h w s -> progress c2 h2 w2 s.
Proof using.
  intros Hv (Hl & Hvis & Hfr). split_and!; [done| |done]. intros. apply Hvis; auto.
Qed.

Lemma nchw_body_ok c h w sh dh s :
  0 <= h < H -> 0 <= w < W -> 0 <= c < C -> w * C <= INT_MAX ->
  sh + w = nchw h w c -> dh + w * C = nhwc h w c ->
  progress c h w s ->
  exists s', nchw_body src C sh dh w s = Ok s' /\ progress c h (w + 1) s'.
Proof using HH HW HC Hsrc Hdst.
  intros Hh Hw Hc Hint Hs Hd (Hl & Hvis & Hfr).
  pose proof (nhwc_index_bound H W C HH HW HC 0 h w c ltac:(lia) Hh Hw Hc).
  pose proof (nchw_index_bound H W C HH HW HC 0 h w c ltac:(lia) Hh Hw Hc).
  destruct (load_at src (nchw h w c)) as (v & Hv & Hav); [lia|].
  destruct (store_at s (nhwc h w c) v) as (s' & Hs' & Hl' & Has & Hother); [lia|].
  exists s'. split.
  - unfold nchw_body, int_of. rewrite decide_True by (unfold INT_MIN, INT_MAX in *; lia).
    simpl. by rewrite Hs, Hv, Hd.
  - split_and!; [congruence| |].
    + intros c' h' w' Hh' Hw' Hc' Hvis'.
      pose proof (nhwc_index_bound H W C HH HW HC 0 h' w' c' ltac:(lia) Hh' Hw' Hc').
      destruct (decide (nhwc h' w' c' = nhwc h w c)) as [E|E].
      * apply nhwc_index_inj in E as (_ & -> & -> & ->); [|done..]. congruence.
      * rewrite Hother by lia. apply Hvis; [done..|].
        assert (~ (c' = c /\ h' = h /\ w' = w)) by (intros (-> & -> & ->); done).
        unfold visited in *. lia.
    + intros j Hj. rewrite Hother by lia. by apply Hfr.
Qed.

(** When [(W - 1) * C] exceeds [INT_MAX], the first row already evaluates
    [w * C] outside [int]. *)
Lemma convert_overflows :
  INT_MAX < (W - 1) * C -> convert_nchw_to_nhwc dst0 src 1 H W C = UB IntOverflow.
Proof using HH HW HC H16 W16 C16 Htotal Hsrc Hdst.
  intros Hov. unfold convert_nchw_to_nhwc.
  rewrite (offset_small H W), (offset_small W C) by nia.
  rewrite (offset_small (H * W) C) by nia.
  assert (Hs0 : progress 0 0 0 dst0) by (split_and!; [done|unfold visited; lia|done]).
  assert (HM : 0 <= INT_MAX) by done.
  pose proof (Z.mul_succ_div_gt INT_MAX C HC). pose proof (Z.mul_div_le INT_MAX C HC).
  assert (0 <= INT_MAX / C) by (apply Z.div_pos; lia).
  apply (for_up_ub 16 1 _ (fun _ s => progress 0 0 0 s) ltac:(done) 0); [lia|done|intros; lia|].
  intros s Hs. change (0 * (H * W * C)) with 0. change (u64 0) with 0.
  apply (for_up_ub 16 C _ (fun _ s => progress 0 0 0 s) ltac:(done) 0); [lia|done|intros; lia|].
  intros s1 Hs1. change (u64 (0 * _)) with 0.
  apply (for_up_ub 16 H _ (fun _ s => progress 0 0 0 s) ltac:(done) 0); [lia|done|intros; lia|].
  intros s2 Hs2. change (u64 (0 * _)) with 0. change (u64 (0 * _)) with 0.
  apply (for_up_ub 16 W _ (fun w s => progress 0 0 w s) ltac:(done) (INT_MAX / C + 1));
    [nia|done| |].
  - intros w t Hw Ht. assert (w < W) by nia.
    apply nchw_body_ok; try done; try (unfold nchw_index, nhwc_index); try lia.
    assert (w * C <= INT_MAX / C * C) by (apply Z.mul_le_mono_nonneg_r; lia). lia.
  - intros t _. unfold nchw_body, int_of.
    rewrite decide_False by (intros [_ ?]; nia). done.
Qed.

Hypothesis Hint : (W - 1) * C <= INT_MAX.

(** The loop nest ends with every element in place. *)
Lemma convert_progress :
  exists s, convert_nchw_to_nhwc dst0 src 1 H W C = Ok s /\ progress C 0 0 s.
Proof using HH HW HC H16 W16 C16 Htotal Hsrc Hdst Hint.
  unfold convert_nchw_to_nhwc.
  rewrite (offset_small H W), (offset_small W C) by nia.
  rewrite (offset_small (H * W) C) by nia.
  match goal with |- exists s, ?e = Ok s /\ _ =>
    cut (exists s, e = Ok s /\ progress (1 * C) 0 0 s); [by rewrite Z.mul_1_l|] end.
  apply (for_up_ind 16 1 _ (fun n s => progress (n * C) 0 0 s)).
  { done. }
  { split_and!; [done| |done]. unfold visited. lia. }
  intros n s Hn Hs. assert (n = 0) as -> by lia. rewrite Z.mul_0_l in *.
  replace ((0 + 1) * C) with C by lia.
  apply (for_up_ind 16 C _ (fun c s => progress c 0 0 s)); [done|done|].
  intros c s1 Hc Hs1. rewrite (offset_small c (H * W)) by nia.
  cut (exists s', for_up 16 H (fun h dst =>
      for_up 16 W (nchw_body src C (u64 0 + c * (H * W) + u64 (h * W))
         (u64 0 + c + u64 (h * (W * C)))) dst) s1 = Ok s' /\ progress c H 0 s').
  { intros (s' & E & Hp). exists s'. split; [exact E|].
    eapply progress_weaken, Hp. unfold visited. lia. }
  apply (for_up_ind 16 H _ (fun h s => progress c h 0 s)); [done|done|].
  intros h s2 Hh Hs2.
  rewrite (offset_small h W), (offset_small h (W * C)) by nia.
  change (u64 0) with 0.
  destruct (for_up_ind 16 W (nchw_body src C (0 + c * (H * W) + h * W) (0 + c + h * (W * C)))
              (fun w s => progress c h w s) W16 s2) as (s' & E & Hp); [done| |].
  - intros w s3 Hw Hs3. apply nchw_body_ok; try done.
    + nia.
    + unfold nchw_index. nia.
    + unfold nhwc_index. nia.
  - exists s'. split; [exact E|].
    eapply progress_weaken, Hp. unfold visited. lia.
Qed.
End convert.

(** ** Properties *)

Lemma tensor_valid_total d :
  tensor_wf d -> tensor_valid d ->
  npu_tensor_byte_size d = dim_h d * dim_w d * dim_c d.
Proof.
  intros Hwf Hv. unfold npu_tensor_byte_size. rewrite element_count_exact by done.
  destruct Hv as (-> & _). lia.
Qed.

(** No step of the address computation wraps, whatever the 16-bit arguments. *)
Lemma nhwc_offset_exact d n h w c :
  tensor_wf d -> fits 16 n -> fits 16 h -> fits 16 w -> fits 16 c ->
  npu_tensor_nhwc_offset d n h w c =
    base_addr d + nhwc_index (dim_h d) (dim_w d) (dim_c d) n h w c.
Proof.
  intros (Hb & _ & Hh & Hw & Hc & _) ????. unfold npu_tensor_nhwc_offset, nhwc_index. words.
  pose proof (mul_bound n (dim_h d) 65535 65535 ltac:(lia) ltac:(lia)).
  pose proof (mul_bound (n * dim_h d + h) (dim_w d) (65535 * 65536) 65535 ltac:(lia) ltac:(lia)).
  pose proof (mul_bound ((n * dim_h d + h) * dim_w d + w) (dim_c d)
                (65535 * 65536 * 65535 + 65535) 65535 ltac:(lia) ltac:(lia)).
  rewrite (wrap_small 64 (n * dim_h d)) by (words; lia).
  rewrite (wrap_small 64 (n * dim_h d + h)) by (words; lia).
  rewrite (wrap_small 64 (_ * dim_w d)) by (words; lia).
  rewrite (wrap_small 64 (_ * dim_w d + w)) by (words; lia).
  rewrite (wrap_small 64 (_ * dim_c d + c)) by (words; lia).
  by rewrite wrap_small by (words; lia).
Qed.

(** C40. Each validation code means exactly one thing: the first check that the
    descriptor fails, in the documented order; success means non-zero
    dimensions, batch 1, a known layout and a product below 2^32. *)
Theorem tensor_validate_codes desc :
  (forall d, desc = Some d -> tensor_wf d) ->
  match npu_tensor_validate desc with
  | LGNPU_TENSOR_OK => exists d, desc = Some d /\ tensor_valid d
  | LGNPU_TENSOR_ERR_NULL_PTR => desc = None
  | LGNPU_TENSOR_ERR_ZERO_DIM => exists d, desc = Some d /\
      (dim_n d = 0 \/ dim_h d = 0 \/ dim_w d = 0 \/ dim_c d = 0)
  | LGNPU_TENSOR_ERR_BATCH_UNSUP => exists d, desc = Some d /\ 1 < dim_n d /\
      0 < dim_h d /\ 0 < dim_w d /\ 0 < dim_c d
  | LGNPU_TENSOR_ERR_LAYOUT_UNKNOWN => exists d, desc = Some d /\ dim_n d = 1 /\
      0 < dim_h d /\ 0 < dim_w d /\ 0 < dim_c d /\ LGNPU_LAYOUT_COUNT <= layout d
  | LGNPU_TENSOR_ERR_OVERFLOW => exists d, desc = Some d /\ dim_n d = 1 /\
      layout d < LGNPU_LAYOUT_COUNT /\ 2 ^ 32 <= dim_h d * dim_w d * dim_c d
  | LGNPU_TENSOR_ERR_BUF_TOO_SMALL => False
  end.
Proof.
  intros Hwf. destruct desc as [d|]; [|done]. specialize (Hwf d eq_refl).
  destruct Hwf as (Hb & Hn & Hh & Hw & Hc & Hl & _).
  unfold npu_tensor_validate, tensor_valid, LGNPU_LAYOUT_COUNT.
  destruct (Z.eqb_spec (dim_n d) 0); [exists d; split; [done|lia]|].
  destruct (Z.eqb_spec (dim_h d) 0); [exists d; split; [done|lia]|].
  destruct (Z.eqb_spec (dim_w d) 0); [exists d; split; [done|lia]|].
  destruct (Z.eqb_spec (dim_c d) 0); [exists d; split; [done|lia]|].
  assert (0 < dim_n d /\ 0 < dim_h d /\ 0 < dim_w d /\ 0 < dim_c d) by (words; lia).
  destruct (Z.eqb_spec (dim_n d) 1); cbn [orb negb]; [|exists d; split; [done|lia]].
  destruct (Z.leb_spec 2 (layout d)); [exists d; split; [done|lia]|].
  pose proof (mul_overflow_chain (dim_h d) (dim_w d) (dim_c d) Hh Hw ltac:(lia)) as Hm.
  cbv beta iota zeta delta [mul_overflow_u32 fst] in Hm |- *. rewrite Hm.
  destruct (Z.ltb_spec (dim_h d * dim_w d * dim_c d) (2 ^ 32)); cbn [negb];
    exists d; (split; [done|lia]).
Qed.

Lemma tensor_validate_codes_witness :
  exists d, Some (mk_tensor 0 1 4 4 3 1 0) = Some d /\ tensor_valid d.
Proof.
  apply (tensor_validate_codes (Some (mk_tensor 0 1 4 4 3 1 0))).
  intros d [= <-]. by apply (bool_decide_unpack _); vm_compute.
Defined.

(** C39. Addresses: for a valid descriptor [npu_tensor_nhwc_offset] maps the
    elements of the image one-to-one onto the [npu_tensor_element_count] bytes
    that start at [base_addr], without any wrap-around of [size_t]. *)
Theorem nhwc_offset_bijective d :
  tensor_wf d -> tensor_valid d ->
  let inside h w c := 0 <= h < dim_h d /\ 0 <= w < dim_w d /\ 0 <= c < dim_c d in
  let off h w c := npu_tensor_nhwc_offset d 0 h w c in
  (forall h w c, inside h w c ->
     base_addr d <= off h w c < base_addr d + npu_tensor_element_count d) /\
  (forall h w c h' w' c', inside h w c -> inside h' w' c' -> off h w c = off h' w' c' ->
     h = h' /\ w = w' /\ c = c') /\
  (forall i, base_addr d <= i < base_addr d + npu_tensor_element_count d ->
     exists h w c, inside h w c /\ off h w c = i).
Proof.
  intros Hwf Hv inside off.
  pose proof (tensor_valid_total d Hwf Hv) as Ht. unfold npu_tensor_byte_size in Ht.
  destruct Hv as (_ & HH & HW & HC & _).
  assert (Hoff : forall h w c, inside h w c ->
            off h w c = base_addr d + nhwc_index (dim_h d) (dim_w d) (dim_c d) 0 h w c).
  { intros h w c (? & ? & ?). apply nhwc_offset_exact; [done|..];
      destruct Hwf as (? & ? & ? & ? & ? & _); words; lia. }
  split_and!.
  - intros h w c Hin. rewrite Hoff, Ht by done. destruct Hin as (? & ? & ?).
    pose proof (nhwc_index_bound _ _ _ HH HW HC 0 h w c ltac:(lia)). lia.
  - intros h w c h' w' c' Hin Hin'. rewrite !Hoff by done.
    destruct Hin as (? & ? & ?), Hin' as (? & ? & ?). intros E.
    apply (nhwc_index_inj (dim_h d) (dim_w d) (dim_c d) 0 h w c 0); try done. lia.
  - intros i Hi. rewrite Ht in Hi.
    destruct (nhwc_index_surj _ _ _ HH HW HC (i - base_addr d)) as (h & w & c & ? & ? & ? & E);
      [lia|].
    exists h, w, c. split; [done|]. rewrite Hoff by done. lia.
Qed.

Lemma nhwc_offset_bijective_witness :
  exists h w c, (0 <= h < 4 /\ 0 <= w < 4 /\ 0 <= c < 3) /\
    npu_tensor_nhwc_offset (mk_tensor 256 1 4 4 3 1 0) 0 h w c = 300.
Proof.
  apply (nhwc_offset_bijective (mk_tensor 256 1 4 4 3 1 0));
    by apply (bool_decide_unpack _); vm_compute.
Defined.

(** C27. Converting a valid NCHW tensor whose rows stay inside [int] succeeds:
    every element lands at the address that [npu_tensor_nhwc_offset] gives it,
    and no byte of the destination beyond the tensor changes. *)
Theorem convert_nchw_correct d dst src buf_bytes :
  tensor_wf d -> tensor_valid d -> layout d = LGNPU_LAYOUT_NCHW ->
  (dim_w d - 1) * dim_c d <= INT_MAX ->
  npu_tensor_byte_size d <= buf_bytes ->
  buf_bytes <= Z.of_nat (length dst) -> buf_bytes <= Z.of_nat (length src) ->
  exists dst',
    npu_tensor_convert_to_nhwc (Some dst) (Some src) (Some d) buf_bytes
      = Ok (LGNPU_TENSOR_OK, Some dst') /\
    length dst' = length dst /\
    (forall h w c, 0 <= h < dim_h d -> 0 <= w < dim_w d -> 0 <= c < dim_c d ->
       at_ dst' (npu_tensor_nhwc_offset d 0 h w c - base_addr d) =
       at_ src (nchw_index (dim_h d) (dim_w d) (dim_c d) 0 h w c)) /\
    (forall j, npu_tensor_byte_size d <= j -> at_ dst' j = at_ dst j).
Proof.
  intros Hwf Hv Hl Hint Hbuf Hd Hs. pose proof (tensor_valid_total d Hwf Hv) as Ht.
  pose proof Hv as (Hn & HH & HW & HC & _ & Hlt).
  pose proof Hwf as (_ & _ & H16 & W16 & C16 & _).
  destruct (convert_progress src dst (dim_h d) (dim_w d) (dim_c d)) as (dst' & E & Hp);
    try done; try lia.
  destruct Hp as (Hlen & Hvis & Hfr). exists dst'. split_and!.
  - unfold npu_tensor_convert_to_nhwc.
    rewrite (proj2 (tensor_validate_ok d Hwf) Hv), decide_False by (intros H; by apply H).
    rewrite (proj2 (Z.ltb_ge _ _)), Hl, Hn, E by lia. done.
  - done.
  - intros h w c Hh Hw Hc. rewrite nhwc_offset_exact; [|done|by apply fits_0|words; lia..].
    replace (_ + _ - _) with (nhwc_index (dim_h d) (dim_w d) (dim_c d) 0 h w c) by lia.
    apply Hvis; try done. left. lia.
  - intros j Hj. apply Hfr. lia.
Qed.

Lemma convert_nchw_correct_witness :
  exists dst', npu_tensor_convert_to_nhwc (Some (replicate 9 0)) (Some [1; 2; 3; 4; 5; 6; 7; 8; 9])
      (Some (mk_tensor 0 1 2 2 2 1 0)) 8 = Ok (LGNPU_TENSOR_OK, Some dst') /\
    at_ dst' 3 = Some 6.
Proof.
  destruct (convert_nchw_correct (mk_tensor 0 1 2 2 2 1 0) (replicate 9 0)
              [1; 2; 3; 4; 5; 6; 7; 8; 9] 8) as (dst' & E & _ & H & _);
    try by apply (bool_decide_unpack _); vm_compute.
  exists dst'. split; [exact E|]. apply (H 0 1 1); by vm_compute.
Defined.

(** A descriptor that passes validation can still drive the conversion into
    undefined behaviour: the index [w * C] of the innermost loop is an [int]
    product, and overflows as soon as [(W - 1) * C] exceeds [INT_MAX]. *)
Theorem convert_nchw_int_overflow d dst src buf_bytes :
  tensor_wf d -> npu_tensor_validate (Some d) = LGNPU_TENSOR_OK ->
  layout d = LGNPU_LAYOUT_NCHW -> INT_MAX < (dim_w d - 1) * dim_c d ->
  npu_tensor_byte_size d <= buf_bytes ->
  buf_bytes <= Z.of_nat (length dst) -> buf_bytes <= Z.of_nat (length src) ->
  npu_tensor_convert_to_nhwc (Some dst) (Some src) (Some d) buf_bytes = UB IntOverflow.
Proof.
  intros Hwf Hok Hl Hint Hbuf Hd Hs.
  pose proof (proj1 (tensor_validate_ok d Hwf) Hok) as Hv.
  pose proof (tensor_valid_total d Hwf Hv) as Ht.
  destruct Hv as (Hn & HH & HW & HC & _ & Hlt).
  pose proof Hwf as (_ & _ & H16 & W16 & C16 & _).
  unfold npu_tensor_convert_to_nhwc.
  rewrite Hok, decide_False by (intros H; by apply H).
  rewrite (proj2 (Z.ltb_ge _ _)), Hl, Hn by lia. simpl.
  rewrite convert_overflows; try done; lia.
Qed.

Lemma convert_nchw_int_overflow_witness :
  let d := mk_tensor 0 1 1 65535 65535 1 0 in
  let n := 65535 * 65535 in
  npu_tensor_convert_to_nhwc (Some (replicate (Z.to_nat n) 0)) (Some (replicate (Z.to_nat n) 0))
    (Some d) n = UB IntOverflow.
Proof.
  intros d n.
  assert (H1 : tensor_wf d) by (by apply (bool_decide_unpack _); vm_compute).
  assert (H2 : npu_tensor_validate (Some d) = LGNPU_TENSOR_OK) by reflexivity.
  assert (H3 : INT_MAX < (dim_w d - 1) * dim_c d) by reflexivity.
  assert (H4 : npu_tensor_byte_size d <= n) by (by vm_compute).
  clearbody n.
  assert (Hn : n <= Z.of_nat (length (replicate (Z.to_nat n) 0))).
  { rewrite length_replicate. lia. }
  apply (convert_nchw_int_overflow d _ _ n H1 H2 eq_refl H3 H4 Hn Hn).
Defined.

(** A tensor that is already NHWC is copied unchanged, and only its bytes are
    written. *)
Theorem convert_nhwc_identity d dst src buf_bytes :
  tensor_wf d -> tensor_valid d -> layout d = LGNPU_LAYOUT_NHWC ->
  npu_tensor_byte_size d <= buf_bytes ->
  buf_bytes <= Z.of_nat (length dst) -> buf_bytes <= Z.of_nat (length src) ->
  exists dst',
    npu_tensor_convert_to_nhwc (Some dst) (Some src) (Some d) buf_bytes
      = Ok (LGNPU_TENSOR_OK, Some dst') /\
    (forall i, 0 <= i < npu_tensor_byte_size d -> at_ dst' i = at_ src i) /\
    (forall i, npu_tensor_byte_size d <= i -> at_ dst' i = at_ dst i) /\
    length dst' = length dst.
Proof.
  intros Hwf Hv Hl Hbuf Hd Hs. pose proof (tensor_valid_total d Hwf Hv) as Ht.
  assert (0 <= npu_tensor_byte_size d).
  { destruct Hv as (_ & ? & ? & ? & _). rewrite Ht. nia. }
  eexists. split_and!.
  - unfold npu_tensor_convert_to_nhwc.
    rewrite (proj2 (tensor_validate_ok d Hwf) Hv), decide_False by (intros H'; by apply H').
    rewrite (proj2 (Z.ltb_ge _ _)), Hl by lia. simpl. unfold memmove.
    by rewrite decide_True by lia.
  - intros i Hi. unfold at_. rewrite lookup_app_l by (rewrite length_take; lia).
    by rewrite lookup_take_lt by lia.
  - intros i Hi. unfold at_.
    rewrite lookup_app_r by (rewrite length_take; lia). rewrite lookup_drop, length_take.
    f_equal. lia.
  - rewrite length_app, length_take, length_drop. lia.
Qed.

Lemma convert_nhwc_identity_witness :
  exists dst', npu_tensor_convert_to_nhwc (Some (replicate 5 0)) (Some [7; 8; 9; 10; 11])
      (Some (mk_tensor 0 1 1 2 2 0 0)) 5 = Ok (LGNPU_TENSOR_OK, Some dst') /\ at_ dst' 3 = Some 10.
Proof.
  destruct (convert_nhwc_identity (mk_tensor 0 1 1 2 2 0 0) (replicate 5 0) [7; 8; 9; 10; 11] 5)
    as (dst' & E & H & _); try by apply (bool_decide_unpack _); vm_compute.
  exists dst'. split; [exact E|]. by apply (H 3).
Defined.

(** Every failure of the conversion leaves the destination untouched: a NULL
    buffer, a descriptor that fails validation (with the validation's own
    code), or a buffer shorter than the tensor. *)
Theorem convert_errors dst src desc buf_bytes :
  dst = None \/ src = None \/ npu_tensor_validate desc <> LGNPU_TENSOR_OK \/
    (exists d, desc = Some d /\ buf_bytes < npu_tensor_byte_size d) ->
  exists e, npu_tensor_convert_to_nhwc dst src desc buf_bytes = Ok (e, dst) /\
    e <> LGNPU_TENSOR_OK /\
    (dst = None \/ src = None -> e = LGNPU_TENSOR_ERR_NULL_PTR) /\
    (dst <> None -> src <> None -> npu_tensor_validate desc <> LGNPU_TENSOR_OK ->
       e = npu_tensor_validate desc) /\
    (dst <> None -> src <> None -> npu_tensor_validate desc = LGNPU_TENSOR_OK ->
       e = LGNPU_TENSOR_ERR_BUF_TOO_SMALL).
Proof.
  intros Hcase. destruct dst as [out|]; [|by eexists; split_and!].
  destruct src as [inp|]; [|by eexists; split_and!].
  unfold npu_tensor_convert_to_nhwc. destruct (decide _) as [He|He].
  - exists (npu_tensor_validate desc). split_and!; [done|done| |done|done].
    by intros [?|?].
  - apply dec_stable in He.
    destruct Hcase as [?|[?|[?|(d & -> & Hlt)]]]; [done..|].
    eexists. split_and!; [by rewrite (proj2 (Z.ltb_lt _ _) Hlt)|done| | |done].
    + by intros [?|?].
    + done.
Qed.

Lemma convert_errors_witness :
  exists e, npu_tensor_convert_to_nhwc (Some [1; 2]) (Some [3; 4]) (Some (mk_tensor 0 1 4 4 3 1 0)) 2
      = Ok (e, Some [1; 2]) /\ e = LGNPU_TENSOR_ERR_BUF_TOO_SMALL.
Proof.
  destruct (convert_errors (Some [1; 2]) (Some [3; 4]) (Some (mk_tensor 0 1 4 4 3 1 0)) 2)
    as (e & E & _ & _ & _ & H).
  - right. right. right. eexists. split; [reflexivity|by vm_compute].
  - exists e. split; [exact E|]. by apply H.
Defined.

(** The documented recipe for weight tensors (output channels [K] mapped to
    the batch dimension) is refused: any descriptor with two or more images and
    otherwise non-zero dimensions fails with the batch error and converts
    nothing. *)
Theorem convert_rejects_batches d dst src buf_bytes :
  1 < dim_n d -> 0 < dim_h d -> 0 < dim_w d -> 0 < dim_c d ->
  npu_tensor_convert_to_nhwc (Some dst) (Some src) (Some d) buf_bytes
    = Ok (LGNPU_TENSOR_ERR_BATCH_UNSUP, Some dst).
Proof.
  intros. unfold npu_tensor_convert_to_nhwc.
  assert (npu_tensor_validate (Some d) = LGNPU_TENSOR_ERR_BATCH_UNSUP) as ->; [|done].
  unfold npu_tensor_validate. rewrite !(proj2 (Z.eqb_neq _ _)) by lia. done.
Qed.

Lemma convert_rejects_batches_witness :
  npu_tensor_convert_to_nhwc (Some [0]) (Some [0]) (Some (mk_tensor 0 16 3 3 8 1 0)) 1152
    = Ok (LGNPU_TENSOR_ERR_BATCH_UNSUP, Some [0]).
Proof. by apply (convert_rejects_batches (mk_tensor 0 16 3 3 8 1 0)). Defined.
