(* ===== verification/Prog.v ===== *)
(** * Effectful programs

    C code that talks to a device or to the kernel, as a tree of calls and of
    what it does with their results ([prog]), with two readings: the set of
    traces it can produce when only the documented range of each result is
    known ([exec]), and its run against a concrete environment ([run]). The
    second is always one of the first ([run_exec]). *)

From S2P Require Import Prelude.

(** ** Programs over a set of calls

    [C] lists the calls of an interface (register accesses, kernel services);
    every call gives back a [Z] (0 where the C function returns [void]).
    [Fault] is undefined behaviour of the C code itself. *)

Inductive prog (C R : Type) : Type :=
| Ret (r : R)
| Fault (u : ub)
| Call (c : C) (k : Z -> prog C R).
Arguments Ret {C R} r.
Arguments Fault {C R} u.
Arguments Call {C R} c k.

Fixpoint prog_bind {C A B} (f : A -> prog C B) (p : prog C A) : prog C B :=
  match p with
  | Ret r => f r
  | Fault u => Fault u
  | Call c k => Call c (fun v => prog_bind f (k v))
  end.

#[export] Instance prog_mret {C} : MRet (prog C) := fun A a => Ret a.
#[export] Instance prog_mbind {C} : MBind (prog C) := fun A B f p => prog_bind f p.

Definition call {C} (c : C) : prog C Z := Call c Ret.
Definition do_ {C} (c : C) : prog C unit := Call c (fun _ => Ret tt).

(** Pure C computations inside a program. *)
Definition lift {C A} (r : res A) : prog C A :=
  match r with Ok a => Ret a | UB u => Fault u end.

(** What is known of the result of each call. *)
Class Calls (C : Type) := returns : C -> Z -> Prop.

Abbreviation trace C := (list (C * Z)).

Inductive exec {C R} `{Calls C} : prog C R -> trace C -> res R -> Prop :=
| exec_ret r : exec (Ret r) [] (Ok r)
| exec_fault u : exec (Fault u) [] (UB u)
| exec_call c k v tr o : returns c v -> exec (k v) tr o -> exec (Call c k) ((c, v) :: tr) o.

(** An environment in state [S] that answers the calls. *)
Class Env (C S : Type) := answer : C -> S -> Z * S.

Fixpoint run {C S R} `{Env C S} (p : prog C R) (s : S) : trace C * res R * S :=
  match p with
  | Ret r => ([], Ok r, s)
  | Fault u => ([], UB u, s)
  | Call c k =>
      let '(v, s1) := answer c s in
      let '(tr, o, s2) := run (k v) s1 in
      ((c, v) :: tr, o, s2)
  end.

(** ** Loops with an early return

    [for (uint32_t i = 0; i < hi; ++i) body]: the body either goes on with a
    new loop state or leaves the function. *)

Fixpoint for_ret_fuel {C S R} (fuel : nat) (i hi : Z)
    (body : Z -> S -> prog C (S + R)) (s : S) : prog C (S + R) :=
  match fuel with
  | O => Fault NoFuel
  | Datatypes.S f =>
      if i <? hi then
        o ← body i s;
        match o with
        | inl s' => for_ret_fuel f (u32 (i + 1)) hi body s'
        | inr r => mret (inr r)
        end
      else mret (inl s)
  end.

Definition for_ret {C S R} (hi : Z) (body : Z -> S -> prog C (S + R)) (s : S) : prog C (S + R) :=
  for_ret_fuel (Datatypes.S (Z.to_nat hi)) 0 hi body s.

(** [for (int i = 0; i < hi; ++i) body] without an early return: the counter
    never passes its [int] bound. *)
Fixpoint for_prog_fuel {C S} (fuel : nat) (i hi : Z) (body : Z -> S -> prog C S) (s : S) : prog C S :=
  match fuel with
  | O => Fault NoFuel
  | Datatypes.S f =>
      if i <? hi then s' ← body i s; for_prog_fuel f (i + 1) hi body s' else mret s
  end.

Definition for_prog {C S} (hi : Z) (body : Z -> S -> prog C S) (s : S) : prog C S :=
  for_prog_fuel (Datatypes.S (Z.to_nat hi)) 0 hi body s.

(** ** Traces *)

Section traces.
Context {C : Type} `{HC : Calls C}.

Lemma exec_ret_iff {R} (r : R) tr o : exec (C:=C) (Ret r) tr o <-> tr = [] /\ o = Ok r.
Proof. split; [by inversion 1|intros [-> ->]; constructor]. Qed.

Lemma exec_fault_iff {R} u tr (o : res R) : exec (C:=C) (Fault u) tr o <-> tr = [] /\ o = UB u.
Proof. split; [by inversion 1|intros [-> ->]; constructor]. Qed.

Lemma exec_call_iff {R} c (k : Z -> prog C R) tr o :
  exec (Call c k) tr o <->
  exists v tr', tr = (c, v) :: tr' /\ returns c v /\ exec (k v) tr' o.
Proof.
  split; [inversion 1; eauto|]. intros (v & tr' & -> & Hv & Hk). by constructor.
Qed.

(** A sequence of two programs: the second starts where the first ended. *)
Lemma exec_bind_iff {A B} (p : prog C A) (f : A -> prog C B) tr o :
  exec (p ≫= f) tr o <->
  (exists a tr1 tr2, tr = tr1 ++ tr2 /\ exec p tr1 (Ok a) /\ exec (f a) tr2 o) \/
  (exists u, o = UB u /\ exec p tr (UB u)).
Proof.
  revert tr. unfold mbind, prog_mbind. induction p as [r|u|c k IH]; intros tr; simpl.
  - split.
    + intros Hf. left. exists r, [], tr. split_and!; [done|constructor|done].
    + intros [(a & t1 & t2 & -> & Hr & Hf)|(u & -> & Hr)]; by inversion Hr; subst.
  - rewrite exec_fault_iff. split.
    + intros [-> ->]. right. exists u. split; [done|constructor].
    + intros [(a & t1 & t2 & -> & Hr & _)|(v & -> & Hr)]; inversion Hr; subst; done.
  - rewrite exec_call_iff. split.
    + intros (v & t & -> & Hv & Hk). apply IH in Hk as [(a & t1 & t2 & -> & H1 & H2)|(u & -> & H1)].
      * left. exists a, ((c, v) :: t1), t2. split_and!; [done|by constructor|done].
      * right. exists u. split; [done|by constructor].
    + intros [(a & t1 & t2 & -> & H1 & H2)|(u & -> & H1)]; inversion H1; subst.
      * exists v, (tr ++ t2). split_and!; [done..|]. apply IH. left. eauto 6.
      * exists v, tr0. split_and!; [done..|]. apply IH. right. eauto.
Qed.

(** A call with a single possible result. *)
Lemma exec_do_iff {R} c w (k : Z -> prog C R) tr o :
  (forall v, returns c v <-> v = w) ->
  exec (Call c k) tr o <-> exists tr', tr = (c, w) :: tr' /\ exec (k w) tr' o.
Proof.
  intros Hc. rewrite exec_call_iff. split.
  - intros (v & tr' & -> & ->%Hc & Hk). eauto.
  - intros (tr' & -> & Hk). exists w, tr'. by rewrite Hc.
Qed.

(** A run in an environment that respects the interface is a trace. *)
Lemma run_exec {S R} `{Env C S} (p : prog C R) s tr o s' :
  (forall c s0, returns c (fst (answer c s0))) ->
  run p s = (tr, o, s') -> exec p tr o.
Proof.
  intros Hans. revert s tr o s'. induction p as [r|u|c k IH]; intros s tr o s'; simpl.
  - intros [= <- <- _]. constructor.
  - intros [= <- <- _]. constructor.
  - pose proof (Hans c s) as Hv. destruct (answer c s) as [v s1]. simpl in Hv.
    destruct (run (k v) s1) as [[tr1 o1] s2] eqn:Hrun. intros [= <- <- <-].
    constructor; [done|]. by eapply IH.
Qed.

(** Feeding the calls of a trace to an environment, which must answer as the
    trace says; the result is the final state. *)
Fixpoint replay {S} `{Env C S} (tr : trace C) (s : S) : option S :=
  match tr with
  | [] => Some s
  | (c, v) :: tr' => if decide ((answer c s).1 = v) then replay tr' (answer c s).2 else None
  end.

Lemma replay_app {S} `{Env C S} (tr1 tr2 : trace C) s :
  replay (tr1 ++ tr2) s = replay tr1 s ≫= replay tr2.
Proof.
  revert s. induction tr1 as [|[c v] tr1 IH]; intros s; simpl; [done|]. by destruct (decide _).
Qed.

(** A trace that the environment replays is the program's run in it. *)
Lemma exec_replay_run {S R} `{Env C S} (p : prog C R) tr o s s' :
  exec p tr o -> replay tr s = Some s' -> run p s = (tr, o, s').
Proof.
  intros Hex. revert s. induction Hex as [r|u|c k v tr o Hv Hk IH]; intros s; simpl;
    [by intros [= ->]..|].
  destruct (answer c s) as [w s1]. simpl. destruct (decide (w = v)) as [->|]; [|done].
  intros Hr. by rewrite (IH _ Hr).
Qed.

(** A run of a sequence is the sequence of the runs. *)
Lemma run_bind {S A B} `{Env C S} (p : prog C A) (f : A -> prog C B) s :
  run (p ≫= f) s =
  let '(t1, o1, s1) := run p s in
  match o1 with
  | Ok a => let '(t2, o2, s2) := run (f a) s1 in (t1 ++ t2, o2, s2)
  | UB u => (t1, UB u, s1)
  end.
Proof.
  revert s. unfold mbind, prog_mbind. induction p as [r|u|c k IH]; intros s; simpl.
  - by destruct (run (f r) s) as [[? ?] ?].
  - done.
  - destruct (answer c s) as [v s1]. rewrite IH.
    destruct (run (k v) s1) as [[t1 o1] s2]. destruct o1; [|done].
    by destruct (run (f a) s2) as [[? ?] ?].
Qed.
End traces.

(** ** Straight loops

    A loop without early return whose turn [i] performs exactly the calls
    [ev i]. *)

Section straight.
Context {C R : Type} `{HC : Calls C} (ev : Z -> trace C).
Context (body : Z -> unit -> prog C (unit + R)).

Lemma for_ret_straight_fuel fuel i hi tr o :
  fits 32 hi -> 0 <= i <= hi -> (Z.to_nat (hi - i) < fuel)%nat ->
  (forall j tr o, i <= j < hi -> exec (body j tt) tr o <-> tr = ev j /\ o = Ok (inl tt)) ->
  exec (for_ret_fuel fuel i hi body tt) tr o <->
  tr = concat (ev <$> seqZ i (hi - i)) /\ o = Ok (inl tt).
Proof.
  intros Hhi. revert i tr. induction fuel as [|f IH]; intros i tr Hi Hf Hbody; [lia|].
  simpl. destruct (Z.ltb_spec i hi) as [Hlt|Hge].
  - assert (Hnext : u32 (i + 1) = i + 1) by (apply wrap_small; unfold fits in *; lia).
    rewrite Hnext, seqZ_cons, fmap_cons by lia. simpl.
    replace (Z.succ i) with (i + 1) by lia. replace (Z.pred (hi - i)) with (hi - (i + 1)) by lia.
    assert (IH' := fun t => IH (i + 1) t ltac:(lia) ltac:(lia)
                    (fun j tr o Hj => Hbody j tr o ltac:(lia))).
    rewrite exec_bind_iff. split.
    + intros [(a & t1 & t2 & -> & H1 & H2)|(u & -> & H1)];
        apply Hbody in H1 as [-> Ho]; [|lia|done|lia]. inversion Ho; subst.
      apply IH' in H2 as [-> ->]. done.
    + intros [-> ->]. left. exists (inl tt), (ev i), (concat (ev <$> seqZ (i + 1) (hi - (i + 1)))).
      split_and!; [done|by apply Hbody; [lia|]|by apply IH'].
  - replace (hi - i) with 0 by lia. unfold mret, prog_mret. rewrite exec_ret_iff. done.
Qed.

Lemma for_ret_straight hi tr o :
  fits 32 hi ->
  (forall j tr o, 0 <= j < hi -> exec (body j tt) tr o <-> tr = ev j /\ o = Ok (inl tt)) ->
  exec (for_ret hi body tt) tr o <->
  tr = concat (ev <$> seqZ 0 hi) /\ o = Ok (inl tt).
Proof.
  intros Hhi Hb. unfold for_ret.
  rewrite for_ret_straight_fuel; [|done|unfold fits in *; lia..|done]. by rewrite Z.sub_0_r.
Qed.
End straight.

(** The same for loops that carry a state: turn [i] performs one of the calls
    [ev i v], [v] in the range [V], and takes the state from [s] to [nxt i s v]. *)
Section each.
Context {C S : Type} `{HC : Calls C} (V : Z -> Prop) (ev : Z -> Z -> trace C) (nxt : Z -> S -> Z -> S).
Context (body : Z -> S -> prog C S).

(** The calls and the final state of a row of turns from [i] on. *)
Fixpoint turns (i : Z) (vs : list Z) : trace C :=
  match vs with [] => [] | v :: vs' => ev i v ++ turns (i + 1) vs' end.

Fixpoint after (i : Z) (s : S) (vs : list Z) : S :=
  match vs with [] => s | v :: vs' => after (i + 1) (nxt i s v) vs' end.

Lemma for_prog_fuel_iff (I : Z -> S -> Prop) fuel i hi s tr o :
  (Z.to_nat (hi - i) < fuel)%nat -> I i s ->
  (forall j s, i <= j < hi -> I j s -> forall tr o, exec (body j s) tr o <->
     exists v, V v /\ tr = ev j v /\ o = Ok (nxt j s v)) ->
  (forall j s v, i <= j < hi -> I j s -> V v -> I (j + 1) (nxt j s v)) ->
  exec (for_prog_fuel fuel i hi body s) tr o <->
  exists vs, length vs = Z.to_nat (hi - i) /\ Forall V vs /\ tr = turns i vs /\ o = Ok (after i s vs).
Proof.
  revert i s tr. induction fuel as [|f IH]; intros i s tr Hf HI Hbody Hnxt; [lia|].
  simpl. destruct (Z.ltb_spec i hi) as [Hlt|Hge].
  - assert (IH' : forall v tr, V v -> exec (for_prog_fuel f (i + 1) hi body (nxt i s v)) tr o <->
      exists vs, length vs = Z.to_nat (hi - (i + 1)) /\ Forall V vs /\ tr = turns (i + 1) vs /\
        o = Ok (after (i + 1) (nxt i s v) vs)).
    { intros v t Hv. apply IH; [lia|by apply Hnxt; [lia| |]| |].
      - intros j s' Hj. apply Hbody. lia.
      - intros j s' w Hj. apply Hnxt. lia. }
    rewrite exec_bind_iff. split.
    + intros [(a & t1 & t2 & -> & H1 & H2)|(u & -> & H1)];
        apply Hbody in H1 as (v & Hv & -> & Ho); try done; try lia.
      simplify_eq. apply IH' in H2 as (vs & Hl & HV & -> & ->); [|done].
      exists (v :: vs). simpl. split_and!; [lia|by constructor|done|done].
    + intros ([|v vs] & Hl & HV & -> & ->); simpl in Hl; [lia|]. apply Forall_cons_1 in HV as [Hv HV].
      left. eexists _, (ev i v), (turns (i + 1) vs). split_and!; [done|apply Hbody; eauto; lia|].
      apply IH'; [done|]. exists vs. split_and!; [lia|done..].
  - unfold mret, prog_mret. rewrite exec_ret_iff. split.
    + intros [-> ->]. exists []. split_and!; [simpl; lia|constructor|done..].
    + intros ([|v vs] & Hl & _ & -> & ->); [done|simpl in Hl; lia].
Qed.

Lemma for_prog_iff (I : Z -> S -> Prop) hi s tr o :
  I 0 s ->
  (forall j s, 0 <= j < hi -> I j s -> forall tr o, exec (body j s) tr o <->
     exists v, V v /\ tr = ev j v /\ o = Ok (nxt j s v)) ->
  (forall j s v, 0 <= j < hi -> I j s -> V v -> I (j + 1) (nxt j s v)) ->
  exec (for_prog hi body s) tr o <->
  exists vs, length vs = Z.to_nat hi /\ Forall V vs /\ tr = turns 0 vs /\ o = Ok (after 0 s vs).
Proof.
  intros HI Hbody Hnxt. unfold for_prog. rewrite (for_prog_fuel_iff I) by (done || lia).
  by rewrite Z.sub_0_r.
Qed.
End each.

(** Loops whose turns perform a fixed list of calls. *)
Lemma for_prog_fixed {C} `{HC : Calls C} (ev : Z -> trace C) (body : Z -> unit -> prog C unit) hi tr o :
  (forall j tr o, 0 <= j < hi -> exec (body j tt) tr o <-> tr = ev j /\ o = Ok tt) ->
  exec (for_prog hi body tt) tr o <-> tr = concat (ev <$> seqZ 0 hi) /\ o = Ok tt.
Proof.
  intros Hbody.
  rewrite (for_prog_iff (fun v => v = 0) (fun i _ => ev i) (fun _ _ _ => tt) _ (fun _ _ => True)).
  - assert (Hturns : forall vs i, turns (fun i _ => ev i) i vs = concat (ev <$> seqZ i (Z.of_nat (length vs)))).
    { induction vs as [|v vs IH]; intros i; [done|]. cbn [turns length].
      rewrite seqZ_cons, fmap_cons by lia. cbn [concat]. rewrite IH. do 4 f_equal; lia. }
    split.
    + intros (vs & Hl & _ & -> & ->). rewrite Hturns, Hl. split.
      * destruct (decide (0 <= hi)); [by rewrite Z2Nat.id by lia|].
        by rewrite !seqZ_nil by lia.
      * by destruct (after _ _ _ _).
    + intros [-> ->]. exists (replicate (Z.to_nat hi) 0). rewrite length_replicate, Hturns, length_replicate.
      split_and!; [done|by apply Forall_replicate| |by destruct (after _ _ _ _)].
      destruct (decide (0 <= hi)); [by rewrite Z2Nat.id by lia|]. by rewrite !seqZ_nil by lia.
  - done.
  - intros j [] Hj _ t o'. rewrite Hbody by done.
    split; [intros [-> ->]; by exists 0|by intros (v & _ & -> & ->)].
  - done.
Qed.

(** ** Polling loops

    A loop that reads once per turn, leaves with [r] as soon as the value is
    [ready], and otherwise goes on until its bound. *)

Definition poll_trace {C} (ready : Z -> bool) (miss hit : Z -> trace C) (limit : Z)
    (tr : trace C) (found : bool) : Prop :=
  exists pre : list Z, Forall (fun v => fits 32 v /\ ready v = false) pre /\
    if found then
      exists v, Z.of_nat (length pre) < limit /\ fits 32 v /\ ready v = true /\
        tr = concat (miss <$> pre) ++ hit v
    else Z.of_nat (length pre) = limit /\ tr = concat (miss <$> pre).

Section poll.
Context {C R : Type} `{HC : Calls C} (ready : Z -> bool) (miss hit : Z -> trace C) (r : R).
Context (body : Z -> unit -> prog C (unit + R)).
Hypothesis Hbody : forall i tr o, exec (body i tt) tr o <->
  exists v, fits 32 v /\
    if ready v then tr = hit v /\ o = Ok (inr r) else tr = miss v /\ o = Ok (inl tt).

Lemma poll_fuel_iff fuel i hi tr o :
  fits 32 hi -> 0 <= i <= hi -> (Z.to_nat (hi - i) < fuel)%nat ->
  exec (for_ret_fuel fuel i hi body tt) tr o <->
  exists found, poll_trace ready miss hit (hi - i) tr found /\
    o = Ok (if found then inr r else inl tt).
Proof using Hbody.
  intros Hhi. revert i tr. induction fuel as [|f IH]; intros i tr Hi Hf; [lia|].
  simpl. destruct (Z.ltb_spec i hi) as [Hlt|Hge].
  - rewrite exec_bind_iff.
    assert (Hnext : u32 (i + 1) = i + 1) by (apply wrap_small; unfold fits in *; lia).
    rewrite Hnext. split.
    + intros [(a & t1 & t2 & -> & H1 & H2)|(u & -> & H1)];
        apply Hbody in H1 as (v & Hv & Hr); destruct (ready v) eqn:Hrv; destruct Hr as [-> Hr];
        inversion Hr; subst.
      * apply exec_ret_iff in H2 as [-> ->]. exists true. split; [|done].
        exists []. split; [constructor|]. exists v. rewrite app_nil_r. simpl.
        split_and!; [lia|done..].
      * apply IH in H2 as (found & (pre & Hpre & Hfound) & ->); [|lia..].
        exists found. split; [|done]. exists (v :: pre). split; [by constructor|].
        destruct found.
        -- destruct Hfound as (w & Hlen & Hw & Hrw & ->). exists w. simpl.
           split_and!; [lia|done|done|by rewrite app_assoc].
        -- destruct Hfound as [Hlen ->]. simpl. split; [lia|done].
    + intros (found & (pre & Hpre & Hfound) & ->). left. destruct pre as [|v pre].
      * destruct found; simpl in Hfound; [|lia].
        destruct Hfound as (w & _ & Hw & Hrw & ->).
        exists (inr r), (hit w), []. split_and!; [by rewrite app_nil_r| |constructor].
        apply Hbody. exists w. by rewrite Hrw.
      * apply Forall_cons_1 in Hpre as [[Hv Hrv] Hpre].
        exists (inl tt), (miss v). destruct found; simpl in Hfound.
        -- destruct Hfound as (w & Hlen & Hw & Hrw & ->).
           exists (concat (miss <$> pre) ++ hit w).
           split_and!; [by rewrite app_assoc|apply Hbody; exists v; by rewrite Hrv|].
           apply IH; [lia..|]. exists true. split; [|done]. exists pre. split; [done|].
           exists w. split_and!; [lia|done..].
        -- destruct Hfound as [Hlen ->]. exists (concat (miss <$> pre)).
           split_and!; [done|apply Hbody; exists v; by rewrite Hrv|].
           apply IH; [lia..|]. exists false. split; [|done]. exists pre. split; [done|].
           split; [lia|done].
  - unfold mret, prog_mret. rewrite exec_ret_iff. split.
    + intros [-> ->]. exists false. split; [|done]. exists []. split; [constructor|].
      simpl. split; [lia|done].
    + intros (found & (pre & Hpre & Hfound) & ->). destruct found.
      * destruct Hfound as (w & Hlen & _). lia.
      * destruct Hfound as [Hlen ->]. destruct pre; [done|simpl in Hlen; lia].
Qed.

Lemma poll_iff hi tr o :
  fits 32 hi ->
  exec (for_ret hi body tt) tr o <->
  exists found, poll_trace ready miss hit hi tr found /\
    o = Ok (if found then inr r else inl tt).
Proof using Hbody.
  intros Hhi. unfold for_ret. rewrite poll_fuel_iff; [|done|unfold fits in *; lia..].
  by rewrite Z.sub_0_r.
Qed.
End poll.

(** [step_exec]: compute the next calls of a straight piece of code and turn
    the execution into equations on its trace. *)
Ltac step_exec :=
  unfold mbind, mret, prog_mbind, prog_mret, call, do_; simpl;
  repeat first
    [ rewrite exec_call_iff | rewrite exec_ret_iff | rewrite exec_fault_iff ].
