(* ===== verification/Runtime.v ===== *)
(** * The user-space runtime: device lifecycle, status, IRQ, submission, DMA

    [sw/runtime/liblgnpu.c], [sw/runtime/submit.c] and
    [sw/runtime/mmio_helpers.h] as programs over two calls, a 32-bit volatile
    load and a 32-bit volatile store. Pointers that the code tests against
    NULL are options; the MMIO base is an optional byte address, and an access
    through a NULL base is a fault. *)

From S2P Require Import Prelude Regs Command Prog.

Open Scope Z_scope.

(** ** Volatile accesses *)

Inductive mmio := Load (addr : Z) | Store (addr v : Z).

#[export] Instance mmio_eq_dec : EqDecision mmio.
Proof. solve_decision. Defined.

#[export] Instance mmio_returns : Calls mmio := fun c v =>
  match c with Load _ => fits 32 v | Store _ _ => v = 0 end.

(** ** sw/uapi/lgnpu_ioctl.h *)

Record npu_device := mk_dev { base : option Z }.

Definition LGNPU_DMA_TO_DEVICE : Z := 0.
Definition LGNPU_DMA_FROM_DEVICE : Z := 1.

Record npu_dma_req := mk_dma_req { ext_addr : Z; loc_addr : Z; len : Z; dir : Z }.

Definition dma_req_wf (r : npu_dma_req) : Prop :=
  fits 32 (ext_addr r) /\ fits 16 (loc_addr r) /\ fits 16 (len r).

Record npu_status := mk_status { idle : Z; busy : Z; queue_full : Z }.

Record npu_device_info := mk_info {
  version_major : Z; version_minor : Z; num_backends : Z;
  array_rows : Z; array_cols : Z; dtypes_supported : Z }.

(** ** sw/runtime/mmio_helpers.h *)

(** [dev->base[i]] as a value and as the target of an assignment. *)
Definition base_load (dev : npu_device) (i : Z) : prog mmio Z :=
  match base dev with
  | Some b => call (Load (b + 4 * i))
  | None => Fault NullDeref
  end.

Definition base_store (dev : npu_device) (i value : Z) : prog mmio unit :=
  match base dev with
  | Some b => do_ (Store (b + 4 * i) value)
  | None => Fault NullDeref
  end.

Definition npu_mmio_read (dev : npu_device) (offset : Z) : prog mmio Z :=
  base_load dev (offset / 4).

Definition npu_mmio_write (dev : npu_device) (offset value : Z) : prog mmio unit :=
  base_store dev (offset / 4) value.

(** C truth values of an [int]. *)
Definition b2z (b : bool) : Z := if b then 1 else 0.

Definition testmask (v mask : Z) : bool := negb (Z.land v mask =? 0).

(** ** sw/runtime/liblgnpu.c *)

Definition npu_open (dev : option npu_device) (mmio_base : option Z) : Z * option npu_device :=
  match dev, mmio_base with
  | Some _, Some _ => (0, Some (mk_dev mmio_base))
  | _, _ => (-1, dev)
  end.

Definition npu_close (dev : option npu_device) : Z * option npu_device :=
  match dev with
  | Some _ => (0, Some (mk_dev None))
  | None => (-1, dev)
  end.

(** The shape the four control writes share is written out in each, as in the
    source. *)
Definition npu_reset (dev : option npu_device) : prog mmio Z :=
  match dev with
  | None => mret (-1)
  | Some dev =>
      npu_mmio_write dev (uapi_reg R_CTRL) LGNPU_CTRL_SOFT_RESET;;
      mret 0
  end.

Definition npu_enable (dev : option npu_device) : prog mmio Z :=
  match dev with
  | None => mret (-1)
  | Some dev =>
      npu_mmio_write dev (uapi_reg R_CTRL) LGNPU_CTRL_ENABLE;;
      mret 0
  end.

(** [out] is the caller's object, or NULL; the result carries it back. *)
Definition npu_read_status (dev : option npu_device) (out : option npu_status)
  : prog mmio (Z * option npu_status) :=
  match dev, out with
  | Some dev, Some _ =>
      val ← npu_mmio_read dev (uapi_reg R_STATUS);
      mret (0, Some (mk_status (b2z (testmask val LGNPU_STATUS_IDLE))
                               (b2z (testmask val LGNPU_STATUS_BUSY))
                               (b2z (testmask val LGNPU_STATUS_QUEUE_FULL))))
  | _, _ => mret (-1, out)
  end.

Definition info_of (val : Z) : npu_device_info :=
  mk_info (u8 (Z.land (val ≫ 24) 0xFF))
          (u8 (Z.land (val ≫ 16) 0xFF))
          (u8 (Z.land (val ≫ 12) 0x0F))
          (u8 (Z.land (val ≫ 8) 0x0F))
          (u8 (Z.land (val ≫ 4) 0x0F))
          (u8 (Z.land val 0x0F)).

Definition npu_read_info (dev : option npu_device) (out : option npu_device_info)
  : prog mmio (Z * option npu_device_info) :=
  match dev, out with
  | Some dev, Some _ =>
      val ← npu_mmio_read dev (uapi_reg R_FEATURE_ID);
      mret (0, Some (info_of val))
  | _, _ => mret (-1, out)
  end.

(** A loop that ends without [return] falls through to [return -1]. *)
Definition or_timeout (o : unit + Z) : Z := match o with inl _ => -1 | inr r => r end.

Definition npu_poll_idle (dev : option npu_device) (timeout_cycles : Z) : prog mmio Z :=
  match dev with
  | None => mret (-1)
  | Some dev =>
      o ← for_ret timeout_cycles (fun _ _ =>
        val ← npu_mmio_read dev (uapi_reg R_STATUS);
        if testmask val LGNPU_STATUS_IDLE && negb (testmask val LGNPU_STATUS_BUSY)
        then mret (inr 0) else mret (inl tt)) tt;
      mret (or_timeout o)
  end.

Definition npu_irq_enable (dev : option npu_device) : prog mmio Z :=
  match dev with
  | None => mret (-1)
  | Some dev => npu_mmio_write dev (uapi_reg R_IRQ_ENABLE) 1;; mret 0
  end.

Definition npu_irq_disable (dev : option npu_device) : prog mmio Z :=
  match dev with
  | None => mret (-1)
  | Some dev => npu_mmio_write dev (uapi_reg R_IRQ_ENABLE) 0;; mret 0
  end.

Definition npu_irq_clear (dev : option npu_device) : prog mmio Z :=
  match dev with
  | None => mret (-1)
  | Some dev => npu_mmio_write dev (uapi_reg R_IRQ_CLEAR) 1;; mret 0
  end.

Definition npu_irq_pending (dev : option npu_device) : prog mmio Z :=
  match dev with
  | None => mret 0
  | Some dev =>
      v ← npu_mmio_read dev (uapi_reg R_IRQ_STATUS);
      mret (b2z (testmask v 1))
  end.

Definition npu_perf_read_cycles (dev : option npu_device) : prog mmio Z :=
  match dev with
  | None => mret 0
  | Some dev => npu_mmio_read dev (uapi_reg R_PERF_CYCLES)
  end.

Definition npu_perf_read_active (dev : option npu_device) : prog mmio Z :=
  match dev with
  | None => mret 0
  | Some dev => npu_mmio_read dev (uapi_reg R_PERF_ACTIVE)
  end.

Definition npu_perf_read_stall (dev : option npu_device) : prog mmio Z :=
  match dev with
  | None => mret 0
  | Some dev => npu_mmio_read dev (uapi_reg R_PERF_STALL)
  end.

(** ** sw/runtime/submit.c *)

Definition npu_submit (dev : option npu_device) (desc : option npu_cmd_desc) : prog mmio Z :=
  match dev, desc with
  | Some dev, Some desc =>
      let queue := uapi_region CMD_QUEUE / 4 in
      for_ret (R:=Z) LGNPU_CMD_WORDS (fun i _ =>
        w ← lift (load (words desc) i);
        base_store dev (queue + i) w;;
        mret (inl tt)) tt;;
      npu_mmio_write dev (uapi_reg R_DOORBELL) 1;;
      mret 0
  | _, _ => mret (-1)
  end.

Definition npu_dma_start (dev : option npu_device) (req : option npu_dma_req) : prog mmio Z :=
  match dev, req with
  | Some dev, Some req =>
      npu_mmio_write dev (uapi_reg R_DMA_EXT_ADDR) (ext_addr req);;
      npu_mmio_write dev (uapi_reg R_DMA_LOC_ADDR) (loc_addr req);;
      npu_mmio_write dev (uapi_reg R_DMA_LEN) (len req);;
      let ctrl := LGNPU_DMA_CTRL_START in
      let ctrl := if dir req =? LGNPU_DMA_FROM_DEVICE
                  then Z.lor ctrl LGNPU_DMA_CTRL_DIR else ctrl in
      npu_mmio_write dev (uapi_reg R_DMA_CTRL) ctrl;;
      mret 0
  | _, _ => mret (-1)
  end.

Definition npu_dma_poll (dev : option npu_device) (timeout_cycles : Z) : prog mmio Z :=
  match dev with
  | None => mret (-1)
  | Some dev =>
      o ← for_ret timeout_cycles (fun _ _ =>
        v ← npu_mmio_read dev (uapi_reg R_DMA_STATUS);
        if negb (testmask v LGNPU_DMA_STATUS_BUSY)
        then mret (inr 0) else mret (inl tt)) tt;
      mret (or_timeout o)
  end.

(** ** Traces of the operations *)

Definition rd (b : Z) (r : reg) (v : Z) : mmio * Z := (Load (b + uapi_reg r), v).
Definition wr (b : Z) (r : reg) (v : Z) : mmio * Z := (Store (b + uapi_reg r) v, 0).

(** Stores of consecutive words from offset [off]. *)
Definition window_stores (b off : Z) (ws : list Z) : trace mmio :=
  imap (fun i w => (Store (b + off + 4 * Z.of_nat i) w, 0)) ws.

Lemma reg_word r : 4 * (uapi_reg r / 4) = uapi_reg r.
Proof. by destruct r. Qed.

Lemma store_returns a v w : returns (Store a v) w <-> w = 0.
Proof. done. Qed.

Lemma exec_write_iff {R} b r v (k : prog mmio R) tr o :
  exec (npu_mmio_write (mk_dev (Some b)) (uapi_reg r) v;; k) tr o <->
  exists tr', tr = wr b r v :: tr' /\ exec k tr' o.
Proof.
  unfold npu_mmio_write, base_store. simpl. rewrite reg_word. step_exec. split.
  - intros (w & tr' & -> & ->%store_returns & Hk). by exists tr'.
  - intros (tr' & -> & Hk). by exists 0, tr'.
Qed.

Lemma exec_read_iff {R} b r (k : Z -> prog mmio R) tr o :
  exec (npu_mmio_read (mk_dev (Some b)) (uapi_reg r) ≫= k) tr o <->
  exists v tr', tr = rd b r v :: tr' /\ fits 32 v /\ exec (k v) tr' o.
Proof. unfold npu_mmio_read, base_load. simpl. rewrite reg_word. by step_exec. Qed.

Lemma concat_singletons {A B} (f : A -> B) l : concat ((fun x => [f x]) <$> l) = f <$> l.
Proof. induction l as [|x l IH]; [done|]. simpl. by f_equal. Qed.

Lemma window_stores_loop b off ws :
  window_stores b off ws =
  (fun i => (Store (b + off + 4 * i) (ws !!! Z.to_nat i), 0)) <$> seqZ 0 (Z.of_nat (length ws)).
Proof.
  apply list_eq. intros i. unfold window_stores. rewrite list_lookup_imap, list_lookup_fmap.
  destruct (ws !! i) as [w|] eqn:Hw.
  - pose proof (lookup_lt_Some _ _ _ Hw). rewrite (proj2 (lookup_seqZ _ _ i (Z.of_nat i))) by lia.
    simpl. rewrite Nat2Z.id. erewrite list_lookup_total_correct; [done|by rewrite Hw].
  - apply lookup_ge_None in Hw. rewrite lookup_seqZ_ge by lia. done.
Qed.

Lemma submit_loop_iff b d tr o :
  desc_wf d ->
  exec (for_ret (R:=Z) LGNPU_CMD_WORDS (fun i _ =>
          w ← lift (load (words d) i);
          base_store (mk_dev (Some b)) (uapi_region CMD_QUEUE / 4 + i) w;;
          mret (inl tt)) tt) tr o <->
  tr = window_stores b (uapi_region CMD_QUEUE) (words d) /\ o = Ok (inl tt).
Proof.
  intros [Hlen Hws].
  rewrite (for_ret_straight
    (fun i => [(Store (b + uapi_region CMD_QUEUE + 4 * i) (words d !!! Z.to_nat i), 0)])).
  - rewrite concat_singletons, window_stores_loop, Hlen. done.
  - done.
  - intros j t o' Hj. unfold load. rewrite decide_True by lia.
    destruct (words d !! Z.to_nat j) as [w|] eqn:Hw;
      [|apply lookup_ge_None in Hw; rewrite <- Hlen in Hj; lia].
    rewrite (list_lookup_total_correct _ _ _ Hw). simpl.
    step_exec. change (4096 / 4) with 1024.
    replace (b + 4 * (1024 + j)) with (b + 4096 + 4 * j) by lia. split.
    + by intros (v & t' & -> & ->%store_returns & [-> ->]%exec_ret_iff).
    + intros [-> ->]. exists 0, []. split_and!; [done..|constructor].
Qed.

Lemma poll_read_body b r (ready : Z -> bool) (i : Z) tr (o : res (unit + Z)) :
  exec (val ← npu_mmio_read (mk_dev (Some b)) (uapi_reg r);
        if ready val then mret (inr 0) else mret (inl tt)) tr o <->
  exists v, fits 32 v /\
    if ready v then tr = [rd b r v] /\ o = Ok (inr 0) else tr = [rd b r v] /\ o = Ok (inl tt).
Proof.
  rewrite exec_read_iff. split.
  - intros (v & t' & -> & Hv & Hk). exists v. split; [done|].
    destruct (ready v); by apply exec_ret_iff in Hk as [-> ->].
  - intros (v & Hv & Hr). exists v, []. destruct (ready v); destruct Hr as [-> ->];
      (split_and!; [done..|constructor]).
Qed.

Lemma submit_calls b d tr o :
  desc_wf d ->
  exec (npu_submit (Some (mk_dev (Some b))) (Some d)) tr o <->
  o = Ok 0 /\
  tr = window_stores b (uapi_region CMD_QUEUE) (words d) ++ [wr b R_DOORBELL 1].
Proof.
  intros Hd. unfold npu_submit. rewrite exec_bind_iff. setoid_rewrite submit_loop_iff; [|done..].
  setoid_rewrite exec_write_iff. setoid_rewrite exec_ret_iff. split.
  - intros [(a & t1 & t2 & -> & [-> Ha] & (t & -> & -> & ->))|(u & _ & _ & [=])]. done.
  - intros [-> ->]. left. eexists _, _, _. split_and!; [done|done|done|]. by exists [].
Qed.

(** ** Properties *)

(** On an open device and a well-typed descriptor, [npu_submit] stores the
    sixteen words at consecutive addresses of the command window, in order,
    then rings the doorbell with 1, does nothing else, and returns 0. *)
Theorem submit_trace b d tr o :
  desc_wf d ->
  exec (npu_submit (Some (mk_dev (Some b))) (Some d)) tr o <->
  o = Ok 0 /\
  tr = window_stores b (uapi_region CMD_QUEUE) (words d) ++ [wr b R_DOORBELL 1].
Proof. apply submit_calls. Qed.

Theorem submit_trace_witness :
  let d := mk_desc (Z.of_nat <$> seq 0 16) in
  exec (npu_submit (Some (mk_dev (Some 0x40000000))) (Some d))
       (((fun i => (Store (0x40001000 + 4 * Z.of_nat i) (Z.of_nat i), 0)) <$> seq 0 16) ++
        [(Store 0x40000008 1, 0)]) (Ok 0).
Proof.
  intros d. apply (submit_trace 0x40000000 d);
    [by apply (bool_decide_unpack _); vm_compute|split; reflexivity].
Defined.

Lemma dma_start_calls b r tr o :
  exec (npu_dma_start (Some (mk_dev (Some b))) (Some r)) tr o <->
  o = Ok 0 /\
  tr = [wr b R_DMA_EXT_ADDR (ext_addr r); wr b R_DMA_LOC_ADDR (loc_addr r);
        wr b R_DMA_LEN (len r);
        wr b R_DMA_CTRL (if dir r =? LGNPU_DMA_FROM_DEVICE then 3 else 1)].
Proof.
  unfold npu_dma_start. rewrite exec_write_iff. setoid_rewrite exec_write_iff.
  setoid_rewrite exec_write_iff. setoid_rewrite exec_write_iff. setoid_rewrite exec_ret_iff.
  replace (if dir r =? LGNPU_DMA_FROM_DEVICE then 3 else 1) with
    (if dir r =? LGNPU_DMA_FROM_DEVICE
     then Z.lor LGNPU_DMA_CTRL_START LGNPU_DMA_CTRL_DIR else LGNPU_DMA_CTRL_START)
    by by destruct (dir r =? LGNPU_DMA_FROM_DEVICE).
  split.
  - intros (t1 & -> & t2 & -> & t3 & -> & t4 & -> & -> & ->). done.
  - intros [-> ->]. eauto 12.
Qed.

(** [npu_dma_start] programs external address, local address and length,
    and only then starts the engine; DIR is set exactly when the requested
    direction is [LGNPU_DMA_FROM_DEVICE] (any other value means to-device). *)
Theorem dma_start_trace b r tr o :
  exec (npu_dma_start (Some (mk_dev (Some b))) (Some r)) tr o <->
  o = Ok 0 /\
  tr = [wr b R_DMA_EXT_ADDR (ext_addr r); wr b R_DMA_LOC_ADDR (loc_addr r);
        wr b R_DMA_LEN (len r);
        wr b R_DMA_CTRL (if dir r =? LGNPU_DMA_FROM_DEVICE then 3 else 1)].
Proof. apply dma_start_calls. Qed.

Definition idle_ready (v : Z) : bool :=
  testmask v LGNPU_STATUS_IDLE && negb (testmask v LGNPU_STATUS_BUSY).

Definition dma_ready (v : Z) : bool := negb (testmask v LGNPU_DMA_STATUS_BUSY).

Lemma poll_reads_iff b r (ready : Z -> bool) t tr o :
  fits 32 t ->
  exec (x ← for_ret t (fun _ _ =>
          val ← npu_mmio_read (mk_dev (Some b)) (uapi_reg r);
          if ready val then mret (inr 0) else mret (inl tt)) tt;
        mret (or_timeout x)) tr o <->
  exists found,
    poll_trace ready (fun v => [rd b r v]) (fun v => [rd b r v]) t tr found /\
    o = Ok (if found then 0 else -1).
Proof.
  intros Ht. rewrite exec_bind_iff.
  setoid_rewrite (poll_iff ready (fun v => [rd b r v]) (fun v => [rd b r v]) 0
    _ (fun i tr o => poll_read_body b r ready i tr o) t); [|done..].
  setoid_rewrite exec_ret_iff. split.
  - intros [(a & t1 & t2 & -> & (found & Hp & [= ->]) & -> & ->)|(u & _ & found & _ & [=])].
    exists found. rewrite app_nil_r. split; [done|by destruct found].
  - intros (found & Hp & ->). left. eexists _, tr, []. rewrite app_nil_r.
    split_and!; [done|by exists found|done|by destruct found].
Qed.

(** [npu_poll_idle] reads STATUS at most [timeout_cycles] times and nothing
    else: it returns 0 exactly at the first value with IDLE set and BUSY
    clear, and -1 exactly when [timeout_cycles] values without one were read. *)
Theorem poll_idle_spec b t tr o :
  fits 32 t ->
  exec (npu_poll_idle (Some (mk_dev (Some b))) t) tr o <->
  exists found,
    poll_trace idle_ready (fun v => [rd b R_STATUS v]) (fun v => [rd b R_STATUS v]) t tr found /\
    o = Ok (if found then 0 else -1).
Proof. apply (poll_reads_iff b R_STATUS idle_ready). Qed.

Theorem poll_idle_spec_witness :
  exec (npu_poll_idle (Some (mk_dev (Some 0))) 3) [(Load 4, 2); (Load 4, 3); (Load 4, 1)] (Ok 0).
Proof.
  apply (poll_idle_spec 0 3); [done|]. exists true. split; [|done].
  exists [2; 3]. split; [by apply (bool_decide_unpack _); vm_compute|]. by exists 1.
Defined.

(** [npu_dma_poll] does the same on DMA_STATUS: 0 at the first value with
    BUSY clear, -1 after [timeout_cycles] busy values. *)
Theorem dma_poll_spec b t tr o :
  fits 32 t ->
  exec (npu_dma_poll (Some (mk_dev (Some b))) t) tr o <->
  exists found,
    poll_trace dma_ready (fun v => [rd b R_DMA_STATUS v]) (fun v => [rd b R_DMA_STATUS v]) t tr found /\
    o = Ok (if found then 0 else -1).
Proof. apply (poll_reads_iff b R_DMA_STATUS dma_ready). Qed.

Theorem dma_poll_spec_witness :
  exec (npu_dma_poll (Some (mk_dev (Some 0))) 2) [(Load 64, 1); (Load 64, 5)] (Ok (-1)).
Proof.
  apply (dma_poll_spec 0 2); [done|]. exists false. split; [|done].
  exists [1; 5]. split; [by apply (bool_decide_unpack _); vm_compute|done].
Defined.

(** ** Decoding of the status and feature registers *)

Lemma testmask_bit v n : 0 <= n -> testmask v (Z.shiftl 1 n) = Z.testbit v n.
Proof.
  intros Hn. unfold testmask. destruct (Z.testbit v n) eqn:Hb.
  - apply negb_true_iff, Z.eqb_neq. intros Hz.
    assert (Z.testbit (Z.land v (Z.shiftl 1 n)) n = true) as Ht.
    { rewrite Z.land_spec, Hb, Z.shiftl_spec, Z.sub_diag by done. done. }
    by rewrite Hz, Z.bits_0 in Ht.
  - apply negb_false_iff, Z.eqb_eq. apply Z.bits_inj'. intros m Hm.
    rewrite Z.land_spec, Z.bits_0, Z.shiftl_spec by done.
    destruct (decide (m = n)) as [->|]; [by rewrite Hb|].
    destruct (decide (m < n)).
    + rewrite (Z.testbit_neg_r 1 (m - n)) by lia. apply andb_false_r.
    + rewrite (fits_testbit 1 1 (m - n)) by (done || lia). apply andb_false_r.
Qed.

(** The field values of FEATURE_ID and their positions. *)
Definition info_word (i : npu_device_info) : Z :=
  version_major i * 2 ^ 24 + version_minor i * 2 ^ 16 + num_backends i * 2 ^ 12 +
  array_rows i * 2 ^ 8 + array_cols i * 2 ^ 4 + dtypes_supported i.

Definition info_wf (i : npu_device_info) : Prop :=
  fits 8 (version_major i) /\ fits 8 (version_minor i) /\ fits 4 (num_backends i) /\
  fits 4 (array_rows i) /\ fits 4 (array_cols i) /\ fits 4 (dtypes_supported i).

Lemma info_field v s n :
  0 <= n <= 8 -> 0 <= s -> u8 (Z.land (v ≫ s) (2 ^ n - 1)) = (v / 2 ^ s) mod 2 ^ n.
Proof.
  intros Hn Hs. rewrite land_mask, Z.shiftr_div_pow2 by lia.
  apply wrap_small. eapply fits_mono; [|apply fits_wrap]; lia.
Qed.

Lemma info_of_fields v :
  info_of v = mk_info (v / 2 ^ 24 mod 256) (v / 2 ^ 16 mod 256) (v / 2 ^ 12 mod 16)
                      (v / 2 ^ 8 mod 16) (v / 2 ^ 4 mod 16) (v mod 16).
Proof.
  unfold info_of. rewrite <- (Z.shiftr_0_r v) at 6.
  change 0xFF with (2 ^ 8 - 1). change 0x0F with (2 ^ 4 - 1).
  rewrite !info_field by lia. by rewrite Z.pow_0_r, Z.div_1_r.
Qed.

Lemma info_of_word v : fits 32 v -> info_wf (info_of v) /\ info_word (info_of v) = v.
Proof.
  intros Hv. rewrite info_of_fields. unfold info_wf, info_word, fits in *. simpl.
  change (Z.pow_pos 2 24) with 16777216. change (Z.pow_pos 2 16) with 65536.
  change (Z.pow_pos 2 12) with 4096. change (Z.pow_pos 2 8) with 256.
  change (Z.pow_pos 2 4) with 16. change (2 ^ 32) with 4294967296 in Hv.
  split; Z.to_euclidean_division_equations; lia.
Qed.

Lemma info_word_inj i j : info_wf i -> info_wf j -> info_word i = info_word j -> i = j.
Proof.
  destruct i, j. unfold info_wf, info_word, fits. simpl.
  change (Z.pow_pos 2 24) with 16777216. change (Z.pow_pos 2 16) with 65536.
  change (Z.pow_pos 2 12) with 4096. change (Z.pow_pos 2 8) with 256.
  change (Z.pow_pos 2 4) with 16. intros. f_equal; lia.
Qed.

(** Each status query performs exactly one register read and decodes it:
    [npu_read_status] gives bits 0 to 2 as 0/1, and [npu_read_info] gives the
    only in-range field values whose packing is the FEATURE_ID word. *)
Theorem queries_decode b :
  (forall out tr o,
     exec (npu_read_status (Some (mk_dev (Some b))) (Some out)) tr o <->
     exists v, fits 32 v /\ tr = [rd b R_STATUS v] /\
       o = Ok (0, Some (mk_status (b2z (Z.testbit v 0)) (b2z (Z.testbit v 1)) (b2z (Z.testbit v 2))))) /\
  (forall out tr o,
     exec (npu_read_info (Some (mk_dev (Some b))) (Some out)) tr o <->
     exists v i, fits 32 v /\ tr = [rd b R_FEATURE_ID v] /\ o = Ok (0, Some i) /\
       info_wf i /\ info_word i = v).
Proof.
  split; intros out tr o; unfold npu_read_status, npu_read_info; rewrite exec_read_iff;
    setoid_rewrite exec_ret_iff.
  - unfold LGNPU_STATUS_IDLE, LGNPU_STATUS_BUSY, LGNPU_STATUS_QUEUE_FULL.
    split; [intros (v & t & -> & Hv & -> & ->)|intros (v & Hv & -> & ->)].
    + exists v. by rewrite !testmask_bit.
    + exists v, []. by rewrite !testmask_bit.
  - split; [intros (v & t & -> & Hv & -> & ->)|intros (v & i & Hv & -> & -> & Hi & Hw)].
    + exists v, (info_of v). destruct (info_of_word v Hv). done.
    + exists v, []. split_and!; [done..|]. destruct (info_of_word v Hv) as [Hi' Hw'].
      do 3 f_equal. apply info_word_inj; congruence.
Qed.

(** ** NULL arguments and closed devices *)

(** A program that returns [r] without any device access. *)
Definition silent {A} (p : prog mmio A) (r : A) : Prop :=
  forall tr o, exec p tr o <-> tr = [] /\ o = Ok r.

(** A program whose first device access goes through a NULL base. *)
Definition faults {A} (p : prog mmio A) : Prop :=
  forall tr o, exec p tr o <-> tr = [] /\ o = UB NullDeref.

(** Every entry point of the library with a NULL device, descriptor,
    request or result pointer returns its error value (-1, or 0 for
    [npu_irq_pending] and the performance counters) and touches neither the
    device nor the caller's objects. *)
Theorem runtime_null dev t :
  (forall m, npu_open None m = (-1, None) /\ npu_open dev None = (-1, dev)) /\
  npu_close None = (-1, None) /\
  silent (npu_reset None) (-1) /\ silent (npu_enable None) (-1) /\
  (forall out, silent (npu_read_status None out) (-1, out)) /\
  silent (npu_read_status dev None) (-1, None) /\
  (forall out, silent (npu_read_info None out) (-1, out)) /\
  silent (npu_read_info dev None) (-1, None) /\
  silent (npu_poll_idle None t) (-1) /\ silent (npu_dma_poll None t) (-1) /\
  silent (npu_irq_enable None) (-1) /\ silent (npu_irq_disable None) (-1) /\
  silent (npu_irq_clear None) (-1) /\ silent (npu_irq_pending None) 0 /\
  silent (npu_perf_read_cycles None) 0 /\ silent (npu_perf_read_active None) 0 /\
  silent (npu_perf_read_stall None) 0 /\
  (forall d, silent (npu_submit None d) (-1)) /\ silent (npu_submit dev None) (-1) /\
  (forall r, silent (npu_dma_start None r) (-1)) /\ silent (npu_dma_start dev None) (-1).
Proof.
  split_and!; try (intros m; split; [done|by destruct dev]); try done;
    repeat intro; try destruct dev; apply exec_ret_iff.
Qed.

Lemma faults_bind {A B} (p : prog mmio A) (f : A -> prog mmio B) : faults p -> faults (p ≫= f).
Proof.
  intros Hp tr o. rewrite exec_bind_iff. split.
  - intros [(a & t1 & t2 & -> & [_ Ho]%Hp & _)|(u & -> & [-> Hu]%Hp)]; [done|by simplify_eq].
  - intros [-> ->]. right. exists NullDeref. by rewrite (Hp [] _).
Qed.

Lemma faults_null {A} : faults (Fault (R:=A) NullDeref).
Proof. intros tr o. apply exec_fault_iff. Qed.

Lemma faults_loop {A} t (body : Z -> unit -> prog mmio (unit + A)) :
  0 < t -> faults (body 0 tt) -> faults (for_ret t body tt).
Proof.
  intros Ht Hb. unfold for_ret. simpl. rewrite (proj2 (Z.ltb_lt 0 t)) by done.
  by apply faults_bind.
Qed.

(** After a successful [npu_open] the library uses the given base; after
    [npu_close] the base is NULL and, as no function tests it, every function
    that reaches the device dereferences NULL. *)
Theorem closed_device_faults b t d r st info :
  0 < t -> desc_wf d ->
  snd (npu_open (Some (mk_dev None)) (Some b)) = Some (mk_dev (Some b)) /\
  let closed := snd (npu_close (Some (mk_dev (Some b)))) in
  fst (npu_close (Some (mk_dev (Some b)))) = 0 /\
  faults (npu_reset closed) /\ faults (npu_enable closed) /\
  faults (npu_read_status closed (Some st)) /\ faults (npu_read_info closed (Some info)) /\
  faults (npu_poll_idle closed t) /\ faults (npu_dma_poll closed t) /\
  faults (npu_irq_enable closed) /\ faults (npu_irq_disable closed) /\
  faults (npu_irq_clear closed) /\ faults (npu_irq_pending closed) /\
  faults (npu_perf_read_cycles closed) /\ faults (npu_perf_read_active closed) /\
  faults (npu_perf_read_stall closed) /\
  faults (npu_submit closed (Some d)) /\ faults (npu_dma_start closed (Some r)).
Proof.
  intros Ht [Hlen _]. split; [done|]. intros closed. split_and!; try done; try apply faults_null.
  - by apply faults_bind, faults_loop, faults_null.
  - by apply faults_bind, faults_loop, faults_null.
  - apply faults_bind, faults_loop; [done|]. destruct (words d) as [|w ws] eqn:Hw; [done|].
    apply faults_null.
Qed.

Theorem closed_device_faults_witness :
  faults (npu_submit (Some (mk_dev None)) (Some (mk_desc (replicate 16 0)))).
Proof.
  apply (closed_device_faults 0 1 (mk_desc (replicate 16 0)) (mk_dma_req 0 0 0 0)
           (mk_status 0 0 0) (mk_info 0 0 0 0 0 0)); [done|].
  by apply (bool_decide_unpack _); vm_compute.
Defined.

(** [p] stores [v] in register [r] and returns 0. *)
Definition stores_one (b : Z) (p : prog mmio Z) (r : reg) (v : Z) : Prop :=
  forall tr o, exec p tr o <-> tr = [wr b r v] /\ o = Ok 0.

(** [p] loads register [r] once and returns [f] of the value. *)
Definition loads_one (b : Z) (p : prog mmio Z) (r : reg) (f : Z -> Z) : Prop :=
  forall tr o, exec p tr o <-> exists v, fits 32 v /\ tr = [rd b r v] /\ o = Ok (f v).

Lemma stores_one_intro b r v :
  stores_one b (npu_mmio_write (mk_dev (Some b)) (uapi_reg r) v;; mret 0) r v.
Proof.
  intros tr o. rewrite exec_write_iff. setoid_rewrite exec_ret_iff. split.
  - by intros (t & -> & -> & ->).
  - intros [-> ->]. by exists [].
Qed.

Lemma loads_one_intro b r f :
  loads_one b (v ← npu_mmio_read (mk_dev (Some b)) (uapi_reg r); mret (f v)) r f.
Proof.
  intros tr o. rewrite exec_read_iff. setoid_rewrite exec_ret_iff. split.
  - intros (v & t & -> & Hv & -> & ->). by exists v.
  - intros (v & Hv & -> & ->). by exists v, [].
Qed.

(** The remaining operations are single accesses to their own register:
    CTRL is written with SOFT_RESET alone by reset and ENABLE alone by enable,
    IRQ_ENABLE with 1 or 0, IRQ_CLEAR with 1; [npu_irq_pending] is bit 0 of
    IRQ_STATUS, and each counter reader returns its counter unchanged. *)
Theorem register_operations b :
  let dev := Some (mk_dev (Some b)) in
  stores_one b (npu_reset dev) R_CTRL 1 /\ stores_one b (npu_enable dev) R_CTRL 2 /\
  stores_one b (npu_irq_enable dev) R_IRQ_ENABLE 1 /\
  stores_one b (npu_irq_disable dev) R_IRQ_ENABLE 0 /\
  stores_one b (npu_irq_clear dev) R_IRQ_CLEAR 1 /\
  loads_one b (npu_irq_pending dev) R_IRQ_STATUS (fun v => b2z (Z.testbit v 0)) /\
  loads_one b (npu_perf_read_cycles dev) R_PERF_CYCLES id /\
  loads_one b (npu_perf_read_active dev) R_PERF_ACTIVE id /\
  loads_one b (npu_perf_read_stall dev) R_PERF_STALL id.
Proof.
  intros dev. split_and!; try apply stores_one_intro;
    [|apply (loads_one_intro b _ id)..].
  intros tr o. unfold npu_irq_pending, dev.
  rewrite (loads_one_intro b R_IRQ_STATUS (fun v => b2z (testmask v 1)) tr o).
  by setoid_rewrite (fun v => testmask_bit v 0).
Qed.
