(* ===== verification/Driver.v ===== *)
(** * The Linux driver

    Every function of [sw/driver/] as a program over the kernel services it
    calls. The kernel is not part of the repository: its services are calls
    whose results range over what the kernel documents ([kernel_returns]), and
    its constants and pure helpers are the parameters of the class [Kernel]. *)

From Stdlib Require Import String.
From S2P Require Import Prelude Regs Command Prog Runtime.
From stdpp Require Import strings.

Open Scope Z_scope.

(** ** The kernel *)

Class Kernel := {
  ENODEV : Z; EBUSY : Z; EFAULT : Z; EINVAL : Z; ENOTTY : Z; ENOMEM : Z;
  ETIMEDOUT : Z; ERESTARTSYS : Z;
  IRQ_NONE : Z; IRQ_HANDLED : Z; IRQF_SHARED : Z; MISC_DYNAMIC_MINOR : Z;
  IO_ : Z -> Z -> Z;                     (* _IO(magic, nr) *)
  IOR_ : Z -> Z -> Z -> Z;               (* _IOR(magic, nr, size) *)
  IOW_ : Z -> Z -> Z -> Z;
  msecs_to_jiffies : Z -> Z;
  IS_ERR : Z -> bool; PTR_ERR : Z -> Z;
  (* used by npu_irq.c and defined nowhere in the repository *)
  LGNPU_IRQ_STATUS_PENDING : Z;
}.

(** The calls of the driver. Locks and the completion are the fields of the
    one device: [cmd_lock], [irq_lock], [cmd_done]. *)
Inductive kcall :=
| Readl (addr : Z) | Writel (v addr : Z)
| MemcpyToio (addr : Z) (data : list Z) | MemcpyFromio (addr count : Z)
| MutexInit | MutexLock | MutexUnlock
| SpinInit | SpinLock | SpinUnlock | SpinLockIrqsave | SpinUnlockIrqrestore
| InitCompletion | ReinitCompletion | Complete | WaitCompletion (jiffies : Z)
| Udelay (us : Z) | DevErr (msg : string) (args : list Z) | DevInfo (msg : string) (args : list Z)
| CopyToUser (uptr : Z) (data : list Z) (size : Z) | CopyFromUser (uptr size : Z)
| DevmKzalloc | SetDrvdata | GetDrvdata
| IoremapResource (index : Z) | PlatformGetIrq (index : Z)
| RequestIrq (irq flags : Z) (name : string)
| MiscRegister (minor : Z) (name : string) | MiscDeregister.

#[export] Instance kcall_eq_dec : EqDecision kcall.
Proof. solve_decision. Defined.

(** Documented results: a 32-bit value from [readl], the number of bytes left
    from the user copies, the remaining time, 0 or [-ERESTARTSYS] from the
    interruptible wait, an [int] from the resource functions, 0 where the
    kernel function returns nothing. *)
#[export] Instance kernel_returns `{Kernel} : Calls kcall := fun c v =>
  match c with
  | Readl _ => fits 32 v
  | WaitCompletion j => v = - ERESTARTSYS \/ 0 <= v <= Z.max 1 j
  | CopyToUser _ _ n | CopyFromUser _ n => 0 <= v <= n
  | DevmKzalloc | IoremapResource _ | GetDrvdata => True
  | PlatformGetIrq _ | RequestIrq _ _ _ | MiscRegister _ _ => INT_MIN <= v <= INT_MAX
  | _ => v = 0
  end.

(** ** sw/driver/lgnpu_drv.h *)

Definition drv_CMD_ENTRY_BYTES : Z := 64.
Definition drv_CMD_WORDS : Z := drv_CMD_ENTRY_BYTES / 4.
Definition BIT (n : Z) : Z := 1 ≪ n.
Definition drv_CTRL_SOFT_RESET : Z := BIT 0.
Definition drv_CTRL_ENABLE : Z := BIT 1.
Definition drv_STATUS_IDLE : Z := BIT 0.
Definition drv_STATUS_BUSY : Z := BIT 1.
Definition drv_STATUS_QUEUE_FULL : Z := BIT 2.
Definition LGNPU_STATUS_PENDING : Z := BIT 0.
Definition drv_DMA_CTRL_START : Z := BIT 0.
Definition drv_DMA_CTRL_DIR : Z := BIT 1.
Definition drv_DMA_STATUS_BUSY : Z := BIT 0.
Definition drv_DMA_FROM_DEVICE : Z := 1.
Definition LGNPU_DMA_POLL_ITERS : Z := 10000.
Definition LGNPU_DMA_POLL_US : Z := 1.
Definition LGNPU_CMD_TIMEOUT_MS : Z := 5000.
Definition LGNPU_DRV_NAME : string := "lgnpu".

(** The fields of [struct lgnpu_device] that hold data; the two locks and the
    completion live in the kernel. *)
Record lgnpu_device := mk_npu {
  regs : Z; irq : Z; miscdev_minor : Z; miscdev_name : string; feature_id : Z }.

(** ** sw/driver/lgnpu_uapi.h *)

Record lgnpu_ioctl_status := mk_ist { st_idle : Z; st_busy : Z; st_queue_full : Z }.

Record lgnpu_ioctl_info := mk_iinfo {
  ii_version_major : Z; ii_version_minor : Z; ii_num_backends : Z; ii_array_rows : Z;
  ii_array_cols : Z; ii_dtypes_supported : Z; ii_pad0 : Z; ii_pad1 : Z }.

Record lgnpu_ioctl_dma := mk_idma { id_ext_addr : Z; id_loc_addr : Z; id_len : Z; id_dir : Z }.

Record lgnpu_ioctl_perf := mk_iperf { ip_cycles : Z; ip_active : Z; ip_stall : Z }.

Definition sizeof_ioctl_status : Z := 3 * 4.
Definition sizeof_ioctl_info : Z := 8.
Definition sizeof_ioctl_submit : Z := 16 * 4.
Definition sizeof_ioctl_dma : Z := 4 * 4.
Definition sizeof_ioctl_perf : Z := 3 * 4.

Definition LGNPU_IOC_MAGIC : Z := 0x4C. (* 'L' *)

Section driver.
Context `{Kernel}.

Definition LGNPU_IOCTL_RESET : Z := IO_ LGNPU_IOC_MAGIC 0.
Definition LGNPU_IOCTL_ENABLE : Z := IO_ LGNPU_IOC_MAGIC 1.
Definition LGNPU_IOCTL_STATUS : Z := IOR_ LGNPU_IOC_MAGIC 2 sizeof_ioctl_status.
Definition LGNPU_IOCTL_INFO : Z := IOR_ LGNPU_IOC_MAGIC 3 sizeof_ioctl_info.
Definition LGNPU_IOCTL_SUBMIT : Z := IOW_ LGNPU_IOC_MAGIC 4 sizeof_ioctl_submit.
Definition LGNPU_IOCTL_DMA_XFER : Z := IOW_ LGNPU_IOC_MAGIC 5 sizeof_ioctl_dma.
Definition LGNPU_IOCTL_PERF : Z := IOR_ LGNPU_IOC_MAGIC 6 sizeof_ioctl_perf.

(** ** sw/driver/npu_mmio.h *)

Definition lgnpu_reg_read (npu : lgnpu_device) (offset : Z) : prog kcall Z :=
  call (Readl (regs npu + offset)).

Definition lgnpu_reg_write (npu : lgnpu_device) (offset val : Z) : prog kcall unit :=
  do_ (Writel val (regs npu + offset)).

(** [data] is the array prefix of [count] words the copy reads. *)
Definition lgnpu_buf_write (npu : lgnpu_device) (offset : Z) (data : list Z) (count : Z)
  : prog kcall unit :=
  do_ (MemcpyToio (regs npu + offset) (take (Z.to_nat count) data)).

Definition lgnpu_buf_read (npu : lgnpu_device) (offset count : Z) : prog kcall unit :=
  do_ (MemcpyFromio (regs npu + offset) count).

(** ** sw/driver/npu_mmio.c *)

Definition lgnpu_mmio_init (npu : lgnpu_device) : prog kcall (Z * lgnpu_device) :=
  p ← call (IoremapResource 0);
  let npu := mk_npu p (irq npu) (miscdev_minor npu) (miscdev_name npu) (feature_id npu) in
  if IS_ERR (regs npu) then
    do_ (DevErr "failed to map MMIO region" []);;
    mret (PTR_ERR (regs npu), npu)
  else mret (0, npu).

(** ** sw/driver/npu_reset.c *)

Definition lgnpu_hw_reset (npu : lgnpu_device) : prog kcall Z :=
  lgnpu_reg_write npu (drv_reg R_CTRL) drv_CTRL_SOFT_RESET;;
  do_ (Udelay 1);;
  mret 0.

Definition lgnpu_hw_enable (npu : lgnpu_device) : prog kcall Z :=
  lgnpu_reg_write npu (drv_reg R_CTRL) drv_CTRL_ENABLE;;
  mret 0.

Definition lgnpu_hw_init (npu : lgnpu_device) : prog kcall (Z * lgnpu_device) :=
  ret ← lgnpu_hw_reset npu;
  if negb (ret =? 0) then mret (ret, npu) else
  ret ← lgnpu_hw_enable npu;
  if negb (ret =? 0) then mret (ret, npu) else
  f ← lgnpu_reg_read npu (drv_reg R_FEATURE_ID);
  let npu := mk_npu (regs npu) (irq npu) (miscdev_minor npu) (miscdev_name npu) f in
  if feature_id npu =? 0 then
    do_ (DevErr "FEATURE_ID reads as zero, device not responding" []);;
    mret (- ENODEV, npu)
  else mret (0, npu).

(** ** sw/driver/npu_irq.c *)

Definition lgnpu_irq_handler (npu : lgnpu_device) : prog kcall Z :=
  do_ SpinLock;;
  status ← lgnpu_reg_read npu (drv_reg R_IRQ_STATUS);
  if negb (testmask status LGNPU_IRQ_STATUS_PENDING) then
    do_ SpinUnlock;;
    mret IRQ_NONE
  else
    lgnpu_reg_write npu (drv_reg R_IRQ_CLEAR) LGNPU_IRQ_STATUS_PENDING;;
    do_ SpinUnlock;;
    do_ Complete;;
    mret IRQ_HANDLED.

Definition lgnpu_irq_init (npu : lgnpu_device) : prog kcall (Z * lgnpu_device) :=
  i ← call (PlatformGetIrq 0);
  if i <? 0 then mret (i, npu) else
  ret ← call (RequestIrq (u32 i) IRQF_SHARED LGNPU_DRV_NAME);
  if negb (ret =? 0) then
    do_ (DevErr "failed to request IRQ %d" [i]);;
    mret (ret, npu)
  else mret (0, mk_npu (regs npu) i (miscdev_minor npu) (miscdev_name npu) (feature_id npu)).

Definition lgnpu_irq_enable (npu : lgnpu_device) : prog kcall unit :=
  do_ SpinLockIrqsave;;
  lgnpu_reg_write npu (drv_reg R_IRQ_ENABLE) 1;;
  do_ SpinUnlockIrqrestore.

Definition lgnpu_irq_disable (npu : lgnpu_device) : prog kcall unit :=
  do_ SpinLockIrqsave;;
  lgnpu_reg_write npu (drv_reg R_IRQ_ENABLE) 0;;
  do_ SpinUnlockIrqrestore.

(** ** sw/driver/npu_dma.c *)

Definition dma_ctl (dir : Z) : Z :=
  let ctl := drv_DMA_CTRL_START in
  if dir =? drv_DMA_FROM_DEVICE then Z.lor ctl drv_DMA_CTRL_DIR else ctl.

Definition lgnpu_dma_transfer (npu : lgnpu_device) (ext_addr loc_addr len dir : Z) : prog kcall Z :=
  do_ MutexLock;;
  lgnpu_reg_write npu (drv_reg R_DMA_EXT_ADDR) ext_addr;;
  lgnpu_reg_write npu (drv_reg R_DMA_LOC_ADDR) loc_addr;;
  lgnpu_reg_write npu (drv_reg R_DMA_LEN) len;;
  lgnpu_reg_write npu (drv_reg R_DMA_CTRL) (dma_ctl dir);;
  o ← for_ret LGNPU_DMA_POLL_ITERS (fun _ _ =>
    v ← lgnpu_reg_read npu (drv_reg R_DMA_STATUS);
    if negb (testmask v drv_DMA_STATUS_BUSY) then
      lgnpu_reg_write npu (drv_reg R_IRQ_CLEAR) LGNPU_STATUS_PENDING;;
      do_ MutexUnlock;;
      mret (inr 0)
    else
      do_ (Udelay LGNPU_DMA_POLL_US);;
      mret (inl tt)) tt;
  match o with
  | inr ret => mret ret
  | inl _ =>
      do_ MutexUnlock;;
      do_ (DevErr "DMA transfer timed out" []);;
      mret (- ETIMEDOUT)
  end.

(** ** sw/driver/npu_queue.c *)

(** Conversion of a [long] to [int]. *)
Definition to_int (z : Z) : Z := (z + 2 ^ 31) mod 2 ^ 32 - 2 ^ 31.

Definition lgnpu_cmd_submit (npu : lgnpu_device) (words : list Z) : prog kcall Z :=
  do_ MutexLock;;
  status ← lgnpu_reg_read npu (drv_reg R_STATUS);
  if testmask status drv_STATUS_QUEUE_FULL then
    do_ MutexUnlock;;
    mret (- EBUSY)
  else
  lgnpu_buf_write npu (drv_region CMD_QUEUE) words drv_CMD_WORDS;;
  do_ ReinitCompletion;;
  lgnpu_irq_enable npu;;
  lgnpu_reg_write npu (drv_reg R_DOORBELL) 1;;
  timeout ← call (WaitCompletion (msecs_to_jiffies LGNPU_CMD_TIMEOUT_MS));
  lgnpu_irq_disable npu;;
  do_ MutexUnlock;;
  if timeout =? 0 then
    do_ (DevErr "command submission timed out" []);;
    mret (- ETIMEDOUT)
  else if timeout <? 0 then mret (to_int timeout)
  else mret 0.

(** ** sw/driver/npu_drv.c *)

Definition status_of (val : Z) : lgnpu_ioctl_status :=
  mk_ist (b2z (testmask val drv_STATUS_IDLE)) (b2z (testmask val drv_STATUS_BUSY))
         (b2z (testmask val drv_STATUS_QUEUE_FULL)).

Definition ioctl_info_of (val : Z) : lgnpu_ioctl_info :=
  mk_iinfo (u8 (Z.land (val ≫ 24) 0xFF)) (u8 (Z.land (val ≫ 16) 0xFF))
           (u8 (Z.land (val ≫ 12) 0x0F)) (u8 (Z.land (val ≫ 8) 0x0F))
           (u8 (Z.land (val ≫ 4) 0x0F)) (u8 (Z.land val 0x0F)) 0 0.

(** The members of a result structure in declaration order: what is copied. *)
Definition status_members (s : lgnpu_ioctl_status) : list Z := [st_idle s; st_busy s; st_queue_full s].
Definition info_members (i : lgnpu_ioctl_info) : list Z :=
  [ii_version_major i; ii_version_minor i; ii_num_backends i; ii_array_rows i;
   ii_array_cols i; ii_dtypes_supported i; ii_pad0 i; ii_pad1 i].
Definition perf_members (p : lgnpu_ioctl_perf) : list Z := [ip_cycles p; ip_active p; ip_stall p].

(** What user memory holds at the argument pointer when it is copied in. *)
Class UserMem := {
  user_submit : Z -> list Z;              (* the sixteen words of a submit request *)
  user_dma : Z -> lgnpu_ioctl_dma;
}.

Definition lgnpu_ioctl `{UserMem} (npu : lgnpu_device) (cmd arg : Z) : prog kcall Z :=
  if cmd =? LGNPU_IOCTL_RESET then lgnpu_hw_reset npu
  else if cmd =? LGNPU_IOCTL_ENABLE then lgnpu_hw_enable npu
  else if cmd =? LGNPU_IOCTL_STATUS then
    val ← lgnpu_reg_read npu (drv_reg R_STATUS);
    r ← call (CopyToUser arg (status_members (status_of val)) sizeof_ioctl_status);
    if negb (r =? 0) then mret (- EFAULT) else mret 0
  else if cmd =? LGNPU_IOCTL_INFO then
    let val := feature_id npu in
    r ← call (CopyToUser arg (info_members (ioctl_info_of val)) sizeof_ioctl_info);
    if negb (r =? 0) then mret (- EFAULT) else mret 0
  else if cmd =? LGNPU_IOCTL_SUBMIT then
    r ← call (CopyFromUser arg sizeof_ioctl_submit);
    if negb (r =? 0) then mret (- EFAULT) else
    lgnpu_cmd_submit npu (user_submit arg)
  else if cmd =? LGNPU_IOCTL_DMA_XFER then
    r ← call (CopyFromUser arg sizeof_ioctl_dma);
    if negb (r =? 0) then mret (- EFAULT) else
    let dma := user_dma arg in
    if drv_DMA_FROM_DEVICE <? id_dir dma then mret (- EINVAL) else
    lgnpu_dma_transfer npu (id_ext_addr dma) (id_loc_addr dma) (id_len dma) (id_dir dma)
  else if cmd =? LGNPU_IOCTL_PERF then
    cycles ← lgnpu_reg_read npu (drv_reg R_PERF_CYCLES);
    active ← lgnpu_reg_read npu (drv_reg R_PERF_ACTIVE);
    stall ← lgnpu_reg_read npu (drv_reg R_PERF_STALL);
    r ← call (CopyToUser arg (perf_members (mk_iperf cycles active stall)) sizeof_ioctl_perf);
    if negb (r =? 0) then mret (- EFAULT) else mret 0
  else mret (- ENOTTY).

(** A zero-filled allocation. *)
Definition kzalloc_device : lgnpu_device := mk_npu 0 0 0 "" 0.

Definition lgnpu_probe : prog kcall (Z * lgnpu_device) :=
  p ← call DevmKzalloc;
  if p =? 0 then mret (- ENOMEM, kzalloc_device) else
  do_ MutexInit;; do_ InitCompletion;; do_ SpinInit;;
  do_ SetDrvdata;;
  o1 ← lgnpu_mmio_init kzalloc_device;
  let '(ret, npu) := o1 in
  if negb (ret =? 0) then mret (ret, npu) else
  o2 ← lgnpu_irq_init npu;
  let '(ret, npu) := o2 in
  if negb (ret =? 0) then mret (ret, npu) else
  o3 ← lgnpu_hw_init npu;
  let '(ret, npu) := o3 in
  if negb (ret =? 0) then mret (ret, npu) else
  let npu := mk_npu (regs npu) (irq npu) MISC_DYNAMIC_MINOR LGNPU_DRV_NAME (feature_id npu) in
  ret ← call (MiscRegister (miscdev_minor npu) (miscdev_name npu));
  if negb (ret =? 0) then
    do_ (DevErr "failed to register misc device" []);;
    mret (ret, npu)
  else
    do_ (DevInfo "LG NPU registered (feature_id 0x%08x)" [feature_id npu]);;
    mret (0, npu).

(** The drvdata pointer set by probe is the device. *)
Definition lgnpu_remove (npu : lgnpu_device) : prog kcall unit :=
  do_ GetDrvdata;;
  lgnpu_irq_disable npu;;
  do_ MiscDeregister;;
  do_ (DevInfo "LG NPU removed" []).
End driver.

(** The kernel's values are the documented ones: positive error numbers below
    4096, distinct handler results and distinct ioctl numbers (C requires
    distinct [case] labels). *)
Class KernelLaws `{Kernel} : Prop := {
  errno_range : Forall (fun e => 0 < e < 4096)
    [ENODEV; EBUSY; EFAULT; EINVAL; ENOTTY; ENOMEM; ETIMEDOUT; ERESTARTSYS];
  irq_results : IRQ_NONE <> IRQ_HANDLED;
  ptr_err_negative : forall p, IS_ERR p = true -> PTR_ERR p < 0;
  ioctl_numbers : NoDup
    [LGNPU_IOCTL_RESET; LGNPU_IOCTL_ENABLE; LGNPU_IOCTL_STATUS; LGNPU_IOCTL_INFO;
     LGNPU_IOCTL_SUBMIT; LGNPU_IOCTL_DMA_XFER; LGNPU_IOCTL_PERF];
}.

(** Values of asm-generic Linux with [HZ = 250], and the interrupt mask meant
    by the handler. *)
Definition linux : Kernel := {|
  ENODEV := 19; EBUSY := 16; EFAULT := 14; EINVAL := 22; ENOTTY := 25; ENOMEM := 12;
  ETIMEDOUT := 110; ERESTARTSYS := 512;
  IRQ_NONE := 0; IRQ_HANDLED := 1; IRQF_SHARED := 0x80; MISC_DYNAMIC_MINOR := 255;
  IO_ m n := m * 256 + n;
  IOR_ m n s := 2 * 2 ^ 30 + s * 2 ^ 16 + m * 256 + n;
  IOW_ m n s := 1 * 2 ^ 30 + s * 2 ^ 16 + m * 256 + n;
  msecs_to_jiffies ms := ms / 4;
  IS_ERR p := (2 ^ 64 - 4095 <=? p) && (p <? 2 ^ 64); PTR_ERR p := p - 2 ^ 64;
  LGNPU_IRQ_STATUS_PENDING := LGNPU_STATUS_PENDING;
|}.

Lemma linux_laws : @KernelLaws linux.
Proof.
  split; [by apply (bool_decide_unpack _); vm_compute|done| |].
  - intros p. cbn [IS_ERR PTR_ERR linux]. lia.
  - by apply (bool_decide_unpack _); vm_compute.
Qed.

(** ** Executions of the driver's calls *)

Section exec.
Context `{K : Kernel}.

(** A call of a function that returns nothing. *)
Definition void (c : kcall) : kcall * Z := (c, 0).
Definition kr (npu : lgnpu_device) (r : reg) (v : Z) : kcall * Z := (Readl (regs npu + drv_reg r), v).
Definition kw (npu : lgnpu_device) (r : reg) (v : Z) : kcall * Z := void (Writel v (regs npu + drv_reg r)).

(** Decompose every execution hypothesis into its calls. *)
Ltac exec_inv :=
  unfold mbind, mret, prog_mbind, prog_mret, call, do_ in *;
  repeat (
    cbn [prog_bind] in *;
    match goal with
    | H : exec (Ret _) _ _ |- _ => apply exec_ret_iff in H as [-> ->]
    | H : exec (Call _ _) _ _ |- _ =>
        let v := fresh "v" in let t := fresh "t" in let Hv := fresh "Hv" in
        apply exec_call_iff in H as (v & t & -> & Hv & H);
        unfold returns, kernel_returns in Hv; try (cbv beta iota in Hv; subst v)
    | H : exec (if ?b then _ else _) _ _ |- _ => let Hb := fresh "Hb" in destruct b eqn:Hb; try discriminate Hb
    | H : exec (prog_bind _ (if ?b then _ else _)) _ _ |- _ =>
        let Hb := fresh "Hb" in destruct b eqn:Hb; try discriminate Hb
    end).

(** Build an execution call by call. *)
Ltac exec_run :=
  unfold mbind, mret, prog_mbind, prog_mret, call, do_; cbn [prog_bind];
  repeat first
    [ apply exec_ret
    | apply exec_call; [first [assumption | exact eq_refl]|]; cbn [prog_bind]
    | match goal with
      | Hb : ?b = _ |- exec (if ?b then _ else _) _ _ => rewrite Hb
      end ].

(** Outcome of one turn of the DMA polling loop. *)
Definition dma_miss (npu : lgnpu_device) (v : Z) : trace kcall :=
  [kr npu R_DMA_STATUS v; void (Udelay LGNPU_DMA_POLL_US)].
Definition dma_hit (npu : lgnpu_device) (v : Z) : trace kcall :=
  [kr npu R_DMA_STATUS v; kw npu R_IRQ_CLEAR LGNPU_STATUS_PENDING; void MutexUnlock].

Definition dma_poll_turn (npu : lgnpu_device) : prog kcall (unit + Z) :=
  v ← lgnpu_reg_read npu (drv_reg R_DMA_STATUS);
  if negb (testmask v drv_DMA_STATUS_BUSY) then
    lgnpu_reg_write npu (drv_reg R_IRQ_CLEAR) LGNPU_STATUS_PENDING;;
    do_ MutexUnlock;;
    mret (inr 0)
  else
    do_ (Udelay LGNPU_DMA_POLL_US);;
    mret (inl tt).

Lemma dma_poll_body npu (i : Z) tr (o : res (unit + Z)) :
  exec (dma_poll_turn npu) tr o <->
  exists v, fits 32 v /\
    if dma_ready v then tr = dma_hit npu v /\ o = Ok (inr 0)
    else tr = dma_miss npu v /\ o = Ok (inl tt).
Proof.
  unfold dma_poll_turn, lgnpu_reg_read, lgnpu_reg_write, dma_ready.
  change LGNPU_DMA_STATUS_BUSY with drv_DMA_STATUS_BUSY. split.
  - intros He. exec_inv; exists v; (split; [done|]); by rewrite Hb.
  - intros (v & Hv & Hr). destruct (negb (testmask v drv_DMA_STATUS_BUSY)) eqn:Hb;
      destruct Hr as [-> ->]; exec_run.
Qed.

Lemma dma_transfer_calls npu ea la ln d tr o :
  exec (lgnpu_dma_transfer npu ea la ln d) tr o <->
  exists found polls,
    poll_trace dma_ready (dma_miss npu) (dma_hit npu) LGNPU_DMA_POLL_ITERS polls found /\
    tr = [void MutexLock; kw npu R_DMA_EXT_ADDR ea; kw npu R_DMA_LOC_ADDR la;
          kw npu R_DMA_LEN ln; kw npu R_DMA_CTRL (dma_ctl d)] ++ polls ++
         (if found then [] else [void MutexUnlock; void (DevErr "DMA transfer timed out" [])]) /\
    o = Ok (if found then 0 else - ETIMEDOUT).
Proof.
  assert (Hloop := fun tr o => poll_iff dma_ready (dma_miss npu) (dma_hit npu) 0
    (fun _ _ => dma_poll_turn npu) (dma_poll_body npu) LGNPU_DMA_POLL_ITERS tr o ltac:(done)).
  unfold lgnpu_dma_transfer. fold (dma_poll_turn npu).
  set (loop := for_ret _ _ _) in *. unfold lgnpu_reg_write. split.
  - intros He. exec_inv. apply exec_bind_iff in He
      as [(a & t1 & t2 & -> & (found & Hp & [= ->])%Hloop & He)|(u & -> & (? & _ & [=])%Hloop)].
    exists found, t1. destruct found; exec_inv; (split_and!; [done| |done]); [|done].
    by rewrite app_nil_r.
  - intros (found & polls & Hp & -> & ->). exec_run.
    apply exec_bind_iff. left. eexists _, polls, _.
    split_and!; [done|apply Hloop; by exists found|]. destruct found; exec_run.
Qed.
Definition irq_enable_calls (npu : lgnpu_device) (v : Z) : trace kcall :=
  [void SpinLockIrqsave; kw npu R_IRQ_ENABLE v; void SpinUnlockIrqrestore].

(** The submission once the queue has room, up to the wait and after it. *)
Definition submit_calls (npu : lgnpu_device) (ws : list Z) (jiffies t : Z) : trace kcall :=
  [void (MemcpyToio (regs npu + drv_region CMD_QUEUE) (take 16 ws)); void ReinitCompletion] ++
  irq_enable_calls npu 1 ++
  [kw npu R_DOORBELL 1; (WaitCompletion jiffies, t)] ++
  irq_enable_calls npu 0 ++ [void MutexUnlock].

Lemma to_int_small z : INT_MIN <= z <= INT_MAX -> to_int z = z.
Proof. unfold to_int, INT_MIN, INT_MAX. intros. rewrite Z.mod_small; lia. Qed.

Lemma errno_bound `{!KernelLaws} : 0 < ERESTARTSYS < 4096.
Proof. pose proof errno_range as Hr. decompose_Forall. done. Qed.

Lemma cmd_submit_calls `{!KernelLaws} npu ws tr o :
  exec (lgnpu_cmd_submit npu ws) tr o <->
  exists st, fits 32 st /\
    if Z.testbit st 2 then
      tr = [void MutexLock; kr npu R_STATUS st; void MutexUnlock] /\ o = Ok (- EBUSY)
    else exists t, let j := msecs_to_jiffies 5000 in
      (t = - ERESTARTSYS \/ 0 <= t <= Z.max 1 j) /\
      tr = [void MutexLock; kr npu R_STATUS st] ++ submit_calls npu ws j t ++
           (if t =? 0 then [void (DevErr "command submission timed out" [])] else []) /\
      o = Ok (if t =? 0 then - ETIMEDOUT else if t <? 0 then - ERESTARTSYS else 0).
Proof.
  unfold lgnpu_cmd_submit, lgnpu_irq_enable, lgnpu_irq_disable, lgnpu_buf_write, lgnpu_reg_write,
    lgnpu_reg_read, LGNPU_CMD_TIMEOUT_MS, drv_STATUS_QUEUE_FULL, BIT.
  pose proof errno_bound as He.
  setoid_rewrite <- (fun st => testmask_bit st 2 ltac:(done)). split.
  - intros Hx. exec_inv; exists v; (split; [done|]); rewrite Hb; [done|..]; exists v0;
      (split; [done|]); rewrite ?Hb0, ?Hb1; (split; [done|]); [done| |done].
    rewrite to_int_small by (unfold INT_MIN, INT_MAX; apply Z.ltb_lt in Hb1; lia).
    do 2 f_equal. apply Z.ltb_lt in Hb1. lia.
  - intros (st & Hst & Hr). destruct (testmask st (1 ≪ 2)) eqn:Hb.
    + destruct Hr as [-> ->]. exec_run.
    + destruct Hr as (t & Ht & -> & ->). exec_run.
      destruct (t =? 0) eqn:Ht0; [exec_run|]. apply Z.eqb_neq in Ht0.
      destruct (t <? 0) eqn:Htn; [|exec_run].
      apply Z.ltb_lt in Htn. destruct Ht as [->|]; [|lia].
      rewrite to_int_small by (unfold INT_MIN, INT_MAX; lia). exec_run.
Qed.

Lemma irq_handler_calls npu tr o :
  exec (lgnpu_irq_handler npu) tr o <->
  exists st, fits 32 st /\
    if testmask st LGNPU_IRQ_STATUS_PENDING then
      tr = [void SpinLock; kr npu R_IRQ_STATUS st;
            kw npu R_IRQ_CLEAR LGNPU_IRQ_STATUS_PENDING; void SpinUnlock; void Complete] /\
      o = Ok IRQ_HANDLED
    else tr = [void SpinLock; kr npu R_IRQ_STATUS st; void SpinUnlock] /\ o = Ok IRQ_NONE.
Proof.
  unfold lgnpu_irq_handler, lgnpu_reg_read, lgnpu_reg_write. split.
  - intros Hx. exec_inv; exists v; (split; [done|]).
    + apply negb_true_iff in Hb. by rewrite Hb.
    + apply negb_false_iff in Hb. by rewrite Hb.
  - intros (st & Hst & Hr). destruct (testmask st _) eqn:Hb; destruct Hr as [-> ->];
      exec_run; rewrite Hb; exec_run.
Qed.

(** Boot order: soft reset, 1 us delay, enable, then FEATURE_ID; a zero
    identification is logged and reported as -ENODEV, any other is kept in the
    device and reported as success. *)
Theorem hw_init_trace npu tr o :
  exec (lgnpu_hw_init npu) tr o <->
  exists f, fits 32 f /\
    let npu' := mk_npu (regs npu) (irq npu) (miscdev_minor npu) (miscdev_name npu) f in
    tr = [kw npu R_CTRL 1; void (Udelay 1); kw npu R_CTRL 2; kr npu R_FEATURE_ID f] ++
         (if f =? 0 then [void (DevErr "FEATURE_ID reads as zero, device not responding" [])] else []) /\
    o = Ok (if f =? 0 then - ENODEV else 0, npu').
Proof.
  unfold lgnpu_hw_init, lgnpu_hw_reset, lgnpu_hw_enable, lgnpu_reg_read, lgnpu_reg_write. split.
  - intros Hx. exec_inv; try done; exists v; cbn [feature_id] in *; by rewrite Hb0.
  - intros (f & Hf & -> & ->). exec_run. simpl. exec_run.
    destruct (f =? 0); exec_run.
Qed.

(** ** The locking discipline

    [lock_run] replays a trace on the two locks. It fails on a lock taken
    twice or released by the wrong function, on a call that may sleep while
    the spinlock is held, and on an access to a protected register without
    its lock: the command window, DOORBELL and the DMA registers belong to the
    command mutex, IRQ_ENABLE to the interrupt spinlock, IRQ_CLEAR to either. *)

Inductive spin_state := SpinFree | SpinPlain | SpinIrqsave.

Record locks := mk_locks { cmd_held : bool; spin : spin_state }.

Definition unlocked : locks := mk_locks false SpinFree.

Definition spin_free (l : locks) : bool := match spin l with SpinFree => true | _ => false end.

Definition reg_allowed (l : locks) (r : reg) : bool :=
  match r with
  | R_DOORBELL | R_DMA_EXT_ADDR | R_DMA_LOC_ADDR | R_DMA_LEN | R_DMA_CTRL => cmd_held l
  | R_IRQ_ENABLE => negb (spin_free l)
  | R_IRQ_CLEAR => cmd_held l || negb (spin_free l)
  | _ => true
  end.

Definition write_allowed (npu : lgnpu_device) (l : locks) (addr : Z) : bool :=
  match reg_at (addr - regs npu) with Some r => reg_allowed l r | None => true end.

(** Functions that must not be called in interrupt context. *)
Definition may_sleep (c : kcall) : bool :=
  match c with
  | MutexLock | WaitCompletion _ | CopyToUser _ _ _ | CopyFromUser _ _
  | DevmKzalloc | IoremapResource _ | RequestIrq _ _ _ | MiscRegister _ _ | MiscDeregister => true
  | _ => false
  end.

Definition lock_step (npu : lgnpu_device) (l : locks) (c : kcall) : option locks :=
  match c with
  | MutexLock =>
      if negb (cmd_held l) && spin_free l then Some (mk_locks true (spin l)) else None
  | MutexUnlock =>
      if cmd_held l && spin_free l then Some (mk_locks false (spin l)) else None
  | SpinLock => if spin_free l then Some (mk_locks (cmd_held l) SpinPlain) else None
  | SpinLockIrqsave => if spin_free l then Some (mk_locks (cmd_held l) SpinIrqsave) else None
  | SpinUnlock =>
      match spin l with SpinPlain => Some (mk_locks (cmd_held l) SpinFree) | _ => None end
  | SpinUnlockIrqrestore =>
      match spin l with SpinIrqsave => Some (mk_locks (cmd_held l) SpinFree) | _ => None end
  | WaitCompletion _ | CopyToUser _ _ _ | CopyFromUser _ _ =>
      if spin_free l then Some l else None
  | Writel _ a => if write_allowed npu l a then Some l else None
  | MemcpyToio _ _ => if cmd_held l then Some l else None
  | _ => Some l
  end.

Fixpoint lock_run (npu : lgnpu_device) (l : locks) (tr : trace kcall) : option locks :=
  match tr with
  | [] => Some l
  | (c, _) :: tr => l' ← lock_step npu l c; lock_run npu l' tr
  end.

Lemma lock_run_app npu l t1 t2 :
  lock_run npu l (t1 ++ t2) = (l' ← lock_run npu l t1; lock_run npu l' t2).
Proof.
  revert l. induction t1 as [|[c v] t1 IH]; intros l; [done|]. simpl.
  destruct (lock_step npu l c) as [l1|]; [apply IH|done].
Qed.

Lemma reg_at_offset npu r : reg_at (regs npu + drv_reg r - regs npu) = Some r.
Proof. replace (regs npu + drv_reg r - regs npu) with (drv_reg r) by lia. by destruct r. Qed.

Lemma lock_run_write npu l r v tr :
  lock_run npu l ((Writel v (regs npu + drv_reg r), 0) :: tr) = if reg_allowed l r then lock_run npu l tr else None.
Proof. simpl. unfold write_allowed. rewrite reg_at_offset. by destruct (reg_allowed l r). Qed.

Lemma lock_run_call npu l c v tr :
  lock_run npu l ((c, v) :: tr) = (l' ← lock_step npu l c; lock_run npu l' tr).
Proof. done. Qed.

Lemma lock_run_polls npu l pre rest :
  lock_run npu l (concat (dma_miss npu <$> pre) ++ rest) = lock_run npu l rest.
Proof. induction pre as [|v pre IH]; [done|]. simpl. exact IH. Qed.

Ltac run_locks :=
  cbn [app]; unfold kw, kr, void;
  repeat first
    [ rewrite lock_run_write; cbn [reg_allowed cmd_held spin_free spin orb negb unlocked]
    | rewrite lock_run_call; cbn [lock_step cmd_held spin_free spin andb negb unlocked mbind option_bind] ].

Lemma dma_transfer_locks npu ea la ln d tr o :
  exec (lgnpu_dma_transfer npu ea la ln d) tr o ->
  lock_run npu unlocked tr = Some unlocked /\ exists r, o = Ok r.
Proof.
  intros (found & polls & (pre & _ & Hf) & -> & ->)%dma_transfer_calls.
  split; [|by destruct found; eexists].
  destruct found.
  - destruct Hf as (v & _ & _ & _ & ->). run_locks.
    rewrite <- app_assoc, lock_run_polls. unfold dma_hit. by run_locks.
  - destruct Hf as [_ ->]. run_locks. by rewrite lock_run_polls.
Qed.

Lemma cmd_submit_locks `{!KernelLaws} npu ws tr o :
  exec (lgnpu_cmd_submit npu ws) tr o ->
  lock_run npu unlocked tr = Some unlocked /\ exists r, o = Ok r.
Proof.
  intros (st & _ & Hr)%cmd_submit_calls. destruct (Z.testbit st 2).
  - destruct Hr as [-> ->]. split; [done|by eexists].
  - destruct Hr as (t & _ & -> & ->). split; [|by eexists].
    unfold submit_calls, irq_enable_calls. run_locks.
    by destruct (t =? 0).
Qed.

(** C28. Every system call of the driver, whatever its command, argument, user
    memory, device answers and copy or wait results, obeys the locking
    discipline and gives both locks back on every path, errors included; it
    always ends with a result. The interrupt handler does so with the spinlock
    alone, without a call that may sleep. *)
Theorem locking_discipline `{!KernelLaws} `{!UserMem} npu :
  (forall cmd arg tr o, exec (lgnpu_ioctl npu cmd arg) tr o ->
     lock_run npu unlocked tr = Some unlocked /\ exists r, o = Ok r) /\
  (forall tr o, exec (lgnpu_irq_handler npu) tr o ->
     lock_run npu unlocked tr = Some unlocked /\ (exists r, o = Ok r) /\
     Forall (fun e => may_sleep (fst e) = false) tr) /\
  (forall tr o, exec (lgnpu_remove npu) tr o ->
     lock_run npu unlocked tr = Some unlocked /\ exists r, o = Ok r).
Proof.
  split_and!.
  - intros cmd arg tr o. unfold lgnpu_ioctl.
    repeat case_match; unfold lgnpu_hw_reset, lgnpu_hw_enable, lgnpu_reg_write, lgnpu_reg_read;
      intros Hx; exec_inv; try (split; [done|by eexists]).
    + split; [|by eexists]. by run_locks.
    + split; [|by eexists]. by run_locks.
    + apply cmd_submit_locks in Hx as [Hl Ho]. by split; [|done].
    + apply dma_transfer_locks in Hx as [Hl Ho]. by split; [|done].
  - intros tr o (st & _ & Hr)%irq_handler_calls.
    destruct (testmask st _); destruct Hr as [-> ->];
      (split_and!; [|by eexists|by repeat constructor]); [|done]. by run_locks.
  - intros tr o Hx. unfold lgnpu_remove, lgnpu_irq_disable, lgnpu_reg_write in Hx. exec_inv.
    split; [|by eexists]. by run_locks.
Qed.

(** [lgnpu_dma_transfer] takes the command mutex, programs the three
    address and length registers before it starts the engine, and polls
    DMA_STATUS at most 10000 times; at the first value with BUSY clear it
    clears the pending interrupt, releases the mutex and returns 0, otherwise
    it releases the mutex, logs and returns -ETIMEDOUT, leaving the pending
    bit alone. *)
Theorem dma_transfer_trace npu ea la ln d tr o :
  exec (lgnpu_dma_transfer npu ea la ln d) tr o <->
  exists found polls,
    poll_trace dma_ready (dma_miss npu) (dma_hit npu) LGNPU_DMA_POLL_ITERS polls found /\
    tr = [void MutexLock; kw npu R_DMA_EXT_ADDR ea; kw npu R_DMA_LOC_ADDR la;
          kw npu R_DMA_LEN ln; kw npu R_DMA_CTRL (dma_ctl d)] ++ polls ++
         (if found then [] else [void MutexUnlock; void (DevErr "DMA transfer timed out" [])]) /\
    o = Ok (if found then 0 else - ETIMEDOUT).
Proof. apply dma_transfer_calls. Qed.

(** C34. [lgnpu_cmd_submit] runs under the command mutex. With QUEUE_FULL set it
    stops there: nothing is written to the device and the result is -EBUSY.
    Otherwise it copies exactly sixteen words to the command window, re-arms
    the completion and enables the interrupt before the doorbell, waits at
    most 5 s, disables the interrupt and releases the mutex whatever the wait
    gave, and returns 0, -ETIMEDOUT or -ERESTARTSYS. *)
Theorem cmd_submit_trace `{!KernelLaws} npu ws tr o :
  exec (lgnpu_cmd_submit npu ws) tr o <->
  exists st, fits 32 st /\
    if Z.testbit st 2 then
      tr = [void MutexLock; kr npu R_STATUS st; void MutexUnlock] /\ o = Ok (- EBUSY)
    else exists t, let j := msecs_to_jiffies 5000 in
      (t = - ERESTARTSYS \/ 0 <= t <= Z.max 1 j) /\
      tr = [void MutexLock; kr npu R_STATUS st] ++ submit_calls npu ws j t ++
           (if t =? 0 then [void (DevErr "command submission timed out" [])] else []) /\
      o = Ok (if t =? 0 then - ETIMEDOUT else if t <? 0 then - ERESTARTSYS else 0).
Proof. apply cmd_submit_calls. Qed.

(** The interrupt handler holds the interrupt spinlock while it reads
    IRQ_STATUS. Without the pending bit it reports IRQ_NONE and changes
    nothing (the line is shared); with it, it acknowledges the interrupt
    before it releases the lock, and completes the waiter afterwards. *)
Theorem irq_handler_trace npu tr o :
  exec (lgnpu_irq_handler npu) tr o <->
  exists st, fits 32 st /\
    if testmask st LGNPU_IRQ_STATUS_PENDING then
      tr = [void SpinLock; kr npu R_IRQ_STATUS st;
            kw npu R_IRQ_CLEAR LGNPU_IRQ_STATUS_PENDING; void SpinUnlock; void Complete] /\
      o = Ok IRQ_HANDLED
    else tr = [void SpinLock; kr npu R_IRQ_STATUS st; void SpinUnlock] /\ o = Ok IRQ_NONE.
Proof. apply irq_handler_calls. Qed.

(** Every transfer that completes acknowledges the interrupt while the
    interrupt spinlock is free: [irq_lock], documented as protecting the IRQ
    registers, does not cover the IRQ_CLEAR write of [lgnpu_dma_transfer]. *)
Theorem dma_ack_without_irq_lock npu ea la ln d tr :
  exec (lgnpu_dma_transfer npu ea la ln d) tr (Ok 0) -> ETIMEDOUT <> 0 ->
  exists t1 t2, tr = t1 ++ kw npu R_IRQ_CLEAR LGNPU_STATUS_PENDING :: t2 /\
    lock_run npu unlocked t1 = Some (mk_locks true SpinFree).
Proof.
  intros (found & polls & (pre & _ & Hf) & -> & Ho)%dma_transfer_calls Herr.
  destruct found; [|injection Ho; lia]. destruct Hf as (v & _ & _ & _ & ->).
  exists ([void MutexLock; kw npu R_DMA_EXT_ADDR ea; kw npu R_DMA_LOC_ADDR la;
           kw npu R_DMA_LEN ln; kw npu R_DMA_CTRL (dma_ctl d)] ++
          concat (dma_miss npu <$> pre) ++ [kr npu R_DMA_STATUS v]), [void MutexUnlock].
  split; [by rewrite app_nil_r, <- !app_assoc|]. run_locks. by rewrite lock_run_polls.
Qed.

(** ** Contracts of the system calls *)

Lemma exec_copy_from_iff {R} arg n (k : Z -> prog kcall R) tr o :
  exec (Call (CopyFromUser arg n) k) tr o <->
  exists l tr', tr = (CopyFromUser arg n, l) :: tr' /\ (0 <= l <= n /\ exec (k l) tr' o).
Proof. rewrite exec_call_iff. done. Qed.

(** The ioctl numbers are pairwise different. *)
Ltac ioctl_nums :=
  let Hnd := fresh "Hnd" in pose proof ioctl_numbers as Hnd;
  repeat (let Hn := fresh "Hn" in
          apply NoDup_cons in Hnd as [Hn Hnd];
          try (rewrite !not_elem_of_cons in Hn; destruct_and! Hn)).

(** Select the branch of [lgnpu_ioctl] for a command known to differ from the
    other ones. *)
Ltac pick_cmd :=
  unfold lgnpu_ioctl;
  repeat match goal with
  | |- context [?a =? ?a] => rewrite (Z.eqb_refl a)
  | |- context [?a =? ?b] => rewrite (proj2 (Z.eqb_neq a b)) by congruence
  end.

(** A command outside the seven is -ENOTTY with no call at all. A request
    that cannot be copied in is -EFAULT, and a DMA request with a direction
    above 1 is -EINVAL, both before any lock or device access; a well-formed
    one is exactly the internal operation on the copied values. *)
Theorem ioctl_requests `{!KernelLaws} `{!UserMem} npu cmd arg tr o :
  (cmd ∉ [LGNPU_IOCTL_RESET; LGNPU_IOCTL_ENABLE; LGNPU_IOCTL_STATUS; LGNPU_IOCTL_INFO;
          LGNPU_IOCTL_SUBMIT; LGNPU_IOCTL_DMA_XFER; LGNPU_IOCTL_PERF] ->
   exec (lgnpu_ioctl npu cmd arg) tr o <-> tr = [] /\ o = Ok (- ENOTTY)) /\
  (exec (lgnpu_ioctl npu LGNPU_IOCTL_SUBMIT arg) tr o <->
   exists left tr', tr = (CopyFromUser arg 64, left) :: tr' /\ 0 <= left <= 64 /\
     if left =? 0 then exec (lgnpu_cmd_submit npu (user_submit arg)) tr' o
     else tr' = [] /\ o = Ok (- EFAULT)) /\
  (exec (lgnpu_ioctl npu LGNPU_IOCTL_DMA_XFER arg) tr o <->
   exists left tr', tr = (CopyFromUser arg 16, left) :: tr' /\ 0 <= left <= 16 /\
     let r := user_dma arg in
     if negb (left =? 0) then tr' = [] /\ o = Ok (- EFAULT)
     else if 1 <? id_dir r then tr' = [] /\ o = Ok (- EINVAL)
     else exec (lgnpu_dma_transfer npu (id_ext_addr r) (id_loc_addr r) (id_len r) (id_dir r)) tr' o).
Proof.
  ioctl_nums. split_and!.
  - intros Hcmd. rewrite !not_elem_of_cons in Hcmd. destruct_and! Hcmd. pick_cmd.
    apply exec_ret_iff.
  - pick_cmd. unfold call, sizeof_ioctl_submit. cbn [mbind prog_mbind prog_bind].
    rewrite exec_copy_from_iff. change (16 * 4) with 64.
    split; intros (l & t & -> & Hl & Hx); exists l, t; (split; [done|split; [done|]]);
      destruct (l =? 0); first [exact Hx | by apply exec_ret_iff].
  - pick_cmd. unfold call, sizeof_ioctl_dma. cbn [mbind prog_mbind prog_bind].
    rewrite exec_copy_from_iff. change (4 * 4) with 16.
    split; intros (l & t & -> & Hl & Hx); exists l, t; (split; [done|split; [done|]]);
      cbv zeta in *; unfold drv_DMA_FROM_DEVICE in *; destruct (negb (l =? 0));
      [|destruct (1 <? _)| |destruct (1 <? _)]; first [exact Hx | by apply exec_ret_iff].
Qed.

Lemma exec_copy_to_iff arg data n tr o :
  exec (r ← call (CopyToUser arg data n);
        if negb (r =? 0) then mret (- EFAULT) else mret 0) tr o <->
  exists l, 0 <= l <= n /\ tr = [(CopyToUser arg data n, l)] /\
    o = Ok (if l =? 0 then 0 else - EFAULT).
Proof.
  unfold call. cbn [mbind prog_mbind prog_bind]. rewrite exec_call_iff. split.
  - intros (l & t & -> & Hl & Hx). exists l. split; [exact Hl|].
    by destruct (l =? 0); apply exec_ret_iff in Hx as [-> ->].
  - intros (l & Hl & -> & ->). exists l, []. split; [done|]. split; [exact Hl|].
    by destruct (l =? 0); apply exec_ret_iff.
Qed.

Lemma exec_reg_read_iff {R} npu r (k : Z -> prog kcall R) tr o :
  exec (lgnpu_reg_read npu (drv_reg r) ≫= k) tr o <->
  exists v tr', tr = kr npu r v :: tr' /\ fits 32 v /\ exec (k v) tr' o.
Proof. unfold lgnpu_reg_read, call. cbn [mbind prog_mbind prog_bind]. rewrite exec_call_iff. done. Qed.

(** The query commands take no lock. STATUS reads one register and copies
    out its three flags as 0/1; PERF reads the three counters in the order
    cycles, active, stall and copies them out unchanged; INFO reads no
    register and copies out the decoding of the feature word kept by probe,
    the same field values as the runtime's [npu_read_info], then two zero
    bytes. A failed copy is -EFAULT. *)
Theorem ioctl_queries `{!KernelLaws} `{!UserMem} npu arg tr o :
  let ret l := Ok (if l =? 0 then 0 else - EFAULT) in
  (exec (lgnpu_ioctl npu LGNPU_IOCTL_STATUS arg) tr o <->
   exists v l, fits 32 v /\ 0 <= l <= 12 /\ o = ret l /\
     tr = [kr npu R_STATUS v;
           (CopyToUser arg [b2z (Z.testbit v 0); b2z (Z.testbit v 1); b2z (Z.testbit v 2)] 12, l)]) /\
  (exec (lgnpu_ioctl npu LGNPU_IOCTL_INFO arg) tr o <->
   exists l, 0 <= l <= 8 /\ o = ret l /\
     let i := info_of (feature_id npu) in
     tr = [(CopyToUser arg [version_major i; version_minor i; num_backends i; array_rows i;
                            array_cols i; dtypes_supported i; 0; 0] 8, l)]) /\
  (exec (lgnpu_ioctl npu LGNPU_IOCTL_PERF arg) tr o <->
   exists c a s l, fits 32 c /\ fits 32 a /\ fits 32 s /\ 0 <= l <= 12 /\ o = ret l /\
     tr = [kr npu R_PERF_CYCLES c; kr npu R_PERF_ACTIVE a; kr npu R_PERF_STALL s;
           (CopyToUser arg [c; a; s] 12, l)]).
Proof.
  intros ret. ioctl_nums. split_and!; pick_cmd.
  - setoid_rewrite exec_reg_read_iff. setoid_rewrite exec_copy_to_iff.
    unfold status_members, status_of, drv_STATUS_IDLE, drv_STATUS_BUSY, drv_STATUS_QUEUE_FULL, BIT.
    cbn [st_idle st_busy st_queue_full].
    setoid_rewrite (fun v => testmask_bit v 0 ltac:(done)).
    setoid_rewrite (fun v => testmask_bit v 1 ltac:(done)).
    setoid_rewrite (fun v => testmask_bit v 2 ltac:(done)).
    split; [intros (v & t & -> & Hv & l & Hl & -> & ->)|intros (v & l & Hv & Hl & -> & ->)].
    + by exists v, l.
    + eexists v, _. split_and!; [done|done|]. by exists l.
  - setoid_rewrite exec_copy_to_iff.
    split; [intros (l & Hl & -> & ->)|intros (l & Hl & -> & ->)]; by exists l.
  - setoid_rewrite exec_reg_read_iff. setoid_rewrite exec_reg_read_iff.
    setoid_rewrite exec_reg_read_iff. setoid_rewrite exec_copy_to_iff.
    unfold perf_members. cbn [ip_cycles ip_active ip_stall].
    split.
    + intros (c & t1 & -> & Hc & a & t2 & -> & Ha & s & t3 & -> & Hs & l & Hl & -> & ->).
      by exists c, a, s, l.
    + intros (c & a & s & l & Hc & Ha & Hs & Hl & -> & ->). eauto 20.
Qed.

(** The descriptor window and the DMA programming of the runtime and of the
    driver are the same stores at the same offsets. *)
Definition store_of (e : kcall * Z) : option (Z * Z) :=
  match e with (Writel v a, _) => Some (a, v) | _ => None end.
Definition store_of_mmio (e : mmio * Z) : option (Z * Z) :=
  match e with (Store a v, _) => Some (a, v) | _ => None end.

(** Runtime and driver program a DMA transfer alike: mapped at the same
    base, the stores of [npu_dma_start] are, in order, the stores
    [lgnpu_dma_transfer] performs before it starts to poll. *)
Theorem dma_programming_agree npu req trm om trk ok :
  exec (npu_dma_start (Some (mk_dev (Some (regs npu)))) (Some req)) trm om ->
  exec (lgnpu_dma_transfer npu (ext_addr req) (loc_addr req) (len req) (dir req)) trk ok ->
  omap store_of_mmio trm = take 4 (omap store_of trk).
Proof.
  intros [_ ->]%dma_start_calls (found & polls & _ & -> & _)%dma_transfer_calls.
  unfold kw, void, wr. rewrite !(uapi_drv). unfold dma_ctl.
  change drv_DMA_FROM_DEVICE with LGNPU_DMA_FROM_DEVICE.
  by destruct (dir req =? LGNPU_DMA_FROM_DEVICE).
Qed.

(** ** Probe *)

Definition registered (e : kcall * Z) : bool :=
  match e with (MiscRegister _ _, 0) => true | _ => false end.

(** The complete sequence of a successful probe. *)
Definition probe_calls (p r i f : Z) : trace kcall :=
  let npu := mk_npu r i MISC_DYNAMIC_MINOR LGNPU_DRV_NAME f in
  [(DevmKzalloc, p); void MutexInit; void InitCompletion; void SpinInit; void SetDrvdata;
   (IoremapResource 0, r); (PlatformGetIrq 0, i); (RequestIrq (u32 i) IRQF_SHARED LGNPU_DRV_NAME, 0);
   kw npu R_CTRL 1; void (Udelay 1); kw npu R_CTRL 2; kr npu R_FEATURE_ID f;
   (MiscRegister MISC_DYNAMIC_MINOR LGNPU_DRV_NAME, 0);
   void (DevInfo "LG NPU registered (feature_id 0x%08x)" [f])].

(** Boolean tests as propositions [lia] reads. *)
Ltac bool_facts :=
  repeat match goal with
  | H : negb _ = true |- _ => apply negb_true_iff in H
  | H : negb _ = false |- _ => apply negb_false_iff in H
  | H : (_ =? _) = true |- _ => apply Z.eqb_eq in H
  | H : (_ =? _) = false |- _ => apply Z.eqb_neq in H
  | H : (_ <? _) = true |- _ => apply Z.ltb_lt in H
  | H : (_ <? _) = false |- _ => apply Z.ltb_ge in H
  end.

(** Probe publishes the device node exactly when it succeeds, and it
    succeeds only after every step: memory allocated, MMIO mapped, a
    non-negative IRQ found and requested, the hardware reset and enabled, a
    non-zero FEATURE_ID read and kept. Each failure ends the probe with a
    non-zero result. *)
Theorem probe_registers_iff_success `{!KernelLaws} tr o :
  exec lgnpu_probe tr o ->
  exists ret npu, o = Ok (ret, npu) /\
    (ret = 0 <-> existsb registered tr = true) /\
    (ret = 0 -> exists p r i f, p <> 0 /\ IS_ERR r = false /\ 0 <= i /\ f <> 0 /\
       npu = mk_npu r i MISC_DYNAMIC_MINOR LGNPU_DRV_NAME f /\ tr = probe_calls p r i f).
Proof.
  pose proof errno_range as He. decompose_Forall.
  unfold lgnpu_probe, lgnpu_mmio_init, lgnpu_irq_init, lgnpu_hw_init, lgnpu_hw_reset,
    lgnpu_hw_enable, lgnpu_reg_write, lgnpu_reg_read. intros Hx.
  assert (Hp := ptr_err_negative).
  exec_inv; cbn [regs feature_id irq miscdev_minor miscdev_name kzalloc_device] in *;
    try match goal with Hi : IS_ERR _ = true |- _ => specialize (Hp _ Hi) end;
    bool_facts; try (exfalso; lia);
    eexists _, _; (split; [reflexivity|]);
    cbn [existsb registered orb];
    try (split; [split; [lia|done]|lia]).
  - destruct v4; [lia|..]; (split; [split; [lia|simpl; discriminate]|lia]).
  - subst v2 v4. split; [done|]. intros _. exists v, v0, v1, v3. done.
Qed.
End exec.

(** ** Concrete executions, with the Linux values *)

#[local] Existing Instance linux.
#[local] Existing Instance linux_laws.

Definition user_example : UserMem := {|
  user_submit arg := Z.of_nat <$> seq 0 16;
  user_dma arg := mk_idma 0x1000 0x20 64 (if arg =? 7 then 2 else 1);
|}.

#[local] Existing Instance user_example.

Definition npu_example : lgnpu_device := mk_npu 0x40000000 35 255 LGNPU_DRV_NAME 0x01006443.

Definition submit_example (t : Z) : trace kcall :=
  [(MutexLock, 0); (Readl 0x40000004, 1); (MemcpyToio 0x40001000 (Z.of_nat <$> seq 0 16), 0);
   (ReinitCompletion, 0); (SpinLockIrqsave, 0); (Writel 1 0x40000010, 0); (SpinUnlockIrqrestore, 0);
   (Writel 1 0x40000008, 0); (WaitCompletion 1250, t);
   (SpinLockIrqsave, 0); (Writel 0 0x40000010, 0); (SpinUnlockIrqrestore, 0); (MutexUnlock, 0)].

Theorem cmd_submit_trace_witness :
  exec (lgnpu_cmd_submit npu_example (Z.of_nat <$> seq 0 16)) (submit_example 1200) (Ok 0).
Proof.
  apply cmd_submit_trace. exists 1. split; [done|].
  exists 1200. split; [right; vm_compute; split; discriminate|done].
Defined.

Lemma submit_example_exec :
  exec (lgnpu_cmd_submit npu_example (Z.of_nat <$> seq 0 16)) (submit_example 1200) (Ok 0).
Proof.
  apply cmd_submit_calls. exists 1. split; [done|].
  exists 1200. split; [right; vm_compute; split; discriminate|done].
Qed.

Lemma ioctl_submit_exec :
  exec (lgnpu_ioctl npu_example LGNPU_IOCTL_SUBMIT 0x7000)
    ((CopyFromUser 0x7000 64, 0) :: submit_example 1200) (Ok 0).
Proof.
  change (lgnpu_ioctl npu_example LGNPU_IOCTL_SUBMIT 0x7000) with
    (r ← call (CopyFromUser 0x7000 64);
     if negb (r =? 0) then mret (- EFAULT) else lgnpu_cmd_submit npu_example (user_submit 0x7000)).
  apply exec_call; [by vm_compute|]. apply submit_example_exec.
Qed.

Theorem locking_discipline_witness :
  lock_run npu_example unlocked ((CopyFromUser 0x7000 64, 0) :: submit_example 1200) = Some unlocked.
Proof. exact (proj1 (proj1 (locking_discipline npu_example) _ _ _ _ ioctl_submit_exec)). Defined.

Theorem ioctl_requests_witness :
  exec (lgnpu_ioctl npu_example LGNPU_IOCTL_DMA_XFER 7) [(CopyFromUser 7 16, 0)] (Ok (-22)).
Proof. apply (ioctl_requests npu_example 0). by exists 0, []. Defined.

Theorem ioctl_queries_witness :
  exec (lgnpu_ioctl npu_example LGNPU_IOCTL_STATUS 0x7000)
    [(Readl 0x40000004, 5); (CopyToUser 0x7000 [1; 0; 1] 12, 0)] (Ok 0).
Proof. apply ioctl_queries. by exists 5, 0. Defined.

(** A transfer whose first poll finds the engine idle. *)
Definition dma_example : trace kcall :=
  [(MutexLock, 0); (Writel 0x1000 0x40000030, 0); (Writel 0x20 0x40000034, 0);
   (Writel 64 0x40000038, 0); (Writel 3 0x4000003C, 0); (Readl 0x40000040, 0);
   (Writel 1 0x40000014, 0); (MutexUnlock, 0)].

Lemma dma_example_exec : exec (lgnpu_dma_transfer npu_example 0x1000 0x20 64 1) dma_example (Ok 0).
Proof.
  apply dma_transfer_calls. exists true. exists (dma_hit npu_example 0). split_and!; [|reflexivity|done].
  exists []. split; [constructor|]. by exists 0.
Qed.

Theorem dma_ack_without_irq_lock_witness :
  exists t1 t2, dma_example = t1 ++ kw npu_example R_IRQ_CLEAR LGNPU_STATUS_PENDING :: t2 /\
    lock_run npu_example unlocked t1 = Some (mk_locks true SpinFree).
Proof. apply (dma_ack_without_irq_lock _ _ _ _ _ _ dma_example_exec). done. Defined.

Theorem dma_programming_agree_witness :
  omap store_of_mmio
    [(Store 0x40000030 0x1000, 0); (Store 0x40000034 0x20, 0); (Store 0x40000038 64, 0);
     (Store 0x4000003C 3, 0)] = take 4 (omap store_of dma_example).
Proof.
  apply (dma_programming_agree npu_example (mk_dma_req 0x1000 0x20 64 1) _ (Ok 0) _ (Ok 0)
           (proj2 (dma_start_calls _ _ _ _) (conj eq_refl eq_refl)) dma_example_exec).
Defined.

Lemma probe_example_exec :
  exec lgnpu_probe (probe_calls 0x1000 0x40000000 35 0x01006443)
    (Ok (0, npu_example)).
Proof. repeat (apply exec_call; [by vm_compute|]; simpl). apply exec_ret. Qed.

Theorem probe_registers_iff_success_witness :
  exists p r i f, p <> 0 /\ IS_ERR r = false /\ 0 <= i /\ f <> 0 /\
    npu_example = mk_npu r i MISC_DYNAMIC_MINOR LGNPU_DRV_NAME f /\
    probe_calls 0x1000 0x40000000 35 0x01006443 = probe_calls p r i f.
Proof.
  destruct (probe_registers_iff_success _ _ probe_example_exec) as (ret & npu & Ho & _ & Hok).
  injection Ho as <- <-. by apply Hok.
Defined.
