(* ===== verification/TbDesc.v ===== *)
(** * The testbench's command descriptors

    The C++ descriptor structures of [tb/integration/npu_tb.h] with their
    [to_words], which the integration tests use instead of the C library, and
    the proof that both encode every command alike. *)

From S2P Require Import Prelude Command Decode.

Open Scope Z_scope.

(** All members are [uint32_t]. *)
Record ConvDesc := mk_ConvDesc {
  tc_opcode : Z; tc_act_in_addr : Z; tc_act_out_addr : Z; tc_weight_addr : Z; tc_bias_addr :
  Z; tc_in_h : Z; tc_in_w : Z; tc_in_c : Z; tc_out_k : Z; tc_filt_r : Z; tc_filt_s : Z;
  tc_stride_h : Z; tc_stride_w : Z; tc_pad_h : Z; tc_pad_w : Z; tc_out_h : Z; tc_out_w : Z;
  tc_quant_shift : Z; tc_act_mode : Z }.

Record GemmDesc := mk_GemmDesc {
  tg_opcode : Z; tg_a_addr : Z; tg_c_addr : Z; tg_b_addr : Z; tg_bias_addr : Z; tg_m_dim :
  Z; tg_n_dim : Z; tg_k_dim : Z; tg_quant_shift : Z; tg_act_mode : Z }.

Record SoftmaxDesc := mk_SoftmaxDesc {
  ts_opcode : Z; ts_in_addr : Z; ts_out_addr : Z; ts_num_rows : Z; ts_row_len : Z }.

Record VecDesc := mk_VecDesc {
  tv_opcode : Z; tv_a_addr : Z; tv_out_addr : Z; tv_b_addr : Z; tv_length : Z; tv_vec_op :
  Z; tv_quant_shift : Z; tv_act_mode : Z }.

Record LnormDesc := mk_LnormDesc {
  tl_opcode : Z; tl_in_addr : Z; tl_out_addr : Z; tl_num_rows : Z; tl_row_len : Z;
  tl_norm_shift : Z }.

Record PoolDesc := mk_PoolDesc {
  tp_opcode : Z; tp_in_addr : Z; tp_out_addr : Z; tp_in_h : Z; tp_in_w : Z; tp_in_c : Z;
  tp_pool_r : Z; tp_pool_s : Z; tp_stride_h : Z; tp_stride_w : Z; tp_pad_h : Z; tp_pad_w :
  Z; tp_out_h : Z; tp_out_w : Z; tp_pool_mode : Z }.

(** [if (o == 0 && stride != 0) o = ((in + (2 * pad) - filt) / stride) + 1;] *)
Definition tb_out_dim (inp pad filt stride o : Z) : Z :=
  if (o =? 0) && negb (stride =? 0)
  then u32 (u32 (u32 (inp + u32 (2 * pad)) - filt) / stride + 1) else o.

(** [(pad & 0xFFFFu) | ((o & 0xFFFFu) << 16)] *)
Definition tb_pad_out (pad o : Z) : Z :=
  Z.lor (Z.land pad 0xFFFF) (u32 (Z.land o 0xFFFF ≪ 16)).

(** [(quant_shift & 0x1F) | ((act_mode & 0x3) << 5)] *)
Definition tb_shift_act (quant_shift act_mode : Z) : Z :=
  Z.lor (Z.land quant_shift 0x1F) (Z.land act_mode 0x3 ≪ 5).

(** [to_words]: the array of sixteen words it leaves. *)
Definition ConvDesc_to_words (d : ConvDesc) : list Z :=
  let oh := tb_out_dim (tc_in_h d) (tc_pad_h d) (tc_filt_r d) (tc_stride_h d) (tc_out_h d) in
  let ow := tb_out_dim (tc_in_w d) (tc_pad_w d) (tc_filt_s d) (tc_stride_w d) (tc_out_w d) in
  [tc_opcode d; tc_act_in_addr d; tc_act_out_addr d; tc_weight_addr d; tc_bias_addr d;
   tc_in_h d; tc_in_w d; tc_in_c d; tc_out_k d; tc_filt_r d; tc_filt_s d;
   tc_stride_h d; tc_stride_w d; tb_pad_out (tc_pad_h d) oh; tb_pad_out (tc_pad_w d) ow;
   tb_shift_act (tc_quant_shift d) (tc_act_mode d)].

(** [std::memset(out, 0, sizeof(uint32_t) * 16)] followed by stores. *)
Definition zeroed (stores : list (nat * Z)) : list Z :=
  foldl (fun out s => <[s.1 := s.2]> out) (replicate 16 0) stores.

Definition GemmDesc_to_words (d : GemmDesc) : list Z :=
  zeroed [(0, tg_opcode d); (1, tg_a_addr d); (2, tg_c_addr d); (3, tg_b_addr d);
          (4, tg_bias_addr d); (5, tg_m_dim d); (6, tg_n_dim d); (7, tg_k_dim d);
          (15, tb_shift_act (tg_quant_shift d) (tg_act_mode d))]%nat.

Definition SoftmaxDesc_to_words (d : SoftmaxDesc) : list Z :=
  zeroed [(0, ts_opcode d); (1, ts_in_addr d); (2, ts_out_addr d);
          (5, ts_num_rows d); (6, ts_row_len d)]%nat.

Definition VecDesc_to_words (d : VecDesc) : list Z :=
  zeroed [(0, tv_opcode d); (1, tv_a_addr d); (2, tv_out_addr d); (3, tv_b_addr d);
          (5, tv_length d); (6, tv_vec_op d);
          (15, tb_shift_act (tv_quant_shift d) (tv_act_mode d))]%nat.

Definition LnormDesc_to_words (d : LnormDesc) : list Z :=
  zeroed [(0, tl_opcode d); (1, tl_in_addr d); (2, tl_out_addr d); (5, tl_num_rows d);
          (6, tl_row_len d); (15, Z.land (tl_norm_shift d) 0x1F)]%nat.

Definition PoolDesc_to_words (d : PoolDesc) : list Z :=
  let oh := tb_out_dim (tp_in_h d) (tp_pad_h d) (tp_pool_r d) (tp_stride_h d) (tp_out_h d) in
  let ow := tb_out_dim (tp_in_w d) (tp_pad_w d) (tp_pool_s d) (tp_stride_w d) (tp_out_w d) in
  zeroed [(0, tp_opcode d); (1, tp_in_addr d); (2, tp_out_addr d); (5, tp_in_h d);
          (6, tp_in_w d); (7, tp_in_c d); (9, tp_pool_r d); (10, tp_pool_s d);
          (11, tp_stride_h d); (12, tp_stride_w d); (13, tb_pad_out (tp_pad_h d) oh);
          (14, tb_pad_out (tp_pad_w d) ow); (15, Z.land (tp_pool_mode d) 0x1)]%nat.

(** ** The same command for both encoders *)

(** The descriptor a test fills in for the parameters of the C library, with
    the opcode of its default member initialiser. *)
Definition tb_words (p : npu_params) : list Z :=
  match p with
  | PConv p => ConvDesc_to_words (mk_ConvDesc 1 (cv_act_in_addr p) (cv_act_out_addr p)
      (cv_weight_addr p) (cv_bias_addr p) (cv_in_h p) (cv_in_w p) (cv_in_c p) (cv_out_k p)
      (cv_filt_r p) (cv_filt_s p) (cv_stride_h p) (cv_stride_w p) (cv_pad_h p) (cv_pad_w p)
      (cv_out_h p) (cv_out_w p) (cv_quant_shift p) (cv_act_mode p))
  | PGemm p => GemmDesc_to_words (mk_GemmDesc 2 (gm_a_addr p) (gm_c_addr p) (gm_b_addr p)
      (gm_bias_addr p) (gm_M p) (gm_N p) (gm_K p) (gm_quant_shift p) (gm_act_mode p))
  | PSoftmax p => SoftmaxDesc_to_words (mk_SoftmaxDesc 3 (sm_in_addr p) (sm_out_addr p)
      (sm_num_rows p) (sm_row_len p))
  | PVec p => VecDesc_to_words (mk_VecDesc 4 (vc_a_addr p) (vc_out_addr p) (vc_b_addr p)
      (vc_length p) (vc_vec_op p) (vc_quant_shift p) (vc_act_mode p))
  | PLnorm p => LnormDesc_to_words (mk_LnormDesc 5 (ln_in_addr p) (ln_out_addr p)
      (ln_num_rows p) (ln_row_len p) (ln_norm_shift p))
  | PPool p => PoolDesc_to_words (mk_PoolDesc 6 (pl_in_addr p) (pl_out_addr p) (pl_in_h p)
      (pl_in_w p) (pl_in_c p) (pl_pool_r p) (pl_pool_s p) (pl_stride_h p) (pl_stride_w p)
      (pl_pad_h p) (pl_pad_w p) (pl_out_h p) (pl_out_w p) (pl_pool_mode p))
  end.

Lemma land_FFFF z : Z.land z 0xFFFF = u16 z.
Proof. apply (land_mask 16). done. Qed.

Lemma tb_out_dim_u16 inp pad filt stride o :
  fits 16 o -> u16 (tb_out_dim inp pad filt stride o) = derive_out_dim inp pad filt stride o.
Proof.
  intros Ho. unfold tb_out_dim, derive_out_dim.
  destruct (Z.eqb_spec o 0) as [->|]; simpl; [|by apply wrap_small].
  by destruct (stride =? 0).
Qed.

Lemma tb_pad_out_word inp pad filt stride o :
  fits 16 pad -> fits 16 o ->
  tb_pad_out pad (tb_out_dim inp pad filt stride o) =
  pad_out_word pad (derive_out_dim inp pad filt stride o).
Proof.
  intros Hp Ho. unfold tb_pad_out, pad_out_word.
  by rewrite !land_FFFF, tb_out_dim_u16, (wrap_small 16 pad).
Qed.

Lemma tb_words_layout p : params_wf p -> tb_words p = desc_layout p.
Proof.
  intros Hp.
  destruct p as [p|p|p|p|p|p]; simpl in Hp; try done;
    destruct Hp as [Hp _]; field_bounds;
    cbn [desc_layout tb_words]; unfold ConvDesc_to_words, PoolDesc_to_words;
    cbn [tc_in_h tc_in_w tc_pad_h tc_pad_w tc_filt_r tc_filt_s tc_stride_h tc_stride_w tc_out_h
         tc_out_w tp_in_h tp_in_w tp_pad_h tp_pad_w tp_pool_r tp_pool_s tp_stride_h tp_stride_w
         tp_out_h tp_out_w];
    by rewrite !tb_pad_out_word.
Qed.

(** The testbench's [to_words] and the C builders encode every well-typed
    command, derived output sizes included, into the same sixteen words: what
    the integration tests exercise is what the library sends. *)
Theorem tb_desc_agree p d :
  params_wf p -> build_cmd (Some d) p = (0, Some (mk_desc (tb_words p))).
Proof. intros Hp. by rewrite build_cmd_layout, tb_words_layout. Qed.

Theorem tb_desc_agree_witness :
  build_cmd (Some (mk_desc [])) (PConv (mk_conv 0 64 0 32 8 8 3 4 3 3 1 1 1 1 0 0 7 1)) =
  (0, Some (mk_desc [1; 0; 64; 0; 32; 8; 8; 3; 4; 3; 3; 1; 1; 0x80001; 0x80001; 39])).
Proof.
  apply (tb_desc_agree (PConv (mk_conv 0 64 0 32 8 8 3 4 3 3 1 1 1 1 0 0 7 1))).
  by apply (bool_decide_unpack _); vm_compute.
Defined.
