(* ===== verification/CArith.v ===== *)
(** * C integer arithmetic and loops over arrays

    What the reference models share: [int] operations with their undefined
    cases, narrowing casts, [for (int i = 0; i < hi; ++i)] loops, sums, and the
    two loop shapes of those models, accumulating a sum and filling an output
    array front to back. *)

From S2P Require Import Prelude.

Open Scope Z_scope.

(** ** [int] operations *)

Definition iadd (a b : Z) : res Z := int_of (a + b).
Definition isub (a b : Z) : res Z := int_of (a - b).
Definition imul (a b : Z) : res Z := int_of (a * b).
Definition ineg (a : Z) : res Z := int_of (- a).

(** [a / b] on [int] truncates toward zero; on unsigned operands it is the floor. *)
Definition idiv (a b : Z) : res Z := if b =? 0 then UB DivByZero else int_of (Z.quot a b).
Definition udiv (a b : Z) : res Z := if b =? 0 then UB DivByZero else Ok (a / b).

(** Arithmetic right shift of an [int], left shift of a [uint64_t]. *)
Definition sar (a n : Z) : res Z := if decide (0 <= n < 32) then Ok (a ≫ n) else UB BadShift.
Definition shl64 (a n : Z) : res Z := if decide (0 <= n < 64) then Ok (u64 (a ≪ n)) else UB BadShift.

(** [static_cast<int8_t>] *)
Definition i8 (z : Z) : Z := (z + 128) mod 256 - 128.

(** [static_cast<int32_t>] *)
Definition i32 (z : Z) : Z := (z + 2 ^ 31) mod 2 ^ 32 - 2 ^ 31.

Definition fits_i8 (z : Z) : Prop := -128 <= z <= 127.

(** [std::vector<int8_t> v(n)]: zeros; a negative size becomes a huge
    [size_t] and throws. *)
Definition vector_i8 (n : Z) : res (list Z) :=
  if n <? 0 then UB Throws else Ok (replicate (Z.to_nat n) 0).

Definition for_int {S} (hi : Z) (body : Z -> S -> res S) (s : S) : res S := for_up 31 hi body s.

Lemma int_of_ok z : INT_MIN <= z <= INT_MAX -> int_of z = Ok z.
Proof. intros. unfold int_of. by rewrite decide_True. Qed.

Lemma iadd_ok a b : INT_MIN <= a + b <= INT_MAX -> iadd a b = Ok (a + b).
Proof. apply int_of_ok. Qed.

Lemma isub_ok a b : INT_MIN <= a - b <= INT_MAX -> isub a b = Ok (a - b).
Proof. apply int_of_ok. Qed.

Lemma imul_ok a b : INT_MIN <= a * b <= INT_MAX -> imul a b = Ok (a * b).
Proof. apply int_of_ok. Qed.

Lemma i8_id z : fits_i8 z -> i8 z = z.
Proof. unfold fits_i8, i8. intros. rewrite Z.mod_small; lia. Qed.

Lemma i32_id z : INT_MIN <= z <= INT_MAX -> i32 z = z.
Proof. unfold i32, INT_MIN, INT_MAX. intros. rewrite Z.mod_small; lia. Qed.

Lemma load_ok (l : list Z) i x : 0 <= i -> l !! Z.to_nat i = Some x -> load l i = Ok x.
Proof. intros Hi Hx. unfold load. rewrite decide_True by done. by rewrite Hx. Qed.

Lemma load_total (l : list Z) i :
  0 <= i < Z.of_nat (length l) -> load l i = Ok (l !!! Z.to_nat i).
Proof.
  intros Hi. apply load_ok; [lia|]. apply list_lookup_lookup_total_lt. lia.
Qed.

Lemma for_int_ind {S} hi (body : Z -> S -> res S) (I : Z -> S -> Prop) s :
  0 <= hi <= INT_MAX -> I 0 s ->
  (forall j t, 0 <= j < hi -> I j t -> exists t', body j t = Ok t' /\ I (j + 1) t') ->
  exists s', for_int hi body s = Ok s' /\ I hi s'.
Proof.
  intros Hhi H0 Hstep. apply for_up_ind; [|done|done].
  unfold fits, INT_MAX in *. lia.
Qed.

Lemma for_int_neg {S} hi (body : Z -> S -> res S) s : hi <= 0 -> for_int hi body s = Ok s.
Proof. intros Hhi. unfold for_int, for_up. simpl. by rewrite (proj2 (Z.ltb_ge 0 hi)). Qed.

(** ** Sums *)

Definition Zsum (n : Z) (f : Z -> Z) : Z := foldr Z.add 0 (f <$> seqZ 0 n).

Lemma foldr_add_app l1 l2 : foldr Z.add 0 (l1 ++ l2) = foldr Z.add 0 l1 + foldr Z.add 0 l2.
Proof. induction l1 as [|x l1 IH]; [done|]. simpl. lia. Qed.

Lemma Zsum_0 f : Zsum 0 f = 0.
Proof. done. Qed.

Lemma Zsum_succ n f : 0 <= n -> Zsum (n + 1) f = Zsum n f + f n.
Proof.
  intros Hn. unfold Zsum. rewrite seqZ_app, fmap_app, foldr_add_app by lia.
  replace (seqZ (0 + n) 1) with [n] by done. simpl. lia.
Qed.

Lemma Zsum_add n m f : 0 <= n -> 0 <= m -> Zsum (n + m) f = Zsum n f + Zsum m (fun i => f (n + i)).
Proof.
  intros Hn. revert m. apply (natlike_ind (fun m => _)); [by rewrite Zsum_0, !Z.add_0_r|].
  intros m Hm IH. rewrite <- Z.add_1_r, Z.add_assoc, !Zsum_succ by lia. lia.
Qed.

Lemma Zsum_ext n f g : (forall i, 0 <= i < n -> f i = g i) -> Zsum n f = Zsum n g.
Proof.
  intros Hfg. unfold Zsum. f_equal. apply list_fmap_ext. intros i x Hx.
  apply lookup_seqZ in Hx as [-> Hi]. apply Hfg. lia.
Qed.

Lemma Zsum_bound n f B : 0 <= n -> (forall i, 0 <= i < n -> Z.abs (f i) <= B) -> Z.abs (Zsum n f) <= n * B.
Proof.
  intros Hn. revert n Hn. apply (natlike_ind (fun n => _ -> _)); [done|].
  intros n Hn IH Hf. rewrite <- Z.add_1_r, Zsum_succ by done.
  pose proof (Hf n ltac:(lia)). pose proof (IH ltac:(intros; apply Hf; lia)). nia.
Qed.

Lemma Zsum_range n f lo hi :
  0 <= n -> (forall i, 0 <= i < n -> lo <= f i <= hi) -> n * lo <= Zsum n f <= n * hi.
Proof.
  intros Hn. revert n Hn. apply (natlike_ind (fun n => _ -> _)); [rewrite Zsum_0; lia|].
  intros n Hn IH Hf. rewrite <- Z.add_1_r, Zsum_succ by done.
  pose proof (Hf n ltac:(lia)). pose proof (IH ltac:(intros; apply Hf; lia)). nia.
Qed.

Lemma Zsum_nonneg n f : (forall i, 0 <= i < n -> 0 <= f i) -> 0 <= Zsum n f.
Proof.
  destruct (decide (0 <= n)) as [Hn|Hn]; [|intros _; unfold Zsum; by rewrite seqZ_nil by lia].
  revert n Hn. apply (natlike_ind (fun n => _ -> _)); [done|].
  intros n Hn IH Hf. rewrite <- Z.add_1_r, Zsum_succ by done.
  pose proof (Hf n ltac:(lia)). pose proof (IH ltac:(intros; apply Hf; lia)). lia.
Qed.

(** One term of a sum of non-negative terms is at most the sum. *)
Lemma Zsum_term n f i : (forall j, 0 <= j < n -> 0 <= f j) -> 0 <= i < n -> f i <= Zsum n f.
Proof.
  destruct (decide (0 <= n)) as [Hn|Hn]; [|lia].
  revert n Hn. apply (natlike_ind (fun n => _ -> _ -> _)); [lia|].
  intros n Hn IH Hf Hi. rewrite <- Z.add_1_r, Zsum_succ by done.
  destruct (decide (i = n)) as [->|].
  - pose proof (Zsum_nonneg n f ltac:(intros; apply Hf; lia)). lia.
  - pose proof (IH ltac:(intros; apply Hf; lia) ltac:(lia)). pose proof (Hf n ltac:(lia)). lia.
Qed.

(** ** Accumulating loops *)

Section accumulate.
Context (hi B0 B : Z) (f : Z -> Z) (body : Z -> Z -> res Z).
Hypothesis Hhi : 0 <= hi <= INT_MAX.
Hypothesis Hf : forall i, 0 <= i < hi -> Z.abs (f i) <= B.
Hypothesis Hbody : forall i acc, 0 <= i < hi -> Z.abs acc <= B0 + i * B -> body i acc = Ok (acc + f i).

Lemma for_int_sum acc0 : Z.abs acc0 <= B0 -> for_int hi body acc0 = Ok (acc0 + Zsum hi f).
Proof using Hhi Hf Hbody.
  intros H0.
  destruct (for_int_ind hi body (fun i acc => acc = acc0 + Zsum i f) acc0)
    as (acc & Hacc & ->); [done|rewrite Zsum_0; lia| |done].
  intros i acc Hi ->. exists (acc0 + Zsum i f + f i). split.
  - apply Hbody; [done|]. pose proof (Zsum_bound i f B ltac:(lia) ltac:(intros; apply Hf; lia)). lia.
  - rewrite Zsum_succ by lia. lia.
Qed.
End accumulate.

(** ** Filling loops *)

(** The first [c] cells of [out] hold [G]. *)
Definition filled (G : Z -> Z) (L c : Z) (out : list Z) : Prop :=
  Z.of_nat (length out) = L /\ forall i, 0 <= i < c -> out !! Z.to_nat i = Some (G i).

Lemma filled_vector G L : 0 <= L -> exists out, vector_i8 L = Ok out /\ filled G L 0 out.
Proof.
  intros HL. unfold vector_i8. rewrite (proj2 (Z.ltb_ge L 0)) by done.
  eexists. split; [done|]. split; [rewrite length_replicate; lia|lia].
Qed.

Lemma filled_store G L c x out :
  filled G L c out -> 0 <= c < L -> x = G c ->
  exists out', store out c x = Ok out' /\ filled G L (c + 1) out'.
Proof.
  intros [Hlen Hout] Hc ->. unfold store. rewrite decide_True by lia.
  eexists. split; [done|]. split; [by rewrite length_insert|].
  intros i Hi. destruct (decide (i = c)) as [->|].
  - apply list_lookup_insert_eq. lia.
  - rewrite list_lookup_insert_ne by lia. apply Hout. lia.
Qed.

Lemma filled_all G L out :
  filled G L L out -> 0 <= L -> out = G <$> seqZ 0 L.
Proof.
  intros [Hlen Hout] HL. apply list_eq. intros i. rewrite list_lookup_fmap.
  destruct (decide (Z.of_nat i < L)) as [Hi|Hi].
  - rewrite lookup_seqZ_lt by done. pose proof (Hout (Z.of_nat i) ltac:(lia)) as Hx.
    rewrite Nat2Z.id in Hx. done.
  - rewrite lookup_seqZ_ge by lia. apply lookup_ge_None. lia.
Qed.

(** A loop whose turn [i] advances the filled prefix from [base + i * w] to
    [base + (i + 1) * w]. *)
Lemma for_int_fill G L hi base w body out :
  0 <= hi <= INT_MAX -> filled G L base out ->
  (forall i t, 0 <= i < hi -> filled G L (base + i * w) t ->
     exists t', body i t = Ok t' /\ filled G L (base + i * w + w) t') ->
  exists out', for_int hi body out = Ok out' /\ filled G L (base + hi * w) out'.
Proof.
  intros Hhi H0 Hstep.
  apply (for_int_ind hi body (fun i t => filled G L (base + i * w) t)); [done| |].
  - by replace (base + 0 * w) with base by lia.
  - intros j t Hj Ht. replace (base + (j + 1) * w) with (base + j * w + w) by lia. by apply Hstep.
Qed.

(** Three nested loops that fill an array of shape [OH * OW * K] in order. *)
Lemma fill_nhwc G OH OW K (body : Z -> Z -> Z -> list Z -> res (list Z)) out :
  0 <= OH <= INT_MAX -> 0 <= OW <= INT_MAX -> 0 <= K <= INT_MAX ->
  filled G (OH * OW * K) 0 out ->
  (forall oh ow k v, 0 <= oh < OH -> 0 <= ow < OW -> 0 <= k < K ->
     filled G (OH * OW * K) ((oh * OW + ow) * K + k) v ->
     exists v', body oh ow k v = Ok v' /\ filled G (OH * OW * K) ((oh * OW + ow) * K + k + 1) v') ->
  for_int OH (fun oh out => for_int OW (fun ow out => for_int K (body oh ow) out) out) out =
  Ok (G <$> seqZ 0 (OH * OW * K)).
Proof.
  intros HOH HOW HK Hout Hbody.
  edestruct (for_int_fill G (OH * OW * K) OH 0 (OW * K)) as (out' & -> & Hf); [done|exact Hout| |].
  2:{ f_equal. apply filled_all; [|nia]. by rewrite Z.add_0_l, Z.mul_assoc in Hf. }
  intros oh t Hoh Ht.
  edestruct (for_int_fill G (OH * OW * K) OW (0 + oh * (OW * K)) K) as (t' & Ht' & Hf');
    [done|exact Ht| |by exists t'].
  intros ow u How Hu.
  edestruct (for_int_fill G (OH * OW * K) K (0 + oh * (OW * K) + ow * K) 1) as (u' & Hu' & Hf'');
    [done|exact Hu| |].
  2:{ exists u'. split; [exact Hu'|]. by rewrite Z.mul_1_r in Hf''. }
  intros k v Hk Hv.
  replace (0 + oh * (OW * K) + ow * K + k * 1) with ((oh * OW + ow) * K + k) in * by lia.
  by apply Hbody.
Qed.

(** ** Three nested counters

    The digits of a number in two radices, the way loop counters hold them. *)

Lemma div_mod_succ x d : 0 < d ->
  (x + 1) / d = (if x mod d =? d - 1 then x / d + 1 else x / d) /\
  (x + 1) mod d = (if x mod d =? d - 1 then 0 else x mod d + 1).
Proof.
  intros Hd. pose proof (Z.mod_pos_bound x d Hd). pose proof (Z.div_mod x d ltac:(lia)) as Hx.
  destruct (Z.eqb_spec (x mod d) (d - 1)) as [E|E].
  - assert (Hx' : x + 1 = d * (x / d + 1) + 0) by lia. rewrite Hx'.
    split; [symmetry; apply (Z.div_unique _ _ _ 0); lia|symmetry; apply (Z.mod_unique _ _ (x / d + 1)); lia].
  - assert (Hx' : x + 1 = d * (x / d) + (x mod d + 1)) by lia.
    split; [symmetry; apply (Z.div_unique _ _ _ (x mod d + 1)); lia|symmetry; apply (Z.mod_unique _ _ (x / d)); lia].
Qed.

Section digits.
Context (x D1 D2 : Z).
Hypothesis HD1 : 1 <= D1.
Hypothesis HD2 : 1 <= D2.

Lemma digits_succ :
  (x + 1) mod D1 = (if x mod D1 =? D1 - 1 then 0 else x mod D1 + 1) /\
  ((x + 1) / D1) mod D2 =
    (if x mod D1 =? D1 - 1 then if (x / D1) mod D2 =? D2 - 1 then 0 else (x / D1) mod D2 + 1 else (x / D1) mod D2) /\
  (x + 1) / D1 / D2 = (if (x mod D1 =? D1 - 1) && ((x / D1) mod D2 =? D2 - 1) then x / D1 / D2 + 1 else x / D1 / D2).
Proof using All.
  destruct (div_mod_succ x D1 ltac:(lia)) as [-> ->]. destruct (_ =? D1 - 1); [|done].
  destruct (div_mod_succ (x / D1) D2 ltac:(lia)) as [-> ->]. by destruct (_ =? D2 - 1).
Qed.

Lemma digits_sum : x = (x / D1 / D2 * D2 + (x / D1) mod D2) * D1 + x mod D1.
Proof using All.
  pose proof (Z.div_mod x D1 ltac:(lia)). pose proof (Z.div_mod (x / D1) D2 ltac:(lia)). nia.
Qed.

Lemma digits_bounds D3 : 0 <= x < D3 * D2 * D1 ->
  0 <= x mod D1 < D1 /\ 0 <= (x / D1) mod D2 < D2 /\ 0 <= x / D1 / D2 < D3.
Proof using All.
  intros Hx. split_and!; try (apply Z.mod_pos_bound; lia).
  - apply Z.div_pos; [apply Z.div_pos; lia|lia].
  - apply Z.div_lt_upper_bound; [lia|]. apply Z.div_lt_upper_bound; [lia|]. nia.
Qed.

(** All three at their last value. *)
Lemma digits_last D3 : 0 <= x < D3 * D2 * D1 ->
  (x mod D1 =? D1 - 1) && ((x / D1 / D2 =? D3 - 1) && ((x / D1) mod D2 =? D2 - 1)) = bool_decide (x + 1 = D3 * D2 * D1).
Proof using All.
  intros Hx. destruct (digits_bounds D3 Hx) as (Hk & Hn & Hm). pose proof digits_sum as Hs.
  set (k := x mod D1) in *. set (m := x / D1 / D2) in *. set (n := (x / D1) mod D2) in *. set (o := m * D2 + n) in *.
  assert (Ho : (m =? D3 - 1) && (n =? D2 - 1) = bool_decide (o + 1 = D3 * D2)).
  { destruct (Z.eqb_spec m (D3 - 1)) as [E1|], (Z.eqb_spec n (D2 - 1)) as [E2|]; cbn [andb]; symmetry;
      (apply bool_decide_eq_true_2 || apply bool_decide_eq_false_2); unfold o; rewrite ?E1, ?E2; nia. }
  rewrite Ho. assert (Hle : o + 1 <= D3 * D2) by (unfold o; nia). assert (HoK : (o + 1) * D1 <= D3 * D2 * D1) by nia.
  destruct (Z.eqb_spec k (D1 - 1)); cbn [andb]; [|symmetry; apply bool_decide_eq_false_2; lia].
  apply bool_decide_ext. split; [intros E; rewrite E in *; lia|intros E; nia].
Qed.
End digits.

(** What holds of all numbers below [k], by enumeration. *)
Lemma below (P : Z -> Prop) k : Forall P (seqZ 0 k) -> forall x, 0 <= x < k -> P x.
Proof. rewrite Forall_forall. intros HP x Hx. apply HP, list_elem_of_In, elem_of_seqZ. lia. Qed.
