(* ===== verification/SerialDiv.v ===== *)
(** * Serial division

    The restoring divider of [pool_ctrl] and [lnorm_ctrl], one bit of the
    quotient per clock: 32 clocks divide. Its step lemmas also serve the 24-bit
    divider of [softmax_ctrl]. *)

From S2P Require Import Prelude CArith.

Open Scope Z_scope.

(** The quotient register holds the bits of the dividend still to come above
    those of the quotient. *)
Definition div_next (quot rem denom : Z) : Z * Z :=
  let trial := wrap 32 (2 * rem) + quot ≫ 31 in
  if denom <=? trial then (u32 (2 * quot) + 1, trial - denom) else (u32 (2 * quot), trial).

(** The quotient and remainder registers after [k] clocks. *)
Definition serial (N D : Z) (k : nat) : Z * Z := Nat.iter k (fun '(quot, rem) => div_next quot rem D) (N, 0).

Lemma serial_S N D k : serial N D (S k) = let '(quot, rem) := serial N D k in div_next quot rem D.
Proof. done. Qed.

(** ** One bit

    One more bit of the numerator: the next digit of the quotient says whether
    the divisor still fits. *)
Lemma div_bit h b D :
  0 <= h -> 0 <= b <= 1 -> 1 <= D ->
  let r := 2 * (h mod D) + b in
  ((2 * h + b) / D, (2 * h + b) mod D) = if D <=? r then (2 * (h / D) + 1, r - D) else (2 * (h / D), r).
Proof.
  intros Hh Hb HD. cbv zeta. pose proof (Z.div_mod h D ltac:(lia)) as Hq. pose proof (Z.mod_pos_bound h D ltac:(lia)) as Hr.
  set (q := h / D) in *. set (r := h mod D) in *. destruct (Z.leb_spec D (2 * r + b)).
  - rewrite <- (Z.div_unique_pos (2 * h + b) D (2 * q + 1) (2 * r + b - D)) by lia.
    by rewrite <- (Z.mod_unique_pos (2 * h + b) D (2 * q + 1) (2 * r + b - D)) by lia.
  - rewrite <- (Z.div_unique_pos (2 * h + b) D (2 * q) (2 * r + b)) by lia.
    by rewrite <- (Z.mod_unique_pos (2 * h + b) D (2 * q) (2 * r + b)) by lia.
Qed.

(** The top bit of a [w]-bit register that has been shifted [k] times is the bit
    of the number it held that comes next. *)
Lemma shifted_top N w k :
  0 <= N -> 0 <= k < w ->
  0 <= wrap w (N * 2 ^ k) / 2 ^ (w - 1) <= 1 /\
  N / 2 ^ (w - (k + 1)) = 2 * (N / 2 ^ (w - k)) + wrap w (N * 2 ^ k) / 2 ^ (w - 1).
Proof.
  intros HN Hk. unfold wrap.
  assert (Hw : 2 ^ w = 2 ^ (w - k) * 2 ^ k) by (rewrite <- Z.pow_add_r by lia; f_equal; lia).
  assert (Hw1 : 2 ^ (w - 1) = 2 ^ (w - (k + 1)) * 2 ^ k) by (rewrite <- Z.pow_add_r by lia; f_equal; lia).
  assert (Hp : 2 ^ (w - k) = 2 * 2 ^ (w - (k + 1))) by (rewrite <- Z.pow_succ_r by lia; f_equal; lia).
  assert (0 < 2 ^ (w - (k + 1))) by (apply Z.pow_pos_nonneg; lia). assert (0 < 2 ^ k) by (apply Z.pow_pos_nonneg; lia).
  rewrite Hw, Hw1, Z.mul_mod_distr_r, Z.div_mul_cancel_r, Hp by lia. set (p := 2 ^ (w - (k + 1))) in *.
  pose proof (Z.div_mod N (2 * p) ltac:(lia)) as Hn. pose proof (Z.mod_pos_bound N (2 * p) ltac:(lia)) as Hl.
  set (h := N / (2 * p)) in *. set (l := N mod (2 * p)) in *.
  pose proof (Z.div_mod l p ltac:(lia)) as Hb. pose proof (Z.mod_pos_bound l p ltac:(lia)).
  split; [split; [apply Z.div_pos; lia|]; assert (l / p < 2) by (apply Z.div_lt_upper_bound; lia); lia|].
  symmetry. apply (Z.div_unique_pos _ _ _ (l mod p)); lia.
Qed.

(** ** 32 of them *)

Lemma wrap_shift w N k : 0 <= k <= w -> wrap w (N * 2 ^ k) = N mod 2 ^ (w - k) * 2 ^ k.
Proof.
  intros Hk. unfold wrap. replace (2 ^ w) with (2 ^ (w - k) * 2 ^ k) by (rewrite <- Z.pow_add_r by lia; f_equal; lia).
  apply Z.mul_mod_distr_r; apply Z.pow_nonzero; lia.
Qed.

(** The bits below the top one and a quotient of [k] bits do not overflow. *)
Lemma shifted_room w N k q : 0 <= k < w -> 0 <= q < 2 ^ k -> wrap w (N * 2 ^ k) mod 2 ^ (w - 1) + q < 2 ^ (w - 1).
Proof.
  intros Hk Hq. rewrite wrap_shift by lia.
  replace (2 ^ (w - 1)) with (2 ^ (w - 1 - k) * 2 ^ k) by (rewrite <- Z.pow_add_r by lia; f_equal; lia).
  assert (0 < 2 ^ (w - 1 - k)) by (apply Z.pow_pos_nonneg; lia). assert (0 < 2 ^ k) by lia. rewrite Z.mul_mod_distr_r by lia.
  pose proof (Z.mod_pos_bound (N mod 2 ^ (w - k)) (2 ^ (w - 1 - k)) ltac:(lia)). nia.
Qed.

(** After [k] clocks the upper bits of the dividend have been divided and the
    lower ones are still to come. *)
Lemma serial_step N D k :
  fits 32 N -> 1 <= D < 2 ^ 31 -> 0 <= k < 32 ->
  div_next (wrap 32 (N * 2 ^ k) + N / 2 ^ (32 - k) / D) ((N / 2 ^ (32 - k)) mod D) D =
  (wrap 32 (N * 2 ^ (k + 1)) + N / 2 ^ (32 - (k + 1)) / D, (N / 2 ^ (32 - (k + 1))) mod D).
Proof.
  intros [HN0 HN] HD Hk. destruct (shifted_top N 32 k HN0 Hk) as [Hb Hup]. rewrite Hup.
  assert (Hh : 0 <= N / 2 ^ (32 - k) < 2 ^ k).
  { split; [apply Z.div_pos; [|apply Z.pow_pos_nonneg]; lia|]. apply Z.div_lt_upper_bound; [apply Z.pow_pos_nonneg; lia|].
    rewrite <- Z.pow_add_r by lia. by replace (32 - k + k) with 32 by lia. }
  set (h := N / 2 ^ (32 - k)) in *. set (b := wrap 32 (N * 2 ^ k) / 2 ^ (32 - 1)) in *.
  pose proof (div_bit h b D ltac:(lia) Hb ltac:(lia)) as Hd. cbv zeta in Hd.
  pose proof (Z.mod_pos_bound h D ltac:(lia)) as Hr.
  assert (Hq : 0 <= h / D < 2 ^ k) by (split; [apply Z.div_pos; lia|apply Z.div_lt_upper_bound; nia]).
  pose proof (shifted_room 32 N k (h / D) Hk Hq) as Hroom. unfold div_next.
  assert (Hnum : wrap 32 (N * 2 ^ (k + 1)) = wrap 32 (2 * wrap 32 (N * 2 ^ k))).
  { unfold wrap. rewrite Zmult_mod_idemp_r. f_equal. rewrite Z.pow_add_r by lia. lia. }
  rewrite Hnum. set (W := wrap 32 (N * 2 ^ k)) in *. change (32 - 1) with 31 in *.
  pose proof (Z.div_mod W (2 ^ 31) ltac:(lia)) as HW. fold b in HW. change (2 ^ 31) with 2147483648 in *.
  set (V := W mod 2147483648) in *. assert (0 <= V) by (apply Z.mod_pos_bound; lia).
  assert (Htop : (W + h / D) ≫ 31 = b).
  { rewrite Z.shiftr_div_pow2 by done. symmetry. apply (Z.div_unique_pos _ _ _ (V + h / D)); [change (2 ^ 31) with 2147483648; lia|].
    change (2 ^ 31) with 2147483648. lia. }
  assert (Hlow : u32 (2 * (W + h / D)) = wrap 32 (2 * W) + 2 * (h / D)).
  { assert (HV : wrap 32 (2 * W) = 2 * V) by (symmetry; apply (Z.mod_unique_pos _ _ b); change (2 ^ 32) with 4294967296; lia).
    rewrite HV. symmetry. apply (Z.mod_unique_pos _ _ b); change (2 ^ 32) with 4294967296; lia. }
  rewrite Htop, Hlow, (wrap_small 32 (2 * _)) by (unfold fits; change (2 ^ 32) with 4294967296; lia).
  destruct (D <=? _); injection Hd as -> ->; [f_equal; lia|done].
Qed.

(** 32 clocks divide. *)
Lemma serial_divides N D :
  fits 32 N -> 1 <= D < 2 ^ 31 -> serial N D 32 = (N / D, N mod D).
Proof.
  intros HN HD.
  assert (Hk : forall k, (k <= 32)%nat -> serial N D k =
    (wrap 32 (N * 2 ^ Z.of_nat k) + N / 2 ^ (32 - Z.of_nat k) / D, (N / 2 ^ (32 - Z.of_nat k)) mod D)).
  { induction k as [|k IH]; intros Hk.
    - change (Z.of_nat 0) with 0. rewrite Z.sub_0_r, Z.mul_1_r, (Z.div_small N (2 ^ 32)), Zdiv_0_l, Zmod_0_l, wrap_small, Z.add_0_r by done. done.
    - rewrite serial_S, IH, serial_step by (done || lia).
      by rewrite Nat2Z.inj_succ, <- Z.add_1_r. }
  rewrite Hk by done. change (Z.of_nat 32) with 32. rewrite wrap_shift by lia. change (32 - 32) with 0. change (2 ^ 0) with 1.
  by rewrite Z.mod_1_r, Z.div_1_r.
Qed.
