(* ===== verification/Golden.v ===== *)
(** * Reference models of the testbench: square root, vector, GEMM, convolution

    The C++ golden models of [tb/integration/npu_tb.h] against which the RTL is
    compared. Every [int] operation, array access and shift is the C one, with
    undefined behaviour as a value; the theorems say for which inputs the
    models are defined and which mathematical function they compute. *)

From S2P Require Import Prelude CArith.

Open Scope Z_scope.

Definition ACT_MODE_NONE : Z := 0.
Definition ACT_MODE_RELU : Z := 1.
Definition ACT_MODE_LEAKY_RELU : Z := 2.
Definition LEAKY_SHIFT : Z := 3.

(** ** isqrt_hw *)

(** One turn of [for (int i = 15; i >= 0; --i)]. *)
Definition isqrt_step (n i : Z) (s : Z * Z) : Z * Z :=
  let '(rem, result) := s in
  let rem := u32 (Z.lor (rem ≪ 2) (Z.land (n ≫ (2 * i)) 3)) in
  let trial := Z.lor (u32 (result ≪ 2)) 1 in
  if trial <=? rem
  then (rem - trial, u16 (Z.lor (result ≪ 1) 1))
  else (rem, u16 (result ≪ 1)).

Fixpoint isqrt_down (n : Z) (i : nat) (s : Z * Z) : Z * Z :=
  match i with
  | O => s
  | S j => isqrt_down n j (isqrt_step n (Z.of_nat j) s)
  end.

Definition isqrt_hw (n : Z) : Z := snd (isqrt_down n 16 (0, 0)).

(** ** The common tail of vector, GEMM and convolution *)

(** [if (act_mode == RELU) { if (acc < 0) acc = 0; } else if (LEAKY) ...] *)
Definition activate (act_mode acc : Z) : Z :=
  if act_mode =? ACT_MODE_RELU then (if acc <? 0 then 0 else acc)
  else if act_mode =? ACT_MODE_LEAKY_RELU then (if acc <? 0 then acc ≫ LEAKY_SHIFT else acc)
  else acc.

(** [if (acc > 127) acc = 127; if (acc < -128) acc = -128;] *)
Definition clamp_i8 (acc : Z) : Z :=
  let acc := if 127 <? acc then 127 else acc in
  if acc <? -128 then -128 else acc.

Definition requantize (quant_shift act_mode acc : Z) : res Z :=
  acc ← sar (activate act_mode acc) quant_shift;
  mret (i8 (clamp_i8 acc)).

Definition add_bias (bias : list Z) (n acc : Z) : res Z :=
  if bool_decide (bias = []) then Ok acc else b ← load bias n; iadd acc b.

(** ** ref_vec *)

Definition ref_vec (a b : list Z) (length vec_op quant_shift act_mode : Z) : res (list Z) :=
  out ← vector_i8 length;
  for_int length (fun i out =>
    if vec_op =? 0 then
      x ← load a i; y ← load b i;
      sum ← iadd x y;
      store out i (i8 (clamp_i8 sum))
    else
      x ← load a i; y ← load b i;
      acc ← imul x y;
      q ← requantize quant_shift act_mode acc;
      store out i q) out.

(** ** ref_gemm *)

Definition gemm_mac (a b : list Z) (N K m n k acc : Z) : res Z :=
  i ← imul m K; i ← iadd i k; x ← load a i;
  j ← imul k N; j ← iadd j n; y ← load b j;
  p ← imul x y;
  iadd acc p.

Definition ref_gemm (a b bias : list Z) (M N K quant_shift act_mode : Z) : res (list Z) :=
  sz ← imul M N;
  out ← vector_i8 sz;
  for_int M (fun m out =>
    for_int N (fun n out =>
      acc ← for_int K (gemm_mac a b N K m n) 0;
      acc ← add_bias bias n acc;
      q ← requantize quant_shift act_mode acc;
      o ← imul m N; o ← iadd o n;
      store out o q) out) out.

(** ** ref_conv *)

(** [(H + 2 * pad - R) / stride + 1] *)
Definition out_size (H pad R stride : Z) : res Z :=
  p ← imul 2 pad; x ← iadd H p; x ← isub x R; q ← idiv x stride; iadd q 1.

(** [o * stride + r - pad] *)
Definition in_coord (o stride r pad : Z) : res Z :=
  x ← imul o stride; x ← iadd x r; isub x pad.

(** [(i * W + j) * C + c] *)
Definition idx3 (i W j C c : Z) : res Z :=
  x ← imul i W; x ← iadd x j; x ← imul x C; iadd x c.

Definition inside (H W ih iw : Z) : bool :=
  (0 <=? ih) && (ih <? H) && (0 <=? iw) && (iw <? W).

Definition conv_mac (act wt : list Z) (H W C R S stride_h stride_w pad_h pad_w oh ow k r s c acc : Z)
  : res Z :=
  ih ← in_coord oh stride_h r pad_h;
  iw ← in_coord ow stride_w s pad_w;
  a ← (if inside H W ih iw then i ← idx3 ih W iw C c; load act i else Ok 0);
  x ← imul k R; x ← iadd x r; x ← imul x S; x ← iadd x s; x ← imul x C; x ← iadd x c;
  w ← load wt x;
  p ← imul a w;
  iadd acc p.

Definition ref_conv (act wt bias : list Z)
    (H W C K R S stride_h stride_w pad_h pad_w quant_shift act_mode : Z) : res (list Z) :=
  OH ← out_size H pad_h R stride_h;
  OW ← out_size W pad_w S stride_w;
  sz ← imul OH OW; sz ← imul sz K;
  out ← vector_i8 sz;
  for_int OH (fun oh out =>
    for_int OW (fun ow out =>
      for_int K (fun k out =>
        acc ← for_int R (fun r acc =>
          for_int S (fun s acc =>
            for_int C (conv_mac act wt H W C R S stride_h stride_w pad_h pad_w oh ow k r s) acc)
            acc) 0;
        acc ← add_bias bias k acc;
        q ← requantize quant_shift act_mode acc;
        o ← idx3 oh OW ow K k;
        store out o q) out) out) out.

Example isqrt_99 : isqrt_hw 99 = 9 /\ isqrt_hw 4294967295 = 65535.
Proof. by vm_compute. Qed.

Example gemm_2x2 : ref_gemm [1; 2; 3; -4] [5; 6; 7; 8] [1; -1] 2 2 2 1 ACT_MODE_RELU = Ok [10; 10; 0; 0].
Proof. by vm_compute. Qed.

Example conv_3x3 :
  ref_conv [1; 2; 3; 4] [1; 1; 1; 1] [] 2 2 1 1 2 2 1 1 1 1 0 ACT_MODE_NONE
  = Ok [1; 3; 2; 4; 10; 6; 3; 7; 4].
Proof. by vm_compute. Qed.

(** ** The square root *)

(** After the bits above [2 i] are consumed: remainder and root of the
    prefix of [n]. *)
Definition isqrt_inv (n i : Z) (s : Z * Z) : Prop :=
  snd s * snd s + fst s = n ≫ (2 * i) /\ 0 <= fst s <= 2 * snd s /\ 0 <= snd s < 2 ^ (16 - i).

Lemma isqrt_shift n i : 0 <= i -> n ≫ (2 * i) = 4 * (n ≫ (2 * (i + 1))) + Z.land (n ≫ (2 * i)) 3.
Proof.
  intros Hi. change 3 with (2 ^ 2 - 1). rewrite land_mask by done. unfold wrap.
  replace (2 * (i + 1)) with (2 * i + 2) by lia.
  rewrite <- (Z.shiftr_shiftr n (2 * i) 2) by lia. rewrite (Z.shiftr_div_pow2 _ 2) by done.
  apply Z.div_mod. done.
Qed.

Lemma land3_bound z : 0 <= Z.land z 3 < 4.
Proof. change 3 with (2 ^ 2 - 1). rewrite land_mask by done. apply fits_wrap. done. Qed.

Lemma lor_add n a b : 0 <= n -> fits n b -> Z.lor (a ≪ n) b = a * 2 ^ n + b.
Proof. intros Hn Hb. rewrite Z.lor_comm, lor_shiftl_add by done. lia. Qed.

Lemma isqrt_step_inv n i s :
  0 <= i < 16 -> isqrt_inv n (i + 1) s -> isqrt_inv n i (isqrt_step n i s).
Proof.
  destruct s as [rem result]. unfold isqrt_inv, isqrt_step. cbn [fst snd].
  intros Hi (Heq & Hrem & Hres). pose proof (land3_bound (n ≫ (2 * i))) as Hd.
  pose proof (isqrt_shift n i ltac:(lia)) as Hs. set (d := Z.land (n ≫ (2 * i)) 3) in *.
  set (p := n ≫ (2 * i)) in *. clearbody d p.
  replace (16 - (i + 1)) with (15 - i) in Hres by lia.
  assert (H15 : 2 ^ (15 - i) <= 2 ^ 15) by (apply Z.pow_le_mono_r; lia).
  change (2 ^ 15) with 32768 in H15.
  replace (16 - i) with (Z.succ (15 - i)) by lia. rewrite Z.pow_succ_r by lia.
  rewrite (lor_add 2) by (done || exact Hd). change (2 ^ 2) with 4.
  rewrite (wrap_small 32 (rem * 4 + d)) by (words; lia).
  rewrite (wrap_small 32 (result ≪ 2)) by (rewrite Z.shiftl_mul_pow2 by done; words; lia).
  rewrite (lor_add 2 result 1), (lor_add 1 result 1) by done.
  rewrite (Z.shiftl_mul_pow2 result 1) by done. change (2 ^ 1) with 2.
  destruct (Z.leb_spec (result * 2 ^ 2 + 1) (rem * 4 + d)); cbn [fst snd];
    rewrite (wrap_small 16) by (words; lia); change (2 ^ 2) with 4 in *; nia.
Qed.

Lemma isqrt_down_inv n i s :
  (i <= 16)%nat -> isqrt_inv n (Z.of_nat i) s -> isqrt_inv n 0 (isqrt_down n i s).
Proof.
  revert s. induction i as [|i IH]; intros s Hi Hs; [done|]. simpl.
  apply IH; [lia|]. apply isqrt_step_inv; [lia|]. by replace (Z.of_nat i + 1) with (Z.of_nat (S i)) by lia.
Qed.

Lemma isqrt_hw_sqrt n : fits 32 n -> isqrt_hw n = Z.sqrt n.
Proof.
  intros Hn. unfold isqrt_hw.
  destruct (isqrt_down_inv n 16 (0, 0)) as (Heq & Hrem & Hres); [lia| |].
  - unfold isqrt_inv. cbn [fst snd]. change (2 * Z.of_nat 16) with 32.
    rewrite Z.shiftr_div_pow2, Z.div_small by (done || exact Hn). done.
  - rewrite Z.mul_0_r, Z.shiftr_0_r in Heq. symmetry. apply Z.sqrt_unique. nia.
Qed.

(** The digit-by-digit square root of the hardware is the exact integer
    square root of every 32-bit value. *)
Theorem isqrt_exact n : fits 32 n -> isqrt_hw n = Z.sqrt n.
Proof. apply isqrt_hw_sqrt. Qed.

Theorem isqrt_exact_witness : isqrt_hw 65535 = Z.sqrt 65535.
Proof. apply (isqrt_exact 65535). done. Defined.

(** ** Requantisation *)

Definition act_spec (mode acc : Z) : Z :=
  if mode =? ACT_MODE_RELU then Z.max 0 acc
  else if mode =? ACT_MODE_LEAKY_RELU then (if acc <? 0 then acc / 8 else acc) else acc.

(** Floor division by [2 ^ shift] of the activated accumulator, saturated. *)
Definition quant_spec (shift mode acc : Z) : Z :=
  Z.max (-128) (Z.min 127 (act_spec mode acc / 2 ^ shift)).

Lemma clamp_spec z : clamp_i8 z = Z.max (-128) (Z.min 127 z).
Proof. unfold clamp_i8. repeat case_match; lia. Qed.

Lemma clamp_fits z : fits_i8 (Z.max (-128) (Z.min 127 z)).
Proof. unfold fits_i8. lia. Qed.

Lemma activate_spec mode acc : activate mode acc = act_spec mode acc.
Proof.
  unfold activate, act_spec. destruct (mode =? ACT_MODE_RELU).
  - destruct (Z.ltb_spec acc 0); lia.
  - destruct (mode =? ACT_MODE_LEAKY_RELU); [|done]. destruct (acc <? 0); [|done].
    by rewrite Z.shiftr_div_pow2.
Qed.

Lemma requantize_spec shift mode acc :
  0 <= shift < 32 -> requantize shift mode acc = Ok (quant_spec shift mode acc).
Proof.
  intros Hs. unfold requantize, sar, quant_spec. rewrite decide_True by done. simpl.
  rewrite activate_spec, Z.shiftr_div_pow2, clamp_spec, i8_id by (lia || apply clamp_fits). done.
Qed.

(** ** Array elements *)

Definition at_ (l : list Z) (i : Z) : Z := l !!! Z.to_nat i.

Definition i8_array (l : list Z) (n : Z) : Prop := Z.of_nat (length l) = n /\ Forall fits_i8 l.

Lemma spec_array (f : Z -> Z) n : 0 <= n -> (forall i, fits_i8 (f i)) -> i8_array (f <$> seqZ 0 n) n.
Proof.
  intros Hn Hf. split; [rewrite length_fmap, length_seqZ; lia|]. apply Forall_fmap, Forall_forall. intros i _. apply Hf.
Qed.

#[export] Instance fits_i8_dec z : Decision (fits_i8 z).
Proof. unfold fits_i8. apply _. Defined.

Lemma at_i8 l n i : i8_array l n -> fits_i8 (at_ l i).
Proof.
  intros [_ Hl]. unfold at_. rewrite list_lookup_total_alt.
  destruct (l !! Z.to_nat i) as [x|] eqn:Hx; [|done]. by eapply Forall_lookup_1 in Hl.
Qed.

Lemma load_elem l n i : i8_array l n -> 0 <= i < n -> load l i = Ok (at_ l i).
Proof. intros [<- _] Hi. by apply load_total. Qed.

(** The bias of output channel [n]: zero when there is none. *)
Definition bias_at (bias : list Z) (n : Z) : Z := if bool_decide (bias = []) then 0 else at_ bias n.

Definition bias_wf (bias : list Z) (N : Z) : Prop := bias = [] \/ i8_array bias N.

Lemma add_bias_ok bias N n acc :
  bias_wf bias N -> 0 <= n < N -> Z.abs acc <= INT_MAX - 128 ->
  add_bias bias n acc = Ok (acc + bias_at bias n).
Proof.
  intros Hb Hn Hacc. unfold add_bias, bias_at. case_bool_decide as Hnil.
  - by rewrite Z.add_0_r.
  - destruct Hb as [|Hb]; [done|]. rewrite (load_elem _ N) by done. simpl.
    pose proof (at_i8 bias N n Hb). apply int_of_ok.
    unfold fits_i8, INT_MIN, INT_MAX in *. lia.
Qed.

Lemma mul_i8_bound x y : fits_i8 x -> fits_i8 y -> Z.abs (x * y) <= 16384.
Proof. unfold fits_i8. intros. rewrite Z.abs_mul. nia. Qed.

Lemma imul_i8 x y : fits_i8 x -> fits_i8 y -> imul x y = Ok (x * y).
Proof.
  intros Hx Hy. apply int_of_ok. pose proof (mul_i8_bound x y Hx Hy). unfold INT_MIN, INT_MAX. lia.
Qed.

(** [base + i] with [i] a digit below [w]. *)
Lemma digit_index m n N M : 0 <= m < M -> 0 <= n < N -> 0 <= m * N + n < M * N.
Proof. nia. Qed.

Lemma digit_div m n N : 0 <= n < N -> (m * N + n) / N = m.
Proof. intros. rewrite Z.div_add_l by lia. rewrite Z.div_small by lia. lia. Qed.

Lemma digit_mod m n N : 0 <= n < N -> (m * N + n) mod N = n.
Proof. intros. rewrite Z.add_comm, Z.mod_add by lia. by apply Z.mod_small. Qed.

(** The three digits of an NHWC index. *)
Lemma nhwc_digits {A} oh OW ow K k (f : Z -> Z -> Z -> A) :
  0 <= ow < OW -> 0 <= k < K ->
  let i := (oh * OW + ow) * K + k in
  f (i / (OW * K)) ((i mod (OW * K)) / K) (i mod K) = f oh ow k.
Proof.
  intros How Hk i. pose proof (digit_index ow k K OW How Hk) as Hwk.
  assert (Hi : i = oh * (OW * K) + (ow * K + k)) by lia.
  rewrite Hi, digit_div, digit_mod, digit_div, <- Hi by done. subst i. by rewrite digit_mod.
Qed.

(** [m * N + n] on [int]. *)
Lemma index_bind {A} m n N M (k : Z -> res A) :
  0 <= m < M -> 0 <= n < N -> M * N <= INT_MAX + 1 ->
  (o ← imul m N; o ← iadd o n; k o) = k (m * N + n).
Proof.
  intros Hm Hn Hb. unfold imul, iadd, INT_MAX in *.
  rewrite int_of_ok by (unfold INT_MIN, INT_MAX; nia). simpl.
  rewrite int_of_ok by (unfold INT_MIN, INT_MAX; nia). done.
Qed.

(** ** Vector operations *)

Definition vec_spec (a b : list Z) (vec_op quant_shift act_mode i : Z) : Z :=
  if vec_op =? 0 then Z.max (-128) (Z.min 127 (at_ a i + at_ b i))
  else quant_spec quant_shift act_mode (at_ a i * at_ b i).

(** [ref_vec] on two int8 arrays of the given length is defined for every
    operation, activation and shift below 32, and is element by element the
    saturated sum (operation 0) or the requantised product (any other). *)
Theorem ref_vec_correct a b n vec_op quant_shift act_mode :
  0 <= n <= INT_MAX -> i8_array a n -> i8_array b n -> 0 <= quant_shift < 32 ->
  ref_vec a b n vec_op quant_shift act_mode =
  Ok (vec_spec a b vec_op quant_shift act_mode <$> seqZ 0 n).
Proof.
  intros Hn Ha Hb Hq. unfold ref_vec.
  destruct (filled_vector (vec_spec a b vec_op quant_shift act_mode) n) as (out & -> & Hout); [lia|].
  simpl. edestruct for_int_fill with (w := 1) as (out' & -> & Hf); [done|exact Hout| |].
  2:{ f_equal. apply filled_all; [|lia]. by replace (0 + n * 1) with n in Hf by lia. }
  intros i t Hi Ht. cbv beta. rewrite (load_elem a n), (load_elem b n) by done. simpl.
  pose proof (at_i8 a n i Ha) as Hx. pose proof (at_i8 b n i Hb) as Hy.
  replace (0 + i * 1) with i in * by lia.
  destruct (vec_op =? 0) eqn:Hop.
  - unfold iadd. rewrite int_of_ok by (unfold fits_i8, INT_MIN, INT_MAX in *; lia). simpl.
    apply (filled_store _ _ _ _ _ Ht Hi). unfold vec_spec. rewrite Hop.
    rewrite clamp_spec. apply i8_id, clamp_fits.
  - rewrite imul_i8 by done. simpl. rewrite requantize_spec by done. simpl.
    apply (filled_store _ _ _ _ _ Ht Hi). unfold vec_spec. by rewrite Hop.
Qed.

Theorem ref_vec_correct_witness :
  ref_vec [100; -100; 5] [100; -100; -7] 3 0 0 ACT_MODE_NONE =
  Ok (vec_spec [100; -100; 5] [100; -100; -7] 0 0 ACT_MODE_NONE <$> seqZ 0 3).
Proof. apply ref_vec_correct; by apply (bool_decide_unpack _); vm_compute. Defined.

(** ** GEMM *)

Definition gemm_spec (a b bias : list Z) (N K quant_shift act_mode m n : Z) : Z :=
  quant_spec quant_shift act_mode
    (Zsum K (fun k => at_ a (m * K + k) * at_ b (k * N + n)) + bias_at bias n).

Lemma gemm_mac_ok a b M N K m n k acc :
  i8_array a (M * K) -> i8_array b (K * N) -> M * K <= INT_MAX -> K * N <= INT_MAX ->
  0 <= m < M -> 0 <= n < N -> 0 <= k < K -> Z.abs acc + 16384 <= INT_MAX ->
  gemm_mac a b N K m n k acc = Ok (acc + at_ a (m * K + k) * at_ b (k * N + n)).
Proof.
  intros Ha Hb HMK HKN Hm Hn Hk Hacc. unfold gemm_mac.
  rewrite (index_bind m k K M) by lia.
  rewrite (load_elem a (M * K)) by (done || by apply digit_index). simpl.
  rewrite (index_bind k n N K) by lia.
  rewrite (load_elem b (K * N)) by (done || by apply digit_index). simpl.
  pose proof (at_i8 a _ (m * K + k) Ha) as Hx. pose proof (at_i8 b _ (k * N + n) Hb) as Hy.
  rewrite imul_i8 by done. simpl. pose proof (mul_i8_bound _ _ Hx Hy).
  apply int_of_ok. unfold INT_MIN, INT_MAX in *. lia.
Qed.

Lemma gemm_acc a b M N K m n :
  i8_array a (M * K) -> i8_array b (K * N) -> M * K <= INT_MAX -> K * N <= INT_MAX ->
  0 <= m < M -> 0 <= n < N -> 0 <= K -> K * 16384 + 128 <= INT_MAX ->
  let s := Zsum K (fun k => at_ a (m * K + k) * at_ b (k * N + n)) in
  for_int K (gemm_mac a b N K m n) 0 = Ok s /\ Z.abs s <= K * 16384.
Proof.
  intros Ha Hb HMK HKN Hm Hn HK Hbound s.
  assert (Hf : forall k, 0 <= k < K -> Z.abs (at_ a (m * K + k) * at_ b (k * N + n)) <= 16384).
  { intros k Hk. apply mul_i8_bound; by eapply at_i8. }
  split; [|by apply Zsum_bound].
  rewrite (for_int_sum K 0 16384 (fun k => at_ a (m * K + k) * at_ b (k * N + n)));
    [done|unfold INT_MAX in *; lia|done| |done].
  intros k acc Hk Hacc. apply (gemm_mac_ok a b M); unfold INT_MAX in *; (done || nia).
Qed.

(** [ref_gemm] on int8 matrices of the given shape, with no bias or one per
    column, is defined as long as the matrices are indexable by [int] and the
    accumulator cannot overflow ([K * 2^14 + 128 <= INT_MAX]); every output
    element is the requantised, activated exact dot product plus bias. *)
Theorem ref_gemm_correct a b bias M N K quant_shift act_mode :
  0 <= M -> 0 <= N -> 0 <= K -> M <= INT_MAX -> N <= INT_MAX ->
  M * N <= INT_MAX -> M * K <= INT_MAX -> K * N <= INT_MAX -> K * 16384 + 128 <= INT_MAX ->
  i8_array a (M * K) -> i8_array b (K * N) -> bias_wf bias N -> 0 <= quant_shift < 32 ->
  ref_gemm a b bias M N K quant_shift act_mode =
  Ok ((fun i => gemm_spec a b bias N K quant_shift act_mode (i / N) (i mod N)) <$> seqZ 0 (M * N)).
Proof.
  intros HM HN HK HMi HNi HMN HMK HKN Hacc Ha Hb Hbias Hq. unfold ref_gemm.
  rewrite (imul_ok M N) by (unfold INT_MIN; nia). simpl.
  set (G := fun i => gemm_spec a b bias N K quant_shift act_mode (i / N) (i mod N)).
  destruct (filled_vector G (M * N)) as (out & -> & Hout); [nia|]. simpl.
  edestruct (for_int_fill G (M * N) M 0 N) as (out' & -> & Hf); [lia|exact Hout| |].
  2:{ f_equal. by apply filled_all; [|nia]. }
  intros m t Hm Ht. cbv beta.
  edestruct (for_int_fill G (M * N) N (0 + m * N) 1) as (t' & Ht' & Hf); [lia|exact Ht| |].
  2:{ exists t'. split; [exact Ht'|]. by replace (0 + m * N + N) with (0 + m * N + N * 1) by lia. }
  intros n u Hn Hu. cbv beta.
  destruct (gemm_acc a b M N K m n) as [-> Habs]; try done. simpl.
  rewrite (add_bias_ok bias N) by (done || lia). simpl.
  rewrite requantize_spec by done. simpl.
  rewrite (index_bind m n N M) by (done || lia).
  replace (0 + m * N + n * 1) with (m * N + n) in * by lia.
  apply filled_store; [done|by apply digit_index|].
  unfold G. by rewrite digit_div, digit_mod.
Qed.

Theorem ref_gemm_correct_witness :
  ref_gemm [1; 2; 3; -4] [5; 6; 7; 8] [1; -1] 2 2 2 1 ACT_MODE_RELU = Ok [10; 10; 0; 0].
Proof.
  rewrite ref_gemm_correct; try (by vm_compute); try (by apply (bool_decide_unpack _); vm_compute).
Defined.

(** ** Convolution *)

(** Index arithmetic and sliding windows shared with pooling. *)
Lemma idx3_bind {A} i W j C c (H : Z) (k : Z -> res A) :
  0 <= i < H -> 0 <= j < W -> 0 <= c < C -> H * W * C <= INT_MAX + 1 ->
  (o ← idx3 i W j C c; k o) = k ((i * W + j) * C + c).
Proof.
  intros Hi Hj Hc Hb. unfold idx3.
  assert (0 <= H * W) by nia. assert (H * W <= H * W * C) by nia. pose proof (digit_index i j W H Hi Hj) as Hd.
  rewrite (imul_ok i W) by (unfold INT_MIN, INT_MAX in *; nia). simpl.
  rewrite iadd_ok by (unfold INT_MIN, INT_MAX in *; lia). simpl.
  rewrite imul_ok by (unfold INT_MIN, INT_MAX in *; nia). simpl.
  rewrite iadd_ok by (unfold INT_MIN, INT_MAX in *; nia). done.
Qed.

(** Number of window positions along one dimension. *)
Definition positions (H pad R stride : Z) : Z := (H + 2 * pad - R) / stride + 1.

Definition window_wf (H pad R stride : Z) : Prop :=
  0 <= H /\ 0 <= pad /\ 0 <= R <= H + 2 * pad /\ 0 < stride /\ H + 2 * pad <= INT_MAX - 1.

Lemma positions_bound H pad R stride :
  window_wf H pad R stride -> 1 <= positions H pad R stride <= INT_MAX.
Proof.
  intros (HH & Hp & HR & Hs & Hb). unfold positions.
  assert (0 <= (H + 2 * pad - R) / stride <= H + 2 * pad - R).
  { split; [apply Z.div_pos; lia|]. apply Z.div_le_upper_bound; [lia|]. nia. }
  lia.
Qed.

Lemma out_size_ok H pad R stride :
  window_wf H pad R stride -> out_size H pad R stride = Ok (positions H pad R stride).
Proof.
  intros Hw. pose proof (positions_bound _ _ _ _ Hw) as Hpos. destruct Hw as (HH & Hp & HR & Hs & Hb).
  unfold out_size, idiv, positions in *.
  rewrite imul_ok by (unfold INT_MIN, INT_MAX in *; lia). simpl.
  rewrite iadd_ok by (unfold INT_MIN, INT_MAX in *; lia). simpl.
  rewrite isub_ok by (unfold INT_MIN, INT_MAX in *; lia). simpl.
  rewrite (proj2 (Z.eqb_neq stride 0)) by lia. rewrite Z.quot_div_nonneg by lia.
  rewrite int_of_ok by (unfold INT_MIN, INT_MAX in *; lia). simpl.
  apply int_of_ok. unfold INT_MIN, INT_MAX in *. lia.
Qed.

Lemma in_coord_bind {A} H pad R stride o r (k : Z -> res A) :
  window_wf H pad R stride -> 0 <= o < positions H pad R stride -> 0 <= r < R ->
  (x ← in_coord o stride r pad; k x) = k (o * stride + r - pad).
Proof.
  intros (HH & Hp & HR & Hs & Hb) Ho Hr. unfold in_coord, positions in *.
  assert (o * stride <= H + 2 * pad - R).
  { pose proof (Z.mul_div_le (H + 2 * pad - R) stride Hs). nia. }
  assert (0 <= o * stride) by nia.
  rewrite (imul_ok o stride) by (unfold INT_MIN, INT_MAX in *; lia). simpl.
  rewrite iadd_ok by (unfold INT_MIN, INT_MAX in *; lia). simpl.
  rewrite isub_ok by (unfold INT_MIN, INT_MAX in *; lia). done.
Qed.

(** The input element under a window position, zero in the padding. *)
Definition padded (act : list Z) (H W C ih iw c : Z) : Z :=
  if inside H W ih iw then at_ act ((ih * W + iw) * C + c) else 0.

Lemma inside_true H W ih iw : inside H W ih iw = true <-> 0 <= ih < H /\ 0 <= iw < W.
Proof. unfold inside. lia. Qed.

Lemma padded_i8 act n H W C ih iw c : i8_array act n -> fits_i8 (padded act H W C ih iw c).
Proof.
  intros Ha. unfold padded. destruct (inside _ _ _ _); [by eapply at_i8|done].
Qed.

Lemma load_padded {A} act H W C ih iw c (k : Z -> res A) :
  i8_array act (H * W * C) -> 0 <= c < C -> H * W * C <= INT_MAX ->
  (a ← (if inside H W ih iw then i ← idx3 ih W iw C c; load act i else Ok 0); k a)
  = k (padded act H W C ih iw c).
Proof.
  intros Ha Hc Hb. unfold padded. destruct (inside H W ih iw) eqn:Hin; [|done].
  apply inside_true in Hin as [Hi Hj]. rewrite (idx3_bind ih W iw C c H) by (done || lia).
  rewrite (load_elem act (H * W * C)); [done|done|].
  pose proof (digit_index ih iw W H Hi Hj). nia.
Qed.

Section conv.
Context (act wt bias : list Z).
Context (H W C K R S stride_h stride_w pad_h pad_w quant_shift act_mode : Z).

(** Shapes and sizes for which no [int] of the model overflows. *)
Definition conv_defined : Prop :=
  window_wf H pad_h R stride_h /\ window_wf W pad_w S stride_w /\ 0 <= C /\ 0 <= K <= INT_MAX /\
  i8_array act (H * W * C) /\ i8_array wt (K * R * S * C) /\ bias_wf bias K /\
  H * W * C <= INT_MAX /\ K * R * S * C <= INT_MAX /\
  positions H pad_h R stride_h * positions W pad_w S stride_w <= INT_MAX /\
  positions H pad_h R stride_h * positions W pad_w S stride_w * K <= INT_MAX /\
  C <= INT_MAX /\ R * (S * (C * 16384)) + 128 <= INT_MAX /\ 0 <= quant_shift < 32.

Definition conv_term (oh ow k r s c : Z) : Z :=
  padded act H W C (oh * stride_h + r - pad_h) (ow * stride_w + s - pad_w) c *
  at_ wt (((k * R + r) * S + s) * C + c).

Definition conv_sum (oh ow k : Z) : Z :=
  Zsum R (fun r => Zsum S (fun s => Zsum C (conv_term oh ow k r s))).

Definition conv_spec (oh ow k : Z) : Z :=
  quant_spec quant_shift act_mode (conv_sum oh ow k + bias_at bias k).

Lemma weight_index k r s c :
  0 <= k < K -> 0 <= r < R -> 0 <= s < S -> 0 <= c < C ->
  0 <= ((k * R + r) * S + s) * C + c < K * R * S * C.
Proof.
  intros Hk Hr Hs Hc. apply (digit_index _ c C (K * R * S)); [|done].
  apply (digit_index _ s S (K * R)); [|done]. by apply digit_index.
Qed.

Lemma weight_bind {A} k r s c (g : Z -> res A) :
  0 <= k < K -> 0 <= r < R -> 0 <= s < S -> 0 <= c < C -> K * R * S * C <= INT_MAX ->
  (x ← imul k R; x ← iadd x r; x ← imul x S; x ← iadd x s; x ← imul x C; x ← iadd x c; g x)
  = g (((k * R + r) * S + s) * C + c).
Proof.
  intros Hk Hr Hs Hc Hb.
  assert (0 <= K * R) by nia. assert (0 <= K * R * S) by nia.
  assert (K * R * S <= K * R * S * C) by nia. assert (K * R <= K * R * S) by nia.
  pose proof (digit_index k r R K Hk Hr) as Hd1.
  pose proof (digit_index _ s S _ Hd1 Hs) as Hd2.
  rewrite (index_bind k r R K) by lia.
  rewrite (index_bind (k * R + r) s S (K * R)) by lia.
  by rewrite (index_bind ((k * R + r) * S + s) c C (K * R * S)) by lia.
Qed.

Lemma conv_term_bound oh ow k r s c : conv_defined -> Z.abs (conv_term oh ow k r s c) <= 16384.
Proof.
  intros (_ & _ & _ & _ & Ha & Hwt & _). apply mul_i8_bound; [by eapply padded_i8|by eapply at_i8].
Qed.

Lemma conv_mac_ok oh ow k r s c acc :
  conv_defined ->
  0 <= oh < positions H pad_h R stride_h -> 0 <= ow < positions W pad_w S stride_w ->
  0 <= k < K -> 0 <= r < R -> 0 <= s < S -> 0 <= c < C -> Z.abs acc + 16384 <= INT_MAX ->
  conv_mac act wt H W C R S stride_h stride_w pad_h pad_w oh ow k r s c acc =
  Ok (acc + conv_term oh ow k r s c).
Proof.
  intros Hd Hoh How Hk Hr Hs Hc Hacc. pose proof (conv_term_bound oh ow k r s c Hd) as Hbound.
  destruct Hd as (Hh & Hw & HC & HK & Ha & Hwt & _ & HHWC & HKRSC & _).
  unfold conv_mac.
  rewrite (in_coord_bind H pad_h R) by done. rewrite (in_coord_bind W pad_w S) by done.
  rewrite load_padded by done. rewrite weight_bind by done.
  rewrite (load_elem wt (K * R * S * C)) by (done || by apply weight_index). simpl.
  rewrite imul_i8 by (by eapply padded_i8 || by eapply at_i8). simpl.
  fold (conv_term oh ow k r s c). apply iadd_ok. unfold INT_MIN, INT_MAX in *. lia.
Qed.

(** The three accumulating loops. *)
Lemma conv_acc oh ow k :
  conv_defined ->
  0 <= oh < positions H pad_h R stride_h -> 0 <= ow < positions W pad_w S stride_w -> 0 <= k < K ->
  for_int R (fun r acc => for_int S (fun s acc => for_int C
    (conv_mac act wt H W C R S stride_h stride_w pad_h pad_w oh ow k r s) acc) acc) 0
  = Ok (conv_sum oh ow k) /\ Z.abs (conv_sum oh ow k) <= R * (S * (C * 16384)).
Proof.
  intros Hd Hoh How Hk. pose proof Hd as (Hh & Hw & HC & _ & _ & _ & _ & _ & _ & _ & _ & HCi & Hov & _).
  destruct Hh as (? & ? & HR & ? & ?), Hw as (? & ? & HS & ? & ?).
  assert (Ht := fun r s c => conv_term_bound oh ow k r s c Hd).
  assert (Hc : forall r s, Z.abs (Zsum C (conv_term oh ow k r s)) <= C * 16384)
    by (intros; by apply Zsum_bound).
  assert (Hs : forall r, Z.abs (Zsum S (fun s => Zsum C (conv_term oh ow k r s))) <= S * (C * 16384))
    by (intros; apply Zsum_bound; [lia|done]).
  split; [|apply Zsum_bound; [lia|done]].
  rewrite (for_int_sum R 0 (S * (C * 16384)) (fun r => Zsum S (fun s => Zsum C (conv_term oh ow k r s))));
    [done|unfold INT_MAX in *; lia|done| |done].
  intros r acc Hr Hacc.
  apply (for_int_sum S (r * (S * (C * 16384))) (C * 16384) (fun s => Zsum C (conv_term oh ow k r s)));
    [unfold INT_MAX in *; lia|done| |lia].
  intros s acc' Hs' Hacc'.
  apply (for_int_sum C (r * (S * (C * 16384)) + s * (C * 16384)) 16384 (conv_term oh ow k r s));
    [lia|done| |lia].
  intros c acc'' Hc' Hacc''. apply conv_mac_ok; try done.
  assert (Hst : forall i n X, 0 <= X -> i < n -> i * X + X <= n * X).
  { intros i n X HX Hi. rewrite <- Z.mul_succ_l. apply Z.mul_le_mono_nonneg_r; lia. }
  pose proof (Hst s S (C * 16384) ltac:(lia) ltac:(lia)).
  pose proof (Hst r R (S * (C * 16384)) ltac:(apply Z.mul_nonneg_nonneg; lia) ltac:(lia)). lia.
Qed.

(** [ref_conv] with windows that fit, positive strides and sizes indexable
    by [int] is defined, and its output is, at every output row, column and
    channel, the requantised activated convolution sum over the zero-padded
    input, in NHWC order. *)
Theorem ref_conv_correct :
  conv_defined ->
  let OH := positions H pad_h R stride_h in
  let OW := positions W pad_w S stride_w in
  ref_conv act wt bias H W C K R S stride_h stride_w pad_h pad_w quant_shift act_mode =
  Ok ((fun i => conv_spec (i / (OW * K)) ((i mod (OW * K)) / K) (i mod K)) <$> seqZ 0 (OH * OW * K)).
Proof.
  intros Hd OH OW. pose proof Hd as (Hh & Hw & HC & HK & _ & _ & Hb & _ & _ & HO & HOK & HCi & Hov & Hq).
  pose proof (positions_bound _ _ _ _ Hh) as HOH. pose proof (positions_bound _ _ _ _ Hw) as HOW.
  fold OH in HOH, HO, HOK. fold OW in HOW, HO, HOK.
  unfold ref_conv. rewrite !out_size_ok by done. simpl. fold OH OW.
  rewrite (imul_ok OH OW) by (unfold INT_MIN; nia). simpl.
  rewrite (imul_ok (OH * OW) K) by (unfold INT_MIN; nia). simpl.
  set (G := fun i => conv_spec (i / (OW * K)) ((i mod (OW * K)) / K) (i mod K)).
  destruct (filled_vector G (OH * OW * K)) as (out & -> & Hout); [nia|]. simpl.
  apply fill_nhwc; [lia|lia|done|exact Hout|]. intros oh ow k v Hoh How Hk Hv.
  destruct (conv_acc oh ow k Hd Hoh How Hk) as [-> Habs]. simpl.
  rewrite (add_bias_ok bias K) by (done || lia). simpl.
  rewrite requantize_spec by done. simpl.
  rewrite (idx3_bind oh OW ow K k OH) by (done || lia).
  apply filled_store; [done| |].
  - apply digit_index; [by apply digit_index|done].
  - unfold G. by rewrite (nhwc_digits oh OW ow K k).
Qed.
End conv.

Theorem ref_conv_correct_witness :
  ref_conv [1; 2; 3; 4] [1; 1; 1; 1] [] 2 2 1 1 2 2 1 1 1 1 0 ACT_MODE_NONE
  = Ok [1; 3; 2; 4; 10; 6; 3; 7; 4].
Proof.
  rewrite ref_conv_correct; [by vm_compute|]. by apply (bool_decide_unpack _); vm_compute.
Defined.
