(* ===== verification/GoldenRows.v ===== *)
(** * Reference models of the testbench: softmax, layer normalisation, pooling

    The remaining C++ golden models of [tb/integration/npu_tb.h], in the same
    style as [Golden]. *)

From S2P Require Import Prelude CArith Golden.

Open Scope Z_scope.

(** ** softmax_exp_approx *)

Definition exp_int : list Z := [65535; 24109; 8869; 3263; 1200; 442; 162; 60].

Definition exp_frac : list Z :=
  [65535; 63519; 61564; 59670; 57834; 56055; 54330; 52659;
   51039; 49468; 47946; 46471; 45042; 43656; 42313; 41011;
   39749; 38526; 37341; 36192; 35078; 33999; 32953; 31939;
   30957; 30004; 29081; 28186; 27319; 26479; 25664; 24874].

(** [diff] is a [uint8_t]: both indices are always inside their table. *)
Definition softmax_exp_approx (diff : Z) : Z :=
  let product := u32 (at_ exp_int (diff ≫ 5) * at_ exp_frac (Z.land diff 31)) in
  u16 (product ≫ 16).

(** ** ref_softmax *)

(** [static_cast<uint8_t>(a) - static_cast<uint8_t>(b)] stored in a [uint8_t] *)
Definition diff_u8 (a b : Z) : Z := u8 (u8 a - u8 b).

Definition ref_softmax (input : list Z) (num_rows row_len : Z) : res (list Z) :=
  sz ← imul num_rows row_len;
  out ← vector_i8 sz;
  for_int num_rows (fun r out =>
    base ← imul r row_len;
    max_val ← for_int row_len (fun i max_val =>
      j ← iadd base i; x ← load input j;
      mret (if max_val <? x then x else max_val)) (-128);
    sum ← for_int row_len (fun i sum =>
      j ← iadd base i; x ← load input j;
      mret (u32 (sum + softmax_exp_approx (diff_u8 max_val x)))) 0;
    for_int row_len (fun i out =>
      j ← iadd base i; x ← load input j;
      let exp_val := softmax_exp_approx (diff_u8 max_val x) in
      let numer := u32 (exp_val * 127) in
      q ← udiv numer sum;
      let quot := u8 q in
      let quot := if 127 <? quot then 127 else quot in
      store out j (i8 quot)) out) out.

(** ** ref_lnorm *)

Definition lnorm_elem (std_val norm_shift diff : Z) : res Z :=
  let neg := diff <? 0 in
  abs_diff ← (if neg then n ← ineg diff; mret (u32 n) else mret (u32 diff));
  wide ← shl64 abs_diff norm_shift;
  let scaled := if 0xFFFFFFFF <? wide then 0xFFFFFFFF else u32 wide in
  quot ← udiv scaled std_val;
  if neg then (if 128 <? quot then mret (-128) else ineg (i32 quot))
  else (if 127 <? quot then mret 127 else mret (i32 quot)).

Definition ref_lnorm (input : list Z) (num_rows row_len norm_shift : Z) : res (list Z) :=
  sz ← imul num_rows row_len;
  out ← vector_i8 sz;
  for_int num_rows (fun r out =>
    base ← imul r row_len;
    sum ← for_int row_len (fun i sum =>
      j ← iadd base i; x ← load input j; iadd sum x) 0;
    mean ← idiv sum row_len;
    var_sum ← for_int row_len (fun i var_sum =>
      j ← iadd base i; x ← load input j;
      diff ← isub x mean; sq ← imul diff diff;
      mret (u32 (var_sum + u32 sq))) 0;
    variance ← udiv var_sum (u32 row_len);
    let std_val := isqrt_hw (u32 (variance + 1)) in
    let std_val := if std_val =? 0 then 1 else std_val in
    for_int row_len (fun i out =>
      j ← iadd base i; x ← load input j;
      diff ← isub x mean;
      result ← lnorm_elem std_val norm_shift diff;
      store out j (i8 result)) out) out.

(** ** ref_pool *)

(** The element of the input under window position ([r], [s]), if any. *)
Definition pool_tap (input : list Z) (H W C stride_h stride_w pad_h pad_w oh ow c r s : Z)
  : res (option Z) :=
  ih ← in_coord oh stride_h r pad_h;
  iw ← in_coord ow stride_w s pad_w;
  if inside H W ih iw then i ← idx3 ih W iw C c; v ← load input i; mret (Some v)
  else mret None.

Definition pool_avg (sum pool_area : Z) : res Z :=
  let neg := sum <? 0 in
  abs_sum ← (if neg then n ← ineg sum; mret (u32 n) else mret (u32 sum));
  quot ← udiv abs_sum (u32 pool_area);
  result ← (if neg then ineg (i32 quot) else mret (i32 quot));
  mret (i8 (clamp_i8 result)).

Definition ref_pool (input : list Z)
    (H W C pool_r pool_s stride_h stride_w pad_h pad_w pool_mode : Z) : res (list Z) :=
  OH ← out_size H pad_h pool_r stride_h;
  OW ← out_size W pad_w pool_s stride_w;
  sz ← imul OH OW; sz ← imul sz C;
  out ← vector_i8 sz;
  pool_area ← imul pool_r pool_s;
  for_int OH (fun oh out =>
    for_int OW (fun ow out =>
      for_int C (fun c out =>
        x ← (if pool_mode =? 0 then
          for_int pool_r (fun r max_val =>
            for_int pool_s (fun s max_val =>
              v ← pool_tap input H W C stride_h stride_w pad_h pad_w oh ow c r s;
              mret (match v with
                    | Some v => if max_val <? v then v else max_val
                    | None => max_val
                    end)) max_val) (-128)
        else
          sum ← for_int pool_r (fun r sum =>
            for_int pool_s (fun s sum =>
              v ← pool_tap input H W C stride_h stride_w pad_h pad_w oh ow c r s;
              match v with Some v => iadd sum v | None => mret sum end) sum) 0;
          pool_avg sum pool_area);
        o ← idx3 oh OW ow C c;
        store out o x) out) out) out.


Example row_models :
  ref_softmax [1; 2; 3; 100] 1 4 = Ok [5; 5; 5; 111] /\
  ref_lnorm [1; 2; 3; 10] 1 4 4 = Ok [-16; -10; -5; 32] /\
  ref_pool [1; 2; -3; -8] 2 2 1 2 2 1 1 0 0 1 = Ok [-2].
Proof. by vm_compute. Qed.

(** ** Rows *)

Definition rows_wf (input : list Z) (num_rows row_len : Z) : Prop :=
  0 <= num_rows <= INT_MAX /\ 0 <= row_len /\ num_rows * row_len <= INT_MAX /\
  i8_array input (num_rows * row_len).

(** Element [i] of row [r]. *)
Definition elem (input : list Z) (row_len r i : Z) : Z := at_ input (r * row_len + i).

Lemma elem_i8 input num_rows row_len r i : rows_wf input num_rows row_len -> fits_i8 (elem input row_len r i).
Proof. intros (_ & _ & _ & Hin). by eapply at_i8. Qed.

Lemma elem_bind {A} input num_rows row_len r i (k : Z -> Z -> res A) :
  rows_wf input num_rows row_len -> 0 <= r < num_rows -> 0 <= i < row_len ->
  (j ← iadd (r * row_len) i; x ← load input j; k j x) =
  k (r * row_len + i) (elem input row_len r i).
Proof.
  intros (HM & HN & Hb & Hin) Hr Hi. pose proof (digit_index r i row_len num_rows Hr Hi).
  rewrite iadd_ok by (unfold INT_MIN, INT_MAX in *; lia). simpl.
  by rewrite (load_elem input (num_rows * row_len)) by done.
Qed.

(** The row-by-row shape: a model whose row [r] overwrites exactly its cells. *)
Lemma fill_rows G num_rows row_len (body : Z -> list Z -> res (list Z)) :
  0 <= num_rows <= INT_MAX -> 0 <= row_len -> num_rows * row_len <= INT_MAX ->
  (forall r out, 0 <= r < num_rows -> filled G (num_rows * row_len) (r * row_len) out ->
     exists out', body r out = Ok out' /\
       filled G (num_rows * row_len) (r * row_len + row_len) out') ->
  (sz ← imul num_rows row_len; out ← vector_i8 sz; for_int num_rows body out) =
  Ok (G <$> seqZ 0 (num_rows * row_len)).
Proof.
  intros HM HN Hb Hbody. rewrite imul_ok by (unfold INT_MIN; nia). simpl.
  destruct (filled_vector G (num_rows * row_len)) as (out & -> & Hout); [nia|]. simpl.
  edestruct (for_int_fill G (num_rows * row_len) num_rows 0 row_len) as (out' & -> & Hf);
    [done|exact Hout| |].
  - intros r t Hr Ht. rewrite Z.add_0_l in *. by apply Hbody.
  - f_equal. apply filled_all; [|nia]. by rewrite Z.add_0_l in Hf.
Qed.

(** ** Softmax *)

Definition row_max (f : Z -> Z) (n : Z) : Z := foldr Z.max (-128) (f <$> seqZ 0 n).

Lemma row_max_succ f n : 0 <= n -> row_max f (n + 1) = Z.max (row_max f n) (Z.max (f n) (-128)).
Proof.
  intros Hn. unfold row_max. rewrite seqZ_app, fmap_app by lia.
  replace (seqZ (0 + n) 1) with [n] by done. simpl.
  induction (f <$> seqZ 0 n) as [|x l IH]; simpl; lia.
Qed.

Lemma row_max_bounds f n :
  0 <= n -> (forall i, 0 <= i < n -> fits_i8 (f i)) ->
  fits_i8 (row_max f n) /\ forall i, 0 <= i < n -> f i <= row_max f n.
Proof.
  intros Hn. revert n Hn. apply (natlike_ind (fun n => _ -> _)).
  - intros _. split; [done|lia].
  - intros n Hn IH Hf. rewrite <- Z.add_1_r, row_max_succ by done.
    destruct IH as [[H1 H2] H3]; [intros; apply Hf; lia|].
    pose proof (Hf n ltac:(lia)) as [H4 H5]. split; [unfold fits_i8; lia|].
    intros i Hi. destruct (decide (i = n)) as [->|]; [lia|]. pose proof (H3 i ltac:(lia)). lia.
Qed.

Lemma row_max_add f n m :
  0 <= n -> 0 <= m -> row_max f (n + m) = Z.max (row_max f n) (row_max (fun i => f (n + i)) m).
Proof.
  intros Hn. assert (Hlow : -128 <= row_max f n) by (unfold row_max; induction (f <$> seqZ 0 n); simpl; lia).
  revert m. apply (natlike_ind (fun m => _)); [rewrite Z.add_0_r; unfold row_max at 3; simpl; lia|].
  intros m Hm IH. rewrite <- Z.add_1_r, Z.add_assoc, !row_max_succ by lia. lia.
Qed.

(** Two loops as one. *)
Lemma row_max_ext f g n : (forall i, 0 <= i < n -> f i = g i) -> row_max f n = row_max g n.
Proof.
  intros Hfg. unfold row_max. f_equal. apply list_fmap_ext. intros i x Hx. apply lookup_seqZ in Hx. apply Hfg. lia.
Qed.

Lemma row_max_flat f n m :
  0 <= n -> 0 < m -> row_max (fun i => f (i / m) (i mod m)) (n * m) = row_max (fun r => row_max (f r) m) n.
Proof.
  intros Hn Hm. revert n Hn. apply (natlike_ind (fun n => _)); [done|]. intros n Hn IH.
  rewrite <- Z.add_1_r, Z.mul_add_distr_r, Z.mul_1_l, row_max_add, IH, row_max_succ by nia.
  assert (Hin : row_max (fun i => f ((n * m + i) / m) ((n * m + i) mod m)) m = row_max (f n) m)
    by (apply row_max_ext; intros i Hi; by rewrite digit_div, digit_mod).
  rewrite Hin. assert (-128 <= row_max (f n) m) by (unfold row_max; induction (f n <$> seqZ 0 m); simpl; lia). lia.
Qed.

Lemma Zsum_flat f n m :
  0 <= n -> 0 < m -> Zsum (n * m) (fun i => f (i / m) (i mod m)) = Zsum n (fun r => Zsum m (f r)).
Proof.
  intros Hn Hm. revert n Hn. apply (natlike_ind (fun n => _)); [done|]. intros n Hn IH.
  rewrite <- Z.add_1_r, Z.mul_add_distr_r, Z.mul_1_l, Zsum_add, IH, Zsum_succ by nia. f_equal.
  apply Zsum_ext. intros i Hi. by rewrite digit_div, digit_mod.
Qed.

Lemma diff_u8_exact a b : fits_i8 a -> fits_i8 b -> b <= a -> diff_u8 a b = a - b.
Proof.
  unfold fits_i8, diff_u8, wrap. intros Ha Hb Hab. rewrite <- Zminus_mod.
  apply Z.mod_small. change (2 ^ 8) with 256. lia.
Qed.

Lemma softmax_exp_range d : fits 8 d -> 22 <= softmax_exp_approx d <= 65534.
Proof.
  intros Hd.
  assert (Hall : Forall (fun d => 22 <= softmax_exp_approx d <= 65534) (seqZ 0 256))
    by (by apply (bool_decide_unpack _); vm_compute).
  rewrite Forall_seqZ in Hall. apply Hall. exact Hd.
Qed.

(** The approximation decreases: a larger distance from the maximum never gets
    a larger weight. *)
Lemma softmax_exp_antitone d d' : 0 <= d <= d' -> d' < 256 -> softmax_exp_approx d' <= softmax_exp_approx d.
Proof.
  intros Hd Hd'.
  assert (Hstep : Forall (fun d => softmax_exp_approx (d + 1) <= softmax_exp_approx d) (seqZ 0 255))
    by (by apply (bool_decide_unpack _); vm_compute).
  rewrite Forall_seqZ in Hstep.
  replace d' with (d + Z.of_nat (Z.to_nat (d' - d))) by lia.
  assert (Hk : Z.of_nat (Z.to_nat (d' - d)) <= 255 - d) by lia.
  induction (Z.to_nat (d' - d)) as [|k IH]; [by rewrite Z.add_0_r|].
  etransitivity; [|apply IH; lia].
  replace (d + Z.of_nat (S k)) with ((d + Z.of_nat k) + 1) by lia. apply Hstep. lia.
Qed.

Lemma Zsum_div_le n f S : 0 < S -> Zsum n (fun i => f i / S) <= Zsum n f / S.
Proof.
  intros HS. destruct (decide (0 <= n)) as [Hn|Hn].
  - revert n Hn. apply (natlike_ind (fun n => _)); [done|].
    intros n Hn IH. rewrite <- Z.add_1_r, !Zsum_succ by done.
    assert (Zsum n f / S + f n / S <= (Zsum n f + f n) / S); [|lia].
    apply Z.div_le_lower_bound; [lia|].
    pose proof (Z.mul_div_le (Zsum n f) S HS). pose proof (Z.mul_div_le (f n) S HS). lia.
  - unfold Zsum. rewrite seqZ_nil by lia. simpl. by rewrite Z.div_0_l by lia.
Qed.

Lemma Zsum_mul n f c : Zsum n (fun i => f i * c) = Zsum n f * c.
Proof. unfold Zsum. induction (seqZ 0 n) as [|x l IH]; [done|]. simpl. rewrite Z.mul_add_distr_r. f_equal. exact IH. Qed.

Section softmax.
Context (input : list Z) (num_rows row_len : Z).

Definition softmax_weight (r i : Z) : Z :=
  softmax_exp_approx (row_max (elem input row_len r) row_len - elem input row_len r i).

Definition softmax_total (r : Z) : Z := Zsum row_len (softmax_weight r).

Definition softmax_spec (r i : Z) : Z := softmax_weight r i * 127 / softmax_total r.

Hypothesis Hwf : rows_wf input num_rows row_len.
Hypothesis Hlen : row_len <= 65538.

Lemma softmax_max_ok r :
  0 <= r < num_rows ->
  for_int row_len (fun i max_val =>
    j ← iadd (r * row_len) i; x ← load input j;
    mret (if max_val <? x then x else max_val)) (-128)
  = Ok (row_max (elem input row_len r) row_len).
Proof using Hwf Hlen.
  intros Hr. pose proof Hwf as (_ & HN & _ & _).
  assert (row_len <= INT_MAX) by (unfold INT_MAX; lia).
  destruct (for_int_ind row_len (fun i max_val =>
      j ← iadd (r * row_len) i; x ← load input j; mret (if max_val <? x then x else max_val))
    (fun i m => m = row_max (elem input row_len r) i) (-128)) as (m & Hm & ->); [lia|done| |exact Hm].
  intros i m Hi ->. rewrite (elem_bind input num_rows) by done. eexists. split; [done|].
  destruct (row_max_bounds (elem input row_len r) i) as [[? ?] _]; [lia|intros; by eapply elem_i8|].
  pose proof (elem_i8 _ _ _ r i Hwf) as [? ?].
  rewrite row_max_succ by lia. case_match; lia.
Qed.

Lemma softmax_diff r i :
  0 <= i < row_len ->
  diff_u8 (row_max (elem input row_len r) row_len) (elem input row_len r i) =
  row_max (elem input row_len r) row_len - elem input row_len r i.
Proof using Hwf.
  intros Hi. destruct (row_max_bounds (elem input row_len r) row_len) as [Hb Hle];
    [lia|intros; by eapply elem_i8|].
  apply diff_u8_exact; [done|by eapply elem_i8|by apply Hle].
Qed.

Lemma softmax_weight_range r i : 0 <= i < row_len -> 22 <= softmax_weight r i <= 65534.
Proof using Hwf.
  intros Hi. apply softmax_exp_range.
  destruct (row_max_bounds (elem input row_len r) row_len) as [Hb Hle];
    [lia|intros; by eapply elem_i8|].
  pose proof (Hle i Hi). pose proof (elem_i8 _ _ _ r i Hwf) as He.
  unfold fits_i8 in *. words. lia.
Qed.

Lemma softmax_sum_ok r :
  0 <= r < num_rows ->
  for_int row_len (fun i sum =>
    j ← iadd (r * row_len) i; x ← load input j;
    mret (u32 (sum + softmax_exp_approx (diff_u8 (row_max (elem input row_len r) row_len) x)))) 0
  = Ok (softmax_total r).
Proof using Hwf Hlen.
  intros Hr. pose proof Hwf as (_ & HN & _ & _).
  assert (row_len <= INT_MAX) by (unfold INT_MAX; lia).
  destruct (for_int_ind row_len (fun i sum =>
      j ← iadd (r * row_len) i; x ← load input j;
      mret (u32 (sum + softmax_exp_approx (diff_u8 (row_max (elem input row_len r) row_len) x))))
    (fun i acc => acc = Zsum i (softmax_weight r)) 0) as (acc & Hacc & ->); [lia|done| |exact Hacc].
  intros i acc Hi ->. rewrite (elem_bind input num_rows) by done. eexists. split; [done|].
  rewrite softmax_diff by done. fold (softmax_weight r i). rewrite Zsum_succ by lia.
  assert (Hb : forall n, 0 <= n <= row_len -> 0 <= Zsum n (softmax_weight r) <= n * 65534).
  { intros n Hn. split.
    - apply Zsum_nonneg. intros j Hj. pose proof (softmax_weight_range r j ltac:(lia)). lia.
    - assert (Z.abs (Zsum n (softmax_weight r)) <= n * 65534); [|lia].
      apply Zsum_bound; [lia|]. intros j Hj.
      pose proof (softmax_weight_range r j ltac:(lia)). lia. }
  pose proof (Hb i ltac:(lia)). pose proof (softmax_weight_range r i Hi).
  apply wrap_small. words. nia.
Qed.

Lemma softmax_total_range r i :
  0 <= i < row_len -> 0 < softmax_weight r i <= softmax_total r.
Proof using Hwf.
  intros Hi. pose proof (softmax_weight_range r i Hi). split; [lia|].
  apply Zsum_term; [|done]. intros j Hj. pose proof (softmax_weight_range r j Hj). lia.
Qed.

Lemma softmax_spec_range r i : 0 <= i < row_len -> 0 <= softmax_spec r i <= 127.
Proof using Hwf.
  intros Hi. pose proof (softmax_total_range r i Hi). unfold softmax_spec. split.
  - apply Z.div_pos; lia.
  - apply Z.div_le_upper_bound; lia.
Qed.

Lemma ref_softmax_rows :
  ref_softmax input num_rows row_len =
  Ok ((fun i => softmax_spec (i / row_len) (i mod row_len)) <$> seqZ 0 (num_rows * row_len)).
Proof using Hwf Hlen.
  pose proof Hwf as (HM & HN & HMN & Hin).
  assert (HNi : row_len <= INT_MAX) by (unfold INT_MAX; lia).
  apply fill_rows; [done|done|done|]. intros r out Hr Hout.
  rewrite imul_ok by (unfold INT_MIN; nia). cbn [mbind res_bind].
  rewrite softmax_max_ok by done. simpl. rewrite softmax_sum_ok by done. simpl.
  set (G := fun i => softmax_spec (i / row_len) (i mod row_len)) in *.
  edestruct (for_int_fill G (num_rows * row_len) row_len (r * row_len) 1) as (out' & Ho & Hf);
    [lia|exact Hout| |exists out'; split; [exact Ho|by rewrite Z.mul_1_r in Hf]].
  intros i t Hi Ht. cbv beta. rewrite Z.mul_1_r in *.
  rewrite (elem_bind input num_rows) by done. cbv beta zeta.
  rewrite softmax_diff by done. fold (softmax_weight r i).
  pose proof (softmax_weight_range r i Hi). pose proof (softmax_total_range r i Hi).
  rewrite (wrap_small 32) by (words; lia).
  unfold udiv. rewrite (proj2 (Z.eqb_neq (softmax_total r) 0)) by lia. cbn [mbind res_bind].
  pose proof (softmax_spec_range r i Hi) as Hrange. fold (softmax_spec r i).
  rewrite (wrap_small 8) by (words; lia). rewrite (proj2 (Z.ltb_ge 127 _)) by lia.
  rewrite i8_id by (unfold fits_i8; lia).
  apply filled_store; [done|by apply digit_index|].
  unfold G. by rewrite digit_div, digit_mod.
Qed.

Lemma softmax_row_sum r : Zsum row_len (softmax_spec r) <= 127.
Proof using Hwf.
  destruct (decide (0 < row_len)) as [HN|HN].
  - pose proof (softmax_total_range r 0 ltac:(lia)) as Ht.
    etransitivity; [apply Zsum_div_le; lia|]. rewrite Zsum_mul. fold (softmax_total r).
    rewrite Z.mul_comm, Z.div_mul by lia. done.
  - unfold Zsum. by rewrite seqZ_nil by lia.
Qed.

(** [ref_softmax] on rows of at most 65538 int8 elements is defined: no
    overflow, no division by zero (every weight is at least 22). Output [i] of
    a row is [127 * w_i / sum w] rounded down, [w] the two-table exponential of
    the distance from the row's maximum. All outputs are in [0, 127], a row
    sums to at most 127, and a larger input never gets a smaller output. *)
Theorem ref_softmax_correct :
  ref_softmax input num_rows row_len =
  Ok ((fun i => softmax_spec (i / row_len) (i mod row_len)) <$> seqZ 0 (num_rows * row_len)) /\
  (forall r, Zsum row_len (softmax_spec r) <= 127) /\
  (forall r i, 0 <= i < row_len -> 0 <= softmax_spec r i <= 127) /\
  (forall r i j, 0 <= i < row_len -> 0 <= j < row_len ->
     elem input row_len r i <= elem input row_len r j -> softmax_spec r i <= softmax_spec r j).
Proof.
  split_and!; [apply ref_softmax_rows|apply softmax_row_sum|apply softmax_spec_range|].
  intros r i j Hi Hj Hij. unfold softmax_spec.
  apply Z.div_le_mono; [pose proof (softmax_total_range r i Hi); lia|].
  apply Z.mul_le_mono_nonneg_r; [done|].
  destruct (row_max_bounds (elem input row_len r) row_len) as [Hb Hle];
    [lia|intros; by eapply elem_i8|].
  pose proof (Hle j Hj). pose proof (elem_i8 _ _ _ r i Hwf) as He. pose proof Hb as Hb'.
  unfold fits_i8 in *. apply softmax_exp_antitone; lia.
Qed.
End softmax.

Theorem ref_softmax_correct_witness : ref_softmax [1; 2; 3; 100] 1 4 = Ok [5; 5; 5; 111].
Proof.
  rewrite (proj1 (ref_softmax_correct [1; 2; 3; 100] 1 4
    ltac:(by apply (bool_decide_unpack _); vm_compute) ltac:(done))). by vm_compute.
Defined.

(** ** Layer normalisation *)

Section lnorm.
Context (input : list Z) (num_rows row_len norm_shift : Z).

Definition lnorm_mean (r : Z) : Z := Z.quot (Zsum row_len (elem input row_len r)) row_len.

Definition lnorm_dev (r i : Z) : Z := elem input row_len r i - lnorm_mean r.

Definition lnorm_var (r : Z) : Z := Zsum row_len (fun i => lnorm_dev r i * lnorm_dev r i) / row_len.

(** Magnitude of the normalised deviation [d] before it is clamped. *)
Definition lnorm_scaled (std d : Z) : Z := Z.min (Z.abs d * 2 ^ norm_shift) (2 ^ 32 - 1) / std.

Definition lnorm_spec (r i : Z) : Z :=
  let d := lnorm_dev r i in
  let q := lnorm_scaled (Z.sqrt (lnorm_var r + 1)) d in
  if d <? 0 then - Z.min 128 q else Z.min 127 q.

Lemma lnorm_scaled_nonneg std d : 0 < std -> 0 <= norm_shift -> 0 <= lnorm_scaled std d.
Proof.
  intros Hstd Hs. apply Z.div_pos; [|done].
  assert (0 <= Z.abs d * 2 ^ norm_shift) by (apply Z.mul_nonneg_nonneg; [lia|apply Z.pow_nonneg; lia]).
  change (2 ^ 32 - 1) with 4294967295. lia.
Qed.

Lemma abs_u32 d : Z.abs d <= INT_MAX -> (if d <? 0 then n ← ineg d; mret (u32 n) else mret (u32 d)) = Ok (Z.abs d).
Proof.
  intros Hd. unfold ineg. destruct (Z.ltb_spec d 0).
  - rewrite int_of_ok by (unfold INT_MIN, INT_MAX in *; lia). cbn [mbind mret res_bind res_ret].
    rewrite wrap_small by (unfold INT_MAX in *; words; lia). f_equal. lia.
  - unfold mret, res_ret. rewrite wrap_small by (unfold INT_MAX in *; words; lia). f_equal. lia.
Qed.

Lemma lnorm_elem_ok std d :
  Z.abs d <= 255 -> 0 <= norm_shift < 32 -> 0 < std ->
  lnorm_elem std norm_shift d =
  Ok (if d <? 0 then - Z.min 128 (lnorm_scaled std d) else Z.min 127 (lnorm_scaled std d)).
Proof.
  intros Hd Hs Hstd. unfold lnorm_elem. rewrite abs_u32 by (unfold INT_MAX; lia).
  cbn [mbind res_bind]. unfold shl64. rewrite decide_True by lia. cbn [mbind res_bind].
  assert (2 ^ norm_shift <= 2 ^ 31) by (apply Z.pow_le_mono_r; lia).
  change (2 ^ 31) with 2147483648 in *. assert (0 < 2 ^ norm_shift) by (apply Z.pow_pos_nonneg; lia).
  rewrite Z.shiftl_mul_pow2 by lia. set (w := Z.abs d * 2 ^ norm_shift).
  pose proof (mul_bound (Z.abs d) (2 ^ norm_shift) 255 2147483648 ltac:(lia) ltac:(lia)) as Hw.
  fold w in Hw. rewrite (wrap_small 64 w) by (words; lia).
  assert (Hsc : (if 0xFFFFFFFF <? w then 0xFFFFFFFF else u32 w) = Z.min w (2 ^ 32 - 1)).
  { change (2 ^ 32 - 1) with 4294967295. destruct (Z.ltb_spec 4294967295 w); [lia|].
    rewrite wrap_small by (words; lia). lia. }
  rewrite Hsc. unfold udiv. rewrite (proj2 (Z.eqb_neq std 0)) by lia. cbn [mbind res_bind].
  unfold lnorm_scaled. fold w. change (2 ^ 32 - 1) with 4294967295.
  assert (0 <= Z.min w 4294967295 / std) as Hq by (apply Z.div_pos; lia).
  set (q := Z.min w 4294967295 / std) in *. clearbody q.
  unfold ineg. destruct (d <? 0).
  - destruct (Z.ltb_spec 128 q); unfold mret, res_ret; [f_equal; lia|].
    rewrite i32_id by (unfold INT_MIN, INT_MAX; lia).
    rewrite int_of_ok by (unfold INT_MIN, INT_MAX; lia). f_equal. lia.
  - destruct (Z.ltb_spec 127 q); unfold mret, res_ret; [f_equal; lia|].
    rewrite i32_id by (unfold INT_MIN, INT_MAX; lia). f_equal. lia.
Qed.

Hypothesis Hwf : rows_wf input num_rows row_len.
Hypothesis Hlen : 1 <= row_len <= 66051.
Hypothesis Hshift : 0 <= norm_shift < 32.

Lemma lnorm_sum_ok r :
  0 <= r < num_rows ->
  for_int row_len (fun i sum => j ← iadd (r * row_len) i; x ← load input j; iadd sum x) 0
  = Ok (Zsum row_len (elem input row_len r)) /\
  Z.abs (Zsum row_len (elem input row_len r)) <= row_len * 128.
Proof using Hwf Hlen.
  intros Hr.
  assert (Hx : forall i, 0 <= i < row_len -> Z.abs (elem input row_len r i) <= 128).
  { intros i Hi. pose proof (elem_i8 _ _ _ r i Hwf). unfold fits_i8 in *. lia. }
  split; [|apply Zsum_bound; [lia|done]].
  rewrite (for_int_sum row_len 0 128 (elem input row_len r)); [done|unfold INT_MAX; lia|done| |done].
  intros i acc Hi Hacc. rewrite (elem_bind input num_rows) by done.
  pose proof (Hx i Hi). apply iadd_ok. unfold INT_MIN, INT_MAX. nia.
Qed.

Lemma lnorm_mean_range r : fits_i8 (lnorm_mean r).
Proof using Hwf Hlen.
  pose proof (Zsum_range row_len (elem input row_len r) (-128) 127 ltac:(lia)
    ltac:(intros i Hi; exact (elem_i8 _ _ _ r i Hwf))) as Hs.
  unfold lnorm_mean, fits_i8. split.
  - rewrite <- (Z.quot_mul (-128) row_len) by lia. apply Z.quot_le_mono; lia.
  - rewrite <- (Z.quot_mul 127 row_len) by lia. apply Z.quot_le_mono; lia.
Qed.

Lemma lnorm_dev_range r i : Z.abs (lnorm_dev r i) <= 255.
Proof using Hwf Hlen.
  pose proof (lnorm_mean_range r). pose proof (elem_i8 _ _ _ r i Hwf).
  unfold lnorm_dev, fits_i8 in *. lia.
Qed.

Lemma lnorm_sq_range r i : 0 <= lnorm_dev r i * lnorm_dev r i <= 65025.
Proof using Hwf Hlen. pose proof (lnorm_dev_range r i). nia. Qed.

Lemma lnorm_var_range r : 0 <= lnorm_var r <= 65025.
Proof using Hwf Hlen.
  pose proof (Zsum_range row_len (fun i => lnorm_dev r i * lnorm_dev r i) 0 65025 ltac:(lia)
    ltac:(intros i Hi; apply lnorm_sq_range)) as Hs.
  unfold lnorm_var. split; [apply Z.div_pos; lia|]. apply Z.div_le_upper_bound; lia.
Qed.

Lemma lnorm_dev_bind {A} r i (k : Z -> Z -> res A) :
  0 <= r < num_rows -> 0 <= i < row_len ->
  (j ← iadd (r * row_len) i; x ← load input j; diff ← isub x (lnorm_mean r); k j diff)
  = k (r * row_len + i) (lnorm_dev r i).
Proof using Hwf Hlen.
  intros Hr Hi. rewrite (elem_bind input num_rows) by done.
  pose proof (lnorm_dev_range r i). unfold lnorm_dev in *.
  by rewrite isub_ok by (unfold INT_MIN, INT_MAX; lia).
Qed.

Lemma lnorm_var_sum_ok r :
  0 <= r < num_rows ->
  for_int row_len (fun i var_sum =>
    j ← iadd (r * row_len) i; x ← load input j;
    diff ← isub x (lnorm_mean r); sq ← imul diff diff;
    mret (u32 (var_sum + u32 sq))) 0
  = Ok (Zsum row_len (fun i => lnorm_dev r i * lnorm_dev r i)).
Proof using Hwf Hlen.
  intros Hr. set (f := fun i => lnorm_dev r i * lnorm_dev r i).
  destruct (for_int_ind row_len (fun i var_sum =>
      j ← iadd (r * row_len) i; x ← load input j;
      diff ← isub x (lnorm_mean r); sq ← imul diff diff; mret (u32 (var_sum + u32 sq)))
    (fun i acc => acc = Zsum i f) 0) as (acc & Hacc & ->);
    [unfold INT_MAX; lia|done| |exact Hacc].
  intros i acc Hi ->. rewrite (lnorm_dev_bind r i) by done.
  pose proof (lnorm_sq_range r i) as Hsq. rewrite imul_ok by (unfold INT_MIN, INT_MAX; lia).
  eexists. split; [reflexivity|]. rewrite Zsum_succ by lia. fold (f i) in *.
  pose proof (Zsum_range i f 0 65025 ltac:(lia) ltac:(intros j Hj; apply lnorm_sq_range)).
  assert (0 <= Zsum i f + f i < 4294967296) by lia.
  rewrite (wrap_small 32 (f i)) by (apply fits32_iff; lia). by apply wrap_small, fits32_iff.
Qed.

Lemma ref_lnorm_rows :
  ref_lnorm input num_rows row_len norm_shift =
  Ok ((fun i => lnorm_spec (i / row_len) (i mod row_len)) <$> seqZ 0 (num_rows * row_len)).
Proof using Hwf Hlen Hshift.
  pose proof Hwf as (HM & HN & HMN & Hin).
  apply fill_rows; [done|done|done|]. intros r out Hr Hout.
  rewrite imul_ok by (unfold INT_MIN; nia). cbn [mbind res_bind].
  destruct (lnorm_sum_ok r Hr) as [-> Hsum]. cbn [mbind res_bind].
  unfold idiv. rewrite (proj2 (Z.eqb_neq row_len 0)) by lia. fold (lnorm_mean r).
  pose proof (lnorm_mean_range r) as Hmean.
  rewrite int_of_ok by (unfold fits_i8, INT_MIN, INT_MAX in *; lia). cbn [mbind res_bind].
  rewrite lnorm_var_sum_ok by done. cbn [mbind res_bind].
  rewrite (wrap_small 32 row_len) by (apply fits32_iff; clear -Hlen; lia).
  unfold udiv at 1. rewrite (proj2 (Z.eqb_neq row_len 0)) by lia. fold (lnorm_var r).
  cbn [mbind res_bind]. cbv zeta. pose proof (lnorm_var_range r) as Hvar.
  rewrite (wrap_small 32 (lnorm_var r + 1)) by (apply fits32_iff; clear -Hvar; lia).
  rewrite isqrt_hw_sqrt by (apply fits32_iff; clear -Hvar; lia).
  assert (Hstd : 0 < Z.sqrt (lnorm_var r + 1)) by (apply Z.sqrt_pos; lia).
  rewrite (proj2 (Z.eqb_neq (Z.sqrt (lnorm_var r + 1)) 0)) by lia.
  set (G := fun i => lnorm_spec (i / row_len) (i mod row_len)) in *.
  edestruct (for_int_fill G (num_rows * row_len) row_len (r * row_len) 1) as (out' & Ho & Hf);
    [unfold INT_MAX; lia|exact Hout| |exists out'; split; [exact Ho|by rewrite Z.mul_1_r in Hf]].
  intros i t Hi Ht. cbv beta. rewrite Z.mul_1_r in *.
  rewrite (lnorm_dev_bind r i) by done.
  rewrite lnorm_elem_ok by (done || apply lnorm_dev_range). cbn [mbind res_bind].
  apply filled_store; [done|by apply digit_index|].
  unfold G. rewrite digit_div, digit_mod by done. apply i8_id.
  pose proof (lnorm_scaled_nonneg _ (lnorm_dev r i) Hstd ltac:(lia)).
  unfold fits_i8, lnorm_spec. cbv zeta. destruct (lnorm_dev r i <? 0); lia.
Qed.

(** [ref_lnorm] on rows of 1 to 66051 int8 elements and a shift below 32 is
    defined: neither the 32-bit sum of squares nor the shifted deviation
    overflows and the divisor is never zero. Element [i] of a row is
    [(x - mean) * 2^shift / sqrt (var + 1)], the mean truncated toward zero, all
    else rounded down in magnitude, with saturation; an element equal to the
    mean gives 0 and outputs keep the sign of the deviation. *)
Theorem ref_lnorm_correct :
  ref_lnorm input num_rows row_len norm_shift =
  Ok ((fun i => lnorm_spec (i / row_len) (i mod row_len)) <$> seqZ 0 (num_rows * row_len)) /\
  (forall r i, lnorm_dev r i = 0 -> lnorm_spec r i = 0) /\
  (forall r i, lnorm_dev r i < 0 -> -128 <= lnorm_spec r i <= 0) /\
  (forall r i, 0 < lnorm_dev r i -> 0 <= lnorm_spec r i <= 127).
Proof.
  assert (Hq : forall r i, 0 <= lnorm_scaled (Z.sqrt (lnorm_var r + 1)) (lnorm_dev r i)).
  { intros r i. pose proof (lnorm_var_range r).
    apply lnorm_scaled_nonneg; [apply Z.sqrt_pos; lia|lia]. }
  split; [apply ref_lnorm_rows|].
  split_and!; intros r i Hd; specialize (Hq r i); unfold lnorm_spec; cbv zeta.
  - rewrite Hd in *. unfold lnorm_scaled. simpl. rewrite Z.div_0_l; [done|].
    pose proof (lnorm_var_range r). assert (0 < Z.sqrt (lnorm_var r + 1)) by (apply Z.sqrt_pos; lia). lia.
  - rewrite (proj2 (Z.ltb_lt _ 0)) by lia. lia.
  - rewrite (proj2 (Z.ltb_ge _ 0)) by lia. lia.
Qed.
End lnorm.

Theorem ref_lnorm_correct_witness : ref_lnorm [1; 2; 3; 10] 1 4 4 = Ok [-16; -10; -5; 32].
Proof.
  rewrite (proj1 (ref_lnorm_correct [1; 2; 3; 10] 1 4 4
    ltac:(by apply (bool_decide_unpack _); vm_compute) ltac:(done) ltac:(done))). by vm_compute.
Defined.

(** ** Pooling *)

Lemma for_int_max hi (f : Z -> Z) (body : Z -> Z -> res Z) m0 :
  0 <= hi <= INT_MAX -> -128 <= m0 ->
  (forall i m, 0 <= i < hi -> -128 <= m -> body i m = Ok (Z.max m (f i))) ->
  for_int hi body m0 = Ok (Z.max m0 (row_max f hi)).
Proof.
  intros Hhi Hm0 Hbody.
  destruct (for_int_ind hi body (fun i m => m = Z.max m0 (row_max f i)) m0) as (m & Hm & ->);
    [done|unfold row_max; simpl; lia| |done].
  intros i m Hi ->. eexists. split; [apply Hbody; lia|]. rewrite row_max_succ by lia. lia.
Qed.

(** The sign and the quotient, apart. *)
Lemma quot_abs sum area :
  1 <= area -> (if sum <? 0 then - (Z.abs sum / area) else Z.abs sum / area) = Z.quot sum area.
Proof.
  intros Harea. destruct (Z.ltb_spec sum 0).
  - rewrite Z.abs_neq by lia. rewrite <- (Z.opp_involutive sum) at 2.
    by rewrite Z.quot_opp_l, Z.quot_div_nonneg by lia.
  - by rewrite Z.abs_eq, Z.quot_div_nonneg by lia.
Qed.

Lemma quot_fits sum area : 1 <= area -> area * -128 <= sum <= area * 127 -> fits_i8 (Z.quot sum area).
Proof.
  intros Harea Hsum. unfold fits_i8. split.
  - rewrite <- (Z.quot_mul (-128) area) by lia. apply Z.quot_le_mono; lia.
  - rewrite <- (Z.quot_mul 127 area) by lia. apply Z.quot_le_mono; lia.
Qed.

Section pool.
Context (input : list Z) (H W C R S stride_h stride_w pad_h pad_w : Z).

Definition pool_defined : Prop :=
  window_wf H pad_h R stride_h /\ window_wf W pad_w S stride_w /\ 0 <= C <= INT_MAX /\
  1 <= R /\ 1 <= S /\ R * S * 128 <= INT_MAX /\
  i8_array input (H * W * C) /\ H * W * C <= INT_MAX /\
  positions H pad_h R stride_h * positions W pad_w S stride_w <= INT_MAX /\
  positions H pad_h R stride_h * positions W pad_w S stride_w * C <= INT_MAX.

(** The input under the window: [None] in the padding. *)
Definition tap (oh ow c r s : Z) : option Z :=
  let ih := oh * stride_h + r - pad_h in
  let iw := ow * stride_w + s - pad_w in
  if inside H W ih iw then Some (at_ input ((ih * W + iw) * C + c)) else None.

Definition pool_max_spec (oh ow c : Z) : Z :=
  row_max (fun r => row_max (fun s => default (-128) (tap oh ow c r s)) S) R.

Definition pool_sum (oh ow c : Z) : Z := Zsum R (fun r => Zsum S (fun s => default 0 (tap oh ow c r s))).

Definition pool_spec (pool_mode oh ow c : Z) : Z :=
  if pool_mode =? 0 then pool_max_spec oh ow c else Z.quot (pool_sum oh ow c) (R * S).

Lemma tap_i8 d oh ow c r s : pool_defined -> fits_i8 d -> fits_i8 (default d (tap oh ow c r s)).
Proof.
  intros (_ & _ & _ & _ & _ & _ & Hin & _) Hd. unfold tap.
  destruct (inside _ _ _ _); [by eapply at_i8|done].
Qed.

Lemma pool_tap_bind {A} oh ow c r s (k : option Z -> res A) :
  pool_defined -> 0 <= oh < positions H pad_h R stride_h -> 0 <= ow < positions W pad_w S stride_w ->
  0 <= c < C -> 0 <= r < R -> 0 <= s < S ->
  (v ← pool_tap input H W C stride_h stride_w pad_h pad_w oh ow c r s; k v) = k (tap oh ow c r s).
Proof.
  intros (Hh & Hw & HC & _ & _ & _ & Hin & Hb & _) Hoh How Hc Hr Hs. unfold pool_tap, tap.
  rewrite (in_coord_bind H pad_h R) by done. rewrite (in_coord_bind W pad_w S) by done.
  destruct (inside H W _ _) eqn:Hi; [|done]. apply inside_true in Hi as [Hih Hiw].
  rewrite (idx3_bind _ W _ C c H) by (done || lia).
  rewrite (load_elem input (H * W * C)); [done|done|].
  pose proof (digit_index _ _ W H Hih Hiw) as Hd. by apply digit_index.
Qed.

Lemma pool_max_i8 oh ow c : pool_defined -> fits_i8 (pool_max_spec oh ow c).
Proof.
  intros Hd. pose proof Hd as (_ & _ & _ & HR & HS & _). apply row_max_bounds; [lia|]. intros r Hr.
  apply row_max_bounds; [lia|]. intros s Hs. by apply tap_i8.
Qed.

Lemma pool_sum_range oh ow c : pool_defined -> R * S * -128 <= pool_sum oh ow c <= R * S * 127.
Proof.
  intros Hd. pose proof Hd as (_ & _ & _ & HR & HS & _). rewrite <- !Z.mul_assoc. apply Zsum_range; [lia|].
  intros r Hr. apply Zsum_range; [lia|]. intros s Hs. by apply tap_i8.
Qed.

Lemma pool_spec_i8 pool_mode oh ow c : pool_defined -> fits_i8 (pool_spec pool_mode oh ow c).
Proof.
  intros Hd. unfold pool_spec. destruct (pool_mode =? 0); [by apply pool_max_i8|].
  pose proof Hd as (_ & _ & _ & HR & HS & _). apply quot_fits; [nia|]. by apply pool_sum_range.
Qed.

Lemma pool_max_ok oh ow c :
  pool_defined -> 0 <= oh < positions H pad_h R stride_h -> 0 <= ow < positions W pad_w S stride_w ->
  0 <= c < C ->
  for_int R (fun r max_val => for_int S (fun s max_val =>
    v ← pool_tap input H W C stride_h stride_w pad_h pad_w oh ow c r s;
    mret (match v with Some v => if max_val <? v then v else max_val | None => max_val end)) max_val)
    (-128) = Ok (pool_max_spec oh ow c) /\ fits_i8 (pool_max_spec oh ow c).
Proof.
  intros Hd Hoh How Hc. pose proof Hd as (Hh & Hw & _ & HR & HS & HRS & _).
  assert (HSb : forall r, fits_i8 (row_max (fun s => default (-128) (tap oh ow c r s)) S))
    by (intros r; apply row_max_bounds; [lia|intros; by apply tap_i8]).
  assert (Hb := pool_max_i8 oh ow c Hd).
  split; [|done]. destruct Hb as [Hb _].
  rewrite (for_int_max R (fun r => row_max (fun s => default (-128) (tap oh ow c r s)) S));
    [f_equal; fold (pool_max_spec oh ow c); lia|unfold INT_MAX in *; nia|lia|].
  intros r m Hr Hm.
  apply for_int_max; [unfold INT_MAX in *; nia|done|].
  intros s m' Hs Hm'. rewrite pool_tap_bind by done.
  destruct (tap oh ow c r s) as [v|]; simpl; unfold mret, res_ret; f_equal; [|lia].
  destruct (Z.ltb_spec m' v); lia.
Qed.

Lemma pool_sum_ok oh ow c :
  pool_defined -> 0 <= oh < positions H pad_h R stride_h -> 0 <= ow < positions W pad_w S stride_w ->
  0 <= c < C ->
  for_int R (fun r sum => for_int S (fun s sum =>
    v ← pool_tap input H W C stride_h stride_w pad_h pad_w oh ow c r s;
    match v with Some v => iadd sum v | None => mret sum end) sum) 0 = Ok (pool_sum oh ow c) /\
  R * S * -128 <= pool_sum oh ow c <= R * S * 127.
Proof.
  intros Hd Hoh How Hc. pose proof Hd as (Hh & Hw & _ & HR & HS & HRS & _).
  assert (HSr : forall r, S * -128 <= Zsum S (fun s => default 0 (tap oh ow c r s)) <= S * 127)
    by (intros r; apply Zsum_range; [lia|intros; by apply tap_i8]).
  split; [|by apply pool_sum_range].
  unfold pool_sum. set (f := fun r => Zsum S (fun s => default 0 (tap oh ow c r s))) in *.
  rewrite (for_int_sum R 0 (S * 128) f);
    [done|unfold INT_MAX in *; nia|intros r Hr; specialize (HSr r); fold (f r) in HSr; lia| |done].
  intros r acc Hr Hacc.
  apply (for_int_sum S (r * (S * 128)) 128 (fun s => default 0 (tap oh ow c r s)));
    [unfold INT_MAX in *; nia| | |lia].
  - intros s Hs. pose proof (tap_i8 0 oh ow c r s Hd ltac:(done)). unfold fits_i8 in *. lia.
  - intros s acc' Hs Hacc'. rewrite pool_tap_bind by done.
    pose proof (tap_i8 0 oh ow c r s Hd ltac:(done)) as Ht.
    destruct (tap oh ow c r s) as [v|]; simpl in *; [|unfold mret, res_ret; f_equal; lia].
    assert (s * 128 + 128 <= S * 128) by lia.
    assert (r * (S * 128) + S * 128 <= R * (S * 128)) by nia.
    apply iadd_ok. unfold fits_i8, INT_MIN, INT_MAX in *. lia.
Qed.

Lemma pool_avg_ok sum area :
  1 <= area <= INT_MAX -> area * -128 <= sum <= area * 127 -> area * 128 <= INT_MAX ->
  pool_avg sum area = Ok (Z.quot sum area).
Proof.
  intros Harea Hsum Hb. unfold pool_avg. rewrite abs_u32 by lia. cbn [mbind res_bind].
  rewrite (wrap_small 32 area) by (apply fits32_iff; unfold INT_MAX in *; lia).
  unfold udiv. rewrite (proj2 (Z.eqb_neq area 0)) by lia. cbn [mbind res_bind].
  assert (Hq : 0 <= Z.abs sum / area <= 128).
  { split; [apply Z.div_pos; lia|]. apply Z.div_le_upper_bound; lia. }
  pose proof (quot_abs sum area ltac:(lia)) as Hquot.
  assert (Hres : (if sum <? 0 then ineg (i32 (Z.abs sum / area)) else mret (i32 (Z.abs sum / area)))
                 = Ok (Z.quot sum area)).
  { rewrite i32_id by (unfold INT_MIN, INT_MAX; lia). rewrite <- Hquot. unfold ineg.
    destruct (sum <? 0); [|done]. apply int_of_ok. unfold INT_MIN, INT_MAX. lia. }
  rewrite Hres. cbn [mbind res_bind]. unfold mret, res_ret. f_equal.
  pose proof (quot_fits sum area ltac:(lia) Hsum). rewrite clamp_spec, i8_id by apply clamp_fits. unfold fits_i8 in *. lia.
Qed.

(** [ref_pool] with windows that fit and sizes indexable by [int] is
    defined. In mode 0 every output is the maximum of the input elements under
    its window, padding ignored; in any other mode it is their sum divided by
    the full window area (padding counts as zero), truncated toward zero, and
    its final clamp never changes a value. *)
Theorem ref_pool_correct pool_mode :
  pool_defined ->
  let OH := positions H pad_h R stride_h in
  let OW := positions W pad_w S stride_w in
  ref_pool input H W C R S stride_h stride_w pad_h pad_w pool_mode =
  Ok ((fun i => pool_spec pool_mode (i / (OW * C)) ((i mod (OW * C)) / C) (i mod C))
        <$> seqZ 0 (OH * OW * C)).
Proof.
  intros Hd OH OW. pose proof Hd as (Hh & Hw & HC & HR & HS & HRS & Hin & HHWC & HO & HOC).
  pose proof (positions_bound _ _ _ _ Hh) as HOH. pose proof (positions_bound _ _ _ _ Hw) as HOW.
  fold OH in HOH, HO, HOC. fold OW in HOW, HO, HOC.
  unfold ref_pool. rewrite !out_size_ok by done. cbn [mbind res_bind]. fold OH OW.
  rewrite (imul_ok OH OW) by (unfold INT_MIN; nia). cbn [mbind res_bind].
  rewrite (imul_ok (OH * OW) C) by (unfold INT_MIN; nia). cbn [mbind res_bind].
  set (G := fun i => pool_spec pool_mode (i / (OW * C)) ((i mod (OW * C)) / C) (i mod C)).
  destruct (filled_vector G (OH * OW * C)) as (out & -> & Hout); [nia|]. cbn [mbind res_bind].
  assert (1 <= R * S) by nia.
  rewrite (imul_ok R S) by (unfold INT_MIN; lia). cbn [mbind res_bind].
  apply fill_nhwc; [lia|lia|done|exact Hout|]. intros oh ow c v Hoh How Hc Hv.
  assert (Hx : forall A (k : Z -> res A), k (pool_spec pool_mode oh ow c) = k (G ((oh * OW + ow) * C + c)))
    by (intros A k; unfold G; by rewrite (nhwc_digits oh OW ow C c)).
  unfold pool_spec in Hx. destruct (pool_mode =? 0).
  - destruct (pool_max_ok oh ow c Hd Hoh How Hc) as [-> _]. cbn [mbind res_bind].
    rewrite (idx3_bind oh OW ow C c OH) by (done || lia). rewrite Hx.
    apply filled_store; [done| |done]. apply digit_index; [by apply digit_index|done].
  - destruct (pool_sum_ok oh ow c Hd Hoh How Hc) as [-> Hs]. cbn [mbind res_bind].
    rewrite pool_avg_ok by lia. cbn [mbind res_bind].
    rewrite (idx3_bind oh OW ow C c OH) by (done || lia). rewrite Hx.
    apply filled_store; [done| |done]. apply digit_index; [by apply digit_index|done].
Qed.
End pool.

Theorem ref_pool_correct_witness : ref_pool [1; 2; -3; -8] 2 2 1 2 2 1 1 0 0 1 = Ok [-2].
Proof.
  rewrite ref_pool_correct; [by vm_compute|]. by apply (bool_decide_unpack _); vm_compute.
Defined.
