(* ===== verification/Annot.v ===== *)
(** * The arithmetic of sw/shared/annotations.h

    The macros and inline functions of the shared header that compute: bounds
    and alignment, single bits, rotations, byte swaps and bit counts, each in
    the version written in C: the last branch, which gcc takes for the
    rotations. For bit counts and byte swaps line 506 of the header rejects every
    compiler that would take it, so the bit counts are also modelled as gcc, clang
    and MSVC take them, over built-ins, and agree ([gnu_counts], [msvc_clz64]).
    Operands have the unsigned
    type named by the macro; the attribute macros of the header have no
    run-time meaning. *)

From S2P Require Import Prelude CArith.

Open Scope Z_scope.

(** ** Bounds and alignment *)

(** Operands of one type. *)
Definition MIN (a b : Z) : Z := if a <? b then a else b.
Definition MAX (a b : Z) : Z := if a >? b then a else b.
Definition CLAMP (x lo hi : Z) : Z := if x <? lo then lo else if x >? hi then hi else x.

(** [~x] on [w] bits. *)
Definition lnot (w x : Z) : Z := 2 ^ w - 1 - x.

(** Unsigned operands of [w] bits, not narrower than [int]. *)
Definition IS_POWER_OF_2 (w x : Z) : bool :=
  negb (x =? 0) && (Z.land x (wrap w (x - 1)) =? 0).
Definition ALIGN_UP (w val align : Z) : Z :=
  Z.land (wrap w (wrap w (val + align) - 1)) (lnot w (wrap w (align - 1))).
Definition ALIGN_DOWN (w val align : Z) : Z := Z.land val (lnot w (wrap w (align - 1))).
Definition IS_ALIGNED (w val align : Z) : bool := Z.land val (wrap w (align - 1)) =? 0.

(** ** Single bits *)

(** [1ULL << n]; the operations work on 64 bits. *)
Definition BIT (n : Z) : res Z := shl64 1 n.
Definition BIT_SET (val n : Z) : res Z := b ← BIT n; mret (Z.lor val b).
Definition BIT_CLEAR (val n : Z) : res Z := b ← BIT n; mret (Z.land val (lnot 64 b)).
Definition BIT_TOGGLE (val n : Z) : res Z := b ← BIT n; mret (Z.lxor val b).
Definition BIT_CHECK (val n : Z) : res Z := b ← BIT n; mret (Z.b2z (negb (Z.land val b =? 0))).

(** ** Rotations *)

(** Shifts of a [w]-bit unsigned value by an unsigned count. *)
Definition shl (w x n : Z) : res Z := if decide (0 <= n < w) then Ok (wrap w (x ≪ n)) else UB BadShift.
Definition shr (w x n : Z) : res Z := if decide (0 <= n < w) then Ok (x ≫ n) else UB BadShift.

Definition ROTL32 (x r : Z) : res Z :=
  a ← shl 32 (u32 x) r; b ← shr 32 (u32 x) (u32 (32 - r)); mret (Z.lor a b).
Definition ROTR32 (x r : Z) : res Z :=
  a ← shr 32 (u32 x) r; b ← shl 32 (u32 x) (u32 (32 - r)); mret (Z.lor a b).
Definition ROTL64 (x r : Z) : res Z :=
  a ← shl 64 (u64 x) r; b ← shr 64 (u64 x) (u32 (64 - r)); mret (Z.lor a b).
Definition ROTR64 (x r : Z) : res Z :=
  a ← shr 64 (u64 x) r; b ← shl 64 (u64 x) (u32 (64 - r)); mret (Z.lor a b).

(** ** Byte swap *)

(** A [uint16_t] is promoted to [int]; the shifted value fits. *)
Definition BSWAP16 (x : Z) : Z := u16 (Z.lor (x ≫ 8) (x ≪ 8)).
Definition BSWAP32 (x : Z) : Z :=
  u32 (Z.lor (Z.lor (Z.lor (x ≫ 24) (Z.land (x ≫ 8) 0xFF00)) (Z.land (u32 (x ≪ 8)) 0xFF0000))
             (u32 (x ≪ 24))).
Definition BSWAP64 (x : Z) : Z :=
  Z.lor (u64 (BSWAP32 (u32 x) ≪ 32)) (BSWAP32 (u32 (x ≫ 32))).

(** ** Bit counts *)

(** [if (x >> k) { n -= k; x >>= k; }] *)
Definition clz_turn (k : Z) (s : Z * Z) : Z * Z :=
  let '(n, x) := s in if negb (x ≫ k =? 0) then (u32 (n - k), x ≫ k) else (n, x).

Definition clz32_fallback (x : Z) : Z :=
  let '(n, x) := clz_turn 1 (clz_turn 2 (clz_turn 4 (clz_turn 8 (clz_turn 16 (32, x))))) in
  u32 (n - x).

Definition CLZ32 (x : Z) : Z := clz32_fallback x.
Definition CLZ64 (x : Z) : Z :=
  if negb (u32 (x ≫ 32) =? 0) then CLZ32 (u32 (x ≫ 32)) else u32 (32 + CLZ32 (u32 x)).

Definition CTZ32 (x : Z) : Z := if negb (x =? 0) then u32 (31 - CLZ32 (Z.land x (u32 (- x)))) else 32.
Definition CTZ64 (x : Z) : Z := if negb (x =? 0) then u32 (63 - CLZ64 (Z.land x (u64 (- x)))) else 64.

Definition popcount32_fallback (x : Z) : Z :=
  let x := u32 (x - Z.land (x ≫ 1) 0x55555555) in
  let x := u32 (Z.land x 0x33333333 + Z.land (x ≫ 2) 0x33333333) in
  let x := Z.land (u32 (x + (x ≫ 4))) 0x0F0F0F0F in
  u32 (x * 0x01010101) ≫ 24.

Definition POPCOUNT32 (x : Z) : Z := popcount32_fallback x.
Definition POPCOUNT64 (x : Z) : Z := u32 (POPCOUNT32 (u32 x) + POPCOUNT32 (u32 (x ≫ 32))).

(** The functions of the MSVC branch for targets without the 64-bit scans,
    over its intrinsics: the index of the highest and of the lowest set bit,
    [None] when the intrinsic reports 0. *)
Section msvc.
Context (BitScanReverse BitScanForward : Z -> option Z).

Definition clz32 (x : Z) : Z := match BitScanReverse x with Some idx => u32 (31 - idx) | None => 32 end.
Definition clz64 (x : Z) : Z :=
  match BitScanReverse (u32 (x ≫ 32)) with
  | Some idx => u32 (31 - idx)
  | None => match BitScanReverse (u32 x) with Some idx => u32 (63 - idx) | None => 64 end
  end.
Definition ctz32 (x : Z) : Z := match BitScanForward x with Some idx => u32 idx | None => 32 end.
Definition ctz64 (x : Z) : Z :=
  match BitScanForward (u32 x) with
  | Some idx => u32 idx
  | None => match BitScanForward (u32 (x ≫ 32)) with Some idx => u32 (32 + idx) | None => 64 end
  end.
End msvc.

(** The GNU branch, over the compiler's built-ins, which say nothing of 0. *)
Section gnu.
Context (builtin_clz builtin_clzll builtin_ctz builtin_ctzll : Z -> Z).

Definition gnu_CLZ32 (x : Z) : Z := if negb (x =? 0) then u32 (builtin_clz x) else 32.
Definition gnu_CLZ64 (x : Z) : Z := if negb (x =? 0) then u32 (builtin_clzll x) else 64.
Definition gnu_CTZ32 (x : Z) : Z := if negb (x =? 0) then u32 (builtin_ctz x) else 32.
Definition gnu_CTZ64 (x : Z) : Z := if negb (x =? 0) then u32 (builtin_ctzll x) else 64.
End gnu.

(** ** Reference definitions *)

(** The number of zero bits above the highest set bit of [w]. *)
Definition leading_zeros (w x : Z) : Z := if x =? 0 then w else w - 1 - Z.log2 x.

(** [k] zero bits below a set one. *)
Definition trailing_zeros (w x k : Z) : Prop :=
  if x =? 0 then k = w
  else 0 <= k /\ Z.testbit x k = true /\ forall i, 0 <= i < k -> Z.testbit x i = false.

Definition set_bits (w x : Z) : Z := Zsum w (fun i => Z.b2z (Z.testbit x i)).

(** ** Counting leading zeros *)

(** What a turn keeps: the answer is [n] for a zero and the distance of the
    highest bit from [n] otherwise. *)
Definition clz_inv (a : Z) (k : Z) (s : Z * Z) : Prop :=
  let '(n, x) := s in
  0 <= x < 2 ^ k /\ k <= n <= 32 /\ (if x =? 0 then a = n else a = n - 1 - Z.log2 x).

Lemma clz_turn_inv a k s : 0 < k <= 16 -> clz_inv a (k + k) s -> clz_inv a k (clz_turn k s).
Proof.
  destruct s as [n x]. intros Hk (Hx & Hn & Ha). unfold clz_turn.
  rewrite Z.pow_add_r in Hx by lia. rewrite Z.shiftr_div_pow2 by lia.
  assert (0 < 2 ^ k) by (apply Z.pow_pos_nonneg; lia).
  destruct (Z.eqb_spec (x / 2 ^ k) 0) as [Hz|Hz]; cbn [negb].
  - split; [|by split; [lia|]]. apply Z.div_small_iff in Hz; lia.
  - assert (Hge : 2 ^ k <= x) by (destruct (Z.lt_ge_cases x (2 ^ k)) as [Hlt|]; [|done]; by rewrite Z.div_small in Hz by lia).
    assert (Hpos : 0 < x / 2 ^ k) by (apply Z.div_str_pos; lia).
    unfold clz_inv. rewrite wrap_small by (unfold fits; lia). split_and!.
    + lia.
    + by apply Z.div_lt_upper_bound; lia.
    + lia.
    + lia.
    + rewrite (proj2 (Z.eqb_neq x 0)) in Ha by lia.
      rewrite (proj2 (Z.eqb_neq (x / 2 ^ k) 0)) by lia.
      rewrite <- Z.shiftr_div_pow2, Z.log2_shiftr by lia.
      assert (k <= Z.log2 x) by (apply Z.log2_le_pow2; lia). lia.
Qed.

Lemma clz32_fallback_exact x : fits 32 x -> clz32_fallback x = leading_zeros 32 x.
Proof.
  intros Hx. unfold clz32_fallback.
  assert (H0 : clz_inv (leading_zeros 32 x) (16 + 16) (32, x)).
  { split; [exact Hx|]. split; [lia|]. unfold leading_zeros. by destruct (x =? 0). }
  apply clz_turn_inv in H0; [|lia]. apply (clz_turn_inv _ 8) in H0; [|lia].
  apply (clz_turn_inv _ 4) in H0; [|lia]. apply (clz_turn_inv _ 2) in H0; [|lia].
  apply (clz_turn_inv _ 1) in H0; [|lia].
  destruct (clz_turn 1 _) as [n y]. destruct H0 as (Hy & Hn & Ha).
  assert (y = 0 \/ y = 1) as [-> | ->] by lia; cbn in Ha; rewrite wrap_small by (unfold fits; lia); lia.
Qed.

(** The high and the low half of a 64-bit value. *)
Lemma half_high x : fits 64 x -> fits 32 (x ≫ 32) /\ u32 (x ≫ 32) = x ≫ 32.
Proof.
  intros Hx. assert (Hf : fits 32 (x ≫ 32)).
  { unfold fits in *. rewrite Z.shiftr_div_pow2 by done.
    split; [apply Z.div_pos; lia|]. apply Z.div_lt_upper_bound; lia. }
  split; [done|]. by apply wrap_small.
Qed.

Lemma CLZ64_exact x : fits 64 x -> CLZ64 x = leading_zeros 64 x.
Proof.
  intros Hx. destruct (half_high x Hx) as [Hf Heq]. unfold CLZ64, CLZ32. rewrite Heq.
  rewrite !clz32_fallback_exact by (done || by apply fits_wrap). unfold leading_zeros.
  rewrite Z.shiftr_div_pow2 in * by done.
  destruct (Z.eqb_spec (x / 2 ^ 32) 0) as [Hz|Hz]; cbn [negb].
  - assert (Hlo : fits 32 x) by (apply Z.div_small_iff in Hz; [unfold fits in *; lia|done]).
    rewrite (wrap_small 32 x) by done. destruct (Z.eqb_spec x 0) as [->|Hx0]; [done|].
    assert (Z.log2 x < 32) by (apply Z.log2_lt_pow2; unfold fits in *; lia).
    pose proof (Z.log2_nonneg x). rewrite wrap_small by (unfold fits; lia). lia.
  - assert (2 ^ 32 <= x).
    { destruct (Z.lt_ge_cases x (2 ^ 32)) as [Hlt|]; [|done].
      by rewrite Z.div_small in Hz by (unfold fits in *; lia). }
    rewrite (proj2 (Z.eqb_neq x 0)) by lia.
    rewrite <- Z.shiftr_div_pow2, Z.log2_shiftr by lia.
    assert (32 <= Z.log2 x) by (apply Z.log2_le_pow2; lia). lia.
Qed.

(** ** Counting trailing zeros *)

(** A positive number is an odd one shifted. *)
Lemma odd_part x : 0 < x -> exists k m, 0 <= k /\ 0 <= m /\ x = (2 * m + 1) * 2 ^ k.
Proof.
  destruct x as [|p|]; [lia| |lia]. intros _. induction p as [p _|p (k & m & Hk & Hm & IH)|].
  - exists 0, (Zpos p). lia.
  - exists (k + 1), m. split_and!; [lia|done|]. rewrite Pos2Z.inj_xO, IH, Z.pow_add_r by lia. lia.
  - by exists 0, 0.
Qed.

Lemma odd_part_bits k m i :
  0 <= k -> 0 <= m -> 0 <= i ->
  Z.testbit ((2 * m + 1) * 2 ^ k) i =
    if decide (i < k) then false else if decide (i = k) then true else Z.testbit m (i - k - 1).
Proof.
  intros Hk Hm Hi. destruct (decide (i < k)); [by apply Z.mul_pow2_bits_low|].
  rewrite Z.mul_pow2_bits by done. destruct (decide (i = k)) as [->|].
  - rewrite Z.sub_diag. apply Z.testbit_odd_0.
  - replace (i - k) with (Z.succ (i - k - 1)) at 1 by lia. apply Z.testbit_odd_succ. lia.
Qed.

(** [x & -x] is the lowest set bit. *)
Lemma lowest_bit w x k m :
  0 <= w -> 0 <= k -> 0 <= m -> x = (2 * m + 1) * 2 ^ k -> fits w x -> Z.land x (wrap w (- x)) = 2 ^ k.
Proof.
  intros Hw Hk Hm Hx Hfit. apply Z.bits_inj'. intros i Hi.
  rewrite Z.land_spec, Z.pow2_bits_eqb by done.
  assert (Hneg : Z.testbit (wrap w (- x)) i = if decide (i < w) then negb (Z.testbit (x - 1) i) else false).
  { unfold wrap. destruct (decide (i < w)).
    - rewrite Z.mod_pow2_bits_low by done. replace (- x) with (Z.lnot (x - 1)) by (unfold Z.lnot; lia).
      by apply Z.lnot_spec.
    - apply Z.mod_pow2_bits_high. lia. }
  rewrite Hneg. clear Hneg.
  assert (Hpred : x - 1 = Z.lor (2 ^ k - 1) (Z.shiftl (2 * m) k)).
  { rewrite lor_shiftl_add; [subst x; lia|done|]. unfold fits.
    assert (0 < 2 ^ k) by (apply Z.pow_pos_nonneg; lia). lia. }
  destruct (decide (i < w)) as [Hlt|Hge].
  2:{ rewrite (fits_testbit w x i) by (done || lia).
      destruct (Z.eqb_spec k i) as [->|]; [|done].
      assert (Hbit : Z.testbit x i = true) by (subst x; rewrite odd_part_bits, decide_False, decide_True by lia; done).
      rewrite (fits_testbit w) in Hbit by (done || lia). done. }
  rewrite Hpred, Z.lor_spec. replace (2 ^ k - 1) with (Z.ones k) by (rewrite Z.ones_equiv; lia).
  rewrite Z.testbit_ones_nonneg by lia.
  subst x. rewrite odd_part_bits by done.
  destruct (decide (i < k)).
  - rewrite (proj2 (Z.eqb_neq k i)) by lia. done.
  - rewrite (proj2 (Z.ltb_ge i k)) by lia. rewrite Z.shiftl_spec by done. cbn [orb].
    destruct (decide (i = k)) as [->|].
    + by rewrite Z.sub_diag, Z.testbit_even_0, Z.eqb_refl.
    + rewrite (proj2 (Z.eqb_neq k i)) by lia.
      replace (i - k) with (Z.succ (i - k - 1)) at 2 by lia.
      rewrite Z.testbit_even_succ by lia. by destruct (Z.testbit m _).
Qed.

(** Counting the zeros above [x & -x] counts those below the lowest bit. *)
Lemma ctz_exact w (clz : Z -> Z) x :
  0 < w <= 64 -> fits w x -> (forall y, fits w y -> clz y = leading_zeros w y) ->
  trailing_zeros w x (if negb (x =? 0) then u32 (w - 1 - clz (Z.land x (wrap w (- x)))) else w).
Proof.
  intros Hw Hx Hclz. unfold trailing_zeros. destruct (Z.eqb_spec x 0) as [->|Hx0]; cbn [negb]; [done|].
  destruct (odd_part x) as (k & m & Hk & Hm & Heq); [unfold fits in Hx; lia|].
  assert (Hbit : Z.testbit x k = true).
  { rewrite Heq, odd_part_bits, decide_False, decide_True by (done || lia). done. }
  assert (Hkw : k < w).
  { destruct (Z.lt_ge_cases k w); [done|]. rewrite (fits_testbit w x) in Hbit by (done || lia). done. }
  rewrite (lowest_bit w x k m) by (done || lia). rewrite Hclz.
  2:{ split; [by apply Z.pow_nonneg|]. apply Z.pow_lt_mono_r; lia. }
  unfold leading_zeros. rewrite (proj2 (Z.eqb_neq _ _)) by (apply Z.pow_nonzero; lia).
  rewrite Z.log2_pow2 by done. rewrite wrap_small by (unfold fits; lia).
  replace (w - 1 - (w - 1 - k)) with k by lia. split_and!; [done|done|].
  intros i Hi. rewrite Heq, odd_part_bits, decide_True by lia. done.
Qed.

(** ** Counting set bits *)

(** A word as its bytes, the lowest first. *)
Fixpoint of_bytes (bs : list Z) : Z := match bs with [] => 0 | b :: bs => b + 256 * of_bytes bs end.

Definition is_byte (b : Z) : Prop := fits 8 b.

Lemma of_bytes_nonneg bs : Forall is_byte bs -> 0 <= of_bytes bs.
Proof. unfold is_byte, fits. induction 1; simpl; lia. Qed.

Lemma byte_join_bits b y i :
  is_byte b -> 0 <= i -> Z.testbit (b + 256 * y) i = if decide (i < 8) then Z.testbit b i else Z.testbit y (i - 8).
Proof.
  intros Hb Hi. replace (b + 256 * y) with (Z.lor b (Z.shiftl y 8)) by (rewrite lor_shiftl_add by done; lia).
  rewrite Z.lor_spec, Z.shiftl_spec by done. destruct (decide (i < 8)).
  - rewrite (Z.testbit_neg_r y) by lia. apply orb_false_r.
  - rewrite (fits_testbit 8 b) by (done || lia). done.
Qed.

(** Shifting right by [k] and masking each byte with [m] works byte by byte
    when the mask covers no bit that comes from the next byte. *)
Lemma mask_bytes k m bs :
  0 <= k <= 8 -> fits (8 - k) m -> Forall is_byte bs ->
  Z.land (of_bytes bs ≫ k) (of_bytes (replicate (length bs) m)) =
  of_bytes ((fun b => Z.land (b ≫ k) m) <$> bs).
Proof.
  intros Hk Hm. assert (Hm8 : is_byte m) by (eapply fits_mono; [|exact Hm]; lia).
  induction 1 as [|b bs Hb _ IH]; [by rewrite Z.land_0_r|]. cbn [of_bytes length replicate fmap list_fmap].
  rewrite <- IH. apply Z.bits_inj'. intros i Hi.
  assert (Hl : is_byte (Z.land (b ≫ k) m)) by (by apply fits_land_r).
  rewrite Z.land_spec, Z.shiftr_spec, !byte_join_bits by (done || lia).
  destruct (decide (i < 8)).
  - rewrite Z.land_spec, Z.shiftr_spec by done. destruct (decide (i + k < 8)); [done|].
    rewrite (fits_testbit (8 - k) m) by (done || lia). by rewrite !andb_false_r.
  - rewrite decide_False by lia. rewrite Z.land_spec, Z.shiftr_spec by lia. do 2 f_equal. lia.
Qed.

Lemma of_bytes_add f g (bs : list Z) :
  of_bytes (f <$> bs) + of_bytes (g <$> bs) = of_bytes ((fun b => f b + g b) <$> bs).
Proof. induction bs as [|b bs IH]; [done|]. cbn [fmap list_fmap of_bytes] in *. lia. Qed.

Lemma of_bytes_sub f (bs : list Z) :
  of_bytes bs - of_bytes (f <$> bs) = of_bytes ((fun b => b - f b) <$> bs).
Proof. induction bs as [|b bs IH]; [done|]. cbn [fmap list_fmap of_bytes] in *. lia. Qed.

Lemma set_bits_join w b y : 0 <= w -> is_byte b -> set_bits (8 + w) (b + 256 * y) = set_bits 8 b + set_bits w y.
Proof.
  intros Hw Hb. unfold set_bits. rewrite Zsum_add by lia. f_equal; apply Zsum_ext; intros i Hi.
  - by rewrite byte_join_bits, decide_True by (done || lia).
  - rewrite byte_join_bits, decide_False by (done || lia). do 2 f_equal. lia.
Qed.

(** The first two lines of the function on one byte: the number of set bits of
    each nibble. *)
Definition nibble_counts (b : Z) : Z :=
  let d := b - Z.land (b ≫ 1) 0x55 in Z.land d 0x33 + Z.land (d ≫ 2) 0x33.

Lemma nibble_counts_byte b :
  is_byte b ->
  is_byte (b - Z.land (b ≫ 1) 0x55) /\ 0 <= nibble_counts b /\
  nibble_counts b mod 16 <= 4 /\ nibble_counts b / 16 <= 4 /\
  nibble_counts b mod 16 + nibble_counts b / 16 = set_bits 8 b.
Proof.
  intros Hb.
  assert (Hall : Forall (fun b => is_byte (b - Z.land (b ≫ 1) 0x55) /\ 0 <= nibble_counts b /\
    nibble_counts b mod 16 <= 4 /\ nibble_counts b / 16 <= 4 /\
    nibble_counts b mod 16 + nibble_counts b / 16 = set_bits 8 b) (seqZ 0 256)).
  { apply (bool_decide_unpack _). by vm_compute. }
  rewrite Forall_forall in Hall. apply Hall, list_elem_of_In, elem_of_seqZ. exact Hb.
Qed.

(** The last line adds the four bytes. *)
Lemma sum_of_bytes p0 p1 p2 p3 :
  0 <= p0 <= 8 -> 0 <= p1 <= 8 -> 0 <= p2 <= 8 -> 0 <= p3 <= 8 ->
  u32 (of_bytes [p0; p1; p2; p3] * 0x01010101) ≫ 24 = p0 + p1 + p2 + p3.
Proof.
  intros. rewrite Z.shiftr_div_pow2 by done. unfold wrap. cbn [of_bytes].
  change (2 ^ 32) with 4294967296. change (2 ^ 24) with 16777216.
  replace ((p0 + 256 * (p1 + 256 * (p2 + 256 * (p3 + 256 * 0)))) * 0x01010101) with
    ((p1 + p2 + p3 + 256 * (p2 + p3) + 65536 * p3) * 4294967296 +
     ((p0 + p1 + p2 + p3) * 16777216 + (p0 + p1 + p2) * 65536 + (p0 + p1) * 256 + p0)) by lia.
  rewrite Z.add_comm, Z.mod_add, Z.mod_small by lia.
  symmetry. apply (Z.div_unique _ _ _ ((p0 + p1 + p2) * 65536 + (p0 + p1) * 256 + p0)); lia.
Qed.

Lemma four_bytes x : fits 32 x ->
  exists b0 b1 b2 b3, x = of_bytes [b0; b1; b2; b3] /\ is_byte b0 /\ is_byte b1 /\ is_byte b2 /\ is_byte b3.
Proof.
  intros Hx. rewrite fits32_iff in Hx. exists (x mod 256), (x / 256 mod 256), (x / 256 / 256 mod 256), (x / 256 / 256 / 256).
  unfold is_byte. rewrite !fits8_iff. cbn [of_bytes]. Z.div_mod_to_equations. lia.
Qed.

(** Adding the nibbles of each byte: no sum leaves its nibble. *)
Lemma add_nibbles (l0 h0 l1 h1 l2 h2 l3 h3 : Z) :
  0 <= l0 <= 4 -> 0 <= h0 <= 4 -> 0 <= l1 <= 4 -> 0 <= h1 <= 4 ->
  0 <= l2 <= 4 -> 0 <= h2 <= 4 -> 0 <= l3 <= 4 -> 0 <= h3 <= 4 ->
  let x := of_bytes [l0 + 16 * h0; l1 + 16 * h1; l2 + 16 * h2; l3 + 16 * h3] in
  Z.land (u32 (x + (x ≫ 4))) 0x0F0F0F0F = of_bytes [l0 + h0; l1 + h1; l2 + h2; l3 + h3].
Proof.
  intros. set (c := [l0 + h0 + 16 * (h0 + l1); l1 + h1 + 16 * (h1 + l2);
                     l2 + h2 + 16 * (h2 + l3); l3 + h3 + 16 * h3]).
  assert (Hsum : x + (x ≫ 4) = of_bytes c).
  { unfold x, c. rewrite Z.shiftr_div_pow2 by done. change (2 ^ 4) with 16. cbn [of_bytes].
    Z.div_mod_to_equations. lia. }
  rewrite Hsum, wrap_small by (rewrite fits32_iff; unfold c; cbn [of_bytes]; lia).
  assert (Hmask := mask_bytes 0 15 c ltac:(lia) ltac:(done)
    ltac:(unfold c, is_byte; repeat constructor; lia)).
  rewrite Z.shiftr_0_r in Hmask. change (of_bytes (replicate (length c) 15)) with 0x0F0F0F0F in Hmask.
  rewrite Hmask. unfold c. cbn [fmap list_fmap]. rewrite !Z.shiftr_0_r.
  change 15 with (2 ^ 4 - 1). rewrite !land_mask by done. unfold wrap. change (2 ^ 4) with 16.
  assert (Hmod : forall a b, 0 <= a < 16 -> (a + 16 * b) mod 16 = a).
  { intros a b Ha. rewrite (Z.mul_comm 16), Z.mod_add by done. by apply Z.mod_small. }
  by rewrite !Hmod by lia.
Qed.

Lemma nibbles_of b :
  is_byte b -> is_byte (b - Z.land (b ≫ 1) 0x55) /\
  exists l h, nibble_counts b = l + 16 * h /\ 0 <= l <= 4 /\ 0 <= h <= 4 /\ set_bits 8 b = l + h.
Proof.
  intros Hb. destruct (nibble_counts_byte b Hb) as (Hd & Hn & Hl & Hh & Hs). split; [done|].
  exists (nibble_counts b mod 16), (nibble_counts b / 16).
  pose proof (Z.mod_pos_bound (nibble_counts b) 16 ltac:(lia)).
  pose proof (Z.div_pos (nibble_counts b) 16 Hn ltac:(lia)).
  pose proof (Z.div_mod (nibble_counts b) 16 ltac:(lia)). lia.
Qed.

(** The first two lines, on all four bytes. *)
Lemma two_lines bs :
  length bs = 4%nat -> Forall is_byte bs -> Forall (fun b => is_byte (b - Z.land (b ≫ 1) 0x55)) bs ->
  let d := u32 (of_bytes bs - Z.land (of_bytes bs ≫ 1) 0x55555555) in
  Z.land d 0x33333333 + Z.land (d ≫ 2) 0x33333333 = of_bytes (nibble_counts <$> bs).
Proof.
  intros Hlen Hbs Hds d. set (ds := (fun b => b - Z.land (b ≫ 1) 0x55) <$> bs).
  assert (Hd : d = of_bytes ds).
  { unfold d. replace 0x55555555 with (of_bytes (replicate (length bs) 0x55)) by (by rewrite Hlen).
    rewrite (mask_bytes 1 0x55 bs) by (done || lia).
    rewrite of_bytes_sub. fold ds. apply wrap_small.
    assert (Hdl : length ds = 4%nat) by (unfold ds; by rewrite length_fmap).
    apply Forall_fmap in Hds. fold ds in Hds. clearbody ds. clear -Hdl Hds.
    destruct ds as [|a [|b [|c [|e [|]]]]]; try done. decompose_Forall.
    rewrite fits32_iff. unfold is_byte in *. words. cbn [of_bytes]. lia. }
  rewrite Hd. assert (Hdb : Forall is_byte ds) by by apply Forall_fmap.
  replace 0x33333333 with (of_bytes (replicate (length ds) 0x33))
    by (unfold ds; by rewrite length_fmap, Hlen).
  rewrite (mask_bytes 2 0x33 ds) by (done || lia).
  assert (Hmask := mask_bytes 0 0x33 ds ltac:(lia) ltac:(done) Hdb). rewrite Z.shiftr_0_r in Hmask.
  rewrite Hmask, of_bytes_add. f_equal. unfold ds. rewrite <- list_fmap_compose.
  apply list_fmap_ext. intros i b _. unfold compose, nibble_counts. by rewrite Z.shiftr_0_r.
Qed.

Lemma popcount32_fallback_exact x : fits 32 x -> popcount32_fallback x = set_bits 32 x.
Proof.
  intros Hx. destruct (four_bytes x Hx) as (b0 & b1 & b2 & b3 & -> & H0 & H1 & H2 & H3).
  destruct (nibbles_of b0 H0) as (D0 & l0 & h0 & N0 & ? & ? & S0).
  destruct (nibbles_of b1 H1) as (D1 & l1 & h1 & N1 & ? & ? & S1).
  destruct (nibbles_of b2 H2) as (D2 & l2 & h2 & N2 & ? & ? & S2).
  destruct (nibbles_of b3 H3) as (D3 & l3 & h3 & N3 & ? & ? & S3).
  unfold popcount32_fallback.
  rewrite two_lines by (done || by repeat apply Forall_cons_2).
  cbn [fmap list_fmap]. rewrite N0, N1, N2, N3.
  rewrite (wrap_small 32 (of_bytes _)) by (rewrite fits32_iff; cbn [of_bytes]; lia).
  rewrite add_nibbles, sum_of_bytes by lia. cbn [of_bytes].
  change 32 with (8 + (8 + (8 + (8 + 0)))). rewrite !set_bits_join by (done || lia).
  rewrite S0, S1, S2, S3. unfold set_bits. rewrite Zsum_0. lia.
Qed.

Lemma halves x : fits 64 x ->
  fits 32 (u32 x) /\ fits 32 (x ≫ 32) /\ u32 (x ≫ 32) = x ≫ 32 /\
  forall i, 0 <= i -> Z.testbit x i = if decide (i < 32) then Z.testbit (u32 x) i else Z.testbit (x ≫ 32) (i - 32).
Proof.
  intros Hx. destruct (half_high x Hx) as [Hf Heq]. split_and!; [by apply fits_wrap|done|done|].
  intros i Hi. destruct (decide (i < 32)).
  - unfold wrap. by rewrite Z.mod_pow2_bits_low.
  - rewrite Z.shiftr_spec by lia. f_equal. lia.
Qed.

Lemma set_bits_halves x : fits 64 x -> set_bits 64 x = set_bits 32 (u32 x) + set_bits 32 (x ≫ 32).
Proof.
  intros Hx. destruct (halves x Hx) as (_ & _ & _ & Hbit). unfold set_bits.
  change 64 with (32 + 32). rewrite Zsum_add by done. f_equal; apply Zsum_ext; intros i Hi.
  - by rewrite Hbit, decide_True by lia.
  - rewrite Hbit, decide_False by lia. do 2 f_equal. lia.
Qed.

Lemma set_bits_bound w x : 0 <= w -> 0 <= set_bits w x <= w.
Proof.
  intros Hw. unfold set_bits.
  pose proof (Zsum_range w (fun i => Z.b2z (Z.testbit x i)) 0 1 Hw) as Hr.
  assert (w * 0 <= Zsum w (fun i => Z.b2z (Z.testbit x i)) <= w * 1); [|lia].
  apply Hr. intros i _. by destruct (Z.testbit x i).
Qed.

(** C38. The bit counts written in C are exact for every value of their width:
    leading zeros against the binary logarithm, trailing zeros against the
    position of the lowest set bit, the population count against the number of
    set bits, in 32 and in 64 bits, 0 included. *)
Theorem bit_counts_exact x :
  (fits 32 x -> CLZ32 x = leading_zeros 32 x /\ trailing_zeros 32 x (CTZ32 x) /\
                POPCOUNT32 x = set_bits 32 x) /\
  (fits 64 x -> CLZ64 x = leading_zeros 64 x /\ trailing_zeros 64 x (CTZ64 x) /\
                POPCOUNT64 x = set_bits 64 x).
Proof.
  split; intros Hx; split_and!.
  - by apply clz32_fallback_exact.
  - apply ctz_exact; [lia|done|apply clz32_fallback_exact].
  - by apply popcount32_fallback_exact.
  - by apply CLZ64_exact.
  - apply ctz_exact; [lia|done|apply CLZ64_exact].
  - destruct (halves x Hx) as (Hlo & Hhi & Heq & _). unfold POPCOUNT64, POPCOUNT32.
    rewrite Heq, !popcount32_fallback_exact, set_bits_halves by done.
    pose proof (set_bits_bound 32 (u32 x) ltac:(lia)). pose proof (set_bits_bound 32 (x ≫ 32) ltac:(lia)).
    apply wrap_small. rewrite fits32_iff. lia.
Qed.

(** The MSVC branch over intrinsics that find the highest and the lowest set
    bit of a 32-bit value computes the same counts. *)
Lemma msvc_clz64 (BitScanReverse : Z -> option Z) x :
  (forall y, fits 32 y -> BitScanReverse y = if y =? 0 then None else Some (Z.log2 y)) ->
  fits 64 x -> clz64 BitScanReverse x = CLZ64 x.
Proof.
  intros Hscan Hx. destruct (halves x Hx) as (Hlo & Hhi & Heq & _).
  unfold clz64, CLZ64, CLZ32. rewrite Heq, !Hscan, !clz32_fallback_exact by done. unfold leading_zeros.
  destruct (Z.eqb_spec (x ≫ 32) 0); cbn [negb].
  - destruct (Z.eqb_spec (u32 x) 0); [done|].
    assert (Z.log2 (u32 x) < 32) by (apply Z.log2_lt_pow2; unfold fits in *; lia).
    pose proof (Z.log2_nonneg (u32 x)). f_equal. lia.
  - assert (Z.log2 (x ≫ 32) < 32) by (apply Z.log2_lt_pow2; unfold fits in *; lia).
    pose proof (Z.log2_nonneg (x ≫ 32)). apply wrap_small. rewrite fits32_iff. lia.
Qed.

Lemma trailing_zeros_unique w x k k' : trailing_zeros w x k -> trailing_zeros w x k' -> k = k'.
Proof.
  unfold trailing_zeros. destruct (x =? 0); [congruence|]. intros (Hk & Ht & Hl) (Hk' & Ht' & Hl').
  destruct (Z.lt_trichotomy k k') as [H|[H|H]]; [|done|]; [rewrite Hl' in Ht by lia|rewrite Hl in Ht' by lia]; done.
Qed.

Lemma trailing_zeros_below w x k : 0 <= w -> fits w x -> trailing_zeros w x k -> 0 <= k <= w.
Proof.
  unfold trailing_zeros. destruct (x =? 0); [lia|]. intros Hw Hx (Hk & Ht & _).
  destruct (Z.le_gt_cases k w); [lia|]. by rewrite (fits_testbit w) in Ht by (done || lia).
Qed.

(** With built-ins that count what the manual of the compiler says, the branch
    that gcc and clang take and the plain C one compute the same counts. *)
Lemma gnu_counts (clz ctz clzll ctzll : Z -> Z) x :
  (forall y, fits 32 y -> y <> 0 -> clz y = leading_zeros 32 y /\ trailing_zeros 32 y (ctz y)) ->
  (forall y, fits 64 y -> y <> 0 -> clzll y = leading_zeros 64 y /\ trailing_zeros 64 y (ctzll y)) ->
  (fits 32 x -> gnu_CLZ32 clz x = CLZ32 x /\ gnu_CTZ32 ctz x = CTZ32 x) /\
  (fits 64 x -> gnu_CLZ64 clzll x = CLZ64 x /\ gnu_CTZ64 ctzll x = CTZ64 x).
Proof.
  assert (Hall : forall w (b c lead trail : Z -> Z), w = 32 \/ w = 64 ->
    (forall y, fits w y -> y <> 0 -> b y = leading_zeros w y /\ trailing_zeros w y (c y)) ->
    fits w x -> lead x = leading_zeros w x -> trailing_zeros w x (trail x) ->
    (if negb (x =? 0) then u32 (b x) else w) = lead x /\ (if negb (x =? 0) then u32 (c x) else w) = trail x).
  { intros w b c lead trail Hw Hlaw Hx Hl Ht. destruct (Z.eqb_spec x 0) as [->|Hx0]; cbn [negb].
    - split; [by rewrite Hl|by apply (trailing_zeros_unique w 0)].
    - destruct (Hlaw x Hx Hx0) as [-> Hc].
      assert (Hb : 0 <= leading_zeros w x <= w).
      { unfold leading_zeros. rewrite (proj2 (Z.eqb_neq x 0)) by done. pose proof (Z.log2_nonneg x).
        assert (Z.log2 x < w) by (apply Z.log2_lt_pow2; unfold fits in Hx; lia). lia. }
      pose proof (trailing_zeros_below w x _ ltac:(lia) Hx Hc).
      rewrite !wrap_small by (rewrite fits32_iff; lia). split; [done|by apply (trailing_zeros_unique w x)]. }
  intros H32 H64. split; intros Hx.
  - apply (Hall 32 clz ctz CLZ32 CTZ32); try done; [by left|by apply clz32_fallback_exact|].
    apply ctz_exact; [lia|done|apply clz32_fallback_exact].
  - apply (Hall 64 clzll ctzll CLZ64 CTZ64); try done; [by right|by apply CLZ64_exact|].
    apply ctz_exact; [lia|done|apply CLZ64_exact].
Qed.

(** ** Rotations *)

(** Bit [i] of [x] is bit [i + r] of [y], around the word. *)
Definition rotated (w r x y : Z) : Prop :=
  fits w y /\ forall i, 0 <= i < w -> Z.testbit y ((i + r) mod w) = Z.testbit x i.

Lemma rot_bits w r x i :
  0 < r < w -> fits w x -> 0 <= i < w ->
  Z.testbit (Z.lor (wrap w (x ≪ r)) (x ≫ (w - r))) i =
  if decide (i < r) then Z.testbit x (i + (w - r)) else Z.testbit x (i - r).
Proof.
  intros Hr Hx Hi. unfold wrap. rewrite Z.lor_spec, Z.mod_pow2_bits_low by lia.
  rewrite Z.shiftl_spec, Z.shiftr_spec by lia. destruct (decide (i < r)).
  - by rewrite (Z.testbit_neg_r x (i - r)) by lia.
  - rewrite (fits_testbit w x (i + (w - r))) by (done || lia). apply orb_false_r.
Qed.

Lemma rot_fits w r x : 0 < r < w -> fits w x -> fits w (Z.lor (wrap w (x ≪ r)) (x ≫ (w - r))).
Proof.
  intros Hr Hx. apply fits_lor; [lia|apply fits_wrap; lia|].
  unfold fits in *. rewrite Z.shiftr_div_pow2 by lia.
  assert (0 < 2 ^ (w - r)) by (apply Z.pow_pos_nonneg; lia).
  split; [apply Z.div_pos; lia|]. apply Z.div_lt_upper_bound; nia.
Qed.

Lemma rot_rotated w r x : 0 < r < w -> fits w x -> rotated w r x (Z.lor (wrap w (x ≪ r)) (x ≫ (w - r))).
Proof.
  intros Hr Hx. split; [by apply rot_fits|]. intros i Hi.
  rewrite rot_bits by (done || apply Z.mod_pos_bound; lia).
  destruct (decide (i + r < w)).
  - rewrite Z.mod_small by lia. rewrite decide_False by lia. f_equal. lia.
  - replace (i + r) with (i + r - w + 1 * w) by lia.
    rewrite Z.mod_add, Z.mod_small by lia. rewrite decide_True by lia. f_equal. lia.
Qed.

(** Rotating by [r] and by [w - r] undo each other. *)
Lemma rot_back w r x :
  0 < r < w -> fits w x ->
  let y := Z.lor (wrap w (x ≪ r)) (x ≫ (w - r)) in Z.lor (wrap w (y ≪ (w - r))) (y ≫ r) = x.
Proof.
  intros Hr Hx y. assert (Hy : fits w y) by by apply rot_fits. apply Z.bits_inj'. intros i Hi.
  replace r with (w - (w - r)) at 2 by lia.
  destruct (decide (i < w)).
  - rewrite rot_bits by (done || lia). destruct (decide (i < w - r)); unfold y.
    + rewrite rot_bits, decide_False by (done || lia). f_equal. lia.
    + rewrite rot_bits, decide_True by (done || lia). f_equal. lia.
  - rewrite !(fits_testbit w) by (done || lia || apply rot_fits; done || lia). done.
Qed.

Lemma shl_ok w x n : 0 <= n < w -> shl w x n = Ok (wrap w (x ≪ n)).
Proof. intros. unfold shl. by rewrite decide_True. Qed.
Lemma shr_ok w x n : 0 <= n < w -> shr w x n = Ok (x ≫ n).
Proof. intros. unfold shr. by rewrite decide_True. Qed.

Lemma rot_amount w r : 0 < r < w -> w <= 64 -> u32 (w - r) = w - r.
Proof. intros. apply wrap_small. rewrite fits32_iff. lia. Qed.

(** For a rotation count strictly between 0 and the width, the rotations
    move every bit around the word and undo each other. A count of 0, and any
    count from the width on, is undefined behaviour: the complementary shift
    has the width of the type. *)
Theorem rotations x r :
  (fits 32 x -> 0 < r < 32 ->
     exists y, ROTL32 x r = Ok y /\ rotated 32 r x y /\ ROTR32 y r = Ok x) /\
  (fits 64 x -> 0 < r < 64 ->
     exists y, ROTL64 x r = Ok y /\ rotated 64 r x y /\ ROTR64 y r = Ok x) /\
  (r = 0 \/ 32 <= r -> ROTL32 x r = UB BadShift /\ ROTR32 x r = UB BadShift) /\
  (r = 0 \/ 64 <= r -> ROTL64 x r = UB BadShift /\ ROTR64 x r = UB BadShift).
Proof.
  assert (Hlor : forall a b, Z.lor a b = Z.lor b a) by (intros; apply Z.lor_comm).
  unfold ROTL32, ROTR32, ROTL64, ROTR64. split_and!.
  - intros Hx Hr. rewrite rot_amount, (wrap_small 32 x), shl_ok, shr_ok by (done || lia).
    eexists. split; [done|]. split; [by apply rot_rotated|].
    rewrite wrap_small by (by apply rot_fits). rewrite shr_ok, shl_ok by lia.
    cbn [mbind res_bind]. unfold mret, res_ret. by rewrite Hlor, (rot_back 32 r x).
  - intros Hx Hr. rewrite rot_amount, (wrap_small 64 x), shl_ok, shr_ok by (done || lia).
    eexists. split; [done|]. split; [by apply rot_rotated|].
    rewrite wrap_small by (by apply rot_fits). rewrite shr_ok, shl_ok by lia.
    cbn [mbind res_bind]. unfold mret, res_ret. by rewrite Hlor, (rot_back 64 r x).
  - intros [->|Hr]; [done|]. unfold shl, shr. by rewrite !(decide_False (P := 0 <= r < 32)) by lia.
  - intros [->|Hr]; [done|]. unfold shl, shr. by rewrite !(decide_False (P := 0 <= r < 64)) by lia.
Qed.

(** ** Byte swap *)

Lemma of_bytes_app a b : of_bytes (a ++ b) = of_bytes a + of_bytes b * 2 ^ (8 * Z.of_nat (length a)).
Proof.
  induction a as [|x a IH]; [simpl; lia|]. cbn [app of_bytes length]. rewrite IH.
  replace (8 * Z.of_nat (S (length a))) with (8 + 8 * Z.of_nat (length a)) by lia.
  rewrite Z.pow_add_r by lia. change (2 ^ 8) with 256. lia.
Qed.

Lemma of_bytes_fits bs : Forall is_byte bs -> fits (8 * Z.of_nat (length bs)) (of_bytes bs).
Proof.
  unfold fits. induction 1 as [|b bs Hb _ IH]; [done|]. cbn [of_bytes length].
  replace (8 * Z.of_nat (S (length bs))) with (8 + 8 * Z.of_nat (length bs)) by lia.
  rewrite Z.pow_add_r by lia. change (2 ^ 8) with 256. unfold is_byte in Hb. words. lia.
Qed.

(** A mask of one byte cuts that byte out. *)
Lemma byte_field a n : 0 <= n -> Z.land a (255 ≪ n) = (wrap 8 (a ≫ n)) * 2 ^ n.
Proof.
  intros Hn. rewrite <- Z.shiftl_mul_pow2 by done. apply Z.bits_inj'. intros i Hi.
  rewrite Z.land_spec, !Z.shiftl_spec by done. destruct (decide (i < n)).
  - rewrite !(Z.testbit_neg_r _ (i - n)) by lia. apply andb_false_r.
  - rewrite <- (land_mask 8) by done. change (2 ^ 8 - 1) with 255.
    rewrite Z.land_spec, Z.shiftr_spec by lia. do 2 f_equal. lia.
Qed.

Lemma lor_add_field k a b : 0 <= k -> fits k a -> (exists c, b = c * 2 ^ k) -> Z.lor a b = a + b.
Proof. intros Hk Ha [c ->]. by rewrite <- Z.shiftl_mul_pow2, lor_shiftl_add, Z.shiftl_mul_pow2 by done. Qed.

Lemma shiftr_bytes a b : Forall is_byte a -> of_bytes (a ++ b) ≫ (8 * Z.of_nat (length a)) = of_bytes b.
Proof.
  intros Ha. rewrite of_bytes_app, Z.shiftr_div_pow2, Z.div_add by lia.
  rewrite Z.div_small by (by apply of_bytes_fits). lia.
Qed.

Lemma wrap_bytes a b : Forall is_byte a -> wrap (8 * Z.of_nat (length a)) (of_bytes (a ++ b)) = of_bytes a.
Proof.
  intros Ha. rewrite of_bytes_app. unfold wrap. rewrite Z.mod_add by (apply Z.pow_nonzero; lia).
  apply Z.mod_small. by apply of_bytes_fits.
Qed.

Lemma shiftl_bytes n bs : bs <> [] -> of_bytes bs ≪ (8 * Z.of_nat n) = of_bytes (replicate n 0 ++ bs).
Proof.
  intros _. rewrite of_bytes_app, length_replicate, Z.shiftl_mul_pow2 by lia.
  assert (Hz : of_bytes (replicate n 0) = 0) by (induction n as [|n IH]; [done|]; simpl; lia). lia.
Qed.

Ltac bytes := by repeat apply Forall_cons_2.

Lemma byte_wrap b : is_byte b -> wrap 8 (of_bytes [b]) = b.
Proof. intros Hb. cbn [of_bytes]. rewrite wrap_small; [lia|]. by rewrite Z.add_0_r. Qed.

Lemma BSWAP16_bytes b0 b1 :
  is_byte b0 -> is_byte b1 -> BSWAP16 (of_bytes [b0; b1]) = of_bytes [b1; b0].
Proof.
  intros H0 H1. unfold BSWAP16.
  assert (Hhi : of_bytes [b0; b1] ≫ 8 = of_bytes [b1]) by (apply (shiftr_bytes [b0] [b1]); bytes).
  assert (Hlo : of_bytes [b0; b1] ≪ 8 = of_bytes [0; b0; b1]) by (by apply (shiftl_bytes 1 [b0; b1])).
  rewrite Hhi, Hlo, (lor_add_field 8).
  - replace (of_bytes [b1] + of_bytes [0; b0; b1]) with (of_bytes ([b1; b0] ++ [b1]))
      by (cbn [app of_bytes]; lia).
    apply (wrap_bytes [b1; b0]). bytes.
  - done.
  - apply (of_bytes_fits [b1]). bytes.
  - exists (of_bytes [b0; b1]). cbn [of_bytes]. lia.
Qed.

Lemma BSWAP32_bytes b0 b1 b2 b3 :
  is_byte b0 -> is_byte b1 -> is_byte b2 -> is_byte b3 ->
  BSWAP32 (of_bytes [b0; b1; b2; b3]) = of_bytes [b3; b2; b1; b0].
Proof.
  intros H0 H1 H2 H3. set (x := of_bytes [b0; b1; b2; b3]). assert (Hz : is_byte 0) by done.
  assert (E3 : x ≫ 24 = of_bytes [b3]) by (apply (shiftr_bytes [b0; b1; b2] [b3]); bytes).
  assert (E2 : Z.land (x ≫ 8) 0xFF00 = b2 * 2 ^ 8).
  { change 0xFF00 with (255 ≪ 8). rewrite byte_field, Z.shiftr_shiftr by done. f_equal.
    change (8 + 8) with (8 * Z.of_nat (length [b0; b1])).
    unfold x. change [b0; b1; b2; b3] with ([b0; b1] ++ [b2; b3]). rewrite shiftr_bytes by bytes.
    change 8 with (8 * Z.of_nat (length [b2])). change [b2; b3] with ([b2] ++ [b3]).
    rewrite wrap_bytes by bytes. cbn [of_bytes]. lia. }
  assert (E1 : Z.land (u32 (x ≪ 8)) 0xFF0000 = b1 * 2 ^ 16).
  { change 0xFF0000 with (255 ≪ 16). rewrite byte_field by done. f_equal.
    assert (Hs : u32 (x ≪ 8) = of_bytes ([0; b0] ++ [b1; b2])).
    { unfold x. rewrite (shiftl_bytes 1) by done. apply (wrap_bytes [0; b0; b1; b2] [b3]). bytes. }
    rewrite Hs. change 16 with (8 * Z.of_nat (length [0; b0])). rewrite shiftr_bytes by bytes.
    change 8 with (8 * Z.of_nat (length [b1])). change [b1; b2] with ([b1] ++ [b2]).
    rewrite wrap_bytes by bytes. cbn [of_bytes]. lia. }
  assert (E0 : u32 (x ≪ 24) = b0 * 2 ^ 24).
  { assert (Hs : u32 (x ≪ 24) = of_bytes [0; 0; 0; b0]).
    { unfold x. rewrite (shiftl_bytes 3) by done. apply (wrap_bytes [0; 0; 0; b0] [b1; b2; b3]). bytes. }
    rewrite Hs. cbn [of_bytes]. lia. }
  unfold BSWAP32. rewrite E3, E2, E1, E0. unfold is_byte in *. words. cbn [of_bytes].
  rewrite (lor_add_field 8 _ (b2 * 2 ^ 8)) by (done || (unfold fits; lia) || by eexists).
  rewrite (lor_add_field 16 _ (b1 * 2 ^ 16)) by (done || (unfold fits; lia) || by eexists).
  rewrite (lor_add_field 24 _ (b0 * 2 ^ 24)) by (done || (unfold fits; lia) || by eexists).
  rewrite wrap_small; [lia|]. rewrite fits32_iff. lia.
Qed.

Lemma BSWAP32_list bs :
  length bs = 4%nat -> Forall is_byte bs -> BSWAP32 (of_bytes bs) = of_bytes (rev bs).
Proof.
  intros Hlen Hbs. destruct bs as [|b0 [|b1 [|b2 [|b3 [|]]]]]; try done.
  repeat match goal with H : Forall is_byte (_ :: _) |- _ => apply Forall_cons_1 in H as [? ?] end.
  by apply BSWAP32_bytes.
Qed.

Lemma BSWAP64_bytes lo hi :
  length lo = 4%nat -> length hi = 4%nat -> Forall is_byte lo -> Forall is_byte hi ->
  BSWAP64 (of_bytes (lo ++ hi)) = of_bytes (rev hi ++ rev lo).
Proof.
  intros Hl Hh Hlo Hhi. unfold BSWAP64.
  assert (Elo : u32 (of_bytes (lo ++ hi)) = of_bytes lo).
  { change 32 with (8 * Z.of_nat 4). rewrite <- Hl. by apply wrap_bytes. }
  assert (Ehi : u32 (of_bytes (lo ++ hi) ≫ 32) = of_bytes hi).
  { change (of_bytes (lo ++ hi) ≫ 32) with (of_bytes (lo ++ hi) ≫ (8 * Z.of_nat 4)).
    rewrite <- Hl, shiftr_bytes by done. apply wrap_small.
    change 32 with (8 * Z.of_nat 4). rewrite <- Hh. by apply of_bytes_fits. }
  rewrite Elo, Ehi.
  rewrite !BSWAP32_list by done.
  assert (Hr : forall l : list Z, length l = 4%nat -> Forall is_byte l -> fits 32 (of_bytes (rev l))).
  { intros l Hlen Hl4. change 32 with (8 * Z.of_nat 4). rewrite <- Hlen, <- length_rev.
    apply of_bytes_fits. by apply Forall_rev. }
  rewrite (wrap_small 64).
  2:{ rewrite Z.shiftl_mul_pow2 by done. pose proof (Hr lo Hl Hlo). unfold fits in *. lia. }
  rewrite Z.lor_comm, lor_shiftl_add by (done || by apply Hr).
  rewrite of_bytes_app, length_rev, Hh. lia.
Qed.

(** The byte swaps reverse the bytes of a word, of two, four and eight
    bytes, so that swapping twice gives the word back. *)
Theorem bswap_reverses bs :
  Forall is_byte bs ->
  (length bs = 2%nat -> BSWAP16 (of_bytes bs) = of_bytes (rev bs) /\ BSWAP16 (BSWAP16 (of_bytes bs)) = of_bytes bs) /\
  (length bs = 4%nat -> BSWAP32 (of_bytes bs) = of_bytes (rev bs) /\ BSWAP32 (BSWAP32 (of_bytes bs)) = of_bytes bs) /\
  (length bs = 8%nat -> BSWAP64 (of_bytes bs) = of_bytes (rev bs) /\ BSWAP64 (BSWAP64 (of_bytes bs)) = of_bytes bs).
Proof.
  intros Hbs. assert (Hrev : Forall is_byte (rev bs)) by by apply Forall_rev.
  split_and!; intros Hlen.
  - destruct bs as [|b0 [|b1 [|]]]; try done.
    repeat match goal with H : Forall is_byte (_ :: _) |- _ => apply Forall_cons_1 in H as [? ?] end.
    change (rev [b0; b1]) with [b1; b0]. by rewrite !BSWAP16_bytes.
  - rewrite !BSWAP32_list by (done || by rewrite length_rev). by rewrite rev_involutive.
  - assert (Hd : length (drop 4 bs) = 4%nat) by (by rewrite length_drop, Hlen).
    assert (Ht : length (take 4 bs) = 4%nat) by (by rewrite length_take, Hlen).
    assert (H64 : BSWAP64 (of_bytes bs) = of_bytes (rev bs)).
    { rewrite <- (take_drop 4 bs) at 1. rewrite BSWAP64_bytes by (done || by apply Forall_take, Hbs || by apply Forall_drop, Hbs).
      by rewrite <- rev_app_distr, take_drop. }
    split; [done|]. rewrite H64. rewrite <- (take_drop 4 (rev bs)).
    rewrite BSWAP64_bytes; [|by rewrite length_take, length_rev, Hlen|by rewrite length_drop, length_rev, Hlen
                            |by apply Forall_take|by apply Forall_drop].
    by rewrite <- rev_app_distr, take_drop, rev_involutive.
Qed.

(** ** Alignment *)

Lemma lnot_bits w m i : fits w m -> 0 <= i < w -> Z.testbit (lnot w m) i = negb (Z.testbit m i).
Proof.
  intros Hm Hi. unfold lnot. replace (2 ^ w - 1 - m) with (Z.ldiff (Z.ones w) m).
  - rewrite Z.ldiff_spec, Z.testbit_ones_nonneg by lia. by rewrite (proj2 (Z.ltb_lt i w)) by lia.
  - rewrite <- Z.sub_nocarry_ldiff; [rewrite Z.ones_equiv; lia|].
    apply Z.bits_inj'. intros j Hj. rewrite Z.ldiff_spec, Z.bits_0, Z.testbit_ones_nonneg by lia.
    destruct (Z.ltb_spec j w); [by rewrite andb_false_r|]. by rewrite (fits_testbit w m) by (done || lia).
Qed.

Lemma land_lnot w x m : 0 <= w -> fits w x -> fits w m -> Z.land x (lnot w m) = Z.ldiff x m.
Proof.
  intros Hw Hx Hm. apply Z.bits_inj'. intros i Hi. rewrite Z.land_spec, Z.ldiff_spec.
  destruct (decide (i < w)); [by rewrite lnot_bits by done|].
  by rewrite (fits_testbit w x) by (done || lia).
Qed.

(** Clearing the bits below [2^k]. *)
Lemma align_mask w x k : 0 <= k < w -> fits w x ->
  wrap w (2 ^ k - 1) = 2 ^ k - 1 /\ Z.land x (lnot w (2 ^ k - 1)) = x - x mod 2 ^ k.
Proof.
  intros Hk Hx. assert (Hp : 0 < 2 ^ k) by (apply Z.pow_pos_nonneg; lia).
  assert (2 ^ k < 2 ^ w) by (apply Z.pow_lt_mono_r; lia).
  assert (Hm : fits w (2 ^ k - 1)) by (unfold fits; lia).
  split; [by apply wrap_small|]. rewrite land_lnot by (done || lia).
  replace (2 ^ k - 1) with (Z.ones k) by (rewrite Z.ones_equiv; lia).
  rewrite Z.ldiff_ones_r, Z.shiftl_mul_pow2, Z.shiftr_div_pow2 by lia.
  pose proof (Z.div_mod x (2 ^ k)). lia.
Qed.

(** [x - 1] clears the lowest set bit of [x] and sets those below. *)
Lemma clear_lowest k m :
  0 <= k -> 0 <= m ->
  Z.land ((2 * m + 1) * 2 ^ k) ((2 * m + 1) * 2 ^ k - 1) = m * 2 ^ (k + 1).
Proof.
  intros Hk Hm. assert (0 < 2 ^ k) by (apply Z.pow_pos_nonneg; lia).
  assert (Hpred : (2 * m + 1) * 2 ^ k - 1 = Z.lor (Z.ones k) (Z.shiftl (2 * m) k)).
  { rewrite lor_shiftl_add; rewrite ?Z.ones_equiv; unfold fits; lia. }
  rewrite Hpred. apply Z.bits_inj'. intros i Hi.
  rewrite Z.land_spec, odd_part_bits, Z.lor_spec, Z.testbit_ones_nonneg, Z.shiftl_spec by done.
  destruct (decide (i < k)); [by rewrite Z.mul_pow2_bits_low by lia|].
  rewrite (proj2 (Z.ltb_ge i k)) by lia. cbn [orb]. destruct (decide (i = k)) as [->|].
  - rewrite Z.sub_diag, Z.testbit_even_0, Z.mul_pow2_bits_low by lia. done.
  - rewrite Z.mul_pow2_bits by lia. assert (Hsucc : i - k = Z.succ (i - k - 1)) by lia.
    replace (i - (k + 1)) with (i - k - 1) by lia. set (j := i - k - 1) in *. rewrite Hsucc.
    rewrite Z.testbit_even_succ by lia. apply andb_diag.
Qed.

(** For an alignment that is a power of two: [ALIGN_DOWN] is the greatest
    multiple not above the value; [ALIGN_UP] is the least multiple not below
    it when [val + align - 1] fits the type and 0 otherwise, so a value too
    close to the end of the range is aligned to 0 rather than rejected;
    [IS_ALIGNED] says whether the value is a multiple; [IS_POWER_OF_2]
    recognises exactly the powers of two. *)
Theorem alignment w k val :
  0 <= k < w -> fits w val ->
  let align := 2 ^ k in
  (ALIGN_DOWN w val align = align * (val / align)) /\
  (ALIGN_UP w val align =
     if val + align - 1 <? 2 ^ w then align * ((val + align - 1) / align) else 0) /\
  (IS_ALIGNED w val align = true <-> (align | val)) /\
  (IS_POWER_OF_2 w val = true <-> exists j, 0 <= j < w /\ val = 2 ^ j).
Proof.
  intros Hk Hval align. assert (Hp : 0 < align) by (apply Z.pow_pos_nonneg; lia).
  assert (Hlt : align < 2 ^ w) by (apply Z.pow_lt_mono_r; lia).
  destruct (align_mask w val k Hk Hval) as [Hm Hdown]. fold align in Hm, Hdown. split_and!.
  - unfold ALIGN_DOWN. rewrite Hm, Hdown. pose proof (Z.div_mod val align). lia.
  - unfold ALIGN_UP. rewrite Hm. set (s := wrap w (wrap w (val + align) - 1)).
    assert (Hs : fits w s) by (apply fits_wrap; lia).
    destruct (align_mask w s k Hk Hs) as [_ Hup]. fold align in Hup. rewrite Hup.
    assert (Hs' : s = wrap w (val + align - 1)).
    { unfold s, wrap. rewrite <- (Zminus_mod_idemp_l (val + align)). done. }
    rewrite Hs'. unfold fits in Hval. destruct (Z.ltb_spec (val + align - 1) (2 ^ w)).
    + rewrite wrap_small by (unfold fits; lia). pose proof (Z.div_mod (val + align - 1) align). lia.
    + unfold wrap. replace (val + align - 1) with (val + align - 1 - 2 ^ w + 1 * 2 ^ w) by lia.
      rewrite Z.mod_add, (Z.mod_small _ (2 ^ w)), Z.mod_small by lia. lia.
  - unfold IS_ALIGNED. rewrite Hm, Z.eqb_eq.
    replace (align - 1) with (Z.ones k) by (unfold align; rewrite Z.ones_equiv; lia).
    rewrite Z.land_ones by lia. fold align. apply Z.mod_divide. lia.
  - unfold IS_POWER_OF_2. rewrite andb_true_iff, negb_true_iff, Z.eqb_neq, Z.eqb_eq. split.
    + intros [Hnz Hland]. destruct (odd_part val) as (j & m & Hj & Hmm & ->); [unfold fits in Hval; lia|].
      rewrite wrap_small in Hland by (unfold fits in *; lia). rewrite clear_lowest in Hland by done.
      assert (0 < 2 ^ (j + 1)) by (apply Z.pow_pos_nonneg; lia). assert (m = 0) as -> by nia.
      exists j. split; [|lia]. split; [done|].
      destruct (Z.lt_ge_cases j w); [done|]. unfold fits in Hval.
      assert (2 ^ w <= 2 ^ j) by (apply Z.pow_le_mono_r; lia). lia.
    + intros (j & Hj & ->). assert (0 < 2 ^ j) by (apply Z.pow_pos_nonneg; lia). split; [lia|].
      rewrite wrap_small by (unfold fits in *; lia).
      assert (Hc := clear_lowest j 0 ltac:(lia) ltac:(lia)).
      by replace ((2 * 0 + 1) * 2 ^ j) with (2 ^ j) in Hc by lia.
Qed.

(** ** Single bits *)

(** The bit macros touch the named bit only, on 64 bits; a bit number from 64
    on is undefined. *)
Lemma bit_macros val n :
  fits 64 val -> 0 <= n < 64 ->
  exists s c t, BIT_SET val n = Ok s /\ BIT_CLEAR val n = Ok c /\ BIT_TOGGLE val n = Ok t /\
    BIT_CHECK val n = Ok (Z.b2z (Z.testbit val n)) /\
    forall i, 0 <= i ->
      Z.testbit s i = (if decide (i = n) then true else Z.testbit val i) /\
      Z.testbit c i = (if decide (i = n) then false else Z.testbit val i) /\
      Z.testbit t i = (if decide (i = n) then negb (Z.testbit val i) else Z.testbit val i).
Proof.
  intros Hval Hn.
  assert (Hpow : 0 < 2 ^ n < 2 ^ 64) by (split; [apply Z.pow_pos_nonneg; lia|apply Z.pow_lt_mono_r; lia]).
  assert (Hbit : BIT n = Ok (2 ^ n)).
  { unfold BIT, shl64. rewrite decide_True, Z.shiftl_1_l by done. f_equal. apply wrap_small. unfold fits. lia. }
  unfold BIT_SET, BIT_CLEAR, BIT_TOGGLE, BIT_CHECK. rewrite Hbit. cbn [mbind res_bind].
  eexists _, _, _. split_and!; [done|done|done| |].
  - unfold mret, res_ret. do 2 f_equal. destruct (Z.testbit val n) eqn:Hb.
    + apply negb_true_iff, Z.eqb_neq. intros H0.
      assert (Hx : Z.testbit (Z.land val (2 ^ n)) n = true) by (by rewrite Z.land_spec, Z.pow2_bits_true, Hb by lia).
      by rewrite H0, Z.bits_0 in Hx.
    + apply negb_false_iff, Z.eqb_eq. apply Z.bits_inj'. intros i Hi.
      rewrite Z.land_spec, Z.pow2_bits_eqb, Z.bits_0 by lia.
      destruct (Z.eqb_spec n i) as [<-|]; [by rewrite Hb|apply andb_false_r].
  - intros i Hi. rewrite land_lnot by (done || (unfold fits; lia)).
    rewrite Z.lor_spec, Z.ldiff_spec, Z.lxor_spec, !Z.pow2_bits_eqb by lia.
    destruct (decide (i = n)) as [->|].
    + rewrite Z.eqb_refl. by destruct (Z.testbit val n).
    + rewrite (proj2 (Z.eqb_neq n i)) by lia. by destruct (Z.testbit val i).
Qed.

(** ** Witnesses *)

Theorem bit_counts_exact_witness :
  CLZ32 0x00012340 = 15 /\ trailing_zeros 32 0x00012340 (CTZ32 0x00012340) /\
  POPCOUNT32 0x00012340 = set_bits 32 0x00012340 /\ POPCOUNT64 0x8000000000000001 = set_bits 64 0x8000000000000001.
Proof.
  destruct (proj1 (bit_counts_exact 0x00012340) ltac:(done)) as (H1 & H2 & H3).
  destruct (proj2 (bit_counts_exact 0x8000000000000001) ltac:(done)) as (_ & _ & H4).
  split; [rewrite H1; reflexivity|done].
Defined.

Theorem rotations_witness :
  (exists y, ROTL32 0x80000001 4 = Ok y /\ rotated 32 4 0x80000001 y /\ ROTR32 y 4 = Ok 0x80000001) /\
  ROTL32 0x80000001 0 = UB BadShift.
Proof.
  split.
  - apply (rotations 0x80000001 4); done.
  - apply (rotations 0x80000001 0). by left.
Defined.

Theorem bswap_reverses_witness : BSWAP32 (of_bytes [1; 2; 3; 4]) = of_bytes [4; 3; 2; 1].
Proof.
  apply (bswap_reverses [1; 2; 3; 4]); [|done]. apply (bool_decide_unpack _). by vm_compute.
Defined.

Theorem alignment_witness : ALIGN_UP 32 100 (2 ^ 6) = 128 /\ ALIGN_UP 32 0xFFFFFFF0 (2 ^ 6) = 0.
Proof.
  split.
  - rewrite (proj1 (proj2 (alignment 32 6 100 ltac:(lia) ltac:(done)))). reflexivity.
  - rewrite (proj1 (proj2 (alignment 32 6 0xFFFFFFF0 ltac:(lia) ltac:(done)))). reflexivity.
Defined.
