(* ===== verification/Fifo.v ===== *)
(** * The hardware FIFO

    [rtl/common/fifo.sv], the storage of the command queue: a power-of-two
    memory addressed by two pointers that carry one wrap bit more than an
    index. It refines a bounded queue. *)

From S2P Require Import Prelude.
From Stdlib Require Import ZArith.Zdiv.

Open Scope Z_scope.

Section fifo.
Context {A : Type} (zero : A) (PTR_W : Z).

(** [DEPTH], required by the RTL to be [1 << PTR_W]. *)
Definition DEPTH : Z := 2 ^ PTR_W.

Record fifo := mk_fifo { mem : list A; wr_ptr : Z; rd_ptr : Z }.

(** [ptr[PTR_W-1:0]] and [ptr[PTR_W]]; pointers are [PTR_W + 1] bits wide. *)
Definition ptr_idx (p : Z) : Z := wrap PTR_W p.
Definition ptr_msb (p : Z) : bool := Z.testbit p PTR_W.

Definition full (f : fifo) : bool :=
  negb (eqb (ptr_msb (wr_ptr f)) (ptr_msb (rd_ptr f))) &&
  (ptr_idx (wr_ptr f) =? ptr_idx (rd_ptr f)).

Definition empty (f : fifo) : bool := wr_ptr f =? rd_ptr f.

Definition wr_ready (f : fifo) : bool := negb (full f).
Definition rd_valid (f : fifo) : bool := negb (empty f).

Definition rd_data (f : fifo) : A :=
  if empty f then zero else default zero (mem f !! Z.to_nat (ptr_idx (rd_ptr f))).

(** One clock edge out of reset. *)
Definition fifo_step (f : fifo) (wr_data : A) (wr_valid rd_ready : bool) : fifo :=
  let do_wr := wr_valid && wr_ready f in
  let do_rd := rd_valid f && rd_ready in
  mk_fifo
    (if do_wr then <[Z.to_nat (ptr_idx (wr_ptr f)) := wr_data]> (mem f) else mem f)
    (if do_wr then wrap (PTR_W + 1) (wr_ptr f + 1) else wr_ptr f)
    (if do_rd then wrap (PTR_W + 1) (rd_ptr f + 1) else rd_ptr f).

(** Without a push an empty queue stays as it is. *)
Lemma fifo_step_empty f d r : empty f = true -> fifo_step f d false r = f.
Proof. intros He. unfold fifo_step, rd_valid. rewrite He. by destruct f. Qed.

(** Reset clears the pointers and leaves the memory. *)
Definition fifo_reset (f : fifo) : fifo := mk_fifo (mem f) 0 0.

(** ** The queue it implements *)

Definition count (f : fifo) : Z := wrap (PTR_W + 1) (wr_ptr f - rd_ptr f).

Definition fifo_wf (f : fifo) : Prop :=
  Z.of_nat (length (mem f)) = DEPTH /\ fits (PTR_W + 1) (wr_ptr f) /\
  fits (PTR_W + 1) (rd_ptr f) /\ count f <= DEPTH.

(** Slot [i] of the queue, the oldest first. *)
Definition slot (f : fifo) (i : Z) : A :=
  default zero (mem f !! Z.to_nat (ptr_idx (rd_ptr f + i))).

Definition contents (f : fifo) : list A := slot f <$> seqZ 0 (count f).

(** The specification: a list of at most [DEPTH] elements; a push on a full
    queue and a pop of an empty one do nothing. *)
Definition queue_step (q : list A) (wr_data : A) (wr_valid rd_ready : bool) : list A :=
  let q' := if rd_ready then tail q else q in
  if wr_valid && (Z.of_nat (length q) <? DEPTH) then q' ++ [wr_data] else q'.

Hypothesis HW : 0 <= PTR_W.

Lemma DEPTH_pos : 0 < DEPTH.
Proof using HW. apply Z.pow_pos_nonneg; lia. Qed.

Lemma two_depth : 2 ^ (PTR_W + 1) = 2 * DEPTH.
Proof using HW. unfold DEPTH. rewrite Z.add_1_r, Z.pow_succ_r by done. done. Qed.

Lemma count_range f : 0 <= count f < 2 * DEPTH.
Proof using HW. rewrite <- two_depth. apply fits_wrap. lia. Qed.

(** The wrap bit: an in-range pointer is its index plus [DEPTH] when set. *)
Lemma ptr_split p : fits (PTR_W + 1) p -> p = ptr_idx p + (if ptr_msb p then DEPTH else 0).
Proof using HW.
  unfold fits. rewrite two_depth. intros [Hlo Hhi]. pose proof DEPTH_pos as HD.
  unfold ptr_idx, ptr_msb, wrap. fold DEPTH.
  rewrite Z.testbit_odd, Z.shiftr_div_pow2 by done. fold DEPTH.
  pose proof (Z.div_mod p DEPTH ltac:(lia)) as Hdm.
  assert (Hq : p / DEPTH = 0 \/ p / DEPTH = 1).
  { assert (0 <= p / DEPTH < 2); [|lia]. split; [apply Z.div_pos; lia|].
    apply Z.div_lt_upper_bound; lia. }
  destruct Hq as [Hq|Hq]; rewrite Hq in Hdm |- *;
    [change (Z.odd 0) with false|change (Z.odd 1) with true]; cbv iota; lia.
Qed.

Lemma ptr_idx_range p : 0 <= ptr_idx p < DEPTH.
Proof using HW. apply fits_wrap. done. Qed.

(** The number of stored elements from the two pointers. *)
Lemma count_cases f :
  fits (PTR_W + 1) (wr_ptr f) -> fits (PTR_W + 1) (rd_ptr f) ->
  count f = if rd_ptr f <=? wr_ptr f then wr_ptr f - rd_ptr f
            else wr_ptr f - rd_ptr f + 2 * DEPTH.
Proof using HW.
  unfold fits, count, wrap. rewrite two_depth. intros Hw Hr. pose proof DEPTH_pos.
  destruct (Z.leb_spec (rd_ptr f) (wr_ptr f)); [apply Z.mod_small; lia|].
  rewrite <- (Z.mod_add _ 1) by lia. rewrite Z.mul_1_l. apply Z.mod_small. lia.
Qed.

Lemma full_iff f : fifo_wf f -> full f = true <-> count f = DEPTH.
Proof using HW.
  intros (_ & Hw & Hr & _). rewrite count_cases by done. unfold full.
  pose proof (ptr_split _ Hw) as Hws. pose proof (ptr_split _ Hr) as Hrs.
  pose proof (ptr_idx_range (wr_ptr f)). pose proof (ptr_idx_range (rd_ptr f)).
  pose proof DEPTH_pos.
  rewrite andb_true_iff, Z.eqb_eq.
  destruct (ptr_msb (wr_ptr f)), (ptr_msb (rd_ptr f)); simpl;
    destruct (Z.leb_spec (rd_ptr f) (wr_ptr f)); intuition (try discriminate; lia).
Qed.

Lemma empty_iff f : fifo_wf f -> empty f = true <-> count f = 0.
Proof using HW.
  intros (_ & Hw & Hr & _). rewrite count_cases by done. unfold empty. rewrite Z.eqb_eq.
  unfold fits in *. rewrite two_depth in *. pose proof DEPTH_pos.
  destruct (Z.leb_spec (rd_ptr f) (wr_ptr f)); lia.
Qed.

Lemma length_contents f : Z.of_nat (length (contents f)) = count f.
Proof using HW.
  unfold contents. rewrite length_fmap, length_seqZ. pose proof (count_range f). lia.
Qed.

Lemma idx_wrap a i : ptr_idx (wrap (PTR_W + 1) a + i) = ptr_idx (a + i).
Proof using HW.
  unfold ptr_idx. pose proof (wrap_wrap_le PTR_W (PTR_W + 1) a ltac:(lia)) as Hw.
  unfold wrap in *. rewrite <- (Zplus_mod_idemp_l (a mod 2 ^ (PTR_W + 1))), Hw.
  apply Zplus_mod_idemp_l.
Qed.

Lemma idx_window r i j :
  0 <= i < DEPTH -> 0 <= j < DEPTH -> ptr_idx (r + i) = ptr_idx (r + j) -> i = j.
Proof using HW.
  unfold ptr_idx, wrap. fold DEPTH. intros Hi Hj Heq. pose proof DEPTH_pos.
  pose proof (Z.div_mod (r + i) DEPTH ltac:(lia)). pose proof (Z.div_mod (r + j) DEPTH ltac:(lia)).
  assert ((r + i) / DEPTH = (r + j) / DEPTH \/ (r + i) / DEPTH <> (r + j) / DEPTH) as [He|Hn] by lia;
    [rewrite He in *; lia|]. nia.
Qed.

Lemma wr_idx f : fits (PTR_W + 1) (wr_ptr f) -> ptr_idx (wr_ptr f) = ptr_idx (rd_ptr f + count f).
Proof using HW.
  intros Hw. unfold count. rewrite (Z.add_comm (rd_ptr f)), idx_wrap. f_equal. lia.
Qed.

(** The two halves of a clock edge. *)
Definition push (f : fifo) (x : A) : fifo :=
  mk_fifo (<[Z.to_nat (ptr_idx (wr_ptr f)) := x]> (mem f)) (wrap (PTR_W + 1) (wr_ptr f + 1)) (rd_ptr f).

Definition pop (f : fifo) : fifo := mk_fifo (mem f) (wr_ptr f) (wrap (PTR_W + 1) (rd_ptr f + 1)).

Lemma push_count f x : count f < DEPTH -> count (push f x) = count f + 1.
Proof using HW.
  intros Hc. pose proof (count_range f). unfold count, push in *. cbn [wr_ptr rd_ptr].
  unfold wrap in *. rewrite Zminus_mod_idemp_l.
  replace (wr_ptr f + 1 - rd_ptr f) with (wr_ptr f - rd_ptr f + 1) by lia.
  rewrite <- Zplus_mod_idemp_l. apply Z.mod_small. rewrite two_depth in *. lia.
Qed.

Lemma pop_count f : 0 < count f -> count (pop f) = count f - 1.
Proof using HW.
  intros Hc. pose proof (count_range f). unfold count, pop in *. cbn [wr_ptr rd_ptr].
  unfold wrap in *. rewrite Zminus_mod_idemp_r.
  replace (wr_ptr f - (rd_ptr f + 1)) with (wr_ptr f - rd_ptr f - 1) by lia.
  rewrite <- Zminus_mod_idemp_l. apply Z.mod_small. rewrite two_depth in *. lia.
Qed.

Lemma push_contents f x :
  fifo_wf f -> count f < DEPTH -> fifo_wf (push f x) /\ contents (push f x) = contents f ++ [x].
Proof using HW.
  intros (Hm & Hw & Hr & Hc) Hlt. pose proof (count_range f) as Hcr. split.
  - split_and!; simpl; [by rewrite length_insert|apply fits_wrap; lia|done|].
    rewrite push_count by done. lia.
  - unfold contents. rewrite push_count by done.
    rewrite (seqZ_app 0 (count f) 1), fmap_app by lia.
    replace (seqZ (0 + count f) 1) with [count f] by (simpl; by rewrite Z.add_0_l).
    f_equal.
    + apply list_fmap_ext. intros j i Hj. apply lookup_seqZ in Hj as [-> Hj].
      unfold slot. cbn [push mem rd_ptr]. rewrite list_lookup_insert_ne; [done|].
      rewrite wr_idx by done. intros Heq.
      pose proof (ptr_idx_range (rd_ptr f + count f)).
      pose proof (ptr_idx_range (rd_ptr f + (0 + Z.of_nat j))).
      pose proof (idx_window (rd_ptr f) (count f) (0 + Z.of_nat j)). lia.
    + cbn [fmap list_fmap]. f_equal. unfold slot. cbn [push mem rd_ptr].
      rewrite wr_idx by done. rewrite list_lookup_insert_eq; [done|].
      pose proof (ptr_idx_range (rd_ptr f + count f)). lia.
Qed.

Lemma pop_contents f :
  fifo_wf f -> 0 < count f -> fifo_wf (pop f) /\ contents f = slot f 0 :: contents (pop f).
Proof using HW.
  intros (Hm & Hw & Hr & Hc) Hlt. pose proof (count_range f) as Hcr. split.
  - split_and!; simpl; [done|done|apply fits_wrap; lia|]. rewrite pop_count by done. lia.
  - unfold contents. rewrite pop_count, (seqZ_cons 0 (count f)), fmap_cons by done. f_equal.
    apply list_eq. intros i. rewrite !list_lookup_fmap.
    destruct (decide (Z.of_nat i < count f - 1)) as [Hi|Hi].
    + rewrite !lookup_seqZ_lt by lia. simpl. f_equal. unfold slot. cbn [pop mem rd_ptr].
      rewrite idx_wrap. do 4 f_equal. lia.
    + by rewrite !lookup_seqZ_ge by lia.
Qed.

Lemma fifo_step_push_pop f x wv rr :
  fifo_step f x wv rr =
  let f1 := if wv && wr_ready f then push f x else f in
  if rd_valid f && rr then pop f1 else f1.
Proof. destruct f. unfold fifo_step. cbv zeta. by destruct (wv && wr_ready _), (rd_valid _ && rr). Qed.

Lemma fifo_refines f x wv rr :
  fifo_wf f ->
  fifo_wf (fifo_step f x wv rr) /\
  contents (fifo_step f x wv rr) = queue_step (contents f) x wv rr.
Proof using HW.
  intros Hf. pose proof Hf as (_ & _ & _ & Hc). pose proof (count_range f) as Hcr.
  rewrite fifo_step_push_pop. cbv zeta. unfold queue_step, wr_ready, rd_valid.
  rewrite length_contents.
  assert (Hfull : negb (full f) = (count f <? DEPTH)).
  { pose proof (full_iff f Hf). destruct (full f), (Z.ltb_spec (count f) DEPTH); intuition lia. }
  rewrite Hfull.
  assert (Hempty : negb (empty f) = (0 <? count f)).
  { pose proof (empty_iff f Hf). destruct (empty f), (Z.ltb_spec 0 (count f)); intuition lia. }
  rewrite Hempty.
  set (f1 := if wv && (count f <? DEPTH) then push f x else f).
  assert (Hf1 : fifo_wf f1 /\ contents f1 = contents f ++ (if wv && (count f <? DEPTH) then [x] else [])
                /\ count f <= count f1).
  { subst f1. destruct wv; simpl; [|by rewrite app_nil_r].
    destruct (Z.ltb_spec (count f) DEPTH); [|by rewrite app_nil_r].
    pose proof (push_count f x). destruct (push_contents f x); try done. split_and!; [done|done|lia]. }
  destruct Hf1 as (Hwf1 & Hcont & Hle).
  destruct (Z.ltb_spec 0 (count f)) as [Hpos|Hzero]; simpl.
  - destruct (pop_contents f Hf Hpos) as [_ Hpop]. destruct rr.
    + destruct (pop_contents f1 Hwf1) as [Hwf2 Hpop1]; [lia|]. split; [done|].
      rewrite Hpop1, Hpop in Hcont. rewrite Hpop. simpl in *.
      injection Hcont as _ ->. by destruct (wv && _); rewrite ?app_nil_r.
    + split; [done|]. rewrite Hcont. by destruct (wv && _); rewrite ?app_nil_r.
  - split; [done|]. rewrite Hcont.
    assert (contents f = []) as -> by (unfold contents; by rewrite seqZ_nil by lia).
    by destruct rr, (wv && _).
Qed.

(** The status outputs in terms of the queue. *)
Lemma rd_valid_contents f :
  fifo_wf f -> rd_valid f = match contents f with [] => false | _ => true end.
Proof using HW.
  intros Hf. pose proof (empty_iff f Hf) as He. pose proof (length_contents f) as Hl.
  pose proof (count_range f). unfold rd_valid.
  destruct (empty f), (contents f) as [|x l]; simpl in *; intuition (try discriminate; lia).
Qed.

Lemma wr_ready_contents f : fifo_wf f -> wr_ready f = (Z.of_nat (length (contents f)) <? DEPTH).
Proof using HW.
  intros Hf. pose proof (full_iff f Hf) as Hi. rewrite length_contents. unfold wr_ready.
  destruct Hf as (_ & _ & _ & Hc). destruct (full f), (Z.ltb_spec (count f) DEPTH); intuition lia.
Qed.

Lemma rd_data_contents f : fifo_wf f -> rd_data f = default zero (contents f !! 0%nat).
Proof using HW.
  intros Hf. pose proof (empty_iff f Hf) as He. pose proof (count_range f). unfold rd_data, contents.
  destruct (empty f) eqn:Hemp.
  - rewrite (proj1 He eq_refl). done.
  - assert (count f <> 0) by (intros Hz; apply He in Hz; discriminate).
    rewrite seqZ_cons by lia. simpl. unfold slot. by rewrite Z.add_0_r.
Qed.

(** C35. The pointer-based FIFO of the command queue implements a bounded queue:
    from every well-formed state, each clock edge preserves well-formedness and
    acts on the stored list as the specification (push at the back unless full,
    pop at the front unless empty, both in one cycle), and the status outputs
    and the read data are those of that list. *)
Theorem fifo_implements_queue f x wv rr :
  fifo_wf f ->
  (fifo_wf (fifo_step f x wv rr) /\
   contents (fifo_step f x wv rr) = queue_step (contents f) x wv rr) /\
  rd_valid f = match contents f with [] => false | _ => true end /\
  wr_ready f = (Z.of_nat (length (contents f)) <? DEPTH) /\
  rd_data f = default zero (contents f !! 0%nat) /\
  Z.of_nat (length (contents f)) <= DEPTH.
Proof.
  intros Hf. split_and!.
  - by apply fifo_refines.
  - by apply fifo_refines.
  - by apply rd_valid_contents.
  - by apply wr_ready_contents.
  - by apply rd_data_contents.
  - rewrite length_contents. apply Hf.
Qed.
End fifo.

Theorem fifo_implements_queue_witness :
  contents 0 2 (fifo_step 2 (mk_fifo [5; 6; 7; 8] 5 3) 9 true true) = [5; 9].
Proof.
  rewrite (proj2 (proj1 (fifo_implements_queue 0 2 ltac:(done) (mk_fifo [5; 6; 7; 8] 5 3) 9 true true
    ltac:(by apply (bool_decide_unpack _); vm_compute)))). by vm_compute.
Defined.
