(* ===== verification/ExtMem.v ===== *)
(** * The external memory behind the DMA port

    [update_ext_mem] of [tb/integration/npu_tb.h]: the memory the testbench
    puts at the external port of [npu_shell], called once per clock. *)

From S2P Require Import Prelude.
From stdpp Require Import gmap.

Open Scope Z_scope.

Record ext_mem := mk_ext_mem {
  ext_memory : gmap Z Z; ext_rd_pending : bool; ext_rd_addr_pending : Z }.

(** The memory port of the design in this cycle, and what it gets back. *)
Record ext_req := mk_ext_req {
  ext_mem_req : bool; ext_mem_wr : bool; ext_mem_addr : Z; ext_mem_wdata : Z }.
Record ext_resp := mk_ext_resp { ext_mem_gnt : bool; ext_mem_rvalid : bool; ext_mem_rdata : Z }.

(** [it != end() ? it->second : 0] *)
Definition ext_load (m : gmap Z Z) (addr : Z) : Z := default 0 (m !! addr).

(** Loads after a row of stores that agree wherever they meet. *)
Lemma load_inserts {A} (f g : A -> Z) l m i :
  i ∈ l -> (forall j, j ∈ l -> f j = f i -> g j = g i) ->
  ext_load (foldl (fun m j => <[f j := g j]> m) m l) (f i) = g i.
Proof.
  unfold ext_load. revert m. induction l as [|x l IH] using rev_ind; intros m Hi Hf; [by apply elem_of_nil in Hi|].
  rewrite foldl_app. cbn [foldl]. destruct (decide (f x = f i)) as [Heq|Hne].
  - rewrite Heq, lookup_insert_eq. apply Hf; [|done]. apply elem_of_app. right. by apply list_elem_of_singleton.
  - rewrite lookup_insert_ne by done. apply elem_of_app in Hi as [Hi|Hi%list_elem_of_singleton]; [|by subst].
    apply IH; [done|]. intros j Hj. apply Hf, elem_of_app. by left.
Qed.

Lemma load_inserts_other {A} (f g : A -> Z) l m a :
  (forall j, j ∈ l -> f j <> a) ->
  ext_load (foldl (fun m j => <[f j := g j]> m) m l) a = ext_load m a.
Proof.
  unfold ext_load. revert m. induction l as [|x l IH]; intros m Hf; [done|]. cbn [foldl]. rewrite IH.
  - rewrite lookup_insert_ne; [done|]. apply Hf. by left.
  - intros j Hj. apply Hf. by right.
Qed.

Definition update_ext_mem (m : ext_mem) (q : ext_req) : ext_mem * ext_resp :=
  let rvalid := ext_rd_pending m in
  let rdata := if ext_rd_pending m then ext_load (ext_memory m) (ext_rd_addr_pending m) else 0 in
  let m' :=
    if ext_mem_req q then
      if ext_mem_wr q
      then mk_ext_mem (<[ext_mem_addr q := ext_mem_wdata q]> (ext_memory m)) false (ext_rd_addr_pending m)
      else mk_ext_mem (ext_memory m) true (ext_mem_addr q)
    else mk_ext_mem (ext_memory m) false (ext_rd_addr_pending m) in
  (m', mk_ext_resp (ext_mem_req q) rvalid rdata).

Definition requests (m : ext_mem) (qs : list ext_req) : ext_mem :=
  foldl (fun m q => (update_ext_mem m q).1) m qs.

Definition written_by (m : gmap Z Z) (q : ext_req) : gmap Z Z :=
  if ext_mem_req q && ext_mem_wr q then <[ext_mem_addr q := ext_mem_wdata q]> m else m.

Lemma requests_memory m qs : ext_memory (requests m qs) = foldl written_by (ext_memory m) qs.
Proof.
  revert m. induction qs as [|q qs IH]; intros m; [done|]. cbn. rewrite IH. f_equal.
  unfold written_by. by destruct (ext_mem_req q), (ext_mem_wr q).
Qed.

(** Every request is granted at once; a read is answered in the next cycle,
    with the value last written to its address before it; nothing else is
    answered. *)
Theorem ext_mem_answers m qs q next :
  (update_ext_mem (requests m (qs ++ [q])) next).2 =
  mk_ext_resp (ext_mem_req next) (ext_mem_req q && negb (ext_mem_wr q))
    (if ext_mem_req q && negb (ext_mem_wr q)
     then ext_load (foldl written_by (ext_memory m) qs) (ext_mem_addr q) else 0).
Proof.
  unfold requests. rewrite foldl_app. fold (requests m qs). rewrite <- requests_memory. cbn.
  by destruct (ext_mem_req q), (ext_mem_wr q).
Qed.

