(* ===== verification/Mem.v ===== *)
(** * The on-chip buffers

    The host side of [npu_buffer_router] and the three banks behind it
    ([npu_weight_buffer], [npu_act_buffer], [npu_psum_buffer] over the SRAM
    wrappers of [src/rtl/platform]), clock by clock. The backends take part
    through their write port into the activation buffer, an input of the model;
    their read ports change no cell. Cells start at zero, as the wrappers'
    simulation body initialises them. *)

From S2P Require Import Prelude Regs.
From stdpp Require Import gmap.

Open Scope Z_scope.

(** ** Banks *)

Definition DATA_W : Z := 8.
Definition ACC_W : Z := 32.
Definition SRAM_ADDR_W : Z := 12.

Abbreviation cells := (gmap Z Z).

Definition cell (m : cells) (a : Z) : Z := default 0 (m !! a).

(** Port A of a bank: the memory, its output register, and the register that
    raises [rvalid] the cycle after an accepted host read. *)
Record bank := mk_bank { mem_cells : cells; a_rdata : Z; host_rd_r : bool }.

(** [mem_macro_1rw1r_wrap], port A: one write or one read per enabled cycle. *)
Definition macro_step (m : cells) (rdata : Z) (en we : bool) (addr wdata : Z) : cells * Z :=
  if en then if we then (<[addr := wdata]> m, rdata) else (m, cell m addr) else (m, rdata).

(** The host side of the router. *)
Record port := mk_port { p_addr : Z; p_wdata : Z; p_wr : bool; p_req : bool }.

Definition no_request : port := mk_port 0 0 false false.

Definition bank_step (b : bank) (req we : bool) (addr wdata : Z) : bank :=
  let '(m, r) := macro_step (mem_cells b) (a_rdata b) req we addr wdata in
  mk_bank m r (req && negb we).

(** npu_act_buffer: a backend write goes before the host. *)
Definition act_step (b : bank) (req we : bool) (addr wdata : Z) (be_wr : option (Z * Z)) : bank :=
  match be_wr with
  | Some (a, d) =>
      let '(m, r) := macro_step (mem_cells b) (a_rdata b) true true (wrap (SRAM_ADDR_W + 1) a) (wrap DATA_W d) in
      mk_bank m r false
  | None => bank_step b req we addr wdata
  end.

(** ** npu_buffer_router *)

Record buffers := mk_buffers { u_wt_buf : bank; u_act_buf : bank; u_psum_buf : bank }.

Definition host_sel_wt (a : Z) : bool := (rtl_region WEIGHT_BUF <=? a) && (a <? rtl_region ACT_BUF).
Definition host_sel_act (a : Z) : bool := (rtl_region ACT_BUF <=? a) && (a <? rtl_region PSUM_BUF).
Definition host_sel_psum (a : Z) : bool := rtl_region PSUM_BUF <=? a.

Definition host_gnt (p : port) (be_wr : option (Z * Z)) : bool :=
  (host_sel_wt (p_addr p) && (p_req p && host_sel_wt (p_addr p))) ||
  (host_sel_act (p_addr p) && ((p_req p && host_sel_act (p_addr p)) && negb (bool_decide (is_Some be_wr)))) ||
  (host_sel_psum (p_addr p) && (p_req p && host_sel_psum (p_addr p))).

Definition host_rvalid (b : buffers) : bool :=
  host_rd_r (u_wt_buf b) || host_rd_r (u_act_buf b) || host_rd_r (u_psum_buf b).

Definition host_rdata (b : buffers) : Z :=
  if host_rd_r (u_wt_buf b) then a_rdata (u_wt_buf b)
  else if host_rd_r (u_act_buf b) then a_rdata (u_act_buf b)
  else if host_rd_r (u_psum_buf b) then a_rdata (u_psum_buf b) else 0.

Definition buffers_step (b : buffers) (p : port) (be_wr : option (Z * Z)) : buffers :=
  let a := p_addr p in
  mk_buffers
    (bank_step (u_wt_buf b) (p_req p && host_sel_wt a) (p_wr p) (wrap SRAM_ADDR_W a) (wrap DATA_W (p_wdata p)))
    (act_step (u_act_buf b) (p_req p && host_sel_act a) (p_wr p) (wrap (SRAM_ADDR_W + 1) a)
       (wrap DATA_W (p_wdata p)) be_wr)
    (bank_step (u_psum_buf b) (p_req p && host_sel_psum a) (p_wr p) (wrap SRAM_ADDR_W a) (wrap ACC_W (p_wdata p))).

(** Reset clears the accept registers, not the memories. *)
Definition bank_reset (b : bank) : bank := mk_bank (mem_cells b) (a_rdata b) false.
Definition buffers_reset (b : buffers) : buffers :=
  mk_buffers (bank_reset (u_wt_buf b)) (bank_reset (u_act_buf b)) (bank_reset (u_psum_buf b)).

Definition buffers_zero : buffers := let b := mk_bank ∅ 0 false in mk_buffers b b b.

(** ** What the buffers hold, by host address *)

(** The contents alone, without the output registers. *)
Record sram := mk_sram { wt_mem : cells; act_mem : cells; psum_mem : cells }.

Definition contents (b : buffers) : sram :=
  mk_sram (mem_cells (u_wt_buf b)) (mem_cells (u_act_buf b)) (mem_cells (u_psum_buf b)).

Definition in_window (a : Z) : Prop := rtl_region WEIGHT_BUF <= a.

Definition peek (m : sram) (a : Z) : Z :=
  if host_sel_wt a then cell (wt_mem m) (wrap SRAM_ADDR_W a)
  else if host_sel_act a then cell (act_mem m) (wrap (SRAM_ADDR_W + 1) a)
  else if host_sel_psum a then cell (psum_mem m) (wrap SRAM_ADDR_W a) else 0.

Definition poke (m : sram) (a v : Z) : sram :=
  if host_sel_wt a then mk_sram (<[wrap SRAM_ADDR_W a := wrap DATA_W v]> (wt_mem m)) (act_mem m) (psum_mem m)
  else if host_sel_act a then mk_sram (wt_mem m) (<[wrap (SRAM_ADDR_W + 1) a := wrap DATA_W v]> (act_mem m)) (psum_mem m)
  else if host_sel_psum a then mk_sram (wt_mem m) (act_mem m) (<[wrap SRAM_ADDR_W a := wrap ACC_W v]> (psum_mem m))
  else m.

(** The bits of a word that the cell at [a] keeps. *)
Definition kept (a v : Z) : Z := if host_sel_psum a then wrap ACC_W v else wrap DATA_W v.

(** The cell behind a host address: a window repeats its bank. *)
Definition cell_of (a : Z) : option (region * Z) :=
  if host_sel_wt a then Some (WEIGHT_BUF, wrap SRAM_ADDR_W a)
  else if host_sel_act a then Some (ACT_BUF, wrap (SRAM_ADDR_W + 1) a)
  else if host_sel_psum a then Some (PSUM_BUF, wrap SRAM_ADDR_W a) else None.

(** Exactly one bank is selected inside the windows, none below. *)
Lemma select_cases a :
  (host_sel_wt a = true /\ host_sel_act a = false /\ host_sel_psum a = false /\ in_window a) \/
  (host_sel_wt a = false /\ host_sel_act a = true /\ host_sel_psum a = false /\ in_window a) \/
  (host_sel_wt a = false /\ host_sel_act a = false /\ host_sel_psum a = true /\ in_window a) \/
  (host_sel_wt a = false /\ host_sel_act a = false /\ host_sel_psum a = false /\ ~ in_window a).
Proof.
  unfold host_sel_wt, host_sel_act, host_sel_psum, in_window. cbn [rtl_region].
  destruct (Z.leb_spec 0x10000 a), (Z.ltb_spec a 0x20000), (Z.leb_spec 0x20000 a),
    (Z.ltb_spec a 0x30000), (Z.leb_spec 0x30000 a); cbn [andb]; lia.
Qed.

Ltac selects a :=
  let Hw := fresh "Hw" in let Ha := fresh "Ha" in let Hp := fresh "Hp" in let Hin := fresh "Hin" in
  destruct (select_cases a) as [(Hw & Ha & Hp & Hin)|[(Hw & Ha & Hp & Hin)|[(Hw & Ha & Hp & Hin)|(Hw & Ha & Hp & Hin)]]];
  rewrite ?Hw, ?Ha, ?Hp.

Lemma peek_poke m a v a' :
  in_window a -> in_window a' ->
  peek (poke m a v) a' = if decide (cell_of a = cell_of a') then kept a v else peek m a'.
Proof.
  intros Hi Hi'. unfold peek, poke, kept, cell_of.
  selects a; try done; selects a'; try done; cbn [wt_mem act_mem psum_mem]; unfold cell;
    (case_decide as Hd; [try (injection Hd as <-); rewrite ?lookup_insert_eq; done|]);
    try (rewrite lookup_insert_ne by congruence); done.
Qed.

Lemma poke_outside m a v : ~ in_window a -> poke m a v = m.
Proof. intros Hi. unfold poke. by selects a. Qed.

(** ** A clock edge, by what the port asks for *)

Lemma idle_edge b p :
  p_req p = false ->
  contents (buffers_step b p None) = contents b /\ host_rvalid (buffers_step b p None) = false.
Proof. intros Hp. unfold buffers_step. by rewrite Hp. Qed.

Lemma write_edge b a v :
  contents (buffers_step b (mk_port a v true true) None) = poke (contents b) a v /\
  host_rvalid (buffers_step b (mk_port a v true true) None) = false.
Proof.
  unfold buffers_step, poke. cbn [p_addr p_wdata p_wr p_req andb]. by selects a.
Qed.

(** A granted read answers in the next cycle; below the windows nothing is
    granted and nothing is answered. *)
Lemma read_edge b a v :
  let b' := buffers_step b (mk_port a v false true) None in
  contents b' = contents b /\ host_gnt (mk_port a v false true) None = host_rvalid b' /\
  (in_window a -> host_rvalid b' = true /\ host_rdata b' = peek (contents b) a) /\
  (~ in_window a -> host_rvalid b' = false).
Proof.
  unfold buffers_step, host_gnt, host_rvalid, host_rdata, peek. cbn [p_addr p_wdata p_wr p_req andb].
  rewrite (bool_decide_eq_false_2 (is_Some None)) by (by intros [? ?]).
  by selects a; cbn.
Qed.

Lemma write_granted a v wr :
  host_gnt (mk_port a v wr true) None = true <-> in_window a.
Proof.
  unfold host_gnt. cbn [p_addr p_req andb].
  rewrite (bool_decide_eq_false_2 (is_Some None)) by (by intros [? ?]).
  by selects a.
Qed.

(** What a row of writes that agree wherever they meet leaves. *)
Lemma peek_pokes {A} (f g : A -> Z) l b i :
  i ∈ l -> (forall j, j ∈ l -> in_window (f j)) ->
  (forall j, j ∈ l -> cell_of (f j) = cell_of (f i) -> f j = f i /\ g j = g i) ->
  peek (foldl (fun b j => poke b (f j) (g j)) b l) (f i) = kept (f i) (g i).
Proof.
  revert b. induction l as [|x l IH] using rev_ind; intros b Hi Hw Hf; [by apply elem_of_nil in Hi|].
  assert (Hx : x ∈ l ++ [x]) by (apply elem_of_app; right; by apply list_elem_of_singleton).
  rewrite foldl_app. cbn [foldl]. rewrite peek_poke by by apply Hw.
  case_decide as Hc; [by destruct (Hf x Hx Hc) as [-> ->]|].
  apply elem_of_app in Hi as [Hi|Hi%list_elem_of_singleton]; [|by subst].
  apply IH; [done|intros; apply Hw, elem_of_app; by left|intros; apply Hf; [apply elem_of_app; by left|done]].
Qed.

Lemma peek_pokes_other {A} (f g : A -> Z) l b a :
  in_window a -> (forall j, j ∈ l -> in_window (f j) /\ cell_of (f j) <> cell_of a) ->
  peek (foldl (fun b j => poke b (f j) (g j)) b l) a = peek b a.
Proof.
  intros Ha. revert b. induction l as [|x l IH]; intros b Hl; [done|]. cbn [foldl].
  rewrite IH by (intros; apply Hl; by right). destruct (Hl x ltac:(by left)) as [Hw Hc].
  by rewrite peek_poke, decide_False.
Qed.

(** A bank's window. *)
Definition window_base (r : region) : Z := rtl_region r.
Definition window_size (r : region) : Z :=
  match r with ACT_BUF => 2 ^ (SRAM_ADDR_W + 1) | CMD_QUEUE => 0 | _ => 2 ^ SRAM_ADDR_W end.


(** Distinct offsets inside one bank are distinct cells. *)
Lemma cell_of_inside r i :
  0 <= i < window_size r -> cell_of (window_base r + i) = Some (r, i).
Proof.
  unfold cell_of, window_size, window_base, host_sel_wt, host_sel_act, host_sel_psum, SRAM_ADDR_W.
  intros Hi. destruct r; cbn [rtl_region] in *; [lia|..].
  all: repeat match goal with |- context [?a <=? ?b] => destruct (Z.leb_spec a b); try lia end.
  all: repeat match goal with |- context [?a <? ?b] => destruct (Z.ltb_spec a b); try lia end.
  all: cbn [andb]; do 2 f_equal; unfold wrap.
  - replace (0x10000 + i) with (i + 16 * 2 ^ 12) by lia. rewrite Z_mod_plus_full. by apply Z.mod_small.
  - replace (0x20000 + i) with (i + 16 * 2 ^ (12 + 1)) by lia. rewrite Z_mod_plus_full. by apply Z.mod_small.
  - replace (0x30000 + i) with (i + 48 * 2 ^ 12) by lia. rewrite Z_mod_plus_full. by apply Z.mod_small.
Qed.

Lemma peek_inside m r i :
  0 <= i < window_size r ->
  peek m (window_base r + i) =
  cell (match r with WEIGHT_BUF => wt_mem m | ACT_BUF => act_mem m | _ => psum_mem m end) i.
Proof.
  intros Hi. pose proof (cell_of_inside r i Hi) as Hc. revert Hc. generalize (window_base r + i). intros a.
  unfold cell_of, peek. by selects a; try done; intros [= <- <-].
Qed.
