(* ===== verification/Dma.v ===== *)
(** * The DMA engine

    [npu_dma_reader], [npu_dma_writer] and [npu_dma_frontend], clock by clock,
    with the buffers of [Mem] behind the port multiplexer of [npu_shell] and
    an external memory that stalls as it likes. *)

From S2P Require Import Prelude Regs ExtMem Mem.
From stdpp Require Import gmap.

Open Scope Z_scope.

Definition EXT_ADDR_W : Z := 32.
Definition MMIO_ADDR_W : Z := 20.

(** The configuration of the register block, and its start pulse. *)
Record dma_cfg := mk_cfg { c_ext : Z; c_loc : Z; c_len : Z; c_start : bool; c_dir : bool }.

(** ** npu_dma_reader and npu_dma_writer *)

(** The registers both have. *)
Record xfer := mk_xfer { ext_addr_r : Z; loc_addr_r : Z; len_r : Z; cnt_r : Z; data_r : Z }.

Definition latch (c : dma_cfg) (x : xfer) : xfer := mk_xfer (c_ext c) (c_loc c) (c_len c) 0 (data_r x).
Definition take_data (v : Z) (x : xfer) : xfer :=
  mk_xfer (ext_addr_r x) (loc_addr_r x) (len_r x) (cnt_r x) v.
Definition advance (x : xfer) : xfer :=
  mk_xfer (wrap EXT_ADDR_W (ext_addr_r x + 1)) (wrap MMIO_ADDR_W (loc_addr_r x + 1)) (len_r x)
    (wrap 16 (cnt_r x + 1)) (data_r x).

(** [cnt_r + 16'd1 >= len_r] *)
Definition last_one (x : xfer) : bool := len_r x <=? wrap 16 (cnt_r x + 1).

Inductive rd_state := RD_IDLE | RD_EXT_RD | RD_EXT_WAIT | RD_LOC_WR | RD_DONE.

Record reader := mk_reader { rd_st : rd_state; rd_x : xfer }.

Definition reader_step (r : reader) (start : bool) (c : dma_cfg) (resp : ext_resp) (buf_gnt : bool) : reader :=
  let x := rd_x r in
  match rd_st r with
  | RD_IDLE => if start then mk_reader RD_EXT_RD (latch c x) else r
  | RD_EXT_RD => if ext_mem_gnt resp then mk_reader RD_EXT_WAIT x else r
  | RD_EXT_WAIT =>
      if ext_mem_rvalid resp then mk_reader RD_LOC_WR (take_data (ext_mem_rdata resp) x) else r
  | RD_LOC_WR =>
      if buf_gnt then mk_reader (if last_one x then RD_DONE else RD_EXT_RD) (advance x) else r
  | RD_DONE => mk_reader RD_IDLE x
  end.

Definition rd_busy (r : reader) : bool := match rd_st r with RD_IDLE | RD_DONE => false | _ => true end.
Definition rd_done (r : reader) : bool := match rd_st r with RD_DONE => true | _ => false end.
Definition rd_ext_req (r : reader) : bool := match rd_st r with RD_EXT_RD => true | _ => false end.
Definition rd_ext_addr (r : reader) : Z := match rd_st r with RD_EXT_RD => ext_addr_r (rd_x r) | _ => 0 end.

(** Address, data and request to the buffers. *)
Definition rd_buf (r : reader) : port :=
  match rd_st r with RD_LOC_WR => mk_port (loc_addr_r (rd_x r)) (data_r (rd_x r)) true true | _ => no_request end.

Inductive wr_state := WR_IDLE | WR_LOC_RD | WR_LOC_WAIT | WR_EXT_WR | WR_DONE.

Record writer := mk_writer { wr_st : wr_state; wr_x : xfer }.

Definition writer_step (w : writer) (start : bool) (c : dma_cfg) (ext_gnt buf_gnt buf_rvalid : bool)
    (buf_rdata : Z) : writer :=
  let x := wr_x w in
  match wr_st w with
  | WR_IDLE => if start then mk_writer WR_LOC_RD (latch c x) else w
  | WR_LOC_RD => if buf_gnt then mk_writer WR_LOC_WAIT x else w
  | WR_LOC_WAIT => if buf_rvalid then mk_writer WR_EXT_WR (take_data buf_rdata x) else w
  | WR_EXT_WR =>
      if ext_gnt then mk_writer (if last_one x then WR_DONE else WR_LOC_RD) (advance x) else w
  | WR_DONE => mk_writer WR_IDLE x
  end.

Definition wr_busy (w : writer) : bool := match wr_st w with WR_IDLE | WR_DONE => false | _ => true end.
Definition wr_done (w : writer) : bool := match wr_st w with WR_DONE => true | _ => false end.
Definition wr_ext (w : writer) : ext_req :=
  match wr_st w with
  | WR_EXT_WR => mk_ext_req true true (ext_addr_r (wr_x w)) (data_r (wr_x w))
  | _ => mk_ext_req false false 0 0
  end.
Definition wr_buf (w : writer) : port :=
  match wr_st w with WR_LOC_RD => mk_port (loc_addr_r (wr_x w)) 0 false true | _ => no_request end.

(** ** npu_dma_frontend *)

Record dma := mk_dma { u_reader : reader; u_writer : writer }.

Definition dma_busy (d : dma) : bool := rd_busy (u_reader d) || wr_busy (u_writer d).
Definition dma_done (d : dma) : bool := rd_done (u_reader d) || wr_done (u_writer d).

Definition dma_ext (d : dma) : ext_req :=
  let r := u_reader d in
  let w := u_writer d in
  mk_ext_req (if rd_busy r then rd_ext_req r else ext_mem_req (wr_ext w))
             (if wr_busy w then ext_mem_wr (wr_ext w) else false)
             (if rd_busy r then rd_ext_addr r else ext_mem_addr (wr_ext w))
             (if wr_busy w then ext_mem_wdata (wr_ext w) else 0).

Definition dma_buf (d : dma) : port :=
  let r := u_reader d in
  let w := u_writer d in
  mk_port (if rd_busy r then p_addr (rd_buf r) else p_addr (wr_buf w))
          (p_wdata (rd_buf r)) (p_wr (rd_buf r)) (p_req (rd_buf r) || p_req (wr_buf w)).

Definition dma_step (d : dma) (c : dma_cfg) (resp : ext_resp) (buf_gnt buf_rvalid : bool) (buf_rdata : Z) : dma :=
  mk_dma (reader_step (u_reader d) (c_start c && negb (c_dir c)) c resp buf_gnt)
         (writer_step (u_writer d) (c_start c && c_dir c) c (ext_mem_gnt resp) buf_gnt buf_rvalid buf_rdata).

Definition dma_idle (d : dma) : Prop := rd_st (u_reader d) = RD_IDLE /\ wr_st (u_writer d) = WR_IDLE.

Lemma dma_idle_view d : dma_idle d -> dma_busy d = false /\ dma_done d = false.
Proof. unfold dma_busy, dma_done, rd_busy, rd_done, wr_busy, wr_done. by intros [-> ->]. Qed.

Lemma dma_idle_step d c resp g v x :
  c_start c = false -> dma_idle d -> dma_idle (dma_step d c resp g v x).
Proof.
  intros Hs [Hr Hw]. unfold dma_idle, dma_step, reader_step, writer_step. by rewrite Hs, Hr, Hw.
Qed.

Definition xfer_zero : xfer := mk_xfer 0 0 0 0 0.
Definition dma_zero : dma := mk_dma (mk_reader RD_IDLE xfer_zero) (mk_writer WR_IDLE xfer_zero).

(** ** The buffers and the engine behind the multiplexer of npu_shell *)

Record memsys := mk_memsys { u_dma : dma; u_bufs : buffers }.

(** [dma_busy_w ? dma : host] *)
Definition buf_port (s : memsys) (host : port) : port := if dma_busy (u_dma s) then dma_buf (u_dma s) else host.

(** One clock, with the host's request to the buffer windows, the backend's
    write and the answer of the external memory to [dma_ext]. *)
Definition mem_step (s : memsys) (c : dma_cfg) (host : port) (be_wr : option (Z * Z)) (resp : ext_resp) : memsys :=
  let p := buf_port s host in
  mk_memsys
    (dma_step (u_dma s) c resp (host_gnt p be_wr) (host_rvalid (u_bufs s)) (host_rdata (u_bufs s)))
    (buffers_step (u_bufs s) p be_wr).

(** Without a request, address and data of the host do not matter. *)
Lemma mem_step_no_request s c p be_wr resp :
  p_req p = false -> mem_step s c p be_wr resp = mem_step s c no_request be_wr resp.
Proof.
  intros Hp. unfold mem_step, buf_port. destruct (dma_busy (u_dma s)); [done|].
  unfold host_gnt, buffers_step. rewrite Hp. cbn. by rewrite !andb_false_r.
Qed.

Definition mem_reset (s : memsys) : memsys := mk_memsys dma_zero (buffers_reset (u_bufs s)).
Definition mem_zero : memsys := mk_memsys dma_zero buffers_zero.

(** ** An external memory that may stall

    In every cycle it may withhold its grant or its answer; otherwise it is the
    memory of the testbench. *)
Definition ext_device (grant answer : bool) (m : ext_mem) (q : ext_req) : ext_mem * ext_resp :=
  let gnt := ext_mem_req q && grant in
  let rvalid := ext_rd_pending m && answer in
  let left := ext_rd_pending m && negb answer in
  (if gnt then
     if ext_mem_wr q
     then mk_ext_mem (<[ext_mem_addr q := ext_mem_wdata q]> (ext_memory m)) left (ext_rd_addr_pending m)
     else mk_ext_mem (ext_memory m) true (ext_mem_addr q)
   else mk_ext_mem (ext_memory m) left (ext_rd_addr_pending m),
   mk_ext_resp gnt rvalid (if rvalid then ext_load (ext_memory m) (ext_rd_addr_pending m) else 0)).

Lemma ext_device_prompt m q : ext_device true true m q = update_ext_mem m q.
Proof. unfold ext_device, update_ext_mem. by destruct (ext_mem_req q), (ext_mem_wr q), (ext_rd_pending m). Qed.

(** The inputs of one cycle. *)
Record cycle := mk_cycle { y_cfg : dma_cfg; y_host : port; y_grant : bool; y_answer : bool }.

Definition prompt (y : cycle) : bool := y_grant y && y_answer y.

Abbreviation world := (memsys * ext_mem)%type.

Definition world_step (w : world) (y : cycle) : world :=
  let '(m, resp) := ext_device (y_grant y) (y_answer y) w.2 (dma_ext (u_dma w.1)) in
  (mem_step w.1 (y_cfg y) (y_host y) None resp, m).

Definition world_run (w : world) (ys : list cycle) : world := foldl world_step w ys.

Definition prompt_cycles (ys : list cycle) : nat := length (filter (fun y => prompt y = true) ys).

(** ** Phases

    A transfer goes through three states per element; a cycle in which the
    external memory does not stall takes it one state on, and no cycle more. *)

Lemma prompt_cycles_app ys zs : prompt_cycles (ys ++ zs) = (prompt_cycles ys + prompt_cycles zs)%nat.
Proof. unfold prompt_cycles. by rewrite filter_app, length_app. Qed.

(** The elements a transfer of length [len] moves: one even for length 0. *)
Definition elements (len : Z) : nat := Z.to_nat (Z.max 1 len).

Definition ext_at (c : dma_cfg) (i : nat) : Z := wrap EXT_ADDR_W (c_ext c + Z.of_nat i).
Definition loc_at (c : dma_cfg) (i : nat) : Z := wrap MMIO_ADDR_W (c_loc c + Z.of_nat i).

Definition cfg_fits (c : dma_cfg) : Prop :=
  fits EXT_ADDR_W (c_ext c) /\ fits MMIO_ADDR_W (c_loc c) /\ fits 16 (c_len c).

(** The registers of an engine before element [i]. *)
Definition at_element (c : dma_cfg) (i : nat) (x : xfer) : Prop :=
  ext_addr_r x = ext_at c i /\ loc_addr_r x = loc_at c i /\ len_r x = c_len c /\ cnt_r x = Z.of_nat i.

Lemma at_element_latch c x : cfg_fits c -> at_element c 0 (latch c x).
Proof.
  intros (He & Hl & _). unfold at_element, ext_at, loc_at. cbn. rewrite !Z.add_0_r.
  by rewrite (wrap_small EXT_ADDR_W), (wrap_small MMIO_ADDR_W).
Qed.

Lemma at_element_take c i v x : at_element c i x -> at_element c i (take_data v x).
Proof. done. Qed.

Lemma at_element_advance c i x :
  cfg_fits c -> (i < elements (c_len c))%nat -> at_element c i x ->
  last_one x = bool_decide (S i = elements (c_len c)) /\ at_element c (S i) (advance x).
Proof.
  unfold elements, at_element, last_one, advance, ext_at, loc_at.
  intros (_ & _ & Hlen) Hi (He & Hl & Hn & Hc). rewrite fits16_iff in Hlen.
  cbn [ext_addr_r loc_addr_r len_r cnt_r]. rewrite He, Hl, Hn, Hc.
  rewrite (wrap_small 16) by (apply fits16_iff; lia). split_and!; [|by apply wrap_succ..|done|lia].
  destruct (Z.leb_spec (c_len c) (Z.of_nat i + 1)); case_bool_decide; lia.
Qed.

(** Nothing starts and the host leaves the buffers alone. *)
Definition undisturbed (y : cycle) : Prop := c_start (y_cfg y) = false /\ p_req (y_host y) = false.

(** ** External memory to buffers *)

(** The buffers after the first [i] elements, and the external memory. *)
Definition copied_in (c : dma_cfg) (b0 : sram) (m0 : gmap Z Z) (i : nat) : sram :=
  foldl (fun b j => poke b (loc_at c j) (ext_load m0 (ext_at c j))) b0 (seq 0 i).

Definition copied_out (c : dma_cfg) (b0 : sram) (m0 : gmap Z Z) (i : nat) : gmap Z Z :=
  foldl (fun m j => <[ext_at c j := peek b0 (loc_at c j)]> m) m0 (seq 0 i).

Lemma copied_in_S c b0 m0 i :
  copied_in c b0 m0 (S i) = poke (copied_in c b0 m0 i) (loc_at c i) (ext_load m0 (ext_at c i)).
Proof. unfold copied_in. by rewrite seq_S, foldl_app. Qed.

Lemma copied_out_S c b0 m0 i :
  copied_out c b0 m0 (S i) = <[ext_at c i := peek b0 (loc_at c i)]> (copied_out c b0 m0 i).
Proof. unfold copied_out. by rewrite seq_S, foldl_app. Qed.

(** One clock of the engine, whose pending answer and start are known. *)
Ltac clocked Hp Hstart :=
  unfold world_step, mem_step, buf_port, dma_buf, dma_step, reader_step, writer_step;
  cbn -[buffers_step host_gnt host_rvalid host_rdata copied_in copied_out]; rewrite ?Hp, ?Hstart;
  cbn -[buffers_step host_gnt host_rvalid host_rdata copied_in copied_out].

Section read.
Context (c : dma_cfg) (b0 : sram) (m0 : gmap Z Z).

Definition read_frame (i : nat) (w : world) : Prop :=
  wr_st (u_writer (u_dma w.1)) = WR_IDLE /\ contents (u_bufs w.1) = copied_in c b0 m0 i /\ ext_memory w.2 = m0.

(** Element [i], state [k] of RD_EXT_RD, RD_EXT_WAIT, RD_LOC_WR. *)
Definition reading (i k : nat) (w : world) : Prop :=
  let r := u_reader (u_dma w.1) in
  read_frame i w /\ at_element c i (rd_x r) /\
  match k with
  | O => rd_st r = RD_EXT_RD /\ ext_rd_pending w.2 = false
  | 1%nat => rd_st r = RD_EXT_WAIT /\ ext_rd_pending w.2 = true /\ ext_rd_addr_pending w.2 = ext_at c i
  | _ => rd_st r = RD_LOC_WR /\ ext_rd_pending w.2 = false /\ data_r (rd_x r) = ext_load m0 (ext_at c i)
  end.

Definition read_over (st : rd_state) (w : world) : Prop :=
  read_frame (elements (c_len c)) w /\ rd_st (u_reader (u_dma w.1)) = st /\ ext_rd_pending w.2 = false.

Lemma reading_step i k w y :
  cfg_fits c -> (i < elements (c_len c))%nat -> c_start (y_cfg y) = false -> reading i k w ->
  match k with
  | O => reading i (if y_grant y then 1 else 0) (world_step w y)
  | 1%nat => reading i (if y_answer y then 2 else 1) (world_step w y)
  | _ => (~ in_window (loc_at c i) -> reading i 2 (world_step w y)) /\
         (in_window (loc_at c i) ->
            if decide (S i = elements (c_len c)) then read_over RD_DONE (world_step w y)
            else reading (S i) 0 (world_step w y))
  end.
Proof.
  intros Hfit Hi Hstart (Hf & Hat & Hk). unfold reading, read_over, read_frame.
  destruct w as [[[[st x] [wst wx]] bufs] m]. destruct y as [yc host g v].
  unfold read_frame in Hf. cbn in *. destruct Hf as (-> & Hcont & Hm).
  destruct k as [|[|k]].
  - destruct Hk as [-> Hp]. clocked Hp Hstart.
    destruct (idle_edge bufs (mk_port 0 0 false false) eq_refl) as [Hc _].
    destruct g; cbn; rewrite Hc; by destruct Hat.
  - destruct Hk as (-> & Hp & Ha). clocked Hp Hstart.
    destruct (idle_edge bufs (mk_port 0 0 false false) eq_refl) as [Hc _].
    destruct v; cbn; rewrite Hc, ?Ha, ?Hm; by destruct Hat.
  - destruct Hk as (-> & Hp & Hd). assert (Hat' := Hat). destruct Hat' as (_ & Hloc & _).
    destruct (at_element_advance c i x Hfit Hi Hat) as [Hlast Hadv].
    destruct (write_edge bufs (loc_addr_r x) (data_r x)) as [Hc _].
    assert (Hg := write_granted (loc_addr_r x) (data_r x) true). rewrite Hloc in *.
    clocked Hp Hstart. rewrite Hloc, Hc, Hlast. split; intros Hwin.
    + rewrite (not_true_is_false _ (fun H => Hwin (proj1 Hg H))), poke_outside by done. by destruct Hat.
    + rewrite (proj2 Hg Hwin), Hcont, Hd, <- copied_in_S.
      case_decide as Hn; [rewrite bool_decide_eq_true_2, <- Hn by done|rewrite bool_decide_eq_false_2 by done];
        by destruct Hadv.
Qed.

Lemma read_over_step st w y :
  undisturbed y -> st = RD_DONE \/ st = RD_IDLE -> read_over st w -> read_over RD_IDLE (world_step w y).
Proof.
  intros [Hstart Hreq] Hst (Hf & Hr & Hp).
  destruct w as [[[[st' x] [wst wx]] bufs] m]. destruct y as [yc host g v].
  unfold read_frame in Hf. cbn in *. destruct Hf as (-> & Hcont & Hm). subst st'.
  unfold read_over, read_frame.
  destruct (idle_edge bufs host Hreq) as [Hc _].
  destruct Hst as [-> | ->]; clocked Hp Hstart; by rewrite Hc.
Qed.

(** After [p] steps of a transfer. *)
Definition read_phase (p : nat) (w : world) : Prop :=
  let n := elements (c_len c) in
  (exists i k, p = (3 * i + k)%nat /\ (k < 3)%nat /\ (i < n)%nat /\ reading i k w) \/
  (p = (3 * n)%nat /\ read_over RD_DONE w) \/ ((3 * n < p)%nat /\ read_over RD_IDLE w).

Lemma read_phase_step p w y :
  cfg_fits c -> (forall i, (i < elements (c_len c))%nat -> in_window (loc_at c i)) ->
  undisturbed y -> read_phase p w ->
  exists p', read_phase p' (world_step w y) /\ (p <= p' <= S p)%nat /\
    (prompt y = true \/ (3 * elements (c_len c) <= p)%nat -> p' = S p).
Proof.
  intros Hfit Hwin Hy [(i & k & -> & Hk & Hi & Hr)|[[-> Hr]|[Hp Hr]]].
  - pose proof (reading_step i k w y Hfit Hi (proj1 Hy) Hr) as Hs.
    destruct k as [|[|[|k]]]; [| | |lia]; unfold prompt.
    + exists (3 * i + if y_grant y then 1 else 0)%nat.
      split; [left; exists i, (if y_grant y then 1 else 0)%nat|]; destruct (y_grant y), (y_answer y); cbn; lia || (split_and!; [lia..|done]).
    + exists (3 * i + if y_answer y then 2 else 1)%nat.
      split; [left; exists i, (if y_answer y then 2 else 1)%nat|]; destruct (y_grant y), (y_answer y); cbn; lia || (split_and!; [lia..|done]).
    + exists (3 * S i)%nat. split; [|lia]. destruct Hs as [_ Hs]. specialize (Hs (Hwin i Hi)).
      case_decide as Hn; [right; left; by rewrite Hn|left; exists (S i), 0%nat; split_and!; [lia..|done]].
  - exists (S (3 * elements (c_len c))). split; [|lia]. right. right. split; [lia|].
    eapply read_over_step; [done| |done]. by left.
  - exists (S p). split; [|lia]. right. right. split; [lia|]. eapply read_over_step; [done| |done]. by right.
Qed.

Lemma read_phase_busy p w :
  read_phase p w -> dma_busy (u_dma w.1) = bool_decide (p < 3 * elements (c_len c))%nat /\
    dma_done (u_dma w.1) = bool_decide (p = 3 * elements (c_len c))%nat.
Proof.
  unfold dma_busy, dma_done, rd_busy, rd_done, wr_busy, wr_done.
  intros [(i & k & -> & Hk & Hi & ((-> & _) & _ & Hst))|[(-> & (-> & _) & -> & _)|(Hp & (-> & _) & -> & _)]].
  - rewrite bool_decide_eq_true_2, bool_decide_eq_false_2 by lia.
    destruct k as [|[|k]]; destruct Hst as (-> & _); done.
  - by rewrite bool_decide_eq_false_2, bool_decide_eq_true_2 by lia.
  - by rewrite !bool_decide_eq_false_2 by lia.
Qed.
End read.

(** The engine and the external port at rest. *)
Definition at_rest (w : world) : Prop :=
  dma_idle (u_dma w.1) /\ ext_rd_pending w.2 = false.

Definition starts (dir : bool) (y : cycle) : Prop :=
  c_start (y_cfg y) = true /\ c_dir (y_cfg y) = dir /\ cfg_fits (y_cfg y) /\ p_req (y_host y) = false.

Lemma start_read w y :
  at_rest w -> starts false y ->
  read_phase (y_cfg y) (contents (u_bufs w.1)) (ext_memory w.2) 0 (world_step w y).
Proof.
  intros ((Hr & Hw) & Hp) (Hs & Hd & Hfit & Hreq). left. exists 0%nat, 0%nat.
  split_and!; [lia..|unfold elements; lia|].
  destruct w as [[[[st x] [wst wx]] bufs] m], y as [yc host g v]. cbn in *. subst st wst.
  destruct (idle_edge bufs host Hreq) as [Hc _].
  unfold reading, read_frame. clocked Hp Hs. rewrite Hd. cbn -[buffers_step]. rewrite Hc. split_and!; try done.
  all: by apply at_element_latch.
Qed.

(** ** Buffers to external memory *)

Section write.
Context (c : dma_cfg) (b0 : sram) (m0 : gmap Z Z).

Definition write_frame (i : nat) (w : world) : Prop :=
  rd_st (u_reader (u_dma w.1)) = RD_IDLE /\ contents (u_bufs w.1) = b0 /\
  ext_memory w.2 = copied_out c b0 m0 i /\ ext_rd_pending w.2 = false.

(** Element [i], state [k] of WR_LOC_RD, WR_LOC_WAIT, WR_EXT_WR. *)
Definition writing (i k : nat) (w : world) : Prop :=
  let u := u_writer (u_dma w.1) in
  write_frame i w /\ at_element c i (wr_x u) /\
  match k with
  | O => wr_st u = WR_LOC_RD
  | 1%nat => wr_st u = WR_LOC_WAIT /\ host_rvalid (u_bufs w.1) = true /\
             host_rdata (u_bufs w.1) = peek b0 (loc_at c i)
  | _ => wr_st u = WR_EXT_WR /\ data_r (wr_x u) = peek b0 (loc_at c i)
  end.

Definition write_over (st : wr_state) (w : world) : Prop :=
  write_frame (elements (c_len c)) w /\ wr_st (u_writer (u_dma w.1)) = st.

Lemma writing_step i k w y :
  cfg_fits c -> (i < elements (c_len c))%nat -> c_start (y_cfg y) = false -> writing i k w ->
  match k with
  | O => (~ in_window (loc_at c i) -> writing i 0 (world_step w y)) /\
         (in_window (loc_at c i) -> writing i 1 (world_step w y))
  | 1%nat => writing i 2 (world_step w y)
  | _ => if y_grant y then
           if decide (S i = elements (c_len c)) then write_over WR_DONE (world_step w y)
           else writing (S i) 0 (world_step w y)
         else writing i 2 (world_step w y)
  end.
Proof.
  intros Hfit Hi Hstart (Hf & Hat & Hk). unfold writing, write_over, write_frame.
  destruct w as [[[[st x] [wst wx]] bufs] m]. destruct y as [yc host g v].
  unfold write_frame in Hf. cbn in *. destruct Hf as (-> & Hcont & Hm & Hp).
  destruct k as [|[|k]].
  - subst wst. assert (Hat' := Hat). destruct Hat' as (_ & Hloc & _).
    destruct (read_edge bufs (loc_addr_r wx) 0) as (Hc & Hg & Hin & Hout). rewrite Hloc in *.
    clocked Hp Hstart. rewrite Hloc, Hc, Hg. split; intros Hwin.
    + rewrite (Hout Hwin). by destruct Hat.
    + destruct (Hin Hwin) as [Hv Hd]. rewrite Hv, Hd, Hcont. by destruct Hat.
  - destruct Hk as (-> & Hv & Hd). clocked Hp Hstart.
    destruct (idle_edge bufs (mk_port 0 0 false false) eq_refl) as [Hc _].
    rewrite Hv, Hc, Hd. by destruct Hat.
  - destruct Hk as (-> & Hd).
    destruct (at_element_advance c i wx Hfit Hi Hat) as [Hlast Hadv].
    destruct (idle_edge bufs (mk_port 0 0 false false) eq_refl) as [Hc _].
    assert (Hat' := Hat). destruct Hat' as (He & _).
    clocked Hp Hstart. destruct g; cbn -[buffers_step copied_out].
    + rewrite Hc, Hlast, He, Hd, Hm, <- copied_out_S.
      case_decide as Hn; [rewrite bool_decide_eq_true_2, <- Hn by done|rewrite bool_decide_eq_false_2 by done];
        by destruct Hadv.
    + rewrite Hc. by destruct Hat.
Qed.

Lemma write_over_step st w y :
  undisturbed y -> st = WR_DONE \/ st = WR_IDLE -> write_over st w -> write_over WR_IDLE (world_step w y).
Proof.
  intros [Hstart Hreq] Hst (Hf & Hr).
  destruct w as [[[[st' x] [wst wx]] bufs] m]. destruct y as [yc host g v].
  unfold write_frame in Hf. cbn in *. destruct Hf as (-> & Hcont & Hm & Hp). subst wst.
  unfold write_over, write_frame. destruct (idle_edge bufs host Hreq) as [Hc _].
  destruct Hst as [-> | ->]; clocked Hp Hstart; by rewrite Hc.
Qed.

(** After [p] steps of a transfer. *)
Definition write_phase (p : nat) (w : world) : Prop :=
  let n := elements (c_len c) in
  (exists i k, p = (3 * i + k)%nat /\ (k < 3)%nat /\ (i < n)%nat /\ writing i k w) \/
  (p = (3 * n)%nat /\ write_over WR_DONE w) \/ ((3 * n < p)%nat /\ write_over WR_IDLE w).

Lemma write_phase_step p w y :
  cfg_fits c -> (forall i, (i < elements (c_len c))%nat -> in_window (loc_at c i)) ->
  undisturbed y -> write_phase p w ->
  exists p', write_phase p' (world_step w y) /\ (p <= p' <= S p)%nat /\
    (prompt y = true \/ (3 * elements (c_len c) <= p)%nat -> p' = S p).
Proof.
  intros Hfit Hwin Hy [(i & k & -> & Hk & Hi & Hr)|[[-> Hr]|[Hp Hr]]].
  - pose proof (writing_step i k w y Hfit Hi (proj1 Hy) Hr) as Hs.
    destruct k as [|[|[|k]]]; [| | |lia]; unfold prompt.
    + exists (3 * i + 1)%nat. split; [|lia]. left. exists i, 1%nat.
      split_and!; [lia..|]. by apply Hs, Hwin.
    + exists (3 * i + 2)%nat. split; [|lia]. left. exists i, 2%nat. split_and!; [lia..|done].
    + destruct (y_grant y); [|exists (3 * i + 2)%nat; cbn; split; [|lia]; left; exists i, 2%nat; split_and!; [lia..|done]].
      exists (3 * S i)%nat. split; [|lia].
      case_decide as Hn; [right; left; by rewrite Hn|left; exists (S i), 0%nat; split_and!; [lia..|done]].
  - exists (S (3 * elements (c_len c))). split; [|lia]. right. right. split; [lia|].
    eapply write_over_step; [done| |done]. by left.
  - exists (S p). split; [|lia]. right. right. split; [lia|]. eapply write_over_step; [done| |done]. by right.
Qed.

Lemma write_phase_busy p w :
  write_phase p w -> dma_busy (u_dma w.1) = bool_decide (p < 3 * elements (c_len c))%nat /\
    dma_done (u_dma w.1) = bool_decide (p = 3 * elements (c_len c))%nat.
Proof.
  unfold dma_busy, dma_done, rd_busy, rd_done, wr_busy, wr_done.
  intros [(i & k & -> & Hk & Hi & ((-> & _) & _ & Hst))|[(-> & (-> & _) & ->)|(Hp & (-> & _) & ->)]].
  - rewrite bool_decide_eq_true_2, bool_decide_eq_false_2 by lia.
    destruct k as [|[|k]]; [|destruct Hst as (Hst & _)..]; by rewrite Hst.
  - by rewrite bool_decide_eq_false_2, bool_decide_eq_true_2 by lia.
  - by rewrite !bool_decide_eq_false_2 by lia.
Qed.
End write.

Lemma start_write w y :
  at_rest w -> starts true y ->
  write_phase (y_cfg y) (contents (u_bufs w.1)) (ext_memory w.2) 0 (world_step w y).
Proof.
  intros ((Hr & Hw) & Hp) (Hs & Hd & Hfit & Hreq). left. exists 0%nat, 0%nat.
  split_and!; [lia..|unfold elements; lia|].
  destruct w as [[[[st x] [wst wx]] bufs] m], y as [yc host g v]. cbn in *. subst st wst.
  destruct (idle_edge bufs host Hreq) as [Hc _]. unfold writing, write_frame.
  clocked Hp Hs. rewrite Hd. cbn -[buffers_step]. rewrite Hc. split_and!; try done.
  all: by apply at_element_latch.
Qed.

(** ** Transfers *)

Definition memories (w : world) : sram * gmap Z Z := (contents (u_bufs w.1), ext_memory w.2).

(** The memories once the first [i] elements are across. *)
Definition transferred (dir : bool) (c : dma_cfg) (M : sram * gmap Z Z) (i : nat) : sram * gmap Z Z :=
  if dir then (M.1, copied_out c M.1 M.2 i) else (copied_in c M.1 M.2 i, M.2).

Definition windows_ok (c : dma_cfg) : Prop :=
  forall i, (i < elements (c_len c))%nat -> in_window (loc_at c i).

(** A transfer is so many steps on its way, whichever the direction. *)
Definition phase (dir : bool) (c : dma_cfg) (w0 : world) (p : nat) (w : world) : Prop :=
  let b := contents (u_bufs w0.1) in
  let m := ext_memory w0.2 in
  if dir then write_phase c b m p w else read_phase c b m p w.

Lemma phase_start dir w y :
  at_rest w -> starts dir y -> phase dir (y_cfg y) w 0 (world_step w y).
Proof. destruct dir; [apply start_write|apply start_read]. Qed.

Lemma phase_step dir c w0 p w y :
  cfg_fits c -> windows_ok c -> undisturbed y -> phase dir c w0 p w ->
  exists p', phase dir c w0 p' (world_step w y) /\ (p <= p' <= S p)%nat /\
    (prompt y = true \/ (3 * elements (c_len c) <= p)%nat -> p' = S p).
Proof. destruct dir; [apply write_phase_step|apply read_phase_step]. Qed.

Lemma phase_view dir c w0 p w :
  phase dir c w0 p w ->
  dma_busy (u_dma w.1) = bool_decide (p < 3 * elements (c_len c))%nat /\
  dma_done (u_dma w.1) = bool_decide (p = 3 * elements (c_len c))%nat /\
  ((3 * elements (c_len c) <= p)%nat -> memories w = transferred dir c (memories w0) (elements (c_len c))) /\
  ((3 * elements (c_len c) < p)%nat -> at_rest w).
Proof.
  intros Hp. unfold phase in Hp. unfold memories, transferred, at_rest. cbn [fst snd]. destruct dir.
  - destruct (write_phase_busy _ _ _ _ _ Hp) as [Hb Hd]. split; [done|]. split; [done|].
    destruct Hp as [(i & k & -> & Hk & Hi & _)|[(-> & (Hr & <- & <- & Hpe) & Hs)|(Hlt & (Hr & <- & <- & Hpe) & Hs)]];
      (split; intros Hle; [lia || done|lia || done]).
  - destruct (read_phase_busy _ _ _ _ _ Hp) as [Hb Hd]. split; [done|]. split; [done|].
    destruct Hp as [(i & k & -> & Hk & Hi & _)|[(-> & (Hr & <- & <-) & Hs & Hpe)|(Hlt & (Hr & <- & <-) & Hs & Hpe)]];
      (split; intros Hle; [lia || done|lia || done]).
Qed.

(** Nothing has moved before the first element is across. *)
Lemma phase_early dir c w0 p w : phase dir c w0 p w -> (p < 3)%nat -> memories w = memories w0.
Proof.
  intros Hp Hlt. unfold memories. pose proof (eq_refl : elements (c_len c) = Z.to_nat (Z.max 1 (c_len c))) as He.
  destruct dir; destruct Hp as [(i & k & -> & Hk & Hi & (_ & Hb & Hm) & _)|[[-> _]|[Hgt _]]]; try lia;
    assert (i = 0%nat) as -> by lia; [destruct Hm as [Hm _]|]; by rewrite Hb, Hm.
Qed.

(** In how many of the clocks of a run [done] is up. *)
Fixpoint done_pulses (w : world) (ys : list cycle) : nat :=
  match ys with
  | [] => 0
  | y :: ys => let w' := world_step w y in (if dma_done (u_dma w'.1) then 1 else 0) + done_pulses w' ys
  end.

Lemma done_pulses_snoc w ys y :
  done_pulses w (ys ++ [y]) = (done_pulses w ys + if dma_done (u_dma (world_run w (ys ++ [y])).1) then 1 else 0)%nat.
Proof.
  revert w. induction ys as [|x ys IH]; intros w; [cbn; lia|]. cbn [app done_pulses]. rewrite IH.
  change (world_run w (x :: ys ++ [y])) with (world_run (world_step w x) (ys ++ [y])). lia.
Qed.

Lemma transfer_phase dir w0 y ys :
  at_rest w0 -> starts dir y -> windows_ok (y_cfg y) -> Forall undisturbed ys ->
  exists p, phase dir (y_cfg y) w0 p (world_run w0 (y :: ys)) /\ (prompt_cycles ys <= p <= length ys)%nat /\
    done_pulses w0 (y :: ys) = if (3 * elements (c_len (y_cfg y)) <=? p)%nat then 1%nat else 0%nat.
Proof.
  intros Hw0 Hs Hwin Hys. assert (Hs' := Hs). destruct Hs' as (_ & _ & Hfit & _).
  assert (Hn : (0 < elements (c_len (y_cfg y)))%nat) by (unfold elements; lia).
  induction ys as [|y' ys IH] using rev_ind.
  - exists 0%nat. assert (Hp := phase_start dir w0 y Hw0 Hs). split; [done|]. split; [done|].
    destruct (phase_view _ _ _ _ _ Hp) as (_ & Hd & _). cbn [done_pulses]. rewrite Hd.
    by rewrite (proj2 (Nat.leb_gt _ _)), bool_decide_eq_false_2 by lia.
  - apply Forall_app in Hys as [Hys [Hy' _]%Forall_cons_iff]. destruct (IH Hys) as (p & Hp & Hle & Hpulses).
    destruct (phase_step dir (y_cfg y) w0 p _ y' Hfit Hwin Hy' Hp) as (p' & Hp' & Hle' & Hnext).
    assert (Hrun : world_run w0 (y :: ys ++ [y']) = world_step (world_run w0 (y :: ys)) y')
      by (rewrite app_comm_cons; unfold world_run; by rewrite foldl_app).
    exists p'. rewrite app_comm_cons, done_pulses_snoc, <- app_comm_cons, Hrun, Hpulses. destruct (phase_view _ _ _ _ _ Hp') as (_ & -> & _).
    rewrite prompt_cycles_app, length_app. cbn [length].
    assert (Hpr : (prompt_cycles [y'] <= 1)%nat /\ (prompt_cycles [y'] = 1%nat -> p' = S p)).
    { unfold prompt_cycles. rewrite filter_cons, filter_nil. case_decide; cbn [length]; split; auto; lia. }
    split; [done|]. split; [lia|].
    destruct (Nat.leb_spec (3 * elements (c_len (y_cfg y))) p), (Nat.leb_spec (3 * elements (c_len (y_cfg y))) p');
      case_bool_decide; try lia; specialize (Hnext (or_intror ltac:(done))); lia.
Qed.

(** C26. A transfer into the windows, in either direction, from an engine at
    rest, against an external memory that may stall any number of cycles:
    the engine is busy for at least three cycles per element and for no more
    than the first three per element in which the memory does not stall; when
    it is no longer busy all elements are across, the other memory is untouched
    and nothing else in this one has changed. [done] was up in exactly one clock
    then, and in none as long as the engine is busy; the engine is ready again
    one cycle later. A length of zero moves one element. *)
Theorem dma_transfers dir w0 y ys :
  at_rest w0 -> starts dir y -> windows_ok (y_cfg y) -> Forall undisturbed ys ->
  let c := y_cfg y in
  let n := elements (c_len c) in
  let w := world_run w0 (y :: ys) in
  ((length ys < 3 * n)%nat -> dma_busy (u_dma w.1) = true) /\
  ((3 * n <= prompt_cycles ys)%nat -> dma_busy (u_dma w.1) = false) /\
  (dma_busy (u_dma w.1) = false -> memories w = transferred dir c (memories w0) n) /\
  done_pulses w0 (y :: ys) = (if dma_busy (u_dma w.1) then 0 else 1)%nat /\
  ((3 * n < prompt_cycles ys)%nat -> at_rest w).
Proof.
  intros Hw0 Hs Hwin Hys c n w. destruct (transfer_phase dir w0 y ys Hw0 Hs Hwin Hys) as (p & Hp & Hle & Hpulses).
  destruct (phase_view _ _ _ _ _ Hp) as (Hb & _ & Hm & Hr). fold w in Hb, Hm, Hr. rewrite Hb. split_and!.
  - intros Hl. apply bool_decide_eq_true_2. unfold n, c in Hl. lia.
  - intros Hl. apply bool_decide_eq_false_2. unfold n, c in Hl. lia.
  - intros Hn%bool_decide_eq_false_1. apply Hm. lia.
  - rewrite Hpulses. destruct (Nat.leb_spec (3 * elements (c_len (y_cfg y))) p); case_bool_decide; (done || lia).
  - intros Hl. apply Hr. unfold n, c in Hl. lia.
Qed.

(** ** A local address below the windows *)

(** Somewhere in the elements up to [i0], of which a write-out cannot be read. *)
Definition before (dir : bool) (c : dma_cfg) (w0 : world) (i0 : nat) (w : world) : Prop :=
  let b := contents (u_bufs w0.1) in
  let m := ext_memory w0.2 in
  exists i k, ((i < i0)%nat \/ i = i0 /\ (dir = true -> k = 0%nat)) /\
    if dir then writing c b m i k w else reading c b m i k w.

Lemma before_step dir c w0 i0 w y :
  cfg_fits c -> (i0 < elements (c_len c))%nat -> ~ in_window (loc_at c i0) -> c_start (y_cfg y) = false ->
  before dir c w0 i0 w -> before dir c w0 i0 (world_step w y).
Proof.
  intros Hfit Hi0 Hout Hy (i & k & Hi & Hw). assert (Hn : (i < elements (c_len c))%nat) by lia.
  assert (Hdec : in_window (loc_at c i) \/ ~ in_window (loc_at c i)) by (unfold in_window; lia).
  assert (Hlt : in_window (loc_at c i) -> (i < i0)%nat) by (intros ?; destruct Hi as [|[-> _]]; done).
  assert (Hnext : forall j, (i < i0)%nat -> j = 0%nat -> (S i < i0)%nat \/ S i = i0 /\ (dir = true -> j = 0%nat)) by lia.
  unfold before. destruct dir.
  - pose proof (writing_step _ _ _ i k w y Hfit Hn Hy Hw) as Hs. destruct k as [|[|k]].
    + destruct Hs as [Hs1 Hs2], Hdec as [Hin|Hno]; [exists i, 1%nat|exists i, 0%nat]; auto.
    + exists i, 2%nat. split; [|done]. destruct Hi as [|[_ Hk]]; [by left|by specialize (Hk eq_refl)].
    + assert (i < i0)%nat by (destruct Hi as [|[_ Hk]]; [done|by specialize (Hk eq_refl)]).
      destruct (y_grant y); [|exists i, 2%nat; auto].
      rewrite decide_False in Hs by lia. exists (S i), 0%nat. auto.
  - pose proof (reading_step _ _ _ i k w y Hfit Hn Hy Hw) as Hs.
    assert (Hi' : forall j, (i < i0)%nat \/ i = i0 /\ (false = true -> j = 0%nat)) by (intros j; lia || (destruct Hi as [|[-> _]]; auto)).
    destruct k as [|[|k]]; [by eauto..|]. destruct Hs as [Hs1 Hs2], Hdec as [Hin|Hno]; [|by eauto].
    specialize (Hs2 Hin). rewrite decide_False in Hs2 by (specialize (Hlt Hin); lia).
    exists (S i), 0%nat. auto.
Qed.

Lemma start_before dir w0 y i0 : at_rest w0 -> starts dir y -> before dir (y_cfg y) w0 i0 (world_step w0 y).
Proof.
  intros Hw0 Hs. exists 0%nat, 0%nat. split; [lia|]. destruct dir.
  - destruct (start_write _ _ Hw0 Hs) as [(i & k & Hp & Hk & _ & Hw)|[[Hp _]|[Hp _]]]; [|unfold elements in *; lia..].
    by replace i with 0%nat in Hw by lia; replace k with 0%nat in Hw by lia.
  - destruct (start_read _ _ Hw0 Hs) as [(i & k & Hp & Hk & _ & Hw)|[[Hp _]|[Hp _]]]; [|unfold elements in *; lia..].
    by replace i with 0%nat in Hw by lia; replace k with 0%nat in Hw by lia.
Qed.

Lemma before_view dir c w0 i0 w :
  before dir c w0 i0 w ->
  dma_busy (u_dma w.1) = true /\ dma_done (u_dma w.1) = false /\ (i0 = 0%nat -> memories w = memories w0).
Proof.
  intros (i & k & Hi & Hw). unfold dma_busy, dma_done, rd_busy, rd_done, wr_busy, wr_done, memories.
  destruct dir; destruct Hw as ((Hst & Hb & Hm) & _ & Hk).
  - rewrite Hst. destruct k as [|[|k]]; [|destruct Hk as (Hk & _)..]; rewrite Hk; (split_and!; [done..|]);
      intros ->; assert (i = 0%nat) as -> by lia; destruct Hm as [Hm _]; by rewrite Hb, Hm.
  - rewrite Hst. destruct k as [|[|k]]; destruct Hk as (-> & _); (split_and!; [done..|]);
      intros ->; assert (i = 0%nat) as -> by lia; by rewrite Hb, Hm.
Qed.

(** A transfer that meets a local address below the buffer windows (which
    can also happen by wrapping at 20 bits) never ends: the router grants
    nothing there, so the engine stays busy for ever, STATUS never shows IDLE
    again, and only a reset helps. *)
Theorem dma_below_windows_hangs dir w0 y ys i0 :
  at_rest w0 -> starts dir y -> (i0 < elements (c_len (y_cfg y)))%nat -> ~ in_window (loc_at (y_cfg y) i0) ->
  Forall (fun y => c_start (y_cfg y) = false) ys ->
  let w := world_run w0 (y :: ys) in
  dma_busy (u_dma w.1) = true /\ dma_done (u_dma w.1) = false.
Proof.
  intros Hw0 Hs Hi0 Hout Hys w. assert (Hs' := Hs). destruct Hs' as (_ & _ & Hfit & _).
  assert (Hb : before dir (y_cfg y) w0 i0 w).
  { assert (H0 := start_before dir w0 y i0 Hw0 Hs). unfold w, world_run. cbn [foldl]. revert H0.
    generalize (world_step w0 y). induction Hys as [|y' ys Hy' _ IH]; intros w1 H1; [done|].
    apply IH. by apply before_step. }
  destruct (before_view _ _ _ _ _ Hb) as (? & ? & _). done.
Qed.

(** ** Both engines at once *)

(** The reader waits for an answer nobody owes it. *)
Definition jammed (w : world) : Prop :=
  rd_st (u_reader (u_dma w.1)) = RD_EXT_WAIT /\ ext_rd_pending w.2 = false /\
  wr_st (u_writer (u_dma w.1)) <> WR_LOC_WAIT /\ wr_st (u_writer (u_dma w.1)) <> WR_EXT_WR.

Lemma jammed_step w y :
  c_start (y_cfg y) = false -> jammed w -> jammed (world_step w y) /\ ext_memory (world_step w y).2 = ext_memory w.2.
Proof.
  intros Hs (Hr & Hp & Hw1 & Hw2). destruct w as [[[[st x] [wst wx]] bufs] m], y as [yc host g v]. cbn in *.
  subst st. unfold jammed. destruct wst; try done; clocked Hp Hs; by split_and!.
Qed.

Lemma jammed_run w ys :
  Forall (fun y => c_start (y_cfg y) = false) ys -> jammed w ->
  jammed (world_run w ys) /\ ext_memory (world_run w ys).2 = ext_memory w.2.
Proof.
  intros Hys. revert w. induction Hys as [|y ys Hy _ IH]; intros w Hw; [done|].
  destruct (jammed_step w y Hy Hw) as [Hw' Hm]. destruct (IH _ Hw') as [Hj He].
  split; [done|]. unfold world_run in *. cbn [foldl]. by rewrite He.
Qed.

Definition both (rs : rd_state) (rx : xfer) (ws : wr_state) (wx : xfer) (b : buffers) (m : ext_mem) : world :=
  (mk_memsys (mk_dma (mk_reader rs rx) (mk_writer ws wx)) b, m).

(** No start, no stall. *)
Definition runs_on (y : cycle) : Prop := c_start (y_cfg y) = false /\ y_grant y = true /\ y_answer y = true.

Definition idle_port : port := mk_port 0 0 false false.

Lemma both_begin w y :
  at_rest w -> starts true y ->
  exists rx wx b, world_step w y = both RD_IDLE rx WR_LOC_RD (latch (y_cfg y) wx) b
    (mk_ext_mem (ext_memory w.2) false (ext_rd_addr_pending w.2)) /\ contents b = contents (u_bufs w.1).
Proof.
  intros ((Hr & Hw) & Hp) (Hs & Hd & _ & Hreq).
  destruct w as [[[[st x] [wst wx]] bufs] m], y as [yc host g v]. cbn in *. subst st wst.
  exists x, wx, (buffers_step bufs host None). split; [|by apply idle_edge].
  unfold both. clocked Hp Hs. by rewrite Hd.
Qed.

(** The five cycles after a read-in starts behind a write-out. *)
Lemma both_start rx wx b m y :
  ext_rd_pending m = false -> starts false y -> in_window (loc_addr_r wx) ->
  exists b', world_step (both RD_IDLE rx WR_LOC_RD wx b m) y =
    both RD_EXT_RD (latch (y_cfg y) rx) WR_LOC_WAIT wx b' (mk_ext_mem (ext_memory m) false (ext_rd_addr_pending m)) /\
    host_rvalid b' = true /\ host_rdata b' = peek (contents b) (loc_addr_r wx).
Proof.
  intros Hp (Hs & Hd & _) Hin. destruct (read_edge b (loc_addr_r wx) 0) as (_ & Hg & Hok & _).
  destruct (Hok Hin) as [Hv Hr]. rewrite Hv in Hg. unfold both.
  clocked Hp Hs. rewrite Hg, Hd. cbn -[buffers_step]. eexists. split; [reflexivity|]. by rewrite <- Hr.
Qed.

Lemma both_overtake rx wx b m y :
  ext_rd_pending m = false -> runs_on y -> host_rvalid b = true ->
  world_step (both RD_EXT_RD rx WR_LOC_WAIT wx b m) y =
    both RD_EXT_WAIT rx WR_EXT_WR (take_data (host_rdata b) wx) (buffers_step b idle_port None)
      (mk_ext_mem (ext_memory m) true (ext_addr_r rx)).
Proof. intros Hp (Hs & Hg & _) Hv. unfold both. clocked Hp Hs. by rewrite Hg, Hv. Qed.

Lemma both_answer rx wx b m y :
  ext_rd_pending m = true -> runs_on y ->
  world_step (both RD_EXT_WAIT rx WR_EXT_WR wx b m) y =
    both RD_LOC_WR (take_data (ext_load (ext_memory m) (ext_rd_addr_pending m)) rx) WR_EXT_WR wx
      (buffers_step b idle_port None) (mk_ext_mem (ext_memory m) false (ext_rd_addr_pending m)).
Proof. intros Hp (Hs & _ & Ha). unfold both. clocked Hp Hs. by rewrite Ha. Qed.

Lemma both_deliver rx wx b m y :
  ext_rd_pending m = false -> runs_on y -> in_window (loc_addr_r rx) -> last_one rx = false ->
  exists b', world_step (both RD_LOC_WR rx WR_EXT_WR wx b m) y =
    both RD_EXT_RD (advance rx) WR_EXT_WR wx b' (mk_ext_mem (ext_memory m) false (ext_rd_addr_pending m)).
Proof.
  intros Hp (Hs & _) Hin%(write_granted _ (data_r rx) true) Hl. unfold both. clocked Hp Hs.
  rewrite Hin, Hl. eexists. reflexivity.
Qed.

(** The reader's request carries the writer's write enable and data. *)
Lemma both_collide rx wx b m y :
  ext_rd_pending m = false -> runs_on y ->
  exists b', world_step (both RD_EXT_RD rx WR_EXT_WR wx b m) y =
    both RD_EXT_WAIT rx (if last_one wx then WR_DONE else WR_LOC_RD) (advance wx) b'
      (mk_ext_mem (<[ext_addr_r rx := data_r wx]> (ext_memory m)) false (ext_rd_addr_pending m)).
Proof. intros Hp (Hs & Hg & _). unfold both. clocked Hp Hs. rewrite Hg. eexists. reflexivity. Qed.

(** Two transfers at once, in opposite directions, which neither the
    registers nor the software rules out (after a time-out the driver lets the
    next one start): when a read-in starts right behind a write-out, the
    request of the reader for its second element goes out with the write enable
    and the data of the writer, so a byte of the {e source} of the read-in is
    overwritten in the external memory; the reader then waits for an answer
    that never comes, and the engine is busy for ever. *)
Theorem opposite_start_corrupts w0 yw yr y1 y2 y3 y4 zs :
  at_rest w0 -> starts true yw -> starts false yr ->
  in_window (loc_at (y_cfg yw) 0) -> in_window (loc_at (y_cfg yr) 0) -> 2 <= c_len (y_cfg yr) ->
  Forall runs_on [y1; y2; y3; y4] -> Forall (fun y => c_start (y_cfg y) = false) zs ->
  let w := world_run w0 ([yw; yr; y1; y2; y3; y4] ++ zs) in
  ext_memory w.2 = <[ext_at (y_cfg yr) 1 := peek (contents (u_bufs w0.1)) (loc_at (y_cfg yw) 0)]> (ext_memory w0.2) /\
  dma_busy (u_dma w.1) = true.
Proof.
  intros Hw0 Hsw Hsr Hinw Hinr Hlen Hon Hzs w. unfold w, world_run. rewrite foldl_app. cbn [foldl]. clear w.
  repeat match goal with H : Forall runs_on (_ :: _) |- _ => apply Forall_cons in H as [? H] end.
  assert (Hfw : cfg_fits (y_cfg yw)) by apply Hsw. assert (Hfr : cfg_fits (y_cfg yr)) by apply Hsr.
  destruct (both_begin w0 yw Hw0 Hsw) as (rx & wx & b & -> & Hc).
  destruct (at_element_latch _ wx Hfw) as (_ & Hl & _). rewrite <- Hl in Hinw.
  destruct (both_start rx (latch (y_cfg yw) wx) b (mk_ext_mem (ext_memory w0.2) false (ext_rd_addr_pending w0.2))
    yr eq_refl Hsr Hinw) as (b1 & -> & Hv & Hd).
  rewrite both_overtake, both_answer by done.
  assert (Hat := at_element_latch _ rx Hfr).
  apply (at_element_take _ _ (ext_load (ext_memory w0.2) (ext_addr_r (latch (y_cfg yr) rx)))) in Hat.
  assert (Hn : (0 < elements (c_len (y_cfg yr)))%nat) by (unfold elements; lia).
  destruct (at_element_advance _ 0 _ Hfr Hn Hat) as [Hlast (He & _)].
  rewrite bool_decide_eq_false_2 in Hlast by (unfold elements; lia).
  destruct (both_deliver (take_data (ext_load (ext_memory w0.2) (ext_addr_r (latch (y_cfg yr) rx))) (latch (y_cfg yr) rx))
    (take_data (host_rdata b1) (latch (y_cfg yw) wx))
    (buffers_step (buffers_step b1 idle_port None) idle_port None)
    (mk_ext_mem (ext_memory w0.2) false (ext_addr_r (latch (y_cfg yr) rx))) y3) as [b2 Hb2];
    [done|done|by destruct Hat as (_ & -> & _)|done|].
  cbn [ext_memory ext_rd_addr_pending] in *. rewrite Hb2.
  match goal with |- context [world_step (both _ ?rx1 _ ?wx1 _ ?m1) y4] =>
    destruct (both_collide rx1 wx1 b2 m1 y4) as [b3 ->]; [done|done|] end.
  match goal with |- context [foldl _ ?w1 zs] => assert (Hj : jammed w1) end.
  { clear. split_and!; [done|done|cbn -[last_one]; by destruct (last_one _)..]. }
  destruct (jammed_run _ zs Hzs Hj) as [(Hst & _) Hm]. unfold world_run in *. split.
  - rewrite Hm. cbn [both snd ext_memory]. rewrite He. cbn [data_r take_data].
    by rewrite Hd, Hl, Hc.
  - unfold dma_busy, rd_busy. by rewrite Hst.
Qed.

(** ** The memories after a transfer, cell by cell *)

Lemma window_bounds r : 0 <= window_base r /\ window_base r + window_size r <= 2 ^ MMIO_ADDR_W.
Proof. by destruct r. Qed.

(** A transfer that stays inside the window of one bank. *)
Definition inside (c : dma_cfg) (r : region) (o : Z) : Prop :=
  c_loc c = window_base r + o /\ 0 <= o /\ o + Z.of_nat (elements (c_len c)) <= window_size r.

Lemma loc_at_inside c r o i :
  inside c r o -> (i < elements (c_len c))%nat -> loc_at c i = window_base r + (o + Z.of_nat i).
Proof.
  intros (Hl & Ho & Hn) Hi. pose proof (window_bounds r). unfold loc_at. rewrite Hl.
  rewrite wrap_small; [lia|]. unfold fits. lia.
Qed.

Lemma window_in r i : 0 <= i < window_size r -> in_window (window_base r + i).
Proof. unfold in_window, window_base. destruct r; cbn; lia. Qed.

Lemma inside_windows c r o : inside c r o -> windows_ok c.
Proof.
  intros Hin i Hi. rewrite (loc_at_inside _ _ _ _ Hin Hi). destruct Hin as (_ & Ho & Hn). apply window_in. lia.
Qed.

Lemma peek_copied_in c b m r o r' j k :
  inside c r o -> 0 <= j < window_size r' -> (k <= elements (c_len c))%nat ->
  peek (copied_in c b m k) (window_base r' + j) =
  if decide (r' = r /\ o <= j < o + Z.of_nat k)
  then kept (window_base r + j) (ext_load m (ext_at c (Z.to_nat (j - o)))) else peek b (window_base r' + j).
Proof.
  intros Hin Hj. induction k as [|k IH]; intros Hk.
  - rewrite decide_False by lia. done.
  - assert (Hin' := Hin). destruct Hin' as (_ & Ho & Hn).
    rewrite copied_in_S, (loc_at_inside _ _ _ k Hin) by lia.
    rewrite peek_poke by (apply window_in; lia). rewrite IH by lia.
    rewrite (cell_of_inside r), (cell_of_inside r') by lia.
    destruct (decide (Some (r, o + Z.of_nat k) = Some (r', j))) as [[= <- <-]|Hne].
    + rewrite decide_True by (split; [done|lia]). do 3 f_equal. lia.
    + destruct (decide (r' = r /\ o <= j < o + Z.of_nat k)) as [Hd|Hd];
        [by rewrite decide_True by (destruct Hd; split; [done|lia])|]. rewrite decide_False; [done|].
      intros [-> Hle]. assert (o + Z.of_nat k <> j) by congruence. apply Hd. split; [done|lia].
Qed.

Lemma ext_at_inj c i j :
  (i < elements (c_len c))%nat -> (j < elements (c_len c))%nat -> fits 16 (c_len c) ->
  ext_at c i = ext_at c j -> i = j.
Proof.
  intros Hi Hj Hn. rewrite fits16_iff in Hn. unfold elements, ext_at, wrap, EXT_ADDR_W in *. intros Heq.
  assert (Hm : (Z.of_nat i - Z.of_nat j) mod 2 ^ 32 = 0).
  { replace (Z.of_nat i - Z.of_nat j) with ((c_ext c + Z.of_nat i) - (c_ext c + Z.of_nat j)) by lia.
    rewrite Zminus_mod, Heq, Z.sub_diag. done. }
  apply Z.mod_divide in Hm as [q Hq]; [|done]. change (2 ^ 32) with 4294967296 in Hq. nia.
Qed.

Lemma load_copied_out c b m a k :
  fits 16 (c_len c) -> (k <= elements (c_len c))%nat ->
  (forall i, (i < k)%nat -> ext_at c i = a -> ext_load (copied_out c b m k) a = peek b (loc_at c i)) /\
  ((forall i, (i < k)%nat -> ext_at c i <> a) -> ext_load (copied_out c b m k) a = ext_load m a).
Proof.
  intros Hn Hk. unfold copied_out. split.
  - intros i Hi <-. apply (load_inserts (ext_at c) (fun j => peek b (loc_at c j))); [apply elem_of_seq; lia|].
    intros j Hj%elem_of_seq He. by rewrite (ext_at_inj c j i) by (done || lia).
  - intros Ha. apply load_inserts_other. intros j Hj%elem_of_seq. apply Ha. lia.
Qed.

(** Out and back: bytes written to the external memory and read from there
    into a window of the same or another bank arrive unchanged, as far as the
    cells there are wide enough; all other cells keep their contents. *)
Theorem dma_round_trip c c' b m r o r' o' s j :
  fits 16 (c_len c) -> inside c r o -> inside c' r' o' -> c_ext c' = c_ext c -> c_len c' = c_len c ->
  0 <= j < window_size s ->
  let n := elements (c_len c) in
  peek (copied_in c' b (copied_out c b m n) n) (window_base s + j) =
  if decide (s = r' /\ o' <= j < o' + Z.of_nat n)
  then kept (window_base r' + j) (peek b (window_base r + (o + (j - o')))) else peek b (window_base s + j).
Proof.
  intros Hn Hin Hin' He Hl Hj n. rewrite (peek_copied_in _ _ _ r' o') by (done || unfold n; by rewrite ?Hl).
  case_decide as Hd; [|done]. f_equal.
  assert (Hi : (Z.to_nat (j - o') < n)%nat) by lia.
  assert (Hat : ext_at c' (Z.to_nat (j - o')) = ext_at c (Z.to_nat (j - o'))) by (unfold ext_at; by rewrite He).
  rewrite Hat. destruct (load_copied_out c b m (ext_at c (Z.to_nat (j - o'))) n Hn) as [Hload _]; [done|].
  rewrite (Hload _ Hi eq_refl), (loc_at_inside _ _ _ _ Hin Hi). do 2 f_equal. lia.
Qed.

(** ** Witnesses *)

(** Two bytes from the external memory to the activation buffer and back, by
    an external memory that stalls every other cycle. *)
Definition ex_cfg (dir : bool) : dma_cfg := mk_cfg 0x100 (window_base ACT_BUF + 3) 2 true dir.
Definition ex_start (dir : bool) : cycle := mk_cycle (ex_cfg dir) no_request true true.
Definition ex_cycle (prompt : bool) : cycle := mk_cycle (mk_cfg 0x200 0 7 false false) no_request prompt true.
Definition ex_cycles (k : nat) : list cycle := concat (replicate k [ex_cycle false; ex_cycle true]).

Definition ex_world : world := (mem_zero, mk_ext_mem (<[0x100 := 17]> (<[0x101 := 0x1234]> ∅)) false 0).

Lemma ex_inside dir : inside (ex_cfg dir) ACT_BUF 3.
Proof. by destruct dir. Qed.

Lemma ex_undisturbed k : Forall undisturbed (ex_cycles k).
Proof. induction k as [|k IH]; [done|]. by repeat (apply Forall_cons_2; [done|]). Qed.

Lemma ex_starts dir : starts dir (ex_start dir).
Proof. by destruct dir. Qed.

Theorem dma_transfers_witness :
  let w := world_run ex_world (ex_start false :: ex_cycles 8) in
  dma_busy (u_dma w.1) = false /\
  memories w = transferred false (ex_cfg false) (memories ex_world) 2 /\
  peek (memories w).1 0x20003 = 17 /\ peek (memories w).1 0x20004 = 0x34 /\
  done_pulses ex_world (ex_start false :: ex_cycles 8) = 1%nat.
Proof.
  intros w.
  destruct (dma_transfers false ex_world (ex_start false) (ex_cycles 8) ltac:(done) (ex_starts false)
    (inside_windows _ _ _ (ex_inside false)) (ex_undisturbed 8)) as (_ & Hb & Hm & Hd & _).
  specialize (Hb ltac:(by vm_compute; repeat constructor)). split; [exact Hb|]. split; [exact (Hm Hb)|].
  split; [unfold w; vm_compute; reflexivity|]. split; [unfold w; vm_compute; reflexivity|].
  unfold w in Hb. rewrite Hd, Hb. exact eq_refl.
Defined.

(** The first byte goes to the last address of the window space and wraps. *)
Definition ex_wrapping : cycle := mk_cycle (mk_cfg 0x100 0xFFFFF 2 true false) no_request true true.

Theorem dma_below_windows_hangs_witness :
  dma_busy (u_dma (world_run ex_world (ex_wrapping :: ex_cycles 1000)).1) = true.
Proof.
  apply (dma_below_windows_hangs false ex_world ex_wrapping (ex_cycles 1000) 1).
  - done.
  - done.
  - vm_compute. lia.
  - by vm_compute.
  - eapply Forall_impl; [apply ex_undisturbed|]. by intros y [Hs _].
Defined.

Definition ex_opposite : cycle := mk_cycle (mk_cfg 0x100 0x10000 2 true false) no_request true true.
Definition ex_outward : cycle := mk_cycle (mk_cfg 0x200 0x20000 4 true true) no_request true true.

Theorem opposite_start_corrupts_witness :
  let w := world_run ex_world ([ex_outward; ex_opposite] ++ replicate 4 (ex_cycle true) ++ ex_cycles 50) in
  ext_memory w.2 = <[0x101 := 0]> (ext_memory ex_world.2) /\ ext_load (ext_memory ex_world.2) 0x101 = 0x1234 /\
  dma_busy (u_dma w.1) = true.
Proof.
  destruct (opposite_start_corrupts ex_world ex_outward ex_opposite (ex_cycle true) (ex_cycle true) (ex_cycle true)
    (ex_cycle true) (ex_cycles 50)) as [Hm Hb]; [done..|by vm_compute|by vm_compute|done| | |].
  - by repeat (apply Forall_cons_2; [done|]).
  - eapply Forall_impl; [apply ex_undisturbed|]. by intros y [Hs _].
  - split; [exact Hm|]. split; [done|exact Hb].
Defined.
