(* ===== verification/BackendMem.v ===== *)
(** * The backends' side of the memories

    The ports through which a compute backend reads and writes the buffers of
    [Mem]: port B of [mem_macro_1rw1r_wrap] in [npu_weight_buffer] and
    [npu_act_buffer], and the arbitration of [npu_buffer_router] that puts
    weight and bias reads on one port. *)

From S2P Require Import Prelude Regs Mem.
From stdpp Require Import gmap.

Open Scope Z_scope.

Definition ADDR_W : Z := 16.

(** ** Port B *)

(** The output register and the flag that raises [rvalid] the cycle after. *)
Record rport := mk_rport { b_rdata : Z; be_rd_r : bool }.

Definition rport_step (m : cells) (r : rport) (req : bool) (addr : Z) : rport :=
  mk_rport (if req then cell m addr else b_rdata r) req.

(** ** npu_buffer_router, the backend's side *)

(** What the selected backend asks for in a cycle. *)
Record be_request := mk_be_request {
  be_wt_addr : Z; be_wt_req : bool; be_act_rd_addr : Z; be_act_rd_req : bool;
  be_act_write : option (Z * Z); be_bias_addr : Z; be_bias_req : bool }.

(** What it gets: grants in the same cycle, data with [rvalid]. *)
Record rd_answer := mk_rd_answer { rd_gnt : bool; rd_rvalid : bool; rd_rdata : Z }.

(** Both ports B, and the registers of the bias arbitration. *)
Record router := mk_router {
  wt_port_b : rport; act_port_b : rport;
  bias_pending_r : bool; bias_addr_pending_r : Z; bias_was_sel : bool }.

Definition wt_issue_bias (s : router) (q : be_request) : bool :=
  bias_pending_r s || (be_bias_req q && negb (be_wt_req q)).

Definition wt_be_addr (s : router) (q : be_request) : Z :=
  wrap SRAM_ADDR_W
    (if wt_issue_bias s q then if bias_pending_r s then bias_addr_pending_r s else be_bias_addr q
     else be_wt_addr q).

Definition wt_be_req (s : router) (q : be_request) : bool := be_wt_req q || wt_issue_bias s q.

Definition be_wt (s : router) (q : be_request) : rd_answer :=
  mk_rd_answer (wt_be_req s q && negb (wt_issue_bias s q))
    (be_rd_r (wt_port_b s) && negb (bias_was_sel s)) (b_rdata (wt_port_b s)).

Definition be_bias (s : router) (q : be_request) : rd_answer :=
  mk_rd_answer (wt_be_req s q && wt_issue_bias s q)
    (be_rd_r (wt_port_b s) && bias_was_sel s) (b_rdata (wt_port_b s)).

Definition be_act_rd (s : router) (q : be_request) : rd_answer :=
  mk_rd_answer (be_act_rd_req q) (be_rd_r (act_port_b s)) (b_rdata (act_port_b s)).

Definition be_act_wr_gnt (q : be_request) : bool := bool_decide (is_Some (be_act_write q)).

(** One clock of the backend's side, on the buffers of that clock. *)
Definition router_step (s : router) (b : buffers) (q : be_request) : router :=
  mk_router
    (rport_step (mem_cells (u_wt_buf b)) (wt_port_b s) (wt_be_req s q) (wt_be_addr s q))
    (rport_step (mem_cells (u_act_buf b)) (act_port_b s) (be_act_rd_req q) (wrap (SRAM_ADDR_W + 1) (be_act_rd_addr q)))
    (if wt_be_req s q && wt_issue_bias s q then false
     else if be_bias_req q && be_wt_req q && negb (bias_pending_r s) then true else bias_pending_r s)
    (if be_bias_req q && be_wt_req q && negb (bias_pending_r s) then wrap SRAM_ADDR_W (be_bias_addr q)
     else bias_addr_pending_r s)
    (if wt_be_req s q then wt_issue_bias s q else bias_was_sel s).

(** Reset clears the flags; the memories' output registers have none. *)
Definition rport_reset (r : rport) : rport := mk_rport (b_rdata r) false.
Definition router_reset (s : router) : router :=
  mk_router (rport_reset (wt_port_b s)) (rport_reset (act_port_b s)) false 0 false.

(** Requests that never ask for a weight and a bias in the same cycle leave no
    bias read behind. *)
Lemma router_no_pending s b q :
  bias_pending_r s = false -> be_bias_req q && be_wt_req q = false -> bias_pending_r (router_step s b q) = false.
Proof.
  intros Hp Hq. unfold router_step. cbn [bias_pending_r]. rewrite Hq, Hp. by repeat case_match.
Qed.

(** No bias arrives. *)
Definition bias_still (s : router) : Prop := be_rd_r (wt_port_b s) && bias_was_sel s = false.

Lemma router_still s b q : bias_pending_r s = false -> be_bias_req q = false -> bias_still (router_step s b q).
Proof.
  intros Hp Hq. unfold bias_still, router_step, wt_be_req, wt_issue_bias. cbn. rewrite Hp, Hq. cbn. rewrite orb_false_r.
  by destruct (be_wt_req q).
Qed.

(** ** What the host does meanwhile *)

(** A cycle in which the host writes nothing. *)
Definition no_write (p : port) : Prop := p_req p && p_wr p = false.

Lemma read_only_step b p :
  no_write p -> contents (buffers_step b p None) = contents b.
Proof.
  unfold no_write, buffers_step, act_step, bank_step, contents, macro_step. intros Hp.
  destruct (p_req p), (p_wr p), (host_sel_wt (p_addr p)), (host_sel_act (p_addr p)), (host_sel_psum (p_addr p)); done.
Qed.

(** The backend's write goes through whatever the host asks for. *)
Lemma backend_write_step b p a v :
  no_write p ->
  contents (buffers_step b p (Some (a, v))) =
  mk_sram (wt_mem (contents b)) (<[wrap (SRAM_ADDR_W + 1) a := wrap DATA_W v]> (act_mem (contents b)))
    (psum_mem (contents b)).
Proof.
  unfold no_write, buffers_step, act_step, bank_step, contents, macro_step. intros Hp.
  destruct (p_req p), (p_wr p), (host_sel_wt (p_addr p)), (host_sel_act (p_addr p)), (host_sel_psum (p_addr p)); done.
Qed.

(** An address of the command, in a bank of [2 ^ size] cells. *)
Lemma cell_address base i size : 0 <= base + i < 2 ^ size -> 0 <= size <= 16 ->
  wrap size (wrap ADDR_W (base + i)) = base + i.
Proof.
  intros Hi Hs. assert (2 ^ size <= 2 ^ 16) by (apply Z.pow_le_mono_r; lia).
  rewrite (wrap_small ADDR_W); [by apply wrap_small|]. unfold fits, ADDR_W. lia.
Qed.
