(* ===== verification/Backend.v ===== *)
(** * What a backend is to the core

    A compute backend of [npu_core] by its ports: a command with [valid] and
    [ready], requests to the memories of [BackendMem] with their answers,
    [busy] and [done]. The class [Backend] holds its clock edge and its outputs,
    [BackendLaws] the contract that the core needs; a backend whose control
    follows a schedule of stages keeps it ([staged] below). *)

From S2P Require Import Prelude Regs CArith Mem BackendMem.

Open Scope Z_scope.

Class Backend (B K : Type) := {
  (* the command offered, the answers on the three read ports, the write grant *)
  bk_step : B -> option K -> rd_answer -> rd_answer -> rd_answer -> bool -> B;
  bk_request : B -> be_request;
  bk_ready : B -> bool;
  bk_busy : B -> bool;
  bk_done : B -> bool;
  bk_reset : B }.

(** ** Signed bytes *)

Lemma i8_u8 x : fits_i8 x -> i8 (u8 x) = x.
Proof.
  intros Hx. rewrite <- (i8_id x Hx) at 2. unfold i8, wrap. change (2 ^ 8) with 256. by rewrite Zplus_mod_idemp_l.
Qed.

(** The two comparisons and the truncation are saturation. *)
Lemma saturated z :
  (if 127 <? z then 127 else if z <? -128 then 0x80 else wrap DATA_W z) = u8 (Z.max (-128) (Z.min 127 z)).
Proof.
  destruct (Z.ltb_spec 127 z); [by replace (Z.max _ _) with 127 by lia|].
  destruct (Z.ltb_spec z (-128)); [by replace (Z.max _ _) with (-128) by lia|].
  by replace (Z.max _ _) with z by lia.
Qed.

(** ** Requests *)

(** A request for nothing. *)
Definition asks_nothing (q : be_request) : Prop :=
  be_wt_req q = false /\ be_act_rd_req q = false /\ be_bias_req q = false /\ be_act_write q = None.

(** Requests for nothing are all the same to the router. *)
Lemma router_step_nothing r b q q' : asks_nothing q -> asks_nothing q' -> router_step r b q = router_step r b q'.
Proof.
  intros (Hw & Ha & Hb & _) (Hw' & Ha' & Hb' & _). unfold router_step, wt_be_req, wt_be_addr, wt_issue_bias, rport_step.
  rewrite Hw, Ha, Hb, Hw', Ha', Hb'. by destruct (bias_pending_r r).
Qed.

(** ** A backend on the memories *)

Section backend.
Context {B K : Type} {BK : Backend B K}.

Abbreviation side := (B * router)%type.
Abbreviation world := (side * buffers)%type.

(** One clock, with the command offered and the host's request. *)
Definition side_step (s : side) (cmd : option K) (b : buffers) : side :=
  let q := bk_request s.1 in
  (bk_step s.1 cmd (be_act_rd s.2 q) (be_wt s.2 q) (be_bias s.2 q) (be_act_wr_gnt q), router_step s.2 b q).

Definition world_step (w : world) (cmd : option K) (host : port) : world :=
  (side_step w.1 cmd w.2, buffers_step w.2 host (be_act_write (bk_request w.1.1))).

(** No bias read is pending. *)
Definition no_bias (s : side) : Prop := bias_pending_r s.2 = false.

Definition bk_run (w : world) (ins : list (option K * port)) : world :=
  foldl (fun w x => world_step w x.1 x.2) w ins.

Lemma bk_run_snoc w ins x : bk_run w (ins ++ [x]) = world_step (bk_run w ins) x.1 x.2.
Proof. unfold bk_run. by rewrite foldl_app. Qed.

Definition only_reads (ins : list (option K * port)) : Prop := Forall (fun x => no_write x.2) ins.

(** Without a write the buffers are the host's. *)
Lemma world_quiet w cmd host :
  no_write host -> be_act_write (bk_request w.1.1) = None -> contents (world_step w cmd host).2 = contents w.2.
Proof. intros Hh Hq. unfold world_step. cbn [snd]. rewrite Hq. by apply read_only_step. Qed.
End backend.

(** ** The contract *)

Class BackendLaws {B K} (BK : Backend B K) := {
  bk_cycles : K -> nat;
  bk_runnable : K -> Prop;
  bk_rest : B -> Prop;
  bk_runs : K -> nat -> B * router -> Prop;
  rest_view b : bk_rest b -> bk_busy b = false /\ bk_done b = false /\ bk_ready b = true /\ asks_nothing (bk_request b);
  rest_deaf b cmd a w i g a' w' i' g' : bk_rest b -> rd_rvalid i = false -> rd_rvalid i' = false ->
    bk_step b cmd a w i g = bk_step b cmd a' w' i' g';
  rest_stays b a w i g : bk_rest b -> bk_rest (bk_step b None a w i g);
  runs_no_bias c n s : bk_runs c n s -> no_bias s /\ be_bias_req (bk_request s.1) = false;
  bk_starts c s b : bk_rest s.1 -> no_bias s -> bk_runnable c -> bk_runs c (bk_cycles c) (side_step s (Some c) b);
  bk_runs_view c n s : bk_runs c n s -> bk_busy s.1 = true /\ bk_done s.1 = bool_decide (n = 0%nat);
  bk_runs_step c n s cmd b : bk_runs c n s ->
    match n with
    | O => bk_rest (side_step s cmd b).1 /\ no_bias (side_step s cmd b)
    | S m => bk_runs c m (side_step s cmd b)
    end;
  reset_rest : bk_rest bk_reset }.

(** From rest through a command, whatever other commands are offered and
    whatever the host reads meanwhile. *)
Section command.
Context {B K : Type} {BK : Backend B K} {BL : BackendLaws BK}.

(** Ready for a command. *)
Definition at_rest (s : B * router) : Prop := bk_rest s.1 /\ no_bias s.

Lemma command_runs c w host ins :
  at_rest w.1 -> bk_runnable c -> (length ins <= bk_cycles c)%nat ->
  bk_runs c (bk_cycles c - length ins) (bk_run (world_step w (Some c) host) ins).1.
Proof using Type.
  intros [Hr Hb] Hc. induction ins as [|x ins IH] using rev_ind; intros Hn.
  - rewrite Nat.sub_0_r. by apply bk_starts.
  - rewrite length_app, Nat.add_1_r in *. rewrite bk_run_snoc. specialize (IH ltac:(lia)).
    replace (bk_cycles c - length ins)%nat with (S (bk_cycles c - S (length ins))) in IH by lia.
    by apply (bk_runs_step c _ _ x.1 (bk_run (world_step w (Some c) host) ins).2) in IH.
Qed.

Lemma command_view c w host ins :
  at_rest w.1 -> bk_runnable c -> (length ins <= bk_cycles c)%nat ->
  let w' := bk_run (world_step w (Some c) host) ins in
  bk_busy w'.1.1 = true /\ bk_done w'.1.1 = bool_decide (length ins = bk_cycles c).
Proof using Type.
  intros Hw Hc Hn. destruct (bk_runs_view _ _ _ (command_runs c w host ins Hw Hc Hn)) as [Hb Hd].
  cbv zeta. rewrite Hb, Hd. split; [done|]. apply bool_decide_ext. lia.
Qed.

Lemma command_ends c w host ins :
  at_rest w.1 -> bk_runnable c -> length ins = S (bk_cycles c) ->
  at_rest (bk_run (world_step w (Some c) host) ins).1.
Proof using Type.
  intros Hw Hc Hn. destruct ins as [|x ins _] using rev_ind; [done|].
  rewrite length_app, Nat.add_1_r in Hn. injection Hn as Hn. rewrite bk_run_snoc.
  assert (Hr := command_runs c w host ins Hw Hc ltac:(lia)). rewrite Hn, Nat.sub_diag in Hr.
  exact (bk_runs_step c 0 _ x.1 (bk_run (world_step w (Some c) host) ins).2 Hr).
Qed.
End command.

(** What a command does to the buffers, for the host that does not write
    meanwhile. *)
Class BackendEffect {B K} {BK : Backend B K} (BL : BackendLaws BK) := {
  bk_effect : K -> sram -> sram;
  effect_law c m w host ins :
    at_rest w.1 -> contents w.2 = m -> bk_runnable c -> no_write host -> only_reads ins ->
    length ins = S (bk_cycles c) ->
    contents (bk_run (world_step w (Some c) host) ins).2 = bk_effect c m }.

(** ** Backends that go through stages

    The stages of a command follow each other whatever the data are; [finish]
    is the one with [done], [n] clocks after the first. *)
Section staged.
Context {B K : Type} {BK : Backend B K} {St : Type}.
Context (next : St -> St) (start finish : St) (n : nat) (in_stage : St -> B * router -> Prop).

Definition stage_at (T : nat) : St := Nat.iter T next start.

Lemma stage_at_S T : stage_at (S T) = next (stage_at T).
Proof. unfold stage_at. by rewrite Nat.iter_succ. Qed.

Lemma stage_at_add T k : stage_at (T + k) = Nat.iter k next (stage_at T).
Proof. unfold stage_at. by rewrite (Nat.add_comm T), Nat.iter_add. Qed.

Hypothesis Hfinish : stage_at n = finish.
Hypothesis Hview : forall T s, (T <= n)%nat -> in_stage (stage_at T) s ->
  bk_busy s.1 = true /\ bk_done s.1 = bool_decide (T = n).
Hypothesis Hstep : forall T s cmd b, (T < n)%nat -> in_stage (stage_at T) s -> in_stage (stage_at (S T)) (side_step s cmd b).

(** Running, with [m] clocks to go before the one with [done]. *)
Definition staged_runs (m : nat) (s : B * router) : Prop := (m <= n)%nat /\ in_stage (stage_at (n - m)) s.

Lemma staged_start s : in_stage start s -> staged_runs n s.
Proof using Type. intros Hs. split; [done|]. by rewrite Nat.sub_diag. Qed.

Lemma staged_view m s : staged_runs m s -> bk_busy s.1 = true /\ bk_done s.1 = bool_decide (m = 0%nat).
Proof using Hview.
  intros [Hm Hs]. destruct (Hview (n - m) s ltac:(lia) Hs) as [-> ->]. split; [done|]. apply bool_decide_ext. lia.
Qed.

Lemma staged_step m s cmd b : staged_runs (S m) s -> staged_runs m (side_step s cmd b).
Proof using Hstep.
  intros [Hm Hs]. split; [lia|]. replace (n - m)%nat with (S (n - S m)) by lia. apply Hstep; [lia|done].
Qed.

Lemma staged_last s : staged_runs 0 s -> in_stage finish s.
Proof using Hfinish. intros [_ Hs]. by rewrite Nat.sub_0_r, Hfinish in Hs. Qed.
End staged.

(** ** Stages that count down

    A measure that every stage but the last has positive, and the next one by
    one less, says when the last comes. *)
Section countdown.
Context {St : Type} `{EqDecision St}.
Context (next : St -> St) (start finish : St) (within : St -> Prop) (left : St -> nat).

Hypothesis Hstart : within start.
Hypothesis Hnext : forall st, within st -> within (next st) /\ left (next st) = (left st - 1)%nat.
Hypothesis Hpos : forall st, within st -> st <> finish -> (1 <= left st)%nat.
Hypothesis Hzero : left finish = 0%nat.

Lemma countdown_at T : within (stage_at next start T) /\ left (stage_at next start T) = (left start - T)%nat.
Proof using Hstart Hnext.
  clear Hzero Hpos. induction T as [|T [Hw Hl]]; [split; [done|]; by rewrite Nat.sub_0_r|].
  rewrite stage_at_S. destruct (Hnext _ Hw) as [Hw' ->]. split; [done|]. lia.
Qed.

(** Once through all of them. *)
Lemma countdown_finished T : (T <= left start)%nat -> stage_at next start T = finish <-> T = left start.
Proof using All.
  intros HT. destruct (countdown_at T) as [Hw Hl]. split.
  - intros E. rewrite E, Hzero in Hl. lia.
  - intros ->. rewrite Nat.sub_diag in Hl. destruct (decide (stage_at next start (left start) = finish)) as [|Hne]; [done|].
    apply Hpos in Hne; [lia|done].
Qed.
End countdown.

(** ** Stages with what the memories hold *)
Section staged_world.
Context {B K : Type} {BK : Backend B K} {St : Type}.
Context (next : St -> St) (start : St) (n : nat) (world_in : St -> B * router * buffers -> Prop).

Hypothesis Hstep : forall T w cmd host, (T < n)%nat -> no_write host ->
  world_in (stage_at next start T) w -> world_in (stage_at next start (S T)) (world_step w cmd host).

(** Whatever commands are offered and whatever the host reads meanwhile. *)
Lemma staged_run w ins :
  world_in start w -> only_reads ins -> (length ins <= n)%nat ->
  world_in (stage_at next start (length ins)) (bk_run w ins).
Proof using Hstep.
  intros Hw. induction ins as [|x ins IH] using rev_ind; intros Hins Hn; [done|].
  apply Forall_app in Hins as [Hins [Hx _]%Forall_cons_iff]. rewrite length_app, Nat.add_1_r in Hn.
  rewrite length_app, Nat.add_1_r, bk_run_snoc. apply Hstep; [lia|done|]. apply IH; [done|lia].
Qed.

(** One clock more, when nothing is written in the last stage. *)
Lemma staged_effect w ins m :
  world_in start w -> only_reads ins -> length ins = S n ->
  (forall w', world_in (stage_at next start n) w' -> contents w'.2 = m /\ be_act_write (bk_request w'.1.1) = None) ->
  contents (bk_run w ins).2 = m.
Proof using Hstep.
  intros Hw Hins Hn Hlast. destruct ins as [|x ins _] using rev_ind; [done|].
  apply Forall_app in Hins as [Hins [Hx _]%Forall_cons_iff]. rewrite length_app, Nat.add_1_r in Hn. injection Hn as Hn.
  assert (Hr := staged_run w ins Hw Hins ltac:(lia)). rewrite Hn in Hr. destruct (Hlast _ Hr) as [Hm Hq].
  rewrite bk_run_snoc, world_quiet; done.
Qed.
End staged_world.
