(* ===== verification/VecBackend.v ===== *)
(** * The vector backend

    [vec_ctrl] (with [vec_backend] around it), clock by clock, on the memories
    of [BackendMem]: what it computes, how long it takes, and that it computes
    what the testbench's reference model [ref_vec] says. *)

From S2P Require Import Prelude Regs Command Decode CArith Golden Mem BackendMem Backend.
From stdpp Require Import gmap.

Open Scope Z_scope.

Definition DIM_W : Z := 16.

(** ** vec_ctrl *)

Inductive vec_state := V_IDLE | V_LOAD_CFG | V_READ | V_WAIT | V_WRITE | V_DONE.

Record vec_ctrl := mk_vec_ctrl {
  v_state : vec_state; v_cmd : vec_cmd_t; idx_r : Z;
  a_addr_r : Z; b_addr_r : Z; out_addr_r : Z;
  a_gnt_r : bool; b_gnt_r : bool; a_val_r : bool; b_val_r : bool;
  a_data_r : Z; b_data_r : Z }.

Definition is_state (s t : vec_state) : bool :=
  match s, t with
  | V_IDLE, V_IDLE | V_LOAD_CFG, V_LOAD_CFG | V_READ, V_READ | V_WAIT, V_WAIT
  | V_WRITE, V_WRITE | V_DONE, V_DONE => true
  | _, _ => false
  end.

Definition vec_next (v : vec_ctrl) (cmd_valid : bool) (act wt : rd_answer) (out_wr_gnt : bool) : vec_state :=
  match v_state v with
  | V_IDLE => if cmd_valid then V_LOAD_CFG else V_IDLE
  | V_LOAD_CFG => V_READ
  | V_READ => if (a_gnt_r v || rd_gnt act) && (b_gnt_r v || rd_gnt wt) then V_WAIT else V_READ
  | V_WAIT => if (a_val_r v || rd_rvalid act) && (b_val_r v || rd_rvalid wt) then V_WRITE else V_WAIT
  | V_WRITE =>
      (* the literal 1 makes the subtraction 32 bits wide *)
      if out_wr_gnt then if idx_r v =? u32 (v_length (v_cmd v) - 1) then V_DONE else V_READ else V_WRITE
  | V_DONE => V_IDLE
  end.

(** The addresses and flags are cleared when a command or an element begins. *)
Definition vec_step (v : vec_ctrl) (cmd : option vec_cmd_t) (act wt : rd_answer) (out_wr_gnt : bool) : vec_ctrl :=
  let c := v_cmd v in
  let st := v_state v in
  let load := is_state st V_LOAD_CFG in
  let next_elem := is_state st V_WRITE && out_wr_gnt in
  let reading := is_state st V_READ in
  let waiting := is_state st V_WAIT in
  let addr base a := if load then base else if next_elem then wrap ADDR_W (a + 1) else a in
  mk_vec_ctrl
    (vec_next v (bool_decide (is_Some cmd)) act wt out_wr_gnt)
    (match cmd with Some c' => if is_state st V_IDLE then c' else c | None => c end)
    (if load then 0 else if next_elem then wrap DIM_W (idx_r v + 1) else idx_r v)
    (addr (v_a_addr c) (a_addr_r v)) (addr (v_b_addr c) (b_addr_r v)) (addr (v_out_addr c) (out_addr_r v))
    (if load || next_elem then false else a_gnt_r v || (reading && rd_gnt act))
    (if load || next_elem then false else b_gnt_r v || (reading && rd_gnt wt))
    (if load || next_elem then false else a_val_r v || (waiting && rd_rvalid act))
    (if load || next_elem then false else b_val_r v || (waiting && rd_rvalid wt))
    (if load || next_elem then a_data_r v else if waiting && rd_rvalid act then rd_rdata act else a_data_r v)
    (if load || next_elem then b_data_r v else if waiting && rd_rvalid wt then rd_rdata wt else b_data_r v).

(** The combinational result, a byte. [a] and [b] are bytes, read as signed. *)
Definition vec_result (vec_op qshift act_mode a b : Z) : Z :=
  if vec_op =? 0 then
    let add_sum := i8 a + i8 b in
    if 127 <? add_sum then 127 else if add_sum <? -128 then 0x80 else wrap DATA_W add_sum
  else
    let mul_acc := i8 a * i8 b in
    let mul_activated :=
      if act_mode =? 1 then (if mul_acc <? 0 then 0 else mul_acc)
      else if act_mode =? 2 then (if mul_acc <? 0 then mul_acc ≫ 3 else mul_acc)
      else mul_acc in
    let mul_shifted := mul_activated ≫ qshift in
    if 127 <? mul_shifted then 127 else if mul_shifted <? -128 then 0x80 else wrap DATA_W mul_shifted.

Definition vec_data (v : vec_ctrl) : Z :=
  vec_result (v_vec_op (v_cmd v)) (v_quant_shift (v_cmd v)) (v_act_mode (v_cmd v)) (a_data_r v) (b_data_r v).

Lemma vec_result_fits op q m a b : fits DATA_W (vec_result op q m a b).
Proof.
  unfold vec_result. destruct (op =? 0); repeat case_match; first [by apply fits_wrap|done].
Qed.

(** [vec_backend] ties the bias port off. *)
Definition vec_request (v : vec_ctrl) : be_request :=
  mk_be_request (b_addr_r v) (is_state (v_state v) V_READ && negb (b_gnt_r v))
    (a_addr_r v) (is_state (v_state v) V_READ && negb (a_gnt_r v))
    (if is_state (v_state v) V_WRITE then Some (out_addr_r v, vec_data v) else None) 0 false.

Definition vec_cmd_ready (v : vec_ctrl) : bool := is_state (v_state v) V_IDLE.
Definition vec_done (v : vec_ctrl) : bool := is_state (v_state v) V_DONE.
Definition vec_busy (v : vec_ctrl) : bool := negb (is_state (v_state v) V_IDLE).

Definition vec_reset : vec_ctrl :=
  mk_vec_ctrl V_IDLE (mk_vec_cmd 0 0 0 0 0 0 0) 0 0 0 0 false false false false 0 0.

#[export] Instance vec_backend : Backend vec_ctrl vec_cmd_t := {|
  bk_step v cmd act wt _ out_wr_gnt := vec_step v cmd act wt out_wr_gnt;
  bk_request := vec_request; bk_ready := vec_cmd_ready; bk_busy := vec_busy; bk_done := vec_done;
  bk_reset := vec_reset |}.

Abbreviation vec_side := (vec_ctrl * router)%type.
Abbreviation vec_world := (vec_side * buffers)%type.

(** ** One element: its clocks *)

Section command.
Context (c : vec_cmd_t).

(** Element [i] in state [k] of READ, WAIT, WRITE. *)
Definition clocked_at (i k : nat) (s : vec_side) : Prop :=
  let '(v, r) := s in
  v_cmd v = c /\ idx_r v = wrap DIM_W (Z.of_nat i) /\ no_bias s /\
  match k with
  | O => v_state v = V_READ /\ a_gnt_r v = false /\ b_gnt_r v = false /\ a_val_r v = false /\ b_val_r v = false
  | 1%nat => v_state v = V_WAIT /\ a_val_r v = false /\ b_val_r v = false /\ bias_was_sel r = false /\
      be_rd_r (act_port_b r) = true /\ be_rd_r (wt_port_b r) = true
  | _ => v_state v = V_WRITE
  end.

Definition last_elem (i : nat) : bool := wrap DIM_W (Z.of_nat i) =? u32 (v_length c - 1).

(** In a state without requests. *)
Definition in_state (st : vec_state) (s : vec_side) : Prop := v_state s.1 = st /\ no_bias s.

Lemma clocked_step i k s cmd b :
  clocked_at i k s ->
  let s' := side_step s cmd b in
  match k with
  | O => clocked_at i 1 s'
  | 1%nat => clocked_at i 2 s'
  | _ => if last_elem i then in_state V_DONE s' else clocked_at (S i) 0 s'
  end.
Proof.
  destruct s as [[st cmd' idx aa ba oa ag bg av bv ad bd] [wtp actp bp bap bws]].
  unfold clocked_at, in_state, no_bias. cbn. intros (-> & -> & -> & Hk).
  destruct k as [|[|k]].
  - destruct Hk as (-> & -> & -> & -> & ->). cbn. unfold wt_be_req, wt_issue_bias. cbn. by split_and!; [by destruct cmd|..].
  - destruct Hk as (-> & -> & -> & -> & Hra & Hrb). cbn. rewrite Hra, Hrb. cbn. by split_and!; [by destruct cmd|..].
  - rewrite Hk. cbn -[wrap vec_data]. fold (last_elem i).
    assert (Hcmd : match cmd with Some _ | _ => c end = c) by by destruct cmd.
    change (wrap DIM_W (Z.of_nat i)) with (wrap DIM_W (0 + Z.of_nat i)). rewrite !wrap_succ, Hcmd by done.
    destruct (last_elem i); by split_and!.
Qed.

(** ** One element: its data *)

(** The [i]-th element of the three vectors; banks have 12 and 13 address bits. *)
Definition a_cell (i : nat) : Z := wrap (SRAM_ADDR_W + 1) (wrap ADDR_W (v_a_addr c + Z.of_nat i)).
Definition b_cell (i : nat) : Z := wrap SRAM_ADDR_W (wrap ADDR_W (v_b_addr c + Z.of_nat i)).
Definition out_cell (i : nat) : Z := wrap (SRAM_ADDR_W + 1) (wrap ADDR_W (v_out_addr c + Z.of_nat i)).

Definition elem (wt act : cells) (i : nat) : Z :=
  vec_result (v_vec_op c) (v_quant_shift c) (v_act_mode c) (cell act (a_cell i)) (cell wt (b_cell i)).

(** The activation buffer after [i] elements, one after the other. *)
Fixpoint computed (wt act : cells) (i : nat) : cells :=
  match i with
  | O => act
  | S j => let act' := computed wt act j in <[out_cell j := elem wt act' j]> act'
  end.

Context (m0 : sram).

Definition memory_at (i : nat) : sram := mk_sram (wt_mem m0) (computed (wt_mem m0) (act_mem m0) i) (psum_mem m0).

Definition data_at (i k : nat) (w : vec_world) : Prop :=
  let '((v, r), b) := w in
  let act := computed (wt_mem m0) (act_mem m0) i in
  (a_addr_r v = wrap ADDR_W (v_a_addr c + Z.of_nat i) /\ b_addr_r v = wrap ADDR_W (v_b_addr c + Z.of_nat i) /\
   out_addr_r v = wrap ADDR_W (v_out_addr c + Z.of_nat i)) /\ contents b = memory_at i /\
  match k with
  | O => True
  | 1%nat => b_rdata (act_port_b r) = cell act (a_cell i) /\ b_rdata (wt_port_b r) = cell (wt_mem m0) (b_cell i)
  | _ => a_data_r v = cell act (a_cell i) /\ b_data_r v = cell (wt_mem m0) (b_cell i)
  end.

Definition working_on (i k : nat) (w : vec_world) : Prop := clocked_at i k w.1 /\ data_at i k w.

(** All elements done. *)
Definition worked (st : vec_state) (n : nat) (w : vec_world) : Prop := in_state st w.1 /\ contents w.2 = memory_at n.

Lemma working_step i k w cmd host :
  no_write host -> working_on i k w ->
  let w' := world_step w cmd host in
  match k with
  | O => working_on i 1 w'
  | 1%nat => working_on i 2 w'
  | _ => if last_elem i then worked V_DONE (S i) w' else working_on (S i) 0 w'
  end.
Proof.
  intros Hhost [Ht Hd] w'. assert (Hs := clocked_step i k w.1 cmd w.2 Ht). cbv zeta in Hs.
  unfold worked, working_on. change w'.1 with (side_step w.1 cmd w.2). subst w'.
  destruct w as [[[st cmd' idx aa ba oa ag bg av bv ad bd] [wtp actp bp bap bws]] bufs].
  unfold clocked_at, no_bias, data_at in *. cbn [fst snd] in *.
  cbn in Ht. destruct Ht as (-> & -> & -> & Hk), Hd as ((Ha & Hb & Ho) & Hc & Hdata). cbn in Ha, Hb, Ho. subst aa ba oa.
  destruct k as [|[|k]].
  - destruct Hk as (Hst & -> & -> & -> & ->). cbn in Hst. subst st. split; [exact Hs|]. clear Hs. cbn.
    unfold wt_be_req, wt_be_addr, wt_issue_bias, rport_step, a_cell, b_cell. cbn. rewrite read_only_step by done.
    change (mem_cells (u_act_buf bufs)) with (act_mem (contents bufs)).
    change (mem_cells (u_wt_buf bufs)) with (wt_mem (contents bufs)). by rewrite Hc.
  - destruct Hk as (Hst & -> & -> & -> & Hra & Hrb). cbn in Hst, Hra, Hrb, Hdata. subst st.
    split; [exact Hs|]. clear Hs. cbn. rewrite Hra, Hrb, read_only_step by done. cbn. by destruct Hdata as [-> ->].
  - cbn in Hk, Hdata. subst st. destruct Hdata as (-> & ->).
    assert (Hm : forall v, v = elem (wt_mem m0) (computed (wt_mem m0) (act_mem m0) i) i ->
      contents (buffers_step bufs host (Some (wrap ADDR_W (v_out_addr c + Z.of_nat i), v))) = memory_at (S i)).
    { intros v ->. rewrite backend_write_step, Hc by done. cbn [wt_mem act_mem psum_mem memory_at].
      by rewrite (wrap_small DATA_W) by apply vec_result_fits. }
    destruct (last_elem i); (split; [exact Hs|]); clear Hs; cbn -[wrap vec_data]; [by apply Hm|].
    rewrite !wrap_succ by done. split_and!; [done..|by apply Hm|done].
Qed.

(** ** The stages of a command *)

Inductive stage := Loading | Element (i k : nat) | Finished.

Definition in_stage (st : stage) (s : vec_side) : Prop :=
  match st with
  | Loading => in_state V_LOAD_CFG s /\ v_cmd s.1 = c
  | Element i k => clocked_at i k s
  | Finished => in_state V_DONE s
  end.

Definition next_stage (st : stage) : stage :=
  match st with
  | Loading => Element 0 0
  | Element i O => Element i 1
  | Element i 1%nat => Element i 2
  | Element i _ => if last_elem i then Finished else Element (S i) 0
  | Finished => Finished
  end.

(** [T] clocks after the command has been latched. *)
Abbreviation vec_at := (stage_at next_stage Loading).

Lemma accept_step s b : v_state s.1 = V_IDLE -> no_bias s -> in_stage Loading (side_step s (Some c) b).
Proof. destruct s as [[] []]. unfold in_state, no_bias. cbn. intros Hs Hb. by subst. Qed.

Lemma stage_step st s cmd b : st <> Finished -> in_stage st s -> in_stage (next_stage st) (side_step s cmd b).
Proof.
  intros Hst. destruct st as [|i k|]; cbn [in_stage next_stage]; [|intros Hs|done].
  - destruct s as [[] []]. unfold in_state, no_bias. cbn. intros ((-> & ->) & ->). split_and!; try done. by destruct cmd.
  - apply (clocked_step i k s cmd b) in Hs. destruct k as [|[|k]]; [done..|]. by destruct (last_elem i).
Qed.

Lemma stage_no_bias st s : in_stage st s -> no_bias s.
Proof. destruct s as [v r], st; cbn; [by intros [[_ Hb] _]|by intros (_ & _ & Hb & _)|by intros [_ Hb]]. Qed.

Lemma finished_step s cmd b : in_stage Finished s -> v_state (side_step s cmd b).1 = V_IDLE /\ no_bias (side_step s cmd b).
Proof. destruct s as [[] []]. unfold in_stage, in_state, no_bias. cbn. by intros (-> & ->). Qed.

Lemma stage_busy st s :
  in_stage st s -> vec_busy s.1 = true /\ vec_done s.1 = match st with Finished => true | _ => false end.
Proof.
  unfold vec_busy, vec_done. destruct s as [v r], st as [|i k|]; cbn [in_stage fst].
  - intros ((Hs & _) & _). cbn in Hs. by rewrite Hs.
  - intros (_ & _ & _ & Hk). destruct k as [|[|k]]; [destruct Hk as (-> & _); done..|by rewrite Hk].
  - intros (Hs & _). cbn in Hs. by rewrite Hs.
Qed.

Abbreviation n := (Z.to_nat (v_length c)).

Lemma last_elem_iff i : fits 16 (v_length c) -> (i < n)%nat -> last_elem i = bool_decide (S i = n).
Proof.
  intros Hl Hi. rewrite fits16_iff in Hl. unfold last_elem, DIM_W.
  rewrite !wrap_small by (apply fits16_iff || apply fits32_iff; lia).
  destruct (Z.eqb_spec (Z.of_nat i) (v_length c - 1)); case_bool_decide; lia.
Qed.

Lemma last_elem_zero i : v_length c = 0 -> last_elem i = false.
Proof.
  intros Hl. unfold last_elem. rewrite Hl. assert (Hf := fits_wrap DIM_W (Z.of_nat i)).
  unfold DIM_W in *. rewrite fits16_iff in Hf. apply Z.eqb_neq. change (u32 (0 - 1)) with 4294967295. lia.
Qed.

Lemma stage_element i k :
  fits 16 (v_length c) -> (k < 3)%nat -> v_length c = 0 \/ (i < n)%nat ->
  vec_at (S (3 * i + k)) = Element i k.
Proof.
  intros Hl Hk Hi. assert (H0 : vec_at (S (3 * i)) = Element i 0).
  { clear Hk. induction i as [|i IH]; [done|].
    replace (S (3 * S i)) with (S (S (3 * i) + 2))%nat by lia.
    rewrite stage_at_S, stage_at_add, IH by lia. cbn [Nat.iter nat_rect next_stage].
    destruct (decide (v_length c = 0)) as [H0|H0]; [by rewrite last_elem_zero|].
    by rewrite last_elem_iff, bool_decide_eq_false_2 by (done || lia). }
  rewrite <- Nat.add_succ_l, stage_at_add, H0. by destruct k as [|[|[|k]]]; [..|lia].
Qed.

Lemma stage_end : fits 16 (v_length c) -> 1 <= v_length c -> vec_at (3 * n + 1) = Finished.
Proof.
  intros Hl Hlen. replace (3 * n + 1)%nat with (S (S (3 * (n - 1) + 2))) by lia.
  rewrite stage_at_S, stage_element by (done || lia). cbn [next_stage].
  by rewrite last_elem_iff, bool_decide_eq_true_2 by (done || lia).
Qed.

(** Loading, and then in the elements, for ever when there are none. *)
Lemma stage_forward T :
  fits 16 (v_length c) -> v_length c = 0 \/ (T <= 3 * n)%nat ->
  match vec_at T with Loading => True | Element i _ => v_length c = 0 \/ (i < n)%nat | Finished => False end.
Proof.
  intros Hl HT. destruct T as [|p]; [done|]. pose proof (Nat.mod_upper_bound p 3). pose proof (Nat.div_mod p 3).
  assert (v_length c = 0 \/ (p / 3 < n)%nat) by lia. by rewrite (Nat.div_mod p 3), stage_element by (done || lia).
Qed.

Lemma stage_forward_ne T : fits 16 (v_length c) -> v_length c = 0 \/ (T <= 3 * n)%nat -> vec_at T <> Finished.
Proof. intros Hl HT E. assert (Hf := stage_forward T Hl HT). by rewrite E in Hf. Qed.

(** Only the last of the elements ends the command. *)
Lemma stage_last T i k :
  fits 16 (v_length c) -> v_length c = 0 \/ (T <= 3 * n)%nat ->
  vec_at T = Element i k -> last_elem i = true -> S i = n.
Proof.
  intros Hl HT Hst Hlast. assert (Hf := stage_forward T Hl HT). rewrite Hst in Hf.
  destruct (decide (v_length c = 0)) as [H0|H0]; [by rewrite last_elem_zero in Hlast|].
  rewrite last_elem_iff in Hlast by (done || lia). by apply bool_decide_eq_true in Hlast.
Qed.

Lemma stage_view T s :
  fits 16 (v_length c) -> 1 <= v_length c -> (T <= 3 * n + 1)%nat -> in_stage (vec_at T) s ->
  vec_busy s.1 = true /\ vec_done s.1 = bool_decide (T = (3 * n + 1)%nat).
Proof.
  intros Hl Hlen HT Hs. destruct (stage_busy _ _ Hs) as [-> ->]. split; [done|].
  destruct (decide (T = 3 * n + 1)%nat) as [->|Hne]; [by rewrite stage_end, bool_decide_eq_true_2|].
  rewrite bool_decide_eq_false_2 by done. assert (Hf := stage_forward_ne T Hl ltac:(lia)). by destruct (vec_at T).
Qed.

(** ** The stages with their data *)

Definition vec_cmd_fits : Prop :=
  fits 16 (v_a_addr c) /\ fits 16 (v_b_addr c) /\ fits 16 (v_out_addr c) /\ fits 16 (v_length c).

Definition stage_data (st : stage) (w : vec_world) : Prop :=
  match st with
  | Loading => contents w.2 = m0
  | Element i k => data_at i k w
  | Finished => contents w.2 = memory_at n
  end.

Definition world_in (st : stage) (w : vec_world) : Prop := in_stage st w.1 /\ stage_data st w.

Lemma no_write_request st s : in_state st s -> st <> V_WRITE -> be_act_write (bk_request s.1) = None.
Proof. intros [Hs _] Hst. cbn. rewrite Hs. by destruct st. Qed.

Lemma load_data w cmd host :
  no_write host -> vec_cmd_fits -> world_in Loading w -> data_at 0 0 (world_step w cmd host).
Proof.
  intros Hhost (Ha & Hb & Ho & _) [(Hl & Hcmd) Hm].
  assert (Hc := world_quiet w cmd host Hhost (no_write_request _ _ Hl ltac:(done))). rewrite Hm in Hc.
  destruct w as [[v r] b], Hl as (Hs & _). cbn in Hs, Hcmd. unfold data_at, world_step, side_step in *. cbn [bk_step vec_backend]. unfold vec_step.
  cbn -[wrap vec_request] in *. rewrite Hc, Hs, Hcmd. cbn [is_state]. rewrite !Z.add_0_r, !wrap_small by done.
  split_and!; try done. unfold memory_at. by destruct m0.
Qed.

Lemma world_stage st w cmd host :
  vec_cmd_fits -> no_write host -> (forall i k, st = Element i k -> last_elem i = true -> S i = n) ->
  st <> Finished -> world_in st w -> world_in (next_stage st) (world_step w cmd host).
Proof.
  intros Hfit Hhost Hlast Hst [Hs Hd]. split; [by apply stage_step|]. destruct st as [|i k|]; cbn [next_stage stage_data]; [..|done].
  - by apply load_data.
  - assert (Hw := working_step i k w cmd host Hhost (conj Hs Hd)). cbv zeta in Hw.
    destruct k as [|[|k]]; [apply Hw..|]. destruct (last_elem i) eqn:Hl; [|apply Hw].
    cbn [stage_data]. rewrite <- (Hlast i _ eq_refl Hl). apply Hw.
Qed.

(** From rest through a command. *)
Lemma vec_run_stage w host ins :
  vec_cmd_fits -> v_state w.1.1 = V_IDLE -> no_bias w.1 -> contents w.2 = m0 -> no_write host -> only_reads ins ->
  v_length c = 0 \/ (length ins <= 3 * n + 1)%nat ->
  world_in (vec_at (length ins)) (bk_run (world_step w (Some c) host) ins).
Proof.
  intros Hfit Hs Hb Hm Hhost Hins Hn. assert (Hl : fits 16 (v_length c)) by apply Hfit.
  apply (staged_run _ _ (length ins)); [|split|done|done].
  - intros T w' cmd h' HT Hh' Hw'. rewrite stage_at_S.
    apply world_stage; [done|done|intros i k; apply stage_last; [done|lia]|apply stage_forward_ne; [done|lia]|done].
  - by apply accept_step.
  - cbn [stage_data]. rewrite world_quiet; [done|done|]. by apply (no_write_request V_IDLE).
Qed.

Lemma vec_effect w host ins :
  vec_cmd_fits -> 1 <= v_length c -> v_state w.1.1 = V_IDLE -> no_bias w.1 -> contents w.2 = m0 ->
  no_write host -> only_reads ins -> length ins = S (3 * n + 1) ->
  contents (bk_run (world_step w (Some c) host) ins).2 = memory_at n.
Proof.
  intros Hfit Hlen Hs Hb Hm Hhost Hins Hn. assert (Hl : fits 16 (v_length c)) by apply Hfit.
  eapply (staged_effect next_stage Loading (3 * n + 1) world_in).
  - intros T w' cmd h' HT Hh' Hw'. rewrite stage_at_S.
    apply world_stage; [done|done|intros i k; apply stage_last; [done|lia]|apply stage_forward_ne; [done|lia]|done].
  - by apply (vec_run_stage w host []); [..|apply Forall_nil|right; apply Nat.le_0_l].
  - done.
  - done.
  - rewrite stage_end by done. intros w' [Hw' Hd]. split; [exact Hd|]. by apply (no_write_request V_DONE).
Qed.
End command.

(** ** The contract of a backend *)

(** Without a length a command does not end, see [vec_length_zero_hangs]. *)
#[export, program] Instance vec_backend_laws : BackendLaws vec_backend := {|
  bk_cycles c := (3 * Z.to_nat (v_length c) + 1)%nat;
  bk_runnable c := vec_cmd_fits c /\ 1 <= v_length c;
  bk_rest v := v_state v = V_IDLE;
  bk_runs c m s := (vec_cmd_fits c /\ 1 <= v_length c) /\
    staged_runs (next_stage c) Loading (3 * Z.to_nat (v_length c) + 1) (in_stage c) m s |}.
Next Obligation. intros v Hv. cbn. unfold vec_busy, vec_done, vec_cmd_ready, asks_nothing, vec_request. cbn. by rewrite Hv. Qed.
Next Obligation. intros v cmd a w i g a' w' i' g' Hv. cbn. unfold vec_step, vec_next. by rewrite Hv. Qed.
Next Obligation. intros v a w i g Hv. cbn. unfold vec_next. by rewrite Hv. Qed.
Next Obligation. intros c m s [_ [_ Hm]]. split; [exact (stage_no_bias c _ s Hm)|done]. Qed.
Next Obligation. intros c s b Hs Hb Hc. split; [done|]. by apply staged_start, accept_step. Qed.
Next Obligation.
  intros c m s [[Hl Hlen] Hm]. refine (staged_view _ _ _ _ _ m s Hm). intros T s' HT. apply stage_view; [apply Hl|done|done].
Qed.
Next Obligation.
  intros c m s cmd b [[Hl Hlen] Hm]. destruct m as [|m].
  - apply (finished_step c). refine (staged_last _ _ _ _ _ _ s Hm). apply stage_end; [apply Hl|done].
  - split; [done|]. refine (staged_step _ _ _ _ _ m s cmd b Hm). intros T s' cmd' b' HT Hs'. rewrite stage_at_S.
    apply stage_step; [|done]. apply stage_forward_ne; [apply Hl|lia].
Qed.
Next Obligation. done. Qed.

(** Element after element, the output bytes are computed from the two vectors
    and stored, and nothing else in the three buffers changes. *)
#[export, program] Instance vec_backend_effect : BackendEffect vec_backend_laws := {|
  bk_effect c m := memory_at c m (Z.to_nat (v_length c)) |}.
Next Obligation. intros c m w host ins [Hs Hb] Hm [Hc Hlen] Hhost Hins Hn. by apply vec_effect. Qed.

(** With length zero no element is the last one. *)
Lemma endless_stage c m0 T w :
  vec_cmd_fits c -> v_length c = 0 -> world_in c m0 (stage_at (next_stage c) Loading T) w ->
  vec_busy w.1.1 = true /\ vec_done w.1.1 = false /\
  act_mem (contents w.2) = computed c (wt_mem m0) (act_mem m0) ((T - 1) / 3).
Proof.
  intros Hc Hlen [Hs Hd]. destruct (stage_busy _ _ _ Hs) as [-> ->]. destruct T as [|p].
  - split_and!; [done..|]. change (contents w.2 = m0) in Hd. by rewrite Hd.
  - pose proof (Nat.mod_upper_bound p 3).
    assert (Hp : stage_at (next_stage c) Loading (S p) = Element (p / 3) (p mod 3)).
    { rewrite <- (stage_element c (p / 3) (p mod 3)) by (apply Hc || lia || by left). f_equal. pose proof (Nat.div_mod p 3). lia. }
    rewrite Hp in *. split_and!; [done..|]. rewrite Nat.sub_succ, Nat.sub_0_r.
    destruct w as [[v r] b]. destruct Hd as (_ & Hm & _). cbn [snd]. by rewrite Hm.
Qed.

(** ** The reference model *)

Lemma vec_result_spec op qshift mode x y :
  fits_i8 x -> fits_i8 y -> 0 <= qshift ->
  vec_result op qshift mode (u8 x) (u8 y) =
  u8 (if op =? 0 then Z.max (-128) (Z.min 127 (x + y)) else quant_spec qshift mode (x * y)).
Proof.
  intros Hx Hy Hq. unfold vec_result. rewrite !i8_u8 by done. destruct (op =? 0); [apply saturated|].
  rewrite saturated. unfold quant_spec. do 3 f_equal. rewrite Z.shiftr_div_pow2 by done. f_equal.
  rewrite <- activate_spec. done.
Qed.

Section reference.
Context (c : vec_cmd_t) (m0 : sram) (xs ys : list Z).

Abbreviation n := (Z.to_nat (v_length c)).

Hypothesis Hxs : i8_array xs (v_length c).
Hypothesis Hys : i8_array ys (v_length c).
Hypothesis Hq : 0 <= v_quant_shift c < 32.
(** The vectors are in the buffers. *)
Hypothesis Hact : forall i, (i < n)%nat -> cell (act_mem m0) (a_cell c i) = u8 (at_ xs (Z.of_nat i)).
Hypothesis Hwt : forall i, (i < n)%nat -> cell (wt_mem m0) (b_cell c i) = u8 (at_ ys (Z.of_nat i)).
(** No output overwrites an operand still to be read, or another output. *)
Hypothesis Hfree : forall i j, (j < i < n)%nat -> out_cell c j <> a_cell c i.
Hypothesis Hdistinct : forall i j, (j < i < n)%nat -> out_cell c j <> out_cell c i.

Abbreviation act_after := (computed c (wt_mem m0) (act_mem m0)).
Abbreviation expected i := (u8 (vec_spec xs ys (v_vec_op c) (v_quant_shift c) (v_act_mode c) i)).

Lemma computed_other k a : (forall i, (i < k)%nat -> out_cell c i <> a) -> cell (act_after k) a = cell (act_mem m0) a.
Proof using Type.
  induction k as [|k IH]; intros Ha; [done|]. unfold cell in *. cbn [computed].
  rewrite lookup_insert_ne by (apply Ha; lia). apply IH. intros i Hi. apply Ha. lia.
Qed.

Lemma computed_at k i :
  (k <= n)%nat -> (i < k)%nat -> cell (act_after k) (out_cell c i) = expected (Z.of_nat i).
Proof using All.
  intros Hk Hi. induction k as [|k IH]; [lia|]. cbn [computed]. unfold cell at 1.
  destruct (decide (i = k)) as [->|Hne].
  - rewrite lookup_insert_eq. cbn [default]. unfold elem, vec_spec.
    rewrite computed_other by (intros j Hj; apply Hfree; lia). rewrite Hact, Hwt by lia.
    apply vec_result_spec; [by eapply at_i8..|lia].
  - rewrite lookup_insert_ne by (apply not_eq_sym, Hdistinct; lia). apply IH; lia.
Qed.
End reference.

(** The operands of a command are in the buffers, and no output cell is an
    operand still to be read or another output. *)
Definition vec_operands (c : vec_cmd_t) (m : sram) (xs ys : list Z) : Prop :=
  let n := Z.to_nat (v_length c) in
  i8_array xs (v_length c) /\ i8_array ys (v_length c) /\
  (forall i, (i < n)%nat -> cell (act_mem m) (a_cell c i) = u8 (at_ xs (Z.of_nat i))) /\
  (forall i, (i < n)%nat -> cell (wt_mem m) (b_cell c i) = u8 (at_ ys (Z.of_nat i))) /\
  (forall i j, (j < i < n)%nat -> out_cell c j <> a_cell c i /\ out_cell c j <> out_cell c i).

(** From [m] to [m'], the output cells have become [out] and nothing else has
    changed. *)
Definition vec_results (c : vec_cmd_t) (m m' : sram) (out : list Z) : Prop :=
  let n := Z.to_nat (v_length c) in
  (forall i, (i < n)%nat -> cell (act_mem m') (out_cell c i) = u8 (at_ out (Z.of_nat i))) /\
  (forall a, (forall i, (i < n)%nat -> out_cell c i <> a) -> cell (act_mem m') a = cell (act_mem m) a) /\
  wt_mem m' = wt_mem m /\ psum_mem m' = psum_mem m.

(** What the reference model says of the operands. *)
Abbreviation vec_golden c xs ys := (ref_vec xs ys (v_length c) (v_vec_op c) (v_quant_shift c) (v_act_mode c)).

Lemma vec_reference c m xs ys :
  vec_cmd_fits c -> 0 <= v_quant_shift c < 32 -> vec_operands c m xs ys ->
  exists out, vec_golden c xs ys = Ok out /\ i8_array out (v_length c) /\
    vec_results c m (memory_at c m (Z.to_nat (v_length c))) out.
Proof.
  intros Hc Hq (Hxs & Hys & Hact & Hwt & Hfree).
  assert (Hl : 0 <= v_length c <= 65535) by (destruct Hc as (_ & _ & _ & Hl); rewrite fits16_iff in Hl; lia).
  eexists. split; [apply ref_vec_correct; unfold INT_MAX; (done || lia)|].
  unfold vec_results. cbn [act_mem wt_mem psum_mem memory_at]. split_and!; [..|by apply computed_other|done|done].
  - split; [rewrite length_fmap, length_seqZ; lia|]. apply Forall_fmap, Forall_true. intros i. unfold vec_spec. destruct (_ =? 0); apply clamp_fits.
  - intros i Hi. rewrite (computed_at c m xs ys) by (done || lia || (intros; by apply Hfree)).
    f_equal. unfold at_ at 1. rewrite (list_lookup_total_fmap (B := Z) _ (seqZ 0 (v_length c))) by (rewrite length_seqZ; lia).
    f_equal. rewrite Nat2Z.id, lookup_total_seqZ_lt by lia. done.
Qed.

(** The vector backend is the reference model. With the two operand
    vectors in the buffers, and no output cell that is an operand still to be
    read or another output, a command runs for three clocks per element and two
    more, whatever commands are offered and whatever the host reads meanwhile:
    it is busy up to its last clock, the only one with [done], and leaves in the
    output cells exactly the bytes that [ref_vec] of the testbench computes for
    the same vectors, operation, shift and activation, and every other cell of
    the three buffers as it was. *)
Theorem vec_matches_reference c m w host ins xs ys :
  vec_cmd_fits c -> 1 <= v_length c -> 0 <= v_quant_shift c < 32 ->
  at_rest w.1 -> contents w.2 = m -> no_write host -> only_reads ins -> vec_operands c m xs ys ->
  let n := Z.to_nat (v_length c) in
  let w' := bk_run (world_step w (Some c) host) ins in
  ((length ins <= 3 * n + 1)%nat ->
     vec_busy w'.1.1 = true /\ vec_done w'.1.1 = bool_decide (length ins = 3 * n + 1)%nat) /\
  (length ins = (3 * n + 2)%nat ->
     exists out, vec_golden c xs ys = Ok out /\ at_rest w'.1 /\ vec_results c m (contents w'.2) out).
Proof.
  intros Hc Hlen Hq Hw Hm Hhost Hins Hops n w'. assert (Hrun : bk_runnable c) by done. split.
  { intros Hn. exact (command_view c w host ins Hw Hrun Hn). }
  intros Hn. assert (Hn' : length ins = S (bk_cycles c)) by (cbn; lia).
  destruct (vec_reference c m xs ys Hc Hq Hops) as (out & Hout & _ & Hres). exists out. split_and!; [done|..].
  - by apply command_ends.
  - unfold w'. by rewrite (effect_law c m w host ins).
Qed.

(** A vector command of length zero is accepted by [npu_cmd_build_vec],
    decoded and dispatched like any other, and never ends: [length_r - 1] is 32
    bits wide, so no element is the last one. The backend is busy for ever,
    never signals [done], and stores one byte every three clocks through the
    whole activation buffer. *)
Theorem vec_length_zero_hangs d0 p m0 w host ins :
  vec_wf p -> vc_length p = 0 -> at_rest w.1 -> contents w.2 = m0 -> no_write host -> only_reads ins ->
  exists d c,
    npu_cmd_build_vec (Some d0) (Some p) = (0, Some d) /\
    npu_dispatch <$> npu_cmd_decode (words d) = Some (HwVec c) /\
    let w' := bk_run (world_step w (Some c) host) ins in
    vec_busy w'.1.1 = true /\ vec_done w'.1.1 = false /\
    act_mem (contents w'.2) = computed c (wt_mem m0) (act_mem m0) ((length ins - 1) / 3).
Proof.
  intros Hp Hlen [Hs Hnb] Hm Hhost Hins. eexists _, _. split; [exact (build_cmd_layout d0 (PVec p))|].
  split; [exact (decode_layout (PVec p) Hp)|].
  destruct Hp as [H16 _]. rewrite !Forall_cons in H16. destruct H16 as (Ha & Ho & Hb & Hl & _).
  apply endless_stage; [done..|]. apply vec_run_stage; [done..|by left].
Qed.

(** ** Witnesses *)

Definition ex_port : rport := mk_rport 0 false.
Definition ex_vec_mem : buffers :=
  mk_buffers (mk_bank (<[0 := 7]> (<[1 := 253]> ∅)) 0 false)
    (mk_bank (<[0 := 100]> (<[1 := 156]> ∅)) 0 false) (mk_bank ∅ 0 false).
Definition ex_vec_rest : vec_world := ((vec_reset, mk_router ex_port ex_port false 0 false), ex_vec_mem).

(** [100; -100] times [7; -3], shifted by 2, with ReLU. *)
Definition ex_vec_cmd : vec_cmd_t := mk_vec_cmd 0 2048 0 2 1 2 1.

Lemma ex_operands : vec_operands ex_vec_cmd (contents ex_vec_mem) [100; -100] [7; -3].
Proof.
  split_and!; [by split; [done|repeat constructor]..| | |].
  - intros i Hi. destruct i as [|[|i]]; [done..|cbn in Hi; lia].
  - intros i Hi. destruct i as [|[|i]]; [done..|cbn in Hi; lia].
  - intros i j Hij. destruct i as [|[|i]], j as [|j]; cbn in Hij; try lia. done.
Qed.

Theorem vec_matches_reference_witness :
  exists out,
    ref_vec [100; -100] [7; -3] 2 1 2 1 = Ok out /\
    let w := bk_run (world_step ex_vec_rest (Some ex_vec_cmd) no_request) (replicate 8 (None, no_request)) in
    at_rest w.1 /\ cell (act_mem (contents w.2)) 2049 = u8 (at_ out 1).
Proof.
  destruct (vec_matches_reference ex_vec_cmd (contents ex_vec_mem) ex_vec_rest no_request
    (replicate 8 (None, no_request)) [100; -100] [7; -3]) as [_ Hend]; [done..| |by apply ex_operands|].
  - by apply Forall_replicate.
  - destruct (Hend eq_refl) as (out & Hout & Hm & Hc & _). exists out.
    split; [exact Hout|]. split; [exact Hm|]. exact (Hc 1%nat ltac:(cbn; lia)).
Defined.

Theorem vec_length_zero_hangs_witness :
  exists c, vec_busy (bk_run (world_step ex_vec_rest (Some c) no_request) (replicate 1000 (None, no_request))).1.1 = true.
Proof.
  destruct (vec_length_zero_hangs (mk_desc []) (mk_vec 0 2048 0 0 0 0 0) (contents ex_vec_mem) ex_vec_rest
    no_request (replicate 1000 (None, no_request))) as (d & c & _ & _ & Hb & _); [|done|done|done|done| |].
  - by apply (bool_decide_unpack _); vm_compute.
  - by apply Forall_replicate.
  - exists c. exact Hb.
Defined.
