(* ===== verification/PoolBackend.v ===== *)
(** * The pooling backend: control

    [pool_ctrl] (with [pool_composite] around it), clock by clock, on the
    memories of [BackendMem]: the walk over output elements and windows, the
    running maximum or sum, the serial divider of the average. Then the stages
    of a command, which depend on its sizes only, and the contract that follows;
    what the bytes are is in [PoolData]. *)

From S2P Require Import Prelude Regs Command Decode CArith SerialDiv Golden Mem BackendMem Backend.

Open Scope Z_scope.

(** ** pool_ctrl: one record and one function per register block *)

Inductive pool_state := P_IDLE | P_LOAD_CFG | P_RD | P_WAIT | P_NEXT | P_AVG_DIV | P_WR | P_DONE.

Definition p_is (s t : pool_state) : bool :=
  match s, t with
  | P_IDLE, P_IDLE | P_LOAD_CFG, P_LOAD_CFG | P_RD, P_RD | P_WAIT, P_WAIT | P_NEXT, P_NEXT
  | P_AVG_DIV, P_AVG_DIV | P_WR, P_WR | P_DONE, P_DONE => true
  | _, _ => false
  end.

Record pool_cfg := mk_pool_cfg { p_cmd : pool_cmd_t; pool_area_r : Z; in_wxc_r : Z }.
Record pool_outer := mk_pool_outer {
  oh_r : Z; ow_r : Z; c_r : Z; oh_base_r : Z; ow_base_r : Z; out_pix_base_r : Z }.
Record pool_inner := mk_pool_inner { r_r : Z; s_r : Z }.
Record pool_acc := mk_pool_acc { acc_r : Z; has_valid_r : bool }.
Record pool_div := mk_pool_div {
  div_quot_r : Z; div_rem_r : Z; div_denom_r : Z; div_cnt_r : Z; div_sign_r : bool }.

Record pool_ctrl := mk_pool_ctrl {
  p_state : pool_state; p_cfg : pool_cfg; p_outer : pool_outer; p_inner : pool_inner;
  p_acc : pool_acc; p_div : pool_div }.

(** Input coordinates: [logic signed [32:0]]. *)
Definition i33 (z : Z) : Z := wrap 33 (z + 2 ^ 32) - 2 ^ 32.

Definition ih_w (c : pool_cmd_t) (o : pool_outer) (i : pool_inner) : Z := i33 (oh_base_r o + r_r i - p_pad_h c).
Definition iw_w (c : pool_cmd_t) (o : pool_outer) (i : pool_inner) : Z := i33 (ow_base_r o + s_r i - p_pad_w c).

Definition oob_w (c : pool_cmd_t) (o : pool_outer) (i : pool_inner) : bool :=
  (ih_w c o i <? 0) || (p_in_h c <=? ih_w c o i) || (iw_w c o i <? 0) || (p_in_w c <=? iw_w c o i).

Definition rd_addr_w (g : pool_cfg) (o : pool_outer) (i : pool_inner) : Z :=
  let c := p_cmd g in
  wrap ADDR_W (p_in_addr c + wrap ADDR_W (wrap ADDR_W (ih_w c o i) * in_wxc_r g) +
    wrap ADDR_W (wrap ADDR_W (iw_w c o i) * p_in_c c) + c_r o).

Definition wr_addr_w (c : pool_cmd_t) (o : pool_outer) : Z := wrap ADDR_W (p_out_addr c + out_pix_base_r o + c_r o).

Definition signed_quot_w (d : pool_div) : Z :=
  if div_sign_r d then - wrap 31 (div_quot_r d) else wrap 31 (div_quot_r d).

Definition saturate (z : Z) : Z := if 127 <? z then 127 else if z <? -128 then 0x80 else wrap DATA_W z.

Definition result_w (c : pool_cmd_t) (a : pool_acc) (d : pool_div) : Z :=
  saturate (if p_pool_mode c =? 0 then acc_r a else signed_quot_w d).

(** The subtractions are 32 bits wide. *)
Definition last_inner_w (c : pool_cmd_t) (i : pool_inner) : bool :=
  (r_r i =? u32 (p_pool_r c - 1)) && (s_r i =? u32 (p_pool_s c - 1)).

Definition last_output_w (c : pool_cmd_t) (o : pool_outer) : bool :=
  (oh_r o =? u32 (p_out_h c - 1)) && (ow_r o =? u32 (p_out_w c - 1)) && (c_r o =? u32 (p_in_c c - 1)).

Definition pool_next (p : pool_ctrl) (cmd_valid : bool) (act : rd_answer) (out_wr_gnt : bool) : pool_state :=
  let c := p_cmd (p_cfg p) in
  match p_state p with
  | P_IDLE => if cmd_valid then P_LOAD_CFG else P_IDLE
  | P_LOAD_CFG => P_RD
  | P_RD => if oob_w c (p_outer p) (p_inner p) then P_NEXT else if rd_gnt act then P_WAIT else P_RD
  | P_WAIT => if rd_rvalid act then P_NEXT else P_WAIT
  | P_NEXT => if last_inner_w c (p_inner p) then if p_pool_mode c =? 0 then P_WR else P_AVG_DIV else P_RD
  | P_AVG_DIV => if div_cnt_r (p_div p) =? 0 then P_WR else P_AVG_DIV
  | P_WR => if out_wr_gnt then if last_output_w c (p_outer p) then P_DONE else P_RD else P_WR
  | P_DONE => P_IDLE
  end.

(** The command latch. *)
Definition cfg_step (st : pool_state) (g : pool_cfg) (cmd : option pool_cmd_t) : pool_cfg :=
  match cmd with
  | Some k =>
      if p_is st P_IDLE then
        mk_pool_cfg k (wrap 16 (wrap 8 (p_pool_r k) * wrap 8 (p_pool_s k))) (wrap ADDR_W (p_in_w k * p_in_c k))
      else g
  | None => g
  end.

(** The output element and its bases. *)
Definition outer_step (st : pool_state) (c : pool_cmd_t) (o : pool_outer) (out_wr_gnt : bool) : pool_outer :=
  if p_is st P_LOAD_CFG then mk_pool_outer 0 0 0 0 0 0
  else if p_is st P_WR && out_wr_gnt && negb (last_output_w c o) then
    if c_r o <? u32 (p_in_c c - 1) then
      mk_pool_outer (oh_r o) (ow_r o) (wrap 16 (c_r o + 1)) (oh_base_r o) (ow_base_r o) (out_pix_base_r o)
    else
      let pix := wrap ADDR_W (out_pix_base_r o + p_in_c c) in
      if ow_r o <? u32 (p_out_w c - 1) then
        mk_pool_outer (oh_r o) (wrap 16 (ow_r o + 1)) 0 (oh_base_r o) (u32 (ow_base_r o + p_stride_w c)) pix
      else mk_pool_outer (wrap 16 (oh_r o + 1)) 0 0 (u32 (oh_base_r o + p_stride_h c)) 0 pix
  else o.

(** A new output element begins. *)
Definition new_elem (st : pool_state) (out_wr_gnt : bool) : bool := p_is st P_LOAD_CFG || (p_is st P_WR && out_wr_gnt).

(** The place in the window. *)
Definition inner_step (st : pool_state) (c : pool_cmd_t) (i : pool_inner) (out_wr_gnt : bool) : pool_inner :=
  if new_elem st out_wr_gnt then mk_pool_inner 0 0
  else if p_is st P_NEXT && negb (last_inner_w c i) then
    if s_r i <? u32 (p_pool_s c - 1) then mk_pool_inner (r_r i) (wrap 16 (s_r i + 1))
    else mk_pool_inner (wrap 16 (r_r i + 1)) 0
  else i.

(** The running maximum or sum: cleared, and an element that arrives. *)
Definition acc_init (c : pool_cmd_t) : pool_acc := mk_pool_acc (if p_pool_mode c =? 0 then -128 else 0) false.

Definition acc_take (c : pool_cmd_t) (a : pool_acc) (elem : Z) : pool_acc :=
  mk_pool_acc
    (if p_pool_mode c =? 0 then if negb (has_valid_r a) || (acc_r a <? elem) then elem else acc_r a
     else i32 (acc_r a + elem)) true.

Definition acc_step (st : pool_state) (c : pool_cmd_t) (a : pool_acc) (act : rd_answer) (out_wr_gnt : bool) : pool_acc :=
  if new_elem st out_wr_gnt then acc_init c
  else if p_is st P_WAIT && rd_rvalid act then acc_take c a (i8 (rd_rdata act))
  else a.

(** The serial divider: loaded, and one clock. *)
Definition div_load (g : pool_cfg) (a : pool_acc) : pool_div :=
  mk_pool_div (u32 (if acc_r a <? 0 then - acc_r a else acc_r a)) 0 (pool_area_r g) 31 (acc_r a <? 0).

Definition div_clock (d : pool_div) : pool_div :=
  let '(quot, rem) := div_next (div_quot_r d) (div_rem_r d) (div_denom_r d) in
  mk_pool_div quot rem (div_denom_r d) (wrap 5 (div_cnt_r d - 1)) (div_sign_r d).

Definition div_step (st : pool_state) (g : pool_cfg) (i : pool_inner) (a : pool_acc) (d : pool_div) : pool_div :=
  if p_is st P_NEXT && last_inner_w (p_cmd g) i && negb (p_pool_mode (p_cmd g) =? 0) then div_load g a
  else if p_is st P_AVG_DIV then div_clock d
  else d.

Definition pool_step (p : pool_ctrl) (cmd : option pool_cmd_t) (act : rd_answer) (out_wr_gnt : bool) : pool_ctrl :=
  let st := p_state p in
  let c := p_cmd (p_cfg p) in
  mk_pool_ctrl (pool_next p (bool_decide (is_Some cmd)) act out_wr_gnt)
    (cfg_step st (p_cfg p) cmd) (outer_step st c (p_outer p) out_wr_gnt) (inner_step st c (p_inner p) out_wr_gnt)
    (acc_step st c (p_acc p) act out_wr_gnt) (div_step st (p_cfg p) (p_inner p) (p_acc p) (p_div p)).

(** [pool_composite] ties the weight and bias ports off. *)
Definition pool_request (p : pool_ctrl) : be_request :=
  let rd := p_is (p_state p) P_RD && negb (oob_w (p_cmd (p_cfg p)) (p_outer p) (p_inner p)) in
  mk_be_request 0 false (if rd then rd_addr_w (p_cfg p) (p_outer p) (p_inner p) else 0) rd
    (if p_is (p_state p) P_WR
     then Some (wr_addr_w (p_cmd (p_cfg p)) (p_outer p), result_w (p_cmd (p_cfg p)) (p_acc p) (p_div p))
     else None) 0 false.

Definition pool_cmd_ready (p : pool_ctrl) : bool := p_is (p_state p) P_IDLE.
Definition pool_done (p : pool_ctrl) : bool := p_is (p_state p) P_DONE.
Definition pool_busy (p : pool_ctrl) : bool := negb (p_is (p_state p) P_IDLE).

Definition pool_reset : pool_ctrl :=
  mk_pool_ctrl P_IDLE (mk_pool_cfg (mk_pool_cmd 0 0 0 0 0 0 0 0 0 0 0 0 0 0) 0 0) (mk_pool_outer 0 0 0 0 0 0)
    (mk_pool_inner 0 0) (mk_pool_acc 0 false) (mk_pool_div 0 0 0 0 false).

#[export] Instance pool_backend : Backend pool_ctrl pool_cmd_t := {|
  bk_step p cmd act _ _ out_wr_gnt := pool_step p cmd act out_wr_gnt;
  bk_request := pool_request; bk_ready := pool_cmd_ready; bk_busy := pool_busy; bk_done := pool_done;
  bk_reset := pool_reset |}.

(** ** The loop counters *)

Lemma odometer t n :
  0 <= t -> 0 < n ->
  if t mod n <? n - 1 then (t + 1) / n = t / n /\ (t + 1) mod n = t mod n + 1
  else (t + 1) / n = t / n + 1 /\ (t + 1) mod n = 0.
Proof.
  intros Ht Hn. pose proof (Z.mod_pos_bound t n Hn). pose proof (Z.div_mod t n ltac:(lia)).
  destruct (Z.ltb_spec (t mod n) (n - 1)); split; symmetry.
  - apply (Z.div_unique_pos _ _ _ (t mod n + 1)); lia.
  - apply (Z.mod_unique_pos _ _ (t / n)); lia.
  - apply (Z.div_unique_pos _ _ _ 0); lia.
  - apply (Z.mod_unique_pos _ _ (t / n + 1)); lia.
Qed.

Lemma i33_small z : - 2 ^ 32 <= z < 2 ^ 32 -> i33 z = z.
Proof. intros Hz. unfold i33. rewrite wrap_small; [lia|]. unfold fits. change (2 ^ 33) with (2 ^ 32 + 2 ^ 32). lia. Qed.

(** Counters that do not overflow. *)
Definition pool_cmd_ok (c : pool_cmd_t) : Prop :=
  (fits 16 (p_in_addr c) /\ fits 16 (p_out_addr c)) /\
  (0 <= p_in_h c <= 65535 /\ 0 <= p_in_w c <= 65535 /\ 1 <= p_in_c c <= 65535) /\
  (1 <= p_pool_r c <= 65535 /\ 1 <= p_pool_s c <= 65535) /\
  (0 <= p_stride_h c <= 65535 /\ 0 <= p_stride_w c <= 65535) /\
  (0 <= p_pad_h c <= 65535 /\ 0 <= p_pad_w c <= 65535) /\
  (1 <= p_out_h c <= 65535 /\ 1 <= p_out_w c <= 65535).

Section command.
Context (c : pool_cmd_t).

Abbreviation R := (p_pool_r c).
Abbreviation S_ := (p_pool_s c).
Abbreviation OH := (p_out_h c).
Abbreviation OW := (p_out_w c).
Abbreviation C := (p_in_c c).

Definition taps : nat := Z.to_nat (R * S_).
Definition elems : nat := Z.to_nat (OH * OW * C).

(** The registers at element [e], in the order of the output, and at place [t]
    of its window. *)
Definition out_row (e : nat) : Z := Z.of_nat e / C / OW.
Definition out_col (e : nat) : Z := (Z.of_nat e / C) mod OW.
Definition out_ch (e : nat) : Z := Z.of_nat e mod C.

Definition outer_at (e : nat) : pool_outer :=
  mk_pool_outer (out_row e) (out_col e) (out_ch e) (out_row e * p_stride_h c) (out_col e * p_stride_w c)
    (wrap ADDR_W (Z.of_nat e / C * C)).

Definition win_row (t : nat) : Z := Z.of_nat t / S_.
Definition win_col (t : nat) : Z := Z.of_nat t mod S_.

Definition inner_at (t : nat) : pool_inner := mk_pool_inner (win_row t) (win_col t).

Definition cfg_of : pool_cfg := mk_pool_cfg c (wrap 16 (wrap 8 R * wrap 8 S_)) (wrap ADDR_W (p_in_w c * C)).

Definition in_row (e t : nat) : Z := out_row e * p_stride_h c + win_row t - p_pad_h c.
Definition in_col (e t : nat) : Z := out_col e * p_stride_w c + win_col t - p_pad_w c.

(** In the padding. *)
Definition outside (e t : nat) : bool := negb (inside (p_in_h c) (p_in_w c) (in_row e t) (in_col e t)).

Hypothesis Hok : pool_cmd_ok c.

Lemma elem_bounds e : (e < elems)%nat -> 0 <= out_row e < OH /\ 0 <= out_col e < OW /\ 0 <= out_ch e < C /\ 0 <= Z.of_nat e / C < OH * OW.
Proof using Hok.
  unfold elems, out_row, out_col, out_ch. intros He. destruct Hok as (_ & (_ & _ & HC) & _ & _ & _ & HOH & HOW).
  assert (Hq : 0 <= Z.of_nat e / C < OH * OW) by (split; [apply Z.div_pos; lia|apply Z.div_lt_upper_bound; lia]).
  split_and!; try (apply Z.mod_pos_bound; lia); try lia.
  - apply Z.div_pos; lia.
  - apply Z.div_lt_upper_bound; lia.
Qed.

Lemma tap_bounds t : (t < taps)%nat -> 0 <= win_row t < R /\ 0 <= win_col t < S_.
Proof using Hok.
  unfold taps, win_row, win_col. intros Ht. destruct Hok as (_ & _ & (HR & HS) & _).
  split; [|apply Z.mod_pos_bound; lia]. split; [apply Z.div_pos; lia|apply Z.div_lt_upper_bound; lia].
Qed.

Lemma oob_at e t : (e < elems)%nat -> (t < taps)%nat ->
  ih_w c (outer_at e) (inner_at t) = in_row e t /\ iw_w c (outer_at e) (inner_at t) = in_col e t /\
  oob_w c (outer_at e) (inner_at t) = outside e t.
Proof using Hok.
  intros He Ht. destruct (elem_bounds e He) as (Hr & Hcl & _), (tap_bounds t Ht) as (Hwr & Hwc).
  destruct Hok as (_ & (HH & HW & HC) & (HR & HS) & (Hsh & Hsw) & (Hph & Hpw) & HOH & HOW).
  assert (Hih : ih_w c (outer_at e) (inner_at t) = in_row e t).
  { unfold ih_w, outer_at, inner_at, in_row. cbn [oh_base_r r_r]. apply i33_small. nia. }
  assert (Hiw : iw_w c (outer_at e) (inner_at t) = in_col e t).
  { unfold iw_w, outer_at, inner_at, in_col. cbn [ow_base_r s_r]. apply i33_small. nia. }
  split_and!; [done..|]. unfold oob_w, outside, inside. rewrite Hih, Hiw.
  rewrite !negb_andb, <- !Z.ltb_antisym, <- !Z.leb_antisym. done.
Qed.

Lemma u32_pred z : 1 <= z <= 65535 -> u32 (z - 1) = z - 1.
Proof using Type. intros Hz. apply wrap_small, fits32_iff. lia. Qed.

Lemma win_next t :
  (t < taps)%nat ->
  last_inner_w c (inner_at t) = bool_decide (S t = taps) /\
  ((S t < taps)%nat -> forall g, inner_step P_NEXT c (inner_at t) g = inner_at (S t)).
Proof using Hok.
  intros Ht. destruct (tap_bounds t Ht) as (Hr & Hs). pose proof Hok as (_ & _ & (HR & HS) & _).
  pose proof (odometer (Z.of_nat t) S_ ltac:(lia) ltac:(lia)) as Hodo. fold (win_row t) (win_col t) in Hodo.
  pose proof (Z.div_mod (Z.of_nat t) S_ ltac:(lia)) as Hdm. fold (win_row t) (win_col t) in Hdm.
  assert (Hlast : last_inner_w c (inner_at t) = bool_decide (S t = taps)).
  { unfold last_inner_w, inner_at. cbn [r_r s_r]. rewrite !u32_pred by lia.
    unfold taps in *. destruct (Z.eqb_spec (win_row t) (R - 1)), (Z.eqb_spec (win_col t) (S_ - 1)); symmetry; cbn [andb];
      first [apply bool_decide_eq_true_2|apply bool_decide_eq_false_2]; nia. }
  split; [done|]. intros HS' g. unfold inner_step, new_elem. rewrite Hlast, bool_decide_eq_false_2 by lia.
  cbn [p_is orb andb negb inner_at r_r s_r]. rewrite u32_pred by lia.
  change (inner_at (S t)) with (mk_pool_inner (Z.of_nat (S t) / S_) (Z.of_nat (S t) mod S_)).
  rewrite Nat2Z.inj_succ, <- Z.add_1_r.
  destruct (Z.ltb_spec (win_col t) (S_ - 1)); destruct Hodo as [-> ->]; rewrite wrap_small; try done; apply fits16_iff; lia.
Qed.

Lemma elem_next e :
  (e < elems)%nat ->
  last_output_w c (outer_at e) = bool_decide (S e = elems) /\
  ((S e < elems)%nat -> outer_step P_WR c (outer_at e) true = outer_at (S e)).
Proof using Hok.
  intros He. destruct (elem_bounds e He) as (Hr & Hcl & Hch & Hq).
  pose proof Hok as (_ & (_ & _ & HC) & _ & (Hsh & Hsw) & _ & HOH & HOW).
  pose proof (odometer (Z.of_nat e) C ltac:(lia) ltac:(lia)) as Hodo. fold (out_ch e) in Hodo.
  pose proof (odometer (Z.of_nat e / C) OW ltac:(lia) ltac:(lia)) as Hodo'. fold (out_row e) (out_col e) in Hodo'.
  pose proof (Z.div_mod (Z.of_nat e) C ltac:(lia)) as Hdm. fold (out_ch e) in Hdm.
  pose proof (Z.div_mod (Z.of_nat e / C) OW ltac:(lia)) as Hdm'. fold (out_row e) (out_col e) in Hdm'.
  assert (Hlast : last_output_w c (outer_at e) = bool_decide (S e = elems)).
  { unfold last_output_w, outer_at. cbn [oh_r ow_r c_r]. rewrite !u32_pred by lia.
    assert (Hn : Z.of_nat elems = OH * OW * C) by (unfold elems; nia).
    symmetry. destruct (Z.eqb_spec (out_row e) (OH - 1)) as [E1|E1], (Z.eqb_spec (out_col e) (OW - 1)) as [E2|E2],
      (Z.eqb_spec (out_ch e) (C - 1)) as [E3|E3]; cbn [andb];
      first [apply bool_decide_eq_true_2|apply bool_decide_eq_false_2; intros Heq].
    { apply Nat2Z.inj. rewrite Nat2Z.inj_succ, Hn, Hdm, Hdm', E1, E2, E3. ring. }
    all: apply (f_equal Z.of_nat) in Heq; rewrite Nat2Z.inj_succ, Hn in Heq.
    all: first [assert (Z.of_nat e + 1 <= C * (Z.of_nat e / C) + (C - 1)) by lia; nia|
      assert (Z.of_nat e / C + 1 <= OH * OW - 1) by nia; nia]. }
  split; [done|]. intros HS'. unfold outer_step. rewrite Hlast, bool_decide_eq_false_2 by lia.
  cbn [p_is orb andb negb outer_at oh_r ow_r c_r oh_base_r ow_base_r out_pix_base_r]. rewrite !u32_pred by lia.
  assert (Hout : outer_at (S e) = let q := (Z.of_nat e + 1) / C in
    mk_pool_outer (q / OW) (q mod OW) ((Z.of_nat e + 1) mod C) (q / OW * p_stride_h c) (q mod OW * p_stride_w c) (wrap ADDR_W (q * C))).
  { unfold outer_at, out_row, out_col, out_ch. by rewrite Nat2Z.inj_succ, <- Z.add_1_r. }
  rewrite Hout. cbv zeta.
  destruct (Z.ltb_spec (out_ch e) (C - 1)); destruct Hodo as [-> ->].
  - fold (out_row e) (out_col e). rewrite (wrap_small 16) by (apply fits16_iff; lia). done.
  - destruct (Z.ltb_spec (out_col e) (OW - 1)); destruct Hodo' as [-> ->].
    + rewrite (wrap_small 16), (wrap_small 32) by (apply fits16_iff || apply fits32_iff; nia).
      f_equal; [lia|]. unfold wrap. rewrite Zplus_mod_idemp_l. f_equal. lia.
    + rewrite (wrap_small 16), (wrap_small 32) by (apply fits16_iff || apply fits32_iff; nia).
      f_equal; [lia|]. unfold wrap. rewrite Zplus_mod_idemp_l. f_equal. lia.
Qed.

(** ** The stages of a command *)

Inductive stage :=
| Loading
| Reading (e t : nat) | Waiting (e t : nat) | Next (e t : nat)
| Dividing (e k : nat) | Writing (e : nat)
| Finished.

#[local] Instance stage_eq : EqDecision stage := ltac:(solve_decision).

Definition in_stage (st : stage) (s : pool_ctrl * router) : Prop :=
  let p := s.1 in
  p_cfg p = cfg_of /\ no_bias s /\
  match st with
  | Loading => p_state p = P_LOAD_CFG
  | Reading e t =>
      p_state p = P_RD /\ p_outer p = outer_at e /\ p_inner p = inner_at t /\ (e < elems)%nat /\ (t < taps)%nat
  | Waiting e t =>
      p_state p = P_WAIT /\ p_outer p = outer_at e /\ p_inner p = inner_at t /\ (e < elems)%nat /\ (t < taps)%nat /\
      be_rd_r (act_port_b s.2) = true
  | Next e t =>
      p_state p = P_NEXT /\ p_outer p = outer_at e /\ p_inner p = inner_at t /\ (e < elems)%nat /\ (t < taps)%nat
  | Dividing e k =>
      p_state p = P_AVG_DIV /\ p_outer p = outer_at e /\ (e < elems)%nat /\
      div_cnt_r (p_div p) = 31 - Z.of_nat k /\ (k < 32)%nat
  | Writing e => p_state p = P_WR /\ p_outer p = outer_at e /\ (e < elems)%nat
  | Finished => p_state p = P_DONE
  end.

(** After the last place of a window, and after an element. *)
Definition windowed (e : nat) : stage := if p_pool_mode c =? 0 then Writing e else Dividing e 0.
Definition written (e : nat) : stage := if decide (S e = elems) then Finished else Reading (S e) 0.

Definition next_stage (st : stage) : stage :=
  match st with
  | Loading => Reading 0 0
  | Reading e t => if outside e t then Next e t else Waiting e t
  | Waiting e t => Next e t
  | Next e t => if decide (S t = taps) then windowed e else Reading e (S t)
  | Dividing e k => if decide (k = 31%nat) then Writing e else Dividing e (S k)
  | Writing e => written e
  | Finished => Finished
  end.

Lemma sizes_pos : (0 < elems)%nat /\ (0 < taps)%nat.
Proof using Hok. destruct Hok as (_ & (_ & _ & HC) & (HR & HS) & _ & _ & HOH & HOW). unfold elems, taps. nia. Qed.

Lemma outer_at_0 : outer_at 0 = mk_pool_outer 0 0 0 0 0 0.
Proof using Type. unfold outer_at, out_row, out_col, out_ch. by rewrite !Zdiv_0_l, !Zmod_0_l. Qed.

Lemma pool_accepts s b : p_state s.1 = P_IDLE -> no_bias s -> in_stage Loading (side_step s (Some c) b).
Proof using Type. destruct s as [[] []]. unfold no_bias. cbn. intros Hs Hb. by subst. Qed.

(** The command stays latched, and no bias is read. *)
Lemma latched s cmd b :
  p_cfg s.1 = cfg_of -> p_state s.1 <> P_IDLE -> no_bias s ->
  p_cfg (side_step s cmd b).1 = cfg_of /\ no_bias (side_step s cmd b).
Proof using Type.
  intros Hg Hst Hb. split.
  - cbn. rewrite <- Hg. unfold cfg_step. destruct cmd; [|done]. by destruct (p_state s.1).
  - by apply router_no_pending.
Qed.

Lemma pool_stage_step st s cmd b : st <> Finished -> in_stage st s -> in_stage (next_stage st) (side_step s cmd b).
Proof using Hok.
  intros Hst (Hg & Hb & Hs). pose proof sizes_pos as (He0 & Ht0).
  assert (Hne : p_state s.1 <> P_IDLE) by (intros E; destruct st; [congruence|destruct Hs as [Hs _]; congruence ..|done]).
  destruct (latched s cmd b Hg Hne Hb) as [Hg' Hb'].
  assert (Hc : p_cmd (p_cfg s.1) = c) by by rewrite Hg.
  destruct st as [|e t|e t|e t|e k|e|]; cbn [next_stage]; [..|done].
  - split_and!; try done; cbn; [unfold pool_next|unfold outer_step; rewrite outer_at_0|unfold inner_step, new_elem]; by rewrite Hs.
  - destruct Hs as (Hs & Ho & Hi & He & Ht). destruct (oob_at e t He Ht) as (_ & _ & Hoob).
    assert (Hkeep : p_outer (side_step s cmd b).1 = outer_at e /\ p_inner (side_step s cmd b).1 = inner_at t).
    { cbn. unfold outer_step, inner_step, new_elem. by rewrite Hs. }
    assert (Hn : p_state (side_step s cmd b).1 = if outside e t then P_NEXT else P_WAIT).
    { cbn. unfold pool_next. rewrite Hs, Hc, Ho, Hi, Hoob. cbn [rd_gnt be_act_rd be_act_rd_req pool_request].
      rewrite Hs, Hc, Ho, Hi, Hoob. by destruct (outside e t). }
    destruct Hkeep as [Ho' Hi']. destruct (outside e t) eqn:Hout.
    + by split_and!.
    + split_and!; try done. cbn. unfold rport_step. cbn. rewrite Hs, Hc, Ho, Hi, Hoob. done.
  - destruct Hs as (Hs & Ho & Hi & He & Ht & Hr). split_and!; try done.
    + cbn. unfold pool_next. rewrite Hs. cbn [rd_rvalid be_act_rd]. by rewrite Hr.
    + cbn. unfold outer_step. by rewrite Hs.
    + cbn. unfold inner_step, new_elem. rewrite Hs. done.
  - destruct Hs as (Hs & Ho & Hi & He & Ht). destruct (win_next t Ht) as [Hlast Hin].
    assert (Ho' : p_outer (side_step s cmd b).1 = outer_at e) by (cbn; unfold outer_step; by rewrite Hs).
    destruct (decide (S t = taps)) as [Heq|Hneq].
    + unfold windowed. rewrite bool_decide_eq_true_2 in Hlast by done. destruct (p_pool_mode c =? 0) eqn:Hmode.
      * split_and!; try done. cbn. unfold pool_next. by rewrite Hs, Hc, Hi, Hlast, Hmode.
      * split_and!; try done; [|cbn; unfold div_step; by rewrite Hs, Hc, Hi, Hlast, Hmode|lia].
        cbn. unfold pool_next. by rewrite Hs, Hc, Hi, Hlast, Hmode.
    + rewrite bool_decide_eq_false_2 in Hlast by done. split_and!; try done; [| |lia].
      * cbn. unfold pool_next. by rewrite Hs, Hc, Hi, Hlast.
      * cbn. rewrite Hs, Hc, Hi. apply Hin. lia.
  - destruct Hs as (Hs & Ho & He & Hcnt & Hk).
    assert (Ho' : p_outer (side_step s cmd b).1 = outer_at e) by (cbn; unfold outer_step; by rewrite Hs).
    destruct (decide (k = 31%nat)) as [->|Hneq].
    + split_and!; try done. cbn. unfold pool_next. by rewrite Hs, Hcnt.
    + split_and!; try done; [| |lia].
      * cbn. unfold pool_next. rewrite Hs, Hcnt. by rewrite (proj2 (Z.eqb_neq _ 0)) by lia.
      * cbn. unfold div_step, div_clock. rewrite Hs. cbn [p_is andb]. destruct (div_next _ _ _). cbn [div_cnt_r].
        rewrite Hcnt, wrap_small; [lia|]. unfold fits. change (2 ^ 5) with 32. lia.
  - destruct Hs as (Hs & Ho & He). destruct (elem_next e He) as [Hlast Hout]. unfold written.
    assert (Hgnt : be_act_wr_gnt (pool_request s.1) = true).
    { unfold be_act_wr_gnt, pool_request. rewrite Hs. cbn. done. }
    destruct (decide (S e = elems)) as [Heq|Hneq].
    + rewrite bool_decide_eq_true_2 in Hlast by done. split_and!; try done.
      cbn -[be_act_wr_gnt]. unfold pool_next. by rewrite Hs, Hgnt, Hc, Ho, Hlast.
    + rewrite bool_decide_eq_false_2 in Hlast by done. split_and!; try done; [| | |lia].
      * cbn -[be_act_wr_gnt]. unfold pool_next. by rewrite Hs, Hgnt, Hc, Ho, Hlast.
      * cbn -[be_act_wr_gnt]. rewrite Hs, Hgnt, Hc, Ho. apply Hout. lia.
      * cbn -[be_act_wr_gnt]. unfold inner_step, new_elem. by rewrite Hs, Hgnt.
Qed.

(** ** How long a command takes *)

(** A place takes three clocks, or two in the padding; an element its places,
    32 clocks of the divider for an average, and one to write. *)
Definition tap_clocks (e t : nat) : nat := if outside e t then 2 else 3.
Definition taps_left (e t : nat) : nat := sum_list_with (tap_clocks e) (seq t (taps - t)).
Definition tail_clocks : nat := if p_pool_mode c =? 0 then 1 else 33.
Definition elems_left (e : nat) : nat := sum_list_with (fun e => taps_left e 0 + tail_clocks)%nat (seq e (elems - e)).

Definition pool_clocks : nat := S (elems_left 0).

(** From a stage to the end. *)
Definition clocks_left (st : stage) : nat :=
  match st with
  | Loading => pool_clocks
  | Reading e t => taps_left e t + tail_clocks + elems_left (S e)
  | Waiting e t => 2 + (taps_left e (S t) + tail_clocks + elems_left (S e))
  | Next e t => 1 + (taps_left e (S t) + tail_clocks + elems_left (S e))
  | Dividing e k => (33 - k) + elems_left (S e)
  | Writing e => 1 + elems_left (S e)
  | Finished => 0
  end.

(** The indices of a stage are within the command. *)
Definition within (st : stage) : Prop :=
  match st with
  | Reading e t | Waiting e t | Next e t => (e < elems)%nat /\ (t < taps)%nat
  | Dividing e k => (e < elems)%nat /\ (k < 32)%nat
  | Writing e => (e < elems)%nat
  | _ => True
  end.

Lemma seq_from i n : (i < n)%nat -> seq i (n - i) = i :: seq (S i) (n - S i).
Proof using Type. intros Hi. by replace (n - i)%nat with (S (n - S i)) by lia. Qed.

Lemma elems_left_S e : (e < elems)%nat -> elems_left e = (taps_left e 0 + tail_clocks + elems_left (S e))%nat.
Proof using Type. intros He. unfold elems_left. by rewrite seq_from. Qed.

Lemma taps_left_S e t : (t < taps)%nat -> taps_left e t = (tap_clocks e t + taps_left e (S t))%nat.
Proof using Type. intros Ht. unfold taps_left. by rewrite seq_from. Qed.

Lemma elems_left_end : elems_left elems = 0%nat.
Proof using Type. unfold elems_left. by rewrite Nat.sub_diag. Qed.

Lemma taps_left_end e : taps_left e taps = 0%nat.
Proof using Type. unfold taps_left. by rewrite Nat.sub_diag. Qed.

Lemma sum_list_with_le {A} (f : A -> nat) b l : (forall x, (f x <= b)%nat) -> (sum_list_with f l <= length l * b)%nat.
Proof using Type. intros Hf. induction l as [|x l IH]; cbn; [lia|]. specialize (Hf x). lia. Qed.

(** In the worst case, no window touches the padding. *)
Lemma pool_clocks_le : (pool_clocks <= 1 + elems * (3 * taps + 33))%nat.
Proof using Type.
  unfold pool_clocks, elems_left.
  assert (Htaps : forall e, (taps_left e 0 <= 3 * taps)%nat).
  { intros e. unfold taps_left. pose proof (sum_list_with_le (tap_clocks e) 3 (seq 0 (taps - 0))) as H.
    rewrite length_seq in H. rewrite Nat.sub_0_r in *. rewrite Nat.mul_comm. apply H. intros t. unfold tap_clocks. destruct (outside e t); lia. }
  pose proof (sum_list_with_le (fun e => taps_left e 0 + tail_clocks)%nat (3 * taps + 33) (seq 0 (elems - 0))) as H.
  rewrite length_seq, Nat.sub_0_r in *. apply le_n_S, H. intros e. specialize (Htaps e). unfold tail_clocks. destruct (_ =? 0); lia.
Qed.

Lemma left_next st : within st -> within (next_stage st) /\ clocks_left (next_stage st) = (clocks_left st - 1)%nat.
Proof using Hok.
  pose proof sizes_pos as (He0 & Ht0). destruct st as [|e t|e t|e t|e k|e|]; cbn [within next_stage clocks_left]; [..|done].
  - intros _. split; [done|]. unfold pool_clocks. rewrite (elems_left_S 0) by done. lia.
  - intros [He Ht]. rewrite taps_left_S by done. unfold tap_clocks. destruct (outside e t); (split; [by split|cbn; lia]).
  - intros [He Ht]. split; [by split|lia].
  - intros [He Ht]. destruct (decide (S t = taps)) as [Heq|Hne]; [|split; [split; [done|lia]|cbn; lia]].
    rewrite Heq, taps_left_end. unfold windowed, tail_clocks. destruct (_ =? 0); cbn [within clocks_left]; (split; [lia|lia]).
  - intros [He Hk]. destruct (decide _); cbn; (split; [lia|lia]).
  - intros He. unfold written. destruct (decide _) as [Heq|Hne]; cbn [within clocks_left].
    + by rewrite Heq, elems_left_end.
    + rewrite (elems_left_S (S e)) by lia. split; [split; lia|lia].
Qed.

Lemma left_pos st : within st -> st <> Finished -> (1 <= clocks_left st)%nat.
Proof using Hok.
  pose proof sizes_pos as (He0 & Ht0). destruct st as [|e t|e t|e t|e k|e|]; cbn [within clocks_left]; intros Hw Hst; try lia; [..|done].
  - unfold pool_clocks. lia.
  - rewrite taps_left_S by apply Hw. unfold tap_clocks. destruct (outside e t); lia.
Qed.

Abbreviation pool_at := (stage_at next_stage Loading).

(** Once through all of its stages. *)
Lemma pool_at_finished T : (T <= pool_clocks)%nat -> pool_at T = Finished <-> T = pool_clocks.
Proof using Hok. apply (countdown_finished next_stage Loading Finished within clocks_left); [done|exact left_next|exact left_pos|done]. Qed.

Lemma pool_stage_view T s :
  (T <= pool_clocks)%nat -> in_stage (pool_at T) s ->
  pool_busy s.1 = true /\ pool_done s.1 = bool_decide (T = pool_clocks).
Proof using Hok.
  intros HT (_ & _ & Hs). rewrite <- (bool_decide_ext _ _ (pool_at_finished T HT)). unfold pool_busy, pool_done.
  destruct (pool_at T); (rewrite Hs || rewrite (proj1 Hs)); done.
Qed.

Lemma pool_finishes s cmd b :
  in_stage Finished s -> p_state (side_step s cmd b).1 = P_IDLE /\ no_bias (side_step s cmd b).
Proof using Type.
  intros (_ & Hb & Hs). split; [cbn; unfold pool_next; by rewrite Hs|by apply router_no_pending].
Qed.
End command.

(** ** The contract of a backend *)

#[export, program] Instance pool_backend_laws : BackendLaws pool_backend := {|
  bk_cycles := pool_clocks;
  bk_runnable := pool_cmd_ok;
  bk_rest p := p_state p = P_IDLE;
  bk_runs c m s := pool_cmd_ok c /\ staged_runs (next_stage c) Loading (pool_clocks c) (in_stage c) m s |}.
Next Obligation. intros p Hp. cbn. unfold pool_busy, pool_done, pool_cmd_ready, asks_nothing, pool_request. cbn. by rewrite Hp. Qed.
Next Obligation. intros p cmd a w i g a' w' i' g' Hp. cbn. unfold pool_step, pool_next. by rewrite Hp. Qed.
Next Obligation. intros p a w i g Hp. cbn. unfold pool_next. by rewrite Hp. Qed.
Next Obligation. by intros c m s [_ [_ (_ & Hb & _)]]. Qed.
Next Obligation. intros c s b Hs Hb Hc. split; [done|]. by apply staged_start, pool_accepts. Qed.
Next Obligation.
  intros c m s [Hc Hm]. refine (staged_view _ _ _ _ _ m s Hm). intros T s' HT. by apply pool_stage_view.
Qed.
Next Obligation.
  intros c m s cmd b [Hc Hm]. destruct m as [|m].
  - apply (pool_finishes c). refine (staged_last _ _ _ _ _ _ s Hm). by apply (pool_at_finished c Hc).
  - split; [done|]. refine (staged_step _ _ _ _ _ m s cmd b Hm). intros T s' cmd' b' HT Hs'. rewrite stage_at_S.
    apply pool_stage_step; [done| |done]. intros E. apply (pool_at_finished c Hc) in E; lia.
Qed.
Next Obligation. done. Qed.
