(* ===== verification/PoolData.v ===== *)
(** * The pooling backend: data

    What the stages of [PoolBackend] leave in the memories: the running maximum
    or sum of a window, the quotient of the serial divider, the bytes written.
    Then that a command computes what the testbench's [ref_pool] says. *)

From S2P Require Import Prelude Regs Command Decode CArith SerialDiv Golden GoldenRows Mem BackendMem Backend PoolBackend.
From stdpp Require Import gmap.

Open Scope Z_scope.

Abbreviation pool_side := (pool_ctrl * router)%type.
Abbreviation pool_world := (pool_side * buffers)%type.

(** ** A command on the memories *)

Section command.
Context (c : pool_cmd_t).

(** The cell read at place [t] of the window of element [e], and the cell of
    the element; activation banks have 13 address bits. *)
Definition in_cell (e t : nat) : Z := wrap (SRAM_ADDR_W + 1) (rd_addr_w (cfg_of c) (outer_at c e) (inner_at c t)).
Definition pool_cell (e : nat) : Z := wrap (SRAM_ADDR_W + 1) (wr_addr_w c (outer_at c e)).

Definition tap_value (act : cells) (e t : nat) : option Z :=
  if outside c e t then None else Some (i8 (cell act (in_cell e t))).

(** After [t] places. *)
Definition acc_at (act : cells) (e t : nat) : pool_acc :=
  foldl (fun a v => from_option (acc_take c a) a v) (acc_init c) (tap_value act e <$> seq 0 t).

Definition total (act : cells) (e : nat) : pool_acc := acc_at act e (taps c).

Definition div_at (act : cells) (e k : nat) : pool_div := Nat.iter k div_clock (div_load (cfg_of c) (total act e)).

Definition pool_elem (act : cells) (e : nat) : Z := result_w c (total act e) (div_at act e 32).

(** The activation buffer after [e] elements. *)
Fixpoint pooled (act : cells) (e : nat) : cells :=
  match e with
  | O => act
  | S j => let act' := pooled act j in <[pool_cell j := pool_elem act' j]> act'
  end.

Lemma acc_at_S act e t : acc_at act e (S t) = from_option (acc_take c (acc_at act e t)) (acc_at act e t) (tap_value act e t).
Proof. unfold acc_at. by rewrite seq_S, fmap_app, foldl_app. Qed.

Context (m0 : sram).

Definition pool_memory (e : nat) : sram := mk_sram (wt_mem m0) (pooled (act_mem m0) e) (psum_mem m0).

Definition stage_data (st : stage) (w : pool_world) : Prop :=
  let p := w.1.1 in
  let b := w.2 in
  match st with
  | Loading => contents b = m0
  | Reading e t => contents b = pool_memory e /\ p_acc p = acc_at (pooled (act_mem m0) e) e t
  | Waiting e t =>
      contents b = pool_memory e /\ p_acc p = acc_at (pooled (act_mem m0) e) e t /\
      outside c e t = false /\ b_rdata (act_port_b w.1.2) = cell (pooled (act_mem m0) e) (in_cell e t)
  | Next e t => contents b = pool_memory e /\ p_acc p = acc_at (pooled (act_mem m0) e) e (S t)
  | Dividing e k =>
      contents b = pool_memory e /\ p_acc p = total (pooled (act_mem m0) e) e /\
      p_div p = div_at (pooled (act_mem m0) e) e k
  | Writing e =>
      contents b = pool_memory e /\ p_acc p = total (pooled (act_mem m0) e) e /\
      ((p_pool_mode c =? 0) = false -> p_div p = div_at (pooled (act_mem m0) e) e 32)
  | Finished => contents b = pool_memory (elems c)
  end.

Definition world_in (st : stage) (w : pool_world) : Prop := in_stage c st w.1 /\ stage_data st w.

Lemma result_fits a d : fits DATA_W (result_w c a d).
Proof. unfold result_w, saturate. repeat case_match; first [by apply fits_wrap|done]. Qed.

Hypothesis Hok : pool_cmd_ok c.

Lemma pool_world_stage st w cmd host :
  no_write host -> st <> Finished -> world_in st w -> world_in (next_stage c st) (world_step w cmd host).
Proof using Hok.
  intros Hh Hst [Hs Hd]. split; [by apply pool_stage_step|].
  destruct Hs as (Hg & Hb & Hs).
  assert (Hq : (forall e, st <> Writing e) -> contents (world_step w cmd host).2 = contents w.2).
  { intros Hnw. apply world_quiet; [done|]. cbn. destruct st as [|e t|e t|e t|e k|e|]; try (by destruct (Hnw e));
      (rewrite Hs || rewrite (proj1 Hs)); done. }
  assert (Hc : p_cmd (p_cfg w.1.1) = c) by by rewrite Hg.
  destruct w as [[p r] b]. cbn [fst snd] in *. unfold stage_data in Hd. cbn [fst snd] in Hd.
  assert (Hacc : forall a, acc_step (p_state p) c (p_acc p) (be_act_rd r (pool_request p)) (be_act_wr_gnt (pool_request p)) = a ->
    p_acc (world_step (p, r, b) cmd host).1.1 = a) by (intros a <-; cbn -[acc_step]; by rewrite Hc).
  destruct st as [|e t|e t|e t|e k|e|]; cbn [next_stage]; [..|done].
  - split; [rewrite Hq, Hd by done; unfold pool_memory; by destruct m0|].
    apply Hacc. unfold acc_step, new_elem. by rewrite Hs.
  - destruct Hs as (Hs & Ho & Hi & He & Ht), Hd as (Hm & Ha). destruct (oob_at c Hok e t He Ht) as (_ & _ & Hoob).
    assert (Hk : p_acc (world_step (p, r, b) cmd host).1.1 = acc_at (pooled (act_mem m0) e) e t)
      by (apply Hacc; unfold acc_step, new_elem; by rewrite Hs).
    destruct (outside c e t) eqn:Hout; cbn [stage_data].
    + split; [by rewrite Hq|]. cbn [fst] in Hk. rewrite Hk, acc_at_S. unfold tap_value. by rewrite Hout.
    + split_and!; [by rewrite Hq|done|done|]. cbn. unfold rport_step. cbn. rewrite Hs, Hc, Ho, Hi, Hoob. cbn.
      unfold in_cell. rewrite Hg. change (mem_cells (u_act_buf b)) with (act_mem (contents b)). by rewrite Hm.
  - destruct Hs as (Hs & Ho & Hi & He & Ht & Hr), Hd as (Hm & Ha & Hout & Hdata). split; [by rewrite Hq|].
    rewrite acc_at_S. unfold tap_value. rewrite Hout, <- Hdata. apply Hacc. unfold acc_step, new_elem.
    rewrite Hs. cbn [be_act_rd rd_rvalid rd_rdata p_is orb andb]. by rewrite Hr, Ha.
  - destruct Hs as (Hs & Ho & Hi & He & Ht), Hd as (Hm & Ha). destruct (win_next c Hok t Ht) as [Hlast _].
    assert (Hk : p_acc (world_step (p, r, b) cmd host).1.1 = acc_at (pooled (act_mem m0) e) e (S t))
      by (apply Hacc; unfold acc_step, new_elem; by rewrite Hs).
    destruct (decide (S t = taps c)) as [Heq|Hne]; [|by split; [rewrite Hq|]].
    rewrite bool_decide_eq_true_2 in Hlast by done. unfold windowed. rewrite Heq in *.
    destruct (p_pool_mode c =? 0) eqn:Hmode; (split_and!; [by rewrite Hq|done|]); [by rewrite Hmode|].
    cbn. unfold div_step. by rewrite Hs, Hc, Hi, Hlast, Hmode, Hg, Ha.
  - destruct Hs as (Hs & Ho & He & Hcnt & Hk), Hd as (Hm & Ha & Hdiv).
    assert (Hk' : p_acc (world_step (p, r, b) cmd host).1.1 = total (pooled (act_mem m0) e) e)
      by (apply Hacc; unfold acc_step, new_elem; by rewrite Hs).
    assert (Hd' : p_div (world_step (p, r, b) cmd host).1.1 = div_at (pooled (act_mem m0) e) e (S k)).
    { cbn. unfold div_step. rewrite Hs, Hdiv. done. }
    destruct (decide (k = 31%nat)) as [->|Hne]; (split_and!; [by rewrite Hq|done|done]).
  - destruct Hs as (Hs & Ho & He), Hd as (Hm & Ha & Hdiv).
    assert (Hres : result_w c (p_acc p) (p_div p) = pool_elem (pooled (act_mem m0) e) e).
    { unfold pool_elem, result_w in *. rewrite Ha. by destruct (p_pool_mode c =? 0); [|rewrite Hdiv]. }
    assert (Hw : be_act_write (pool_request p) = Some (wr_addr_w c (outer_at c e), pool_elem (pooled (act_mem m0) e) e)).
    { unfold pool_request. cbn. by rewrite Hs, Hc, Ho, Hres. }
    assert (Hm' : contents (world_step (p, r, b) cmd host).2 = pool_memory (S e)).
    { unfold world_step. cbn [snd fst bk_request pool_backend]. rewrite Hw, backend_write_step, Hm by done.
      by rewrite (wrap_small DATA_W) by apply result_fits. }
    unfold written. destruct (decide (S e = elems c)) as [Heq|Hne]; [by rewrite Heq in Hm'|].
    split; [done|]. apply Hacc. unfold acc_step, new_elem, be_act_wr_gnt. by rewrite Hs, Hw.
Qed.

(** Element after element, and nothing else in the three buffers. *)
Lemma pool_effect w host ins :
  p_state w.1.1 = P_IDLE -> no_bias w.1 -> contents w.2 = m0 -> no_write host -> only_reads ins ->
  length ins = S (pool_clocks c) ->
  contents (bk_run (world_step w (Some c) host) ins).2 = pool_memory (elems c).
Proof using Hok.
  intros Hs Hb Hm Hhost Hins Hn. eapply (staged_effect (next_stage c) Loading (pool_clocks c) world_in).
  - intros T w' cmd h' HT Hh' Hw'. rewrite stage_at_S. apply pool_world_stage; [done| |done].
    intros E. apply (pool_at_finished c Hok) in E; lia.
  - split; [by apply pool_accepts|]. unfold stage_data. rewrite world_quiet; [done|done|]. cbn. by rewrite Hs.
  - done.
  - done.
  - rewrite (proj2 (pool_at_finished c Hok _ (le_n _)) eq_refl). intros w' [(_ & _ & Hs') Hd]. split; [exact Hd|].
    cbn. by rewrite Hs'.
Qed.
End command.

#[export, program] Instance pool_backend_effect : BackendEffect pool_backend_laws := {|
  bk_effect c m := pool_memory c m (elems c) |}.
Next Obligation. intros c m w host ins [Hs Hb] Hm Hc Hhost Hins Hn. by apply pool_effect. Qed.

(** ** The serial divider *)

(** The registers [k] clocks after the divider was loaded. *)
Lemma divider_serial d k :
  div_rem_r d = 0 ->
  let d' := Nat.iter k div_clock d in
  (div_quot_r d', div_rem_r d') = serial (div_quot_r d) (div_denom_r d) k /\
  div_denom_r d' = div_denom_r d /\ div_sign_r d' = div_sign_r d.
Proof.
  intros Hr. induction k as [|k (Hqr & Hd & Hs)]; [cbn; by rewrite Hr|]. cbv zeta in *. unfold serial in *.
  rewrite !Nat.iter_succ, <- Hqr. set (d' := Nat.iter k div_clock d) in *.
  unfold div_clock. rewrite Hd, Hs. by destruct (div_next _ _ _).
Qed.

(** 32 clocks divide. *)
Lemma divider_divides g a :
  1 <= pool_area_r g < 2 ^ 31 -> fits 32 (Z.abs (acc_r a)) ->
  div_quot_r (Nat.iter 32 div_clock (div_load g a)) = Z.abs (acc_r a) / pool_area_r g /\
  div_sign_r (Nat.iter 32 div_clock (div_load g a)) = (acc_r a <? 0).
Proof.
  intros HD HN. destruct (divider_serial (div_load g a) 32 eq_refl) as (Hqr & _ & Hs). split; [|exact Hs].
  assert (Hload : div_quot_r (div_load g a) = Z.abs (acc_r a)).
  { cbn [div_load div_quot_r]. rewrite <- (wrap_small 32 (Z.abs (acc_r a))) by done. f_equal. destruct (Z.ltb_spec (acc_r a) 0); lia. }
  assert (Hdenom : div_denom_r (div_load g a) = pool_area_r g) by done.
  rewrite Hload, Hdenom, serial_divides in Hqr by done.
  exact (proj1 (proj1 (pair_equal_spec _ _ _ _) Hqr)).
Qed.

(** ** The addresses *)

Lemma wrap_add_wraps w a x y z : wrap w (a + wrap w x + wrap w y + z) = wrap w (a + x + y + z).
Proof.
  unfold wrap. replace (a + _ + _ + z) with (a + z + x mod 2 ^ w + y mod 2 ^ w) by lia. rewrite Zplus_mod_idemp_r.
  replace (a + z + _ + y) with (a + z + y + x mod 2 ^ w) by lia. rewrite Zplus_mod_idemp_r. f_equal. lia.
Qed.

Section addresses.
Context (c : pool_cmd_t).

(** The cell of the [i]-th input element, and of the [i]-th output element. *)
Definition input_cell (i : Z) : Z := wrap (SRAM_ADDR_W + 1) (wrap ADDR_W (p_in_addr c + i)).
Definition output_cell (e : nat) : Z := wrap (SRAM_ADDR_W + 1) (wrap ADDR_W (p_out_addr c + Z.of_nat e)).

(** Row, column and channel of the input, by the loop counters. *)
Definition in_index (e t : nat) : Z := (in_row c e t * p_in_w c + in_col c e t) * p_in_c c + out_ch c e.

Hypothesis Hok : pool_cmd_ok c.

Lemma in_cell_index e t : (e < elems c)%nat -> (t < taps c)%nat -> in_cell c e t = input_cell (in_index e t).
Proof using Hok.
  intros He Ht. destruct (oob_at c Hok e t He Ht) as (Hih & Hiw & _). unfold in_cell, rd_addr_w, input_cell. f_equal.
  cbn [p_cmd cfg_of in_wxc_r c_r outer_at]. rewrite Hih, Hiw.
  assert (Hm : forall x y, wrap ADDR_W (wrap ADDR_W x * wrap ADDR_W y) = wrap ADDR_W (x * y)) by (intros; unfold wrap; by rewrite <- Zmult_mod).
  assert (Hm' : forall x y, wrap ADDR_W (wrap ADDR_W x * y) = wrap ADDR_W (x * y)) by (intros; unfold wrap; by rewrite Zmult_mod_idemp_l).
  rewrite Hm, Hm', wrap_add_wraps. f_equal. unfold in_index. ring.
Qed.

Lemma pool_cell_index e : (e < elems c)%nat -> pool_cell c e = output_cell e.
Proof using Hok.
  intros He. destruct Hok as (_ & (_ & _ & HC) & _). unfold pool_cell, wr_addr_w, output_cell. f_equal.
  cbn [out_pix_base_r c_r outer_at]. unfold out_ch. pose proof (Z.div_mod (Z.of_nat e) (p_in_c c) ltac:(lia)).
  unfold wrap. rewrite <- Zplus_mod_idemp_l, Zplus_mod_idemp_r, Zplus_mod_idemp_l. f_equal. lia.
Qed.
End addresses.

(** ** The reference model *)

(** The input is in the buffer, the sizes are those of the reference model with
    the shape of its result, a window of an average has at most 255 rows and
    columns, and no output cell is an input cell or another output cell. *)
Definition pool_operands (c : pool_cmd_t) (m : sram) (input : list Z) : Prop :=
  let n := p_in_h c * p_in_w c * p_in_c c in
  pool_defined input (p_in_h c) (p_in_w c) (p_in_c c) (p_pool_r c) (p_pool_s c) (p_stride_h c) (p_stride_w c) (p_pad_h c) (p_pad_w c) /\
  p_out_h c = positions (p_in_h c) (p_pad_h c) (p_pool_r c) (p_stride_h c) /\
  p_out_w c = positions (p_in_w c) (p_pad_w c) (p_pool_s c) (p_stride_w c) /\
  (p_pool_mode c = 0 \/ p_pool_r c <= 255 /\ p_pool_s c <= 255) /\
  (forall i, 0 <= i < n -> cell (act_mem m) (input_cell c i) = u8 (at_ input i)) /\
  (forall e i, (e < elems c)%nat -> 0 <= i < n -> output_cell c e <> input_cell c i) /\
  (forall e e', (e < e' < elems c)%nat -> output_cell c e <> output_cell c e').

(** What the reference model says of the operands. *)
Abbreviation pool_golden c input :=
  (ref_pool input (p_in_h c) (p_in_w c) (p_in_c c) (p_pool_r c) (p_pool_s c) (p_stride_h c) (p_stride_w c)
    (p_pad_h c) (p_pad_w c) (p_pool_mode c)).

(** From [m] to [m'], the output cells have become [out] and nothing else has
    changed. *)
Definition pool_results (c : pool_cmd_t) (m m' : sram) (out : list Z) : Prop :=
  (forall e, (e < elems c)%nat -> cell (act_mem m') (output_cell c e) = u8 (at_ out (Z.of_nat e))) /\
  (forall a, (forall e, (e < elems c)%nat -> output_cell c e <> a) -> cell (act_mem m') a = cell (act_mem m) a) /\
  wt_mem m' = wt_mem m /\ psum_mem m' = psum_mem m.

Section reference.
Context (c : pool_cmd_t) (m0 : sram) (input : list Z).
Hypothesis Hok : pool_cmd_ok c.
Hypothesis Hops : pool_operands c m0 input.

Abbreviation spec :=
  (pool_spec input (p_in_h c) (p_in_w c) (p_in_c c) (p_pool_r c) (p_pool_s c) (p_stride_h c) (p_stride_w c)
    (p_pad_h c) (p_pad_w c) (p_pool_mode c)).
Abbreviation gtap :=
  (tap input (p_in_h c) (p_in_w c) (p_in_c c) (p_stride_h c) (p_stride_w c) (p_pad_h c) (p_pad_w c)).
Abbreviation ref_tap e t := (gtap (out_row c e) (out_col c e) (out_ch c e) (win_row c t) (win_col c t)).
Abbreviation act_after := (pooled c (act_mem m0)).

Lemma pooled_other k a :
  (k <= elems c)%nat -> (forall e, (e < k)%nat -> output_cell c e <> a) -> cell (act_after k) a = cell (act_mem m0) a.
Proof using Hok.
  induction k as [|k IH]; intros Hk Ha; [done|]. unfold cell in *. cbn [pooled].
  rewrite lookup_insert_ne by (rewrite (pool_cell_index c Hok) by lia; apply Ha; lia). apply IH; [lia|].
  intros e He. apply Ha. lia.
Qed.

(** What is read at a place of a window. *)
Lemma tap_value_ref e t :
  (e < elems c)%nat -> (t < taps c)%nat -> tap_value c (act_after e) e t = ref_tap e t.
Proof using Hok Hops.
  intros He Ht. destruct Hops as (Hd & _ & _ & _ & Hin & Hfree & _). unfold tap_value, tap, outside.
  fold (in_row c e t) (in_col c e t). destruct (inside _ _ _ _) eqn:Hi; [|done]. cbn [negb]. f_equal.
  apply inside_true in Hi as [Hr Hc]. destruct (elem_bounds c Hok e He) as (_ & _ & Hch & _).
  pose proof (digit_index _ _ _ _ Hr Hc) as Hp. pose proof (digit_index _ _ _ _ Hp Hch) as Hn.
  rewrite (in_cell_index c Hok e t He Ht), pooled_other by (lia || (intros e' He'; apply Hfree; [lia|exact Hn])).
  unfold in_index. rewrite Hin by exact Hn. apply i8_u8. destruct Hd as (_ & _ & _ & _ & _ & _ & Hi8 & _). by eapply at_i8.
Qed.

Lemma taps_flat : Z.of_nat (taps c) = p_pool_r c * p_pool_s c.
Proof using Hok. destruct Hok as (_ & _ & (HR & HS) & _). unfold taps. nia. Qed.

Lemma tap_fits d e t : fits_i8 d -> fits_i8 (default d (ref_tap e t)).
Proof using Hops. intros Hd. apply (tap_i8 _ _ _ _ (p_pool_r c) (p_pool_s c)); [apply Hops|done]. Qed.

(** The running maximum. *)
Lemma acc_max e t :
  p_pool_mode c = 0 -> (e < elems c)%nat -> (t <= taps c)%nat ->
  let a := acc_at c (act_after e) e t in
  acc_r a = row_max (fun i => default (-128) (ref_tap e (Z.to_nat i))) (Z.of_nat t) /\
  (has_valid_r a = false -> acc_r a = -128).
Proof using Hok Hops.
  intros Hmode He. induction t as [|t IH]; intros Ht; [by unfold acc_at, acc_init; rewrite Hmode|].
  cbv zeta. rewrite acc_at_S, tap_value_ref by lia. destruct (IH ltac:(lia)) as [Ha Hv]. clear IH.
  rewrite Nat2Z.inj_succ, <- Z.add_1_r, row_max_succ, Nat2Z.id, <- Ha by lia.
  pose proof (tap_fits (-128) e t ltac:(done)) as [Hlo Hhi].
  assert (Hlow : -128 <= acc_r (acc_at c (act_after e) e t)).
  { rewrite Ha. apply row_max_bounds; [lia|]. intros i _. by apply tap_fits. }
  destruct (ref_tap e t) as [x|]; cbn in *.
  - unfold acc_take. rewrite Hmode. cbn. split; [|done]. destruct (has_valid_r _); cbn [negb orb].
    + destruct (Z.ltb_spec (acc_r (acc_at c (act_after e) e t)) x); lia.
    + specialize (Hv eq_refl). lia.
  - split; [lia|done].
Qed.

(** The running sum. *)
Lemma acc_sum e t :
  p_pool_mode c <> 0 -> (e < elems c)%nat -> (t <= taps c)%nat ->
  acc_r (acc_at c (act_after e) e t) = Zsum (Z.of_nat t) (fun i => default 0 (ref_tap e (Z.to_nat i))).
Proof using Hok Hops.
  intros Hmode%Z.eqb_neq He. induction t as [|t IH]; intros Ht; [by unfold acc_at, acc_init; rewrite Hmode|].
  rewrite acc_at_S, tap_value_ref by lia. specialize (IH ltac:(lia)).
  assert (Hsum : forall n, (n <= taps c)%nat -> INT_MIN <= Zsum (Z.of_nat n) (fun i => default 0 (ref_tap e (Z.to_nat i))) <= INT_MAX).
  { intros n Hn. destruct Hops as ((_ & _ & _ & _ & _ & HRS & _) & _). pose proof taps_flat.
    destruct (Zsum_range (Z.of_nat n) (fun i => default 0 (ref_tap e (Z.to_nat i))) (-128) 127) as [H1 H2];
      [lia|intros i _; by apply tap_fits|]. unfold INT_MIN, INT_MAX in *. lia. }
  specialize (Hsum (S t) Ht). rewrite Nat2Z.inj_succ, <- Z.add_1_r, Zsum_succ, Nat2Z.id in * by lia.
  destruct (ref_tap e t) as [x|]; cbn in *; [|lia]. unfold acc_take. rewrite Hmode. cbn. rewrite IH. by apply i32_id.
Qed.

(** The byte of an element. *)
Lemma pool_elem_ref e :
  (e < elems c)%nat -> pool_elem c (act_after e) e = u8 (spec (out_row c e) (out_col c e) (out_ch c e)).
Proof using Hok Hops.
  intros He. destruct Hops as (Hd & _ & _ & Hbig & _). pose proof Hok as (_ & _ & (HR & HS) & _).
  unfold pool_elem, result_w, saturate, pool_spec. rewrite saturated. f_equal. destruct (Z.eqb_spec (p_pool_mode c) 0) as [Hmode|Hmode].
  - destruct (acc_max e (taps c) Hmode He (le_n _)) as [Ha _]. unfold total. rewrite Ha, taps_flat.
    pose proof (pool_max_i8 _ _ _ _ _ _ _ _ _ _ (out_row c e) (out_col c e) (out_ch c e) Hd) as [Hlo Hhi].
    assert (Hm : row_max (fun i => default (-128) (ref_tap e (Z.to_nat i))) (p_pool_r c * p_pool_s c) =
      pool_max_spec input (p_in_h c) (p_in_w c) (p_in_c c) (p_pool_r c) (p_pool_s c) (p_stride_h c) (p_stride_w c)
        (p_pad_h c) (p_pad_w c) (out_row c e) (out_col c e) (out_ch c e)).
    { unfold pool_max_spec. rewrite <- row_max_flat by lia. apply row_max_ext. intros i Hi. unfold win_row, win_col. by rewrite Z2Nat.id by lia. }
    rewrite Hm. lia.
  - assert (Hsize : p_pool_r c <= 255 /\ p_pool_s c <= 255) by (by destruct Hbig).
    assert (Harea : pool_area_r (cfg_of c) = p_pool_r c * p_pool_s c).
    { cbn [cfg_of pool_area_r]. rewrite !(wrap_small 8) by (unfold fits; change (2 ^ 8) with 256; lia).
      apply wrap_small, fits16_iff. nia. }
    assert (Hs : acc_r (total c (act_after e) e) =
      pool_sum input (p_in_h c) (p_in_w c) (p_in_c c) (p_pool_r c) (p_pool_s c) (p_stride_h c) (p_stride_w c)
        (p_pad_h c) (p_pad_w c) (out_row c e) (out_col c e) (out_ch c e)).
    { unfold total. rewrite (acc_sum e (taps c) Hmode He (le_n _)), taps_flat. unfold pool_sum. rewrite <- Zsum_flat by lia.
      apply Zsum_ext. intros i Hi. unfold win_row, win_col. by rewrite Z2Nat.id by lia. }
    pose proof (pool_sum_range _ _ _ _ _ _ _ _ _ _ (out_row c e) (out_col c e) (out_ch c e) Hd) as Hrange. rewrite <- Hs in *.
    set (sum := acc_r (total c (act_after e) e)) in *. set (area := p_pool_r c * p_pool_s c) in *.
    assert (1 <= area <= 65025) by (unfold area; nia).
    destruct (divider_divides (cfg_of c) (total c (act_after e) e)) as [Hquot Hsign].
    { rewrite Harea. lia. }
    { fold sum. apply fits32_iff. lia. }
    fold sum in Hquot, Hsign. rewrite Harea in Hquot.
    assert (Hq : 0 <= Z.abs sum / area <= 128) by (split; [apply Z.div_pos; lia|apply Z.div_le_upper_bound; lia]).
    assert (Hres : signed_quot_w (div_at c (act_after e) e 32) = Z.quot sum area).
    { unfold signed_quot_w, div_at. rewrite Hquot, Hsign, wrap_small by (unfold fits; lia). apply quot_abs. lia. }
    rewrite Hres. pose proof (quot_fits sum area ltac:(lia) ltac:(lia)) as [Hlo Hhi]. lia.
Qed.
End reference.

Lemma pool_reference c m input :
  pool_cmd_ok c -> pool_operands c m input ->
  exists out, pool_golden c input = Ok out /\ length out = elems c /\ Forall fits_i8 out /\
    pool_results c m (pool_memory c m (elems c)) out.
Proof.
  intros Hok Hops. pose proof Hops as (Hd & Hoh & How & _ & _ & _ & Hdist).
  pose proof Hok as (_ & (_ & _ & HC) & _ & _ & _ & HOH & HOW).
  assert (Hn : Z.of_nat (elems c) = p_out_h c * p_out_w c * p_in_c c) by (unfold elems; nia).
  eexists. split; [by apply ref_pool_correct|]. rewrite <- Hoh, <- How, <- Hn. split.
  { rewrite length_fmap, length_seqZ. lia. }
  split; [apply Forall_fmap, Forall_true; intros i; by apply pool_spec_i8|].
  unfold pool_results. cbn [act_mem wt_mem psum_mem pool_memory]. split_and!; [|by intros; apply pooled_other|done|done].
  intros e He. unfold at_. rewrite Nat2Z.id, (list_lookup_total_fmap (B := Z) _ (seqZ 0 _)) by (rewrite length_seqZ; lia).
  rewrite lookup_total_seqZ_lt by lia. rewrite Z.add_0_l.
  assert (Hk : forall k, (k <= elems c)%nat -> (e < k)%nat ->
    cell (pooled c (act_mem m) k) (output_cell c e) = pool_elem c (pooled c (act_mem m) e) e).
  { induction k as [|k IH]; intros Hk Hek; [lia|]. unfold cell in *. cbn [pooled]. rewrite (pool_cell_index c Hok) by lia.
    destruct (decide (e = k)) as [->|Hne]; [by rewrite lookup_insert_eq|].
    rewrite lookup_insert_ne by (apply not_eq_sym, Hdist; lia). apply IH; lia. }
  rewrite Hk by lia. rewrite (pool_elem_ref c m input Hok Hops e He). f_equal. f_equal.
  - unfold out_row. rewrite Z.div_div by lia. f_equal. lia.
  - unfold out_col. rewrite (Z.mul_comm (p_out_w c)), Z.rem_mul_r by lia.
    rewrite (Z.mul_comm (p_in_c c)), Z.div_add by lia. rewrite (Z.div_small (_ mod _)) by (apply Z.mod_pos_bound; lia). lia.
Qed.

(** The pooling backend is the reference model. With the input in the
    activation buffer and no output cell that is an input cell or another
    output cell, a command, maximum or average, with any padding and stride,
    runs for a number of clocks that depends on its sizes only, whatever commands
    are offered and whatever the host reads meanwhile: three clocks for each
    place of each window, two in the padding, 32 for the divider of an average,
    one to write. It is busy up to its last clock, the only one with [done], and
    leaves in the output cells exactly the bytes that [ref_pool] of the testbench
    computes for the same input, and every other cell of the three buffers as it
    was. *)
Theorem pool_matches_reference c m w host ins input :
  pool_cmd_ok c -> at_rest w.1 -> contents w.2 = m -> no_write host -> only_reads ins -> pool_operands c m input ->
  let w' := bk_run (world_step w (Some c) host) ins in
  ((length ins <= pool_clocks c)%nat ->
     pool_busy w'.1.1 = true /\ pool_done w'.1.1 = bool_decide (length ins = pool_clocks c)) /\
  (length ins = S (pool_clocks c) ->
     exists out, pool_golden c input = Ok out /\ at_rest w'.1 /\ pool_results c m (contents w'.2) out).
Proof.
  intros Hc Hw Hm Hhost Hins Hops w'. split.
  { intros Hn. exact (command_view c w host ins Hw Hc Hn). }
  intros Hn. destruct (pool_reference c m input Hc Hops) as (out & Hout & _ & _ & Hres). exists out. split_and!; [done|..].
  - by apply command_ends.
  - unfold w'. by rewrite (effect_law c m w host ins).
Qed.

(** ** Windows of 256 rows or columns *)

(** Without a divisor every bit of the quotient is one. *)
Lemma divider_ones g a :
  pool_area_r g = 0 -> div_quot_r (Nat.iter 32 div_clock (div_load g a)) = 2 ^ 32 - 1 /\
  div_sign_r (Nat.iter 32 div_clock (div_load g a)) = (acc_r a <? 0).
Proof.
  intros HD. assert (Hk : forall k, (k <= 32)%nat -> let d := Nat.iter k div_clock (div_load g a) in
    (exists N, div_quot_r d = N * 2 ^ Z.of_nat k + (2 ^ Z.of_nat k - 1) /\ 0 <= N < 2 ^ (32 - Z.of_nat k)) /\
    0 <= div_rem_r d < 2 ^ 32 /\ div_denom_r d = 0 /\ div_sign_r d = (acc_r a <? 0)).
  { induction k as [|k IH]; intros Hk d; subst d.
    - split_and!; [|done..]. exists (u32 (if acc_r a <? 0 then - acc_r a else acc_r a)).
      split; [change (2 ^ Z.of_nat 0) with 1; cbn -[wrap]; lia|by apply fits_wrap].
    - destruct (IH ltac:(lia)) as ((N & Hq & HN) & Hr & Hd & Hs). rewrite Nat.iter_succ.
      set (d := Nat.iter k div_clock (div_load g a)) in *. unfold div_clock, div_next. rewrite Hd, Hq, Z.shiftr_div_pow2 by done.
      rewrite Nat2Z.inj_succ, Z.pow_succ_r by lia.
      assert (Hp : 2 ^ (32 - Z.of_nat k) = 2 * 2 ^ (32 - Z.succ (Z.of_nat k))) by (rewrite <- Z.pow_succ_r by lia; f_equal; lia).
      assert (Hpp : 2 ^ (32 - Z.succ (Z.of_nat k)) * 2 ^ Z.of_nat k = 2 ^ 31) by (rewrite <- Z.pow_add_r by lia; f_equal; lia).
      rewrite Hp in HN. assert (H32 : 2 ^ 32 = 2 * 2 ^ 31) by done.
      assert (0 < 2 ^ (32 - Z.succ (Z.of_nat k))) by (apply Z.pow_pos_nonneg; lia).
      assert (0 < 2 ^ Z.of_nat k) by (apply Z.pow_pos_nonneg; lia).
      set (p := 2 ^ (32 - Z.succ (Z.of_nat k))) in *. set (P := 2 ^ Z.of_nat k) in *.
      pose proof (Z.div_mod N p ltac:(lia)) as Hn. pose proof (Z.mod_pos_bound N p ltac:(lia)) as HN'.
      set (b := N / p) in *. set (N' := N mod p) in *.
      assert (Hb01 : 0 <= b <= 1) by (split; [apply Z.div_pos; lia|]; assert (b < 2) by (apply Z.div_lt_upper_bound; lia); lia).
      assert (Htop : (N * P + (P - 1)) / 2 ^ 31 = b) by (symmetry; apply (Z.div_unique_pos _ _ _ (N' * P + (P - 1))); nia).
      assert (Hlow : u32 (2 * (N * P + (P - 1))) = 2 * (N' * P + (P - 1)))
        by (symmetry; unfold wrap; apply (Z.mod_unique_pos _ _ b); nia).
      assert (Htrial : 0 <= u32 (2 * div_rem_r d) + b < 2 ^ 32).
      { unfold wrap. rewrite H32, Z.mul_mod_distr_l by lia. pose proof (Z.mod_pos_bound (div_rem_r d) (2 ^ 31) ltac:(lia)). lia. }
      rewrite Htop, Hlow. destruct (Z.leb_spec 0 (u32 (2 * div_rem_r d) + b)); [|lia].
      cbn [div_quot_r div_rem_r div_denom_r div_sign_r]. split_and!; try (done || lia).
      exists N'. split; [lia|done]. }
  destruct (Hk 32%nat (le_n _)) as ((N & Hq & HN) & _ & _ & Hs). split; [|exact Hs]. cbv zeta in Hq.
  change (2 ^ (32 - Z.of_nat 32)) with 1 in HN. rewrite Hq. change (Z.of_nat 32) with 32. lia.
Qed.

(** The area of a window is the product of the low bytes of its sides: an
    average over 256 rows is a division by zero, and every output is an extreme
    value, whatever the input. *)
Theorem wide_average c act e :
  p_pool_mode c <> 0 -> p_pool_r c = 256 ->
  pool_elem c act e = if acc_r (total c act e) <? 0 then 0x80 else 127.
Proof.
  intros Hmode%Z.eqb_neq HR. unfold pool_elem, result_w, signed_quot_w, div_at. rewrite Hmode.
  destruct (divider_ones (cfg_of c) (total c act e)) as [-> ->]; [cbn [cfg_of pool_area_r]; by rewrite HR|].
  by destruct (_ <? 0).
Qed.

(** ** Commands without an output *)

(** With no output rows, columns or channels no element is the last one. *)
Definition pool_empty (c : pool_cmd_t) : Prop := p_out_h c = 0 \/ p_out_w c = 0 \/ p_in_c c = 0.

Definition pool_lost (c : pool_cmd_t) (p : pool_ctrl) : Prop :=
  p_cmd (p_cfg p) = c /\ p_state p <> P_IDLE /\ p_state p <> P_DONE /\
  (p_state p = P_LOAD_CFG \/ Forall (fits 16) [oh_r (p_outer p); ow_r (p_outer p); c_r (p_outer p)]).

Lemma empty_not_last c o : pool_empty c -> Forall (fits 16) [oh_r o; ow_r o; c_r o] -> last_output_w c o = false.
Proof.
  intros He Ho. rewrite !Forall_cons_iff, !fits16_iff in Ho. destruct Ho as (Hoh & How & Hch & _). unfold last_output_w.
  destruct He as [E|[E|E]]; rewrite E; change (u32 (0 - 1)) with 4294967295;
    rewrite (proj2 (Z.eqb_neq _ 4294967295)) by lia; by rewrite ?andb_false_r.
Qed.

Lemma outer_fits st c o g :
  Forall (fits 16) [oh_r o; ow_r o; c_r o] ->
  Forall (fits 16) [oh_r (outer_step st c o g); ow_r (outer_step st c o g); c_r (outer_step st c o g)].
Proof.
  rewrite !Forall_cons_iff. intros (Hoh & How & Hch & _). unfold outer_step.
  repeat case_match; cbn; split_and!; first [done|by apply fits_wrap|by apply fits_0].
Qed.

Lemma pool_lost_step c p cmd a w i g : pool_empty c -> pool_lost c p -> pool_lost c (bk_step p cmd a w i g).
Proof.
  intros He (Hc & Hi & Hd & Hf). unfold pool_lost. cbn. rewrite Hc. split_and!.
  - unfold cfg_step. destruct cmd; [|done]. by destruct (p_state p).
  - unfold pool_next. rewrite Hc. destruct (p_state p); repeat case_match; done.
  - unfold pool_next. rewrite Hc. destruct (p_state p); repeat case_match; try done.
    destruct Hf as [Hf|Hf]; [done|]. by rewrite (empty_not_last c _ He Hf) in *.
  - right. destruct Hf as [Hf|Hf]; [|by apply outer_fits]. rewrite Hf. unfold outer_step. cbn.
    rewrite !Forall_cons_iff. by split_and!; [apply fits_0..|].
Qed.

Lemma pool_endless c w host ins :
  pool_empty c -> p_state w.1.1 = P_IDLE -> pool_lost c (bk_run (world_step w (Some c) host) ins).1.1.
Proof.
  intros He Hs. induction ins as [|x ins IH] using rev_ind.
  - unfold pool_lost. cbn. unfold pool_next, cfg_step. rewrite Hs. cbn. by split_and!; [..|left].
  - rewrite bk_run_snoc. by apply pool_lost_step.
Qed.

(** ** Witnesses *)

Definition ex_pool_mem : buffers :=
  mk_buffers (mk_bank ∅ 0 false) (mk_bank (<[0 := 1]> (<[1 := 2]> (<[2 := 253]> (<[3 := 248]> ∅)))) 0 false) (mk_bank ∅ 0 false).

Definition ex_pool_rest : pool_world :=
  ((pool_reset, mk_router (mk_rport 0 false) (mk_rport 0 false) false 0 false), ex_pool_mem).

(** The average of [1; 2; -3; -8], a window of two rows and columns. *)
Definition ex_pool_cmd : pool_cmd_t := mk_pool_cmd 0 100 2 2 1 2 2 1 1 0 0 1 1 1.

Lemma ex_pool_operands : pool_operands ex_pool_cmd (contents ex_pool_mem) [1; 2; -3; -8].
Proof.
  split_and!; try done.
  - by apply (bool_decide_unpack _); vm_compute.
  - by right.
  - intros i Hi. change (0 <= i < 4) in Hi. assert (Hc : i = 0 \/ i = 1 \/ i = 2 \/ i = 3) by lia.
    by destruct Hc as [->|[->|[->| ->]]].
  - intros e i He Hi. change (0 <= i < 4) in Hi. change (e < 1)%nat in He. assert (He0 : e = 0%nat) by lia.
    assert (Hc : i = 0 \/ i = 1 \/ i = 2 \/ i = 3) by lia. subst e. by destruct Hc as [->|[->|[->| ->]]].
  - intros e e' He. change (elems ex_pool_cmd) with 1%nat in He. lia.
Qed.

Lemma ex_pool_ok : pool_cmd_ok ex_pool_cmd.
Proof. by split_and!. Qed.

Theorem pool_matches_reference_witness :
  exists out,
    ref_pool [1; 2; -3; -8] 2 2 1 2 2 1 1 0 0 1 = Ok out /\
    let w := bk_run (world_step ex_pool_rest (Some ex_pool_cmd) no_request) (replicate 47 (None, no_request)) in
    at_rest w.1 /\ cell (act_mem (contents w.2)) 100 = u8 (at_ out 0).
Proof.
  destruct (pool_matches_reference ex_pool_cmd (contents ex_pool_mem) ex_pool_rest no_request
    (replicate 47 (None, no_request)) [1; 2; -3; -8] ex_pool_ok) as [_ Hend]; [done|done|done| |by apply ex_pool_operands|].
  - by apply Forall_replicate.
  - destruct (Hend eq_refl) as (out & Hout & Hr & Hc & _). exists out.
    split; [exact Hout|]. split; [exact Hr|]. exact (Hc 0%nat (le_n _)).
Defined.

Theorem wide_average_witness :
  256 <> 0 /\ pool_elem (mk_pool_cmd 0 0 256 1 1 256 1 1 1 0 0 1 1 1) ∅ 0 = 127.
Proof.
  split; [done|]. etransitivity; [apply (wide_average (mk_pool_cmd 0 0 256 1 1 256 1 1 1 0 0 1 1 1)); done|by vm_compute].
Defined.
