(* ===== verification/RowBlocks.v ===== *)
(** * Backends that rewrite rows

    What [softmax_ctrl] and [lnorm_ctrl] share: row base addresses kept by
    addition, several passes over a row of the activation buffer, then its
    elements written one by one. The buffer after the rows and elements written
    so far, for whatever byte an element becomes, and when the passes still find
    the input. *)

From S2P Require Import Prelude Regs CArith Golden GoldenRows Mem BackendMem Backend.
From stdpp Require Import gmap.

Open Scope Z_scope.

Lemma i8_range z : fits_i8 (i8 z).
Proof. unfold fits_i8, i8. pose proof (Z.mod_pos_bound (z + 128) 256 ltac:(lia)). lia. Qed.

(** ** Addresses *)

(** The base of row [r], and the cell of element [i] from there; activation
    banks have 13 address bits. *)
Definition row_addr (base len : Z) (r : nat) : Z := wrap ADDR_W (base + Z.of_nat r * len).

Definition act_cell (base i : Z) : Z := wrap (SRAM_ADDR_W + 1) (wrap ADDR_W (base + i)).

Lemma row_addr_0 base len : fits ADDR_W base -> row_addr base len 0 = base.
Proof. intros Hb. unfold row_addr. rewrite Z.mul_0_l, Z.add_0_r. by apply wrap_small. Qed.

Lemma row_addr_S base len r : wrap ADDR_W (row_addr base len r + len) = row_addr base len (S r).
Proof. unfold row_addr, wrap. rewrite Zplus_mod_idemp_l. f_equal. lia. Qed.

Lemma row_cell base len r i : act_cell (row_addr base len r) i = act_cell base (Z.of_nat r * len + i).
Proof. unfold act_cell, row_addr, wrap. rewrite Zplus_mod_idemp_l. do 2 f_equal. lia. Qed.

(** Comparisons of registers, as comparisons of indices. *)
Lemma eqb_decide x y (P : Prop) `{Decision P} : (x = y <-> P) -> (x =? y) = bool_decide P.
Proof. intros HP. destruct (Z.eqb_spec x y); symmetry; [apply bool_decide_eq_true_2|apply bool_decide_eq_false_2]; tauto. Qed.

Lemma ltb_decide x y (P : Prop) `{Decision P} : (x < y <-> P) -> (x <? y) = bool_decide P.
Proof. intros HP. destruct (Z.ltb_spec x y); symmetry; [apply bool_decide_eq_true_2; tauto|apply bool_decide_eq_false_2; rewrite <- HP; lia]. Qed.

(** 16-bit counters against a length of 1 to 65535. *)
Lemma last_index n i : 1 <= n <= 65535 -> (i < Z.to_nat n)%nat -> (Z.of_nat i =? u32 (n - 1)) = bool_decide (S i = Z.to_nat n).
Proof. intros Hn Hi. rewrite wrap_small by (apply fits32_iff; lia). apply eqb_decide. lia. Qed.

Lemma not_last_index n i : 1 <= n <= 65535 -> (i < Z.to_nat n)%nat -> (Z.of_nat i <? u32 (n - 1)) = bool_decide (S i <> Z.to_nat n).
Proof. intros Hn Hi. rewrite wrap_small by (apply fits32_iff; lia). apply ltb_decide. lia. Qed.

(** With no length none is the last one. *)
Lemma never_last x : fits 16 x -> (x =? u32 (0 - 1)) = false.
Proof. rewrite fits16_iff. intros Hx. change (u32 (0 - 1)) with 4294967295. apply Z.eqb_neq. lia. Qed.

Lemma count_up n i : n <= 65535 -> (i < Z.to_nat n)%nat -> wrap 16 (Z.of_nat i + 1) = Z.of_nat (S i).
Proof. intros Hn Hi. rewrite wrap_small; [lia|]. apply fits16_iff. lia. Qed.

(** ** The rows written *)

Section rows.
Context (in_addr out_addr len : Z).

(** The cells of element [i] of row [r], in and out. *)
Definition row_in_cell (r i : nat) : Z := act_cell (row_addr in_addr len r) (Z.of_nat i).
Definition row_out_cell (r i : nat) : Z := act_cell (row_addr out_addr len r) (Z.of_nat i).

(** Element [j] of row [r], in a buffer. *)
Definition row_elem (act : cells) (r : nat) (j : Z) : Z := i8 (cell act (row_in_cell r (Z.to_nat j))).

(** The byte that element [i] of row [r] becomes, from the buffer before its
    row and its value when it is normalised. *)
Context (byte : cells -> nat -> Z -> Z).

Fixpoint row_written (start : cells) (r i : nat) : cells :=
  match i with
  | O => start
  | S j => let act := row_written start r j in
      <[row_out_cell r j := byte start r (cell act (row_in_cell r j))]> act
  end.

Lemma row_written_S start r j :
  row_written start r (S j) =
  <[row_out_cell r j := byte start r (cell (row_written start r j) (row_in_cell r j))]> (row_written start r j).
Proof using Type. done. Qed.

Abbreviation cols := (Z.to_nat len).

Fixpoint rows_written (act : cells) (r : nat) : cells :=
  match r with
  | O => act
  | S q => row_written (rows_written act q) q cols
  end.

(** No output cell is the cell of a later input element. *)
Context (num_rows : Z) (act : cells).
Abbreviation total := (num_rows * len).
Hypothesis Hlen : 0 <= len.
Hypothesis Hlater : forall j k, 0 <= j < k -> k < total -> act_cell out_addr j <> act_cell in_addr k.

Abbreviation buffer r i := (row_written (rows_written act r) r i).

Lemma row_start r : (0 < cols)%nat -> rows_written act (S r) = buffer (S r) 0.
Proof using Type. done. Qed.

(** An element that is not an output of the elements so far. *)
Lemma row_untouched a r i start :
  (i <= cols)%nat -> (forall j, (j < i)%nat -> row_out_cell r j <> a) -> cell (row_written start r i) a = cell start a.
Proof using Type.
  induction i as [|i IH]; intros Hi Ha; [done|]. rewrite row_written_S. unfold cell in *.
  rewrite lookup_insert_ne by (apply Ha; lia). apply IH; [lia|]. intros j Hj. apply Ha. lia.
Qed.

Lemma buffer_untouched a r i :
  (i <= cols)%nat -> (forall k, 0 <= k < Z.of_nat r * len + Z.of_nat i -> act_cell out_addr k <> a) ->
  cell (buffer r i) a = cell act a.
Proof using Hlen.
  intros Hi Ha.
  assert (Hrow : forall q j, (j < cols)%nat -> Z.of_nat q * len + Z.of_nat j < Z.of_nat r * len + Z.of_nat i -> row_out_cell q j <> a).
  { intros q j Hj Hq. unfold row_out_cell. rewrite row_cell. apply Ha. split; [|done]. apply Z.add_nonneg_nonneg; [|lia].
    apply Z.mul_nonneg_nonneg; lia. }
  rewrite row_untouched; [|done|intros j Hj; apply Hrow; lia].
  assert (Hq : forall q, (q <= r)%nat -> cell (rows_written act q) a = cell act a); [|by apply Hq].
  induction q as [|q IH]; intros Hqr; [done|]. cbn [rows_written].
  rewrite row_untouched; [apply IH; lia|done|]. intros j Hj. apply Hrow; [done|]. nia.
Qed.

(** The elements still to come are those of the input. *)
Lemma input_kept r i j :
  (i <= j < cols)%nat -> Z.of_nat r < num_rows -> cell (buffer r i) (row_in_cell r j) = cell act (act_cell in_addr (Z.of_nat r * len + Z.of_nat j)).
Proof using Hlen Hlater.
  intros Hij Hr. unfold row_in_cell. rewrite row_cell. apply buffer_untouched; [lia|]. intros k Hk. apply Hlater; [lia|]. nia.
Qed.
End rows.

(** ** Against a reference model *)

(** The input is in the buffer; no output cell is a later input cell or another
    output cell. The output may replace the input. *)
Definition rows_operands (in_addr out_addr num_rows len : Z) (m : sram) (input : list Z) : Prop :=
  let total := num_rows * len in
  rows_wf input num_rows len /\
  (forall k, 0 <= k < total -> cell (act_mem m) (act_cell in_addr k) = u8 (at_ input k)) /\
  (forall j k, 0 <= j < k -> k < total -> act_cell out_addr j <> act_cell in_addr k) /\
  (forall j k, 0 <= j < k -> k < total -> act_cell out_addr j <> act_cell out_addr k).

(** For ranges within the bank: apart, or the output not above the input. *)
Lemma rows_operands_inside in_addr out_addr num_rows len m input :
  let total := num_rows * len in
  rows_wf input num_rows len -> 0 <= in_addr /\ in_addr + total <= 8192 -> 0 <= out_addr /\ out_addr + total <= 8192 ->
  out_addr <= in_addr \/ in_addr + total <= out_addr ->
  (forall k, 0 <= k < total -> cell (act_mem m) (in_addr + k) = u8 (at_ input k)) ->
  rows_operands in_addr out_addr num_rows len m input.
Proof.
  intros total Hwf Hin Hout Hap Hc. unfold rows_operands. fold total.
  assert (Hcell : forall base k, 0 <= base /\ base + total <= 8192 -> 0 <= k < total -> act_cell base k = base + k).
  { intros base k Hb Hk. apply cell_address; [change (2 ^ (SRAM_ADDR_W + 1)) with 8192; lia|done]. }
  split_and!; [done|intros k Hk; rewrite Hcell by done; by apply Hc|..]; intros j k Hj Hk; rewrite !Hcell by lia; lia.
Qed.

(** From [m] to [m'], the output cells have become [out] and nothing else has
    changed. *)
Definition rows_results (out_addr : Z) (m m' : sram) (out : list Z) : Prop :=
  let total := Z.of_nat (length out) in
  (forall k, 0 <= k < total -> cell (act_mem m') (act_cell out_addr k) = u8 (at_ out k)) /\
  (forall a, (forall k, 0 <= k < total -> act_cell out_addr k <> a) -> cell (act_mem m') a = cell (act_mem m) a) /\
  wt_mem m' = wt_mem m /\ psum_mem m' = psum_mem m.

Section reference.
Context (in_addr out_addr num_rows len : Z) (byte : cells -> nat -> Z -> Z) (m : sram) (input : list Z).
Hypothesis Hlen : 1 <= len.
Hypothesis Hrows : 0 <= num_rows.
Hypothesis Hops : rows_operands in_addr out_addr num_rows len m input.

Abbreviation written := (rows_written in_addr out_addr len byte (act_mem m)).
Abbreviation buffer r i := (row_written in_addr out_addr len byte (written r) r i).

(** What the passes over a row and its normalisation read. *)
Lemma row_byte_input r i j :
  Z.of_nat r < num_rows -> (i <= j < Z.to_nat len)%nat ->
  cell (buffer r i) (row_in_cell in_addr len r j) = u8 (elem input len (Z.of_nat r) (Z.of_nat j)).
Proof using Hlen Hops.
  intros Hr Hj. destruct Hops as (Hwf & Hin & Hlater & _). rewrite (input_kept in_addr out_addr len byte num_rows) by (done || lia).
  apply Hin. nia.
Qed.

Lemma row_elem_input r j :
  Z.of_nat r < num_rows -> 0 <= j < len -> row_elem in_addr len (written r) r j = elem input len (Z.of_nat r) j.
Proof using Hlen Hops.
  intros Hr Hj. unfold row_elem. change (written r) with (buffer r 0). rewrite row_byte_input, Z2Nat.id by lia.
  apply i8_u8. apply (elem_i8 input num_rows len). apply Hops.
Qed.

(** Every byte is the model's: so are the results. *)
Lemma rows_reference G :
  (forall r i, Z.of_nat r < num_rows -> (i < Z.to_nat len)%nat ->
     byte (written r) r (cell (buffer r i) (row_in_cell in_addr len r i)) = u8 (G (Z.of_nat r * len + Z.of_nat i))) ->
  rows_results out_addr m (mk_sram (wt_mem m) (written (Z.to_nat num_rows)) (psum_mem m)) (G <$> seqZ 0 (num_rows * len)).
Proof using Hlen Hrows Hops.
  intros HG. destruct Hops as (Hwf & Hin & Hlater & Hdist).
  assert (Htot : 0 <= num_rows * len) by (apply Z.mul_nonneg_nonneg; lia).
  unfold rows_results. rewrite length_fmap, length_seqZ, Z2Nat.id by done. cbn [act_mem wt_mem psum_mem].
  split_and!; [| |done|done].
  - intros k Hk. unfold at_. rewrite (list_lookup_total_fmap (B := Z) _ (seqZ 0 _)) by (rewrite length_seqZ; lia).
    rewrite lookup_total_seqZ_lt, Z.add_0_l, Z2Nat.id by lia.
    assert (Hall : forall r i, Z.of_nat r < num_rows -> (i <= Z.to_nat len)%nat -> k < Z.of_nat r * len + Z.of_nat i ->
      cell (buffer r i) (act_cell out_addr k) = u8 (G k)).
    { assert (Hstep : forall r i, Z.of_nat r < num_rows -> (i < Z.to_nat len)%nat ->
        (k < Z.of_nat r * len + Z.of_nat i -> cell (buffer r i) (act_cell out_addr k) = u8 (G k)) ->
        k < Z.of_nat r * len + Z.of_nat (S i) -> cell (buffer r (S i)) (act_cell out_addr k) = u8 (G k)).
      { intros r i Hr Hi IH Hki. rewrite row_written_S. unfold row_out_cell at 1. rewrite row_cell. unfold cell at 1.
        destruct (decide (k = Z.of_nat r * len + Z.of_nat i)) as [->|Hne]; [rewrite lookup_insert_eq; by apply HG|].
        rewrite lookup_insert_ne by (apply not_eq_sym, Hdist; nia). apply IH. lia. }
      induction r as [|r IHr]; (induction i as [|i IHi]; intros Hr Hi Hki;
        [|apply Hstep; [done|lia|intros; apply IHi; lia|done]]); [nia|]. cbn [row_written rows_written]. apply IHr; lia. }
    destruct (Z.to_nat num_rows) as [|r] eqn:Hn; [nia|]. cbn [rows_written]. apply Hall; nia.
  - intros a Ha. destruct (Z.to_nat num_rows) as [|r] eqn:Hn; [done|]. cbn [rows_written].
    apply buffer_untouched; [lia|done|]. intros k Hk. apply Ha. nia.
Qed.
End reference.

(** The bytes of a model given row by row. *)
Lemma rows_list_fits num_rows len (spec : Z -> Z -> Z) :
  0 <= num_rows -> 1 <= len -> (forall r i, 0 <= r < num_rows -> 0 <= i < len -> fits_i8 (spec r i)) ->
  let out := (fun i => spec (i / len) (i mod len)) <$> seqZ 0 (num_rows * len) in
  Z.of_nat (length out) = num_rows * len /\ Forall fits_i8 out.
Proof.
  intros Hr Hl Hs out. split; [unfold out; rewrite length_fmap, length_seqZ; apply Z2Nat.id; nia|].
  apply Forall_fmap, Forall_forall. intros i Hi%elem_of_seqZ. apply Hs; [|apply Z.mod_pos_bound; lia].
  split; [apply Z.div_pos; lia|apply Z.div_lt_upper_bound; lia].
Qed.
