(* ===== verification/SoftmaxBackend.v ===== *)
(** * The softmax backend: control

    [softmax_ctrl] with [softmax_exp_lut] (and [softmax_composite] around them),
    clock by clock, on the memories of [BackendMem]: a pass over a row for its
    maximum, one for the sum of its exponentials, and one that reads each element
    again, divides serially and writes. Then the stages of a command, which
    depend on its sizes only, and the contract that follows; what the bytes are
    is in [SoftmaxData]. *)

From S2P Require Import Prelude Regs Command Decode CArith Golden GoldenRows Mem BackendMem Backend RowBlocks.

Open Scope Z_scope.

(** ** softmax_exp_lut *)

Definition lut_int (int_part : Z) : Z := nth (Z.to_nat int_part) [65535; 24109; 8869; 3263; 1200; 442; 162; 60] 0.

Definition lut_frac (frac_part : Z) : Z :=
  nth (Z.to_nat frac_part)
    [65535; 63519; 61564; 59670; 57834; 56055; 54330; 52659; 51039; 49468; 47946; 46471; 45042; 43656; 42313; 41011;
     39749; 38526; 37341; 36192; 35078; 33999; 32953; 31939; 30957; 30004; 29081; 28186; 27319; 26479; 25664; 24874] 0.

Definition softmax_exp_lut (diff : Z) : Z := wrap 32 (lut_int (diff ≫ 5) * lut_frac (wrap 5 diff)) ≫ 16.

(** ** softmax_ctrl: one record and one function per register block *)

Inductive softmax_state := SM_IDLE | SM_LOAD_CFG | SM_FIND_MAX | SM_EXP_SUM | SM_NORM_RD | SM_NORM_WAIT | SM_NORM_DIV | SM_NORM_WR | SM_DONE.

Definition s_is (s t : softmax_state) : bool :=
  match s, t with
  | SM_IDLE, SM_IDLE | SM_LOAD_CFG, SM_LOAD_CFG | SM_FIND_MAX, SM_FIND_MAX | SM_EXP_SUM, SM_EXP_SUM | SM_NORM_RD, SM_NORM_RD
  | SM_NORM_WAIT, SM_NORM_WAIT | SM_NORM_DIV, SM_NORM_DIV | SM_NORM_WR, SM_NORM_WR | SM_DONE, SM_DONE => true
  | _, _ => false
  end.

Record softmax_row := mk_softmax_row { sm_row_r : Z; row_base_in_r : Z; row_base_out_r : Z }.
Record softmax_cnt := mk_softmax_cnt { req_cnt_r : Z; rcv_cnt_r : Z }.
Record softmax_acc := mk_softmax_acc { max_val_r : Z; sm_sum_r : Z; exp_sum_rvalid_d : bool; exp_sum_lut_d : Z }.
Record softmax_div := mk_softmax_div { sm_numer_r : Z; sm_rem_r : Z; sm_quot_r : Z; sm_cnt_r : Z }.

Record softmax_ctrl := mk_softmax_ctrl {
  sm_state : softmax_state; sm_cmd : softmax_cmd_t; sm_row : softmax_row; sm_cnt : softmax_cnt;
  sm_acc : softmax_acc; norm_idx_r : Z; sm_div : softmax_div }.

(** The comparisons with a length less one are 32 bits wide. *)
Definition last_elem_w (c : softmax_cmd_t) (idx : Z) : bool := idx =? u32 (s_row_len c - 1).

Definition softmax_next (p : softmax_ctrl) (cmd_valid : bool) (act : rd_answer) (out_wr_gnt : bool) : softmax_state :=
  let c := sm_cmd p in
  match sm_state p with
  | SM_IDLE => if cmd_valid then SM_LOAD_CFG else SM_IDLE
  | SM_LOAD_CFG => SM_FIND_MAX
  | SM_FIND_MAX => if rd_rvalid act && last_elem_w c (rcv_cnt_r (sm_cnt p)) then SM_EXP_SUM else SM_FIND_MAX
  | SM_EXP_SUM => if rcv_cnt_r (sm_cnt p) =? s_row_len c then SM_NORM_RD else SM_EXP_SUM
  | SM_NORM_RD => if rd_gnt act then SM_NORM_WAIT else SM_NORM_RD
  | SM_NORM_WAIT => if rd_rvalid act then SM_NORM_DIV else SM_NORM_WAIT
  | SM_NORM_DIV => if sm_cnt_r (sm_div p) =? 23 then SM_NORM_WR else SM_NORM_DIV
  | SM_NORM_WR =>
      if out_wr_gnt then
        if last_elem_w c (norm_idx_r p) then
          if sm_row_r (sm_row p) =? u32 (s_num_rows c - 1) then SM_DONE else SM_FIND_MAX
        else SM_NORM_RD
      else SM_NORM_WR
  | SM_DONE => SM_IDLE
  end.

(** The command latch. *)
Definition softmax_latch (st : softmax_state) (c : softmax_cmd_t) (cmd : option softmax_cmd_t) : softmax_cmd_t :=
  match cmd with Some k => if s_is st SM_IDLE then k else c | None => c end.

(** A row is finished and another one follows. *)
Definition next_row (p : softmax_ctrl) (out_wr_gnt : bool) : bool :=
  s_is (sm_state p) SM_NORM_WR && out_wr_gnt && last_elem_w (sm_cmd p) (norm_idx_r p) &&
  (sm_row_r (sm_row p) <? u32 (s_num_rows (sm_cmd p) - 1)).

(** The row and its bases. *)
Definition softmax_row_step (p : softmax_ctrl) (out_wr_gnt : bool) : softmax_row :=
  let w := sm_row p in
  let c := sm_cmd p in
  if s_is (sm_state p) SM_LOAD_CFG then mk_softmax_row 0 (s_in_addr c) (s_out_addr c)
  else if next_row p out_wr_gnt then
    mk_softmax_row (wrap 16 (sm_row_r w + 1)) (wrap ADDR_W (row_base_in_r w + s_row_len c)) (wrap ADDR_W (row_base_out_r w + s_row_len c))
  else w.

(** Requests issued and answers received. *)
Definition counted (p : softmax_ctrl) (act : rd_answer) : softmax_cnt :=
  let n := sm_cnt p in
  mk_softmax_cnt
    (if rd_gnt act && (req_cnt_r n <? s_row_len (sm_cmd p)) then wrap 16 (req_cnt_r n + 1) else req_cnt_r n)
    (if rd_rvalid act then wrap 16 (rcv_cnt_r n + 1) else rcv_cnt_r n).

Definition softmax_cnt_step (p : softmax_ctrl) (act : rd_answer) (out_wr_gnt : bool) : softmax_cnt :=
  match sm_state p with
  | SM_LOAD_CFG => mk_softmax_cnt 0 0
  | SM_FIND_MAX => if last_elem_w (sm_cmd p) (rcv_cnt_r (sm_cnt p)) && rd_rvalid act then mk_softmax_cnt 0 0 else counted p act
  | SM_EXP_SUM => counted p act
  | SM_NORM_WR => if next_row p out_wr_gnt then mk_softmax_cnt 0 0 else sm_cnt p
  | _ => sm_cnt p
  end.

(** [lut_diff], from the maximum and the byte on the port. *)
Definition diff_comb (max_val rdata : Z) : Z := wrap 8 (wrap 8 max_val - rdata).

Definition lut_exp_val (p : softmax_ctrl) (act : rd_answer) : Z :=
  softmax_exp_lut (diff_comb (max_val_r (sm_acc p)) (rd_rdata act)).

(** The maximum, the sum, and the registers between the table and the sum. *)
Definition softmax_acc_step (p : softmax_ctrl) (act : rd_answer) (out_wr_gnt : bool) : softmax_acc :=
  let a := sm_acc p in
  let st := sm_state p in
  let fresh := s_is st SM_LOAD_CFG || next_row p out_wr_gnt in
  let summed := s_is st SM_EXP_SUM && rd_rvalid act in
  mk_softmax_acc
    (if fresh then -128
     else if s_is st SM_FIND_MAX && rd_rvalid act then if max_val_r a <? i8 (rd_rdata act) then i8 (rd_rdata act) else max_val_r a
     else max_val_r a)
    (if fresh then 0 else if exp_sum_rvalid_d a then u32 (sm_sum_r a + exp_sum_lut_d a) else sm_sum_r a)
    summed (if summed then lut_exp_val p act else exp_sum_lut_d a).

Definition norm_idx_step (p : softmax_ctrl) (out_wr_gnt : bool) : Z :=
  if s_is (sm_state p) SM_EXP_SUM && (rcv_cnt_r (sm_cnt p) =? s_row_len (sm_cmd p)) then 0
  else if s_is (sm_state p) SM_NORM_WR && out_wr_gnt then
    if last_elem_w (sm_cmd p) (norm_idx_r p) then 0 else wrap 16 (norm_idx_r p + 1)
  else norm_idx_r p.

(** The serial restoring divider, 24 bits by 32: one bit of the quotient per
    clock. Bit 32 of the difference is the borrow. *)
Definition sm_div_load (exp_val : Z) : softmax_div := mk_softmax_div (wrap 24 (exp_val * 127)) 0 0 0.

Definition sm_div_clock (sum : Z) (d : softmax_div) : softmax_div :=
  let shifted := wrap 32 (2 * sm_rem_r d) + sm_numer_r d ≫ 23 in
  let div_trial := wrap 33 (shifted - sum) in
  let numer := wrap 24 (2 * sm_numer_r d) in
  let cnt := wrap 5 (sm_cnt_r d + 1) in
  if negb (Z.testbit div_trial 32) then mk_softmax_div numer (wrap 32 div_trial) (wrap 8 (2 * sm_quot_r d) + 1) cnt
  else mk_softmax_div numer shifted (wrap 8 (2 * sm_quot_r d)) cnt.

Definition softmax_div_step (p : softmax_ctrl) (act : rd_answer) : softmax_div :=
  if s_is (sm_state p) SM_NORM_WAIT && rd_rvalid act then sm_div_load (lut_exp_val p act)
  else if s_is (sm_state p) SM_NORM_DIV then sm_div_clock (sm_sum_r (sm_acc p)) (sm_div p)
  else sm_div p.

Definition norm_result (d : softmax_div) : Z := if 127 <? sm_quot_r d then 127 else sm_quot_r d.

Definition softmax_step (p : softmax_ctrl) (cmd : option softmax_cmd_t) (act : rd_answer) (out_wr_gnt : bool) : softmax_ctrl :=
  mk_softmax_ctrl (softmax_next p (bool_decide (is_Some cmd)) act out_wr_gnt) (softmax_latch (sm_state p) (sm_cmd p) cmd)
    (softmax_row_step p out_wr_gnt) (softmax_cnt_step p act out_wr_gnt) (softmax_acc_step p act out_wr_gnt)
    (norm_idx_step p out_wr_gnt) (softmax_div_step p act).

(** The read port: its address and request. *)
Definition softmax_read (p : softmax_ctrl) : Z * bool :=
  match sm_state p with
  | SM_FIND_MAX | SM_EXP_SUM =>
      (wrap ADDR_W (row_base_in_r (sm_row p) + req_cnt_r (sm_cnt p)), req_cnt_r (sm_cnt p) <? s_row_len (sm_cmd p))
  | SM_NORM_RD => (wrap ADDR_W (row_base_in_r (sm_row p) + norm_idx_r p), true)
  | _ => (0, false)
  end.

(** [softmax_composite] ties the weight and bias ports off. *)
Definition softmax_request (p : softmax_ctrl) : be_request :=
  mk_be_request 0 false (softmax_read p).1 (softmax_read p).2
    (if s_is (sm_state p) SM_NORM_WR
     then Some (wrap ADDR_W (row_base_out_r (sm_row p) + norm_idx_r p), norm_result (sm_div p)) else None) 0 false.

Definition softmax_cmd_ready (p : softmax_ctrl) : bool := s_is (sm_state p) SM_IDLE.
Definition softmax_done (p : softmax_ctrl) : bool := s_is (sm_state p) SM_DONE.
Definition softmax_busy (p : softmax_ctrl) : bool := negb (s_is (sm_state p) SM_IDLE).

Definition softmax_reset : softmax_ctrl :=
  mk_softmax_ctrl SM_IDLE (mk_softmax_cmd 0 0 0 0) (mk_softmax_row 0 0 0) (mk_softmax_cnt 0 0)
    (mk_softmax_acc (-128) 0 false 0) 0 (mk_softmax_div 0 0 0 0).

#[export] Instance softmax_backend : Backend softmax_ctrl softmax_cmd_t := {|
  bk_step p cmd act _ _ out_wr_gnt := softmax_step p cmd act out_wr_gnt;
  bk_request := softmax_request; bk_ready := softmax_cmd_ready; bk_busy := softmax_busy; bk_done := softmax_done;
  bk_reset := softmax_reset |}.

(** ** The stages of a command *)

(** Counters that do not overflow; without a row or an element a command does
    not end ([softmax_endless]). *)
Definition softmax_cmd_ok (c : softmax_cmd_t) : Prop :=
  (fits 16 (s_in_addr c) /\ fits 16 (s_out_addr c)) /\ 1 <= s_num_rows c <= 65535 /\ 1 <= s_row_len c <= 65535.

Section command.
Context (c : softmax_cmd_t).

Abbreviation rows := (Z.to_nat (s_num_rows c)).
Abbreviation cols := (Z.to_nat (s_row_len c)).

Definition softmax_row_at (r : nat) : softmax_row :=
  mk_softmax_row (Z.of_nat r) (row_addr (s_in_addr c) (s_row_len c) r) (row_addr (s_out_addr c) (s_row_len c) r).

(** In a pass [t] clocks after its first: element [t] is asked for, the one
    before it arrives. *)
Inductive softmax_stage :=
| SmLoading
| Maximum (r t : nat) | Summing (r t : nat)
| NormRead (r i : nat) | NormWait (r i : nat) | NormDiv (r i k : nat) | NormWrite (r i : nat)
| SmFinished.

#[local] Instance softmax_stage_eq : EqDecision softmax_stage := ltac:(solve_decision).

(** The indices of a stage are within the command. *)
Definition sm_within (st : softmax_stage) : Prop :=
  match st with
  | Maximum r t => (r < rows)%nat /\ (t <= cols)%nat
  | Summing r t => (r < rows)%nat /\ (t <= S cols)%nat
  | NormRead r i | NormWait r i | NormWrite r i => (r < rows)%nat /\ (i < cols)%nat
  | NormDiv r i k => (r < rows)%nat /\ (i < cols)%nat /\ (k < 24)%nat
  | _ => True
  end.

Definition sm_in_state (st : softmax_stage) : softmax_state :=
  match st with
  | SmLoading => SM_LOAD_CFG | Maximum _ _ => SM_FIND_MAX | Summing _ _ => SM_EXP_SUM | NormRead _ _ => SM_NORM_RD
  | NormWait _ _ => SM_NORM_WAIT | NormDiv _ _ _ => SM_NORM_DIV | NormWrite _ _ => SM_NORM_WR | SmFinished => SM_DONE
  end.

(** An element arrives. *)
Definition arriving (t : nat) : bool := bool_decide (1 <= t <= cols)%nat.

Definition sm_regs (st : softmax_stage) (s : softmax_ctrl * router) : Prop :=
  let p := s.1 in
  match st with
  | Maximum r t | Summing r t =>
      sm_row p = softmax_row_at r /\ sm_cnt p = mk_softmax_cnt (Z.of_nat (t `min` cols)) (Z.of_nat (t - 1)) /\
      be_rd_r (act_port_b s.2) = arriving t
  | NormRead r i | NormWrite r i => sm_row p = softmax_row_at r /\ norm_idx_r p = Z.of_nat i
  | NormWait r i => sm_row p = softmax_row_at r /\ norm_idx_r p = Z.of_nat i /\ be_rd_r (act_port_b s.2) = true
  | NormDiv r i k => sm_row p = softmax_row_at r /\ norm_idx_r p = Z.of_nat i /\ sm_cnt_r (sm_div p) = Z.of_nat k
  | _ => True
  end.

Definition sm_in_stage (st : softmax_stage) (s : softmax_ctrl * router) : Prop :=
  sm_cmd s.1 = c /\ no_bias s /\ sm_state s.1 = sm_in_state st /\ sm_within st /\ sm_regs st s.

(** After the last element of a row. *)
Definition row_done (r : nat) : softmax_stage := if decide (S r = rows) then SmFinished else Maximum (S r) 0.

Definition sm_next_stage (st : softmax_stage) : softmax_stage :=
  match st with
  | SmLoading => Maximum 0 0
  | Maximum r t => if decide (t = cols) then Summing r 0 else Maximum r (S t)
  | Summing r t => if decide (t = S cols) then NormRead r 0 else Summing r (S t)
  | NormRead r i => NormWait r i
  | NormWait r i => NormDiv r i 0
  | NormDiv r i k => if decide (k = 23%nat) then NormWrite r i else NormDiv r i (S k)
  | NormWrite r i => if decide (S i = cols) then row_done r else NormRead r (S i)
  | SmFinished => SmFinished
  end.

Lemma softmax_accepts s b : sm_state s.1 = SM_IDLE -> no_bias s -> sm_in_stage SmLoading (side_step s (Some c) b).
Proof using Type. destruct s as [[] []]. unfold no_bias. cbn. intros Hs Hb. subst. by split_and!. Qed.

(** ** How long a command takes *)

Definition row_clocks : nat := 29 * cols + 3.
Definition softmax_clocks : nat := S (rows * row_clocks).

Definition rows_left (r : nat) : nat := (rows - r) * row_clocks.

(** From a stage to the end. *)
Definition sm_left (st : softmax_stage) : nat :=
  match st with
  | SmLoading => softmax_clocks
  | Maximum r t => (S cols - t) + (cols + 2) + 27 * cols + rows_left (S r)
  | Summing r t => (cols + 2 - t) + 27 * cols + rows_left (S r)
  | NormRead r i => 27 * (cols - i) + rows_left (S r)
  | NormWait r i => 27 * (cols - i) - 1 + rows_left (S r)
  | NormDiv r i k => 27 * (cols - i) - 2 - k + rows_left (S r)
  | NormWrite r i => 1 + 27 * (cols - S i) + rows_left (S r)
  | SmFinished => 0
  end.

Hypothesis Hok : softmax_cmd_ok c.

Lemma sm_sizes : (1 <= rows)%nat /\ (1 <= cols)%nat.
Proof using Hok. destruct Hok as (_ & HM & HN). lia. Qed.

Lemma rows_left_S r : (r < rows)%nat -> rows_left r = (29 * cols + 3 + rows_left (S r))%nat.
Proof using Type. intros Hr. unfold rows_left. replace (rows - r)%nat with (S (rows - S r)) by lia. unfold row_clocks. lia. Qed.

Lemma sm_left_next st :
  sm_within st -> sm_within (sm_next_stage st) /\ sm_left (sm_next_stage st) = (sm_left st - 1)%nat.
Proof using Hok.
  pose proof sm_sizes. intros Hw. split; revert Hw; destruct st as [|r t|r t|r i|r i|r i k|r i|];
    cbn [sm_within sm_next_stage sm_left]; intros Hw; unfold row_done; repeat case_decide; cbn [sm_within sm_left]; try lia.
  - unfold softmax_clocks. pose proof (rows_left_S 0 ltac:(lia)) as Hr. unfold rows_left in *. rewrite Nat.sub_0_r in Hr. lia.
  - replace (S r) with rows in * by lia. unfold rows_left. lia.
  - rewrite (rows_left_S (S r)) by lia. lia.
Qed.

Lemma sm_left_pos st : sm_within st -> st <> SmFinished -> (1 <= sm_left st)%nat.
Proof using Type. destruct st; cbn [sm_within sm_left]; intros Hw Hst; try lia; [|done]. unfold softmax_clocks. lia. Qed.

Abbreviation softmax_at := (stage_at sm_next_stage SmLoading).

Lemma softmax_at_finished T : (T <= softmax_clocks)%nat -> softmax_at T = SmFinished <-> T = softmax_clocks.
Proof using Hok. apply (countdown_finished sm_next_stage SmLoading SmFinished sm_within sm_left); [done|exact sm_left_next|exact sm_left_pos|done]. Qed.

(** ** The stages follow each other *)

Lemma sm_state_within st : st <> SmFinished -> sm_in_state st <> SM_IDLE /\ sm_in_state st <> SM_DONE.
Proof using Type. by destruct st. Qed.

(** The command stays latched, and no bias is read. *)
Lemma sm_latched s cmd b :
  sm_cmd s.1 = c -> sm_state s.1 <> SM_IDLE -> no_bias s ->
  sm_cmd (side_step s cmd b).1 = c /\ no_bias (side_step s cmd b).
Proof using Type.
  intros Hg Hst Hb. split.
  - cbn. unfold softmax_latch. destruct cmd; [|done]. by destruct (sm_state s.1).
  - by apply router_no_pending.
Qed.

(** A request for an element of a pass, and its counters a clock later. *)
Lemma sm_pass_cnt s t :
  sm_cmd s.1 = c -> (sm_state s.1 = SM_FIND_MAX \/ sm_state s.1 = SM_EXP_SUM) -> (t <= S cols)%nat ->
  sm_cnt s.1 = mk_softmax_cnt (Z.of_nat (t `min` cols)) (Z.of_nat (t - 1)) -> be_rd_r (act_port_b s.2) = arriving t ->
  (softmax_read s.1).2 = bool_decide (t < cols)%nat /\
  counted s.1 (be_act_rd s.2 (softmax_request s.1)) = mk_softmax_cnt (Z.of_nat (S t `min` cols)) (Z.of_nat (if arriving t then t else t - 1)).
Proof using Hok.
  intros Hg Hst Ht Hcnt Hr. destruct Hok as (_ & _ & HN).
  assert (Hreq : (softmax_read s.1).2 = bool_decide (t < cols)%nat).
  { unfold softmax_read. destruct Hst as [-> | ->]; rewrite Hg, Hcnt; cbn [req_cnt_r snd]; apply ltb_decide; lia. }
  split; [done|]. unfold counted. rewrite Hg, Hcnt. cbn [be_act_rd rd_gnt rd_rvalid be_act_rd_req softmax_request req_cnt_r rcv_cnt_r].
  rewrite Hreq, Hr. f_equal.
  - destruct (decide (t < cols)%nat) as [Hlt|Hge].
    + rewrite bool_decide_eq_true_2 by done. rewrite (proj2 (Z.ltb_lt _ _)) by lia. cbn [andb].
      rewrite (Nat.min_l t), (Nat.min_l (S t)) by lia. apply (count_up (s_row_len c)); lia.
    + rewrite bool_decide_eq_false_2 by done. cbn [andb]. f_equal. lia.
  - unfold arriving. destruct (decide (1 <= t <= cols)%nat) as [Ha|Ha].
    + rewrite bool_decide_eq_true_2 by done. rewrite (count_up (s_row_len c)) by lia. f_equal. lia.
    + by rewrite bool_decide_eq_false_2.
Qed.

Lemma sm_last_arrival t : (t <= cols)%nat -> arriving t && last_elem_w c (Z.of_nat (t - 1)) = bool_decide (t = cols).
Proof using Hok.
  intros Ht. pose proof sm_sizes. destruct Hok as (_ & _ & HN). unfold last_elem_w, arriving.
  destruct (decide (1 <= t)%nat) as [H1|H0].
  - rewrite last_index, bool_decide_eq_true_2 by lia. apply bool_decide_ext. lia.
  - rewrite !bool_decide_eq_false_2 by lia. done.
Qed.

Lemma sm_sum_end t : (t <= S cols)%nat -> (Z.of_nat (t - 1) =? s_row_len c) = bool_decide (t = S cols).
Proof using Hok. intros Ht. pose proof sm_sizes. destruct Hok as (_ & _ & HN). apply eqb_decide. lia. Qed.

Lemma sm_maximum_step r t s cmd b :
  sm_in_stage (Maximum r t) s -> sm_in_stage (sm_next_stage (Maximum r t)) (side_step s cmd b).
Proof using Hok.
  intros (Hg & Hb & Hs & Hw & Hrow & Hcnt & Hr). cbn [sm_in_state sm_within] in Hs, Hw.
  destruct (sm_latched s cmd b Hg ltac:(by rewrite Hs) Hb) as [Hg' Hb'].
  destruct (sm_pass_cnt s t Hg (or_introl Hs) ltac:(lia) Hcnt Hr) as [Hreq Hc].
  pose proof (sm_last_arrival t ltac:(lia)) as Hlast.
  assert (Hrow' : sm_row (side_step s cmd b).1 = softmax_row_at r) by (cbn; unfold softmax_row_step, next_row; by rewrite Hs).
  assert (Hrd : be_rd_r (act_port_b (side_step s cmd b).2) = bool_decide (t < cols)%nat) by exact Hreq.
  assert (Hst' : sm_state (side_step s cmd b).1 = if decide (t = cols) then SM_EXP_SUM else SM_FIND_MAX).
  { cbn. unfold softmax_next. rewrite Hs, Hg, Hcnt. cbn [rd_rvalid be_act_rd rcv_cnt_r]. rewrite Hr, Hlast. by repeat case_decide; case_bool_decide. }
  assert (Hcnt' : sm_cnt (side_step s cmd b).1 = if decide (t = cols) then mk_softmax_cnt 0 0
    else mk_softmax_cnt (Z.of_nat (S t `min` cols)) (Z.of_nat (if arriving t then t else t - 1))).
  { cbn. unfold softmax_cnt_step. rewrite Hs, andb_comm, Hg, Hc, Hcnt. cbn [rd_rvalid be_act_rd rcv_cnt_r]. rewrite Hr, Hlast.
    by repeat case_decide; case_bool_decide. }
  cbn [sm_next_stage]. destruct (decide (t = cols)) as [->|Hne].
  - split_and!; try done; cbn [sm_within sm_regs]; split_and?; try (done || lia).
    rewrite Hrd. unfold arriving. by rewrite !bool_decide_eq_false_2 by lia.
  - split_and!; try done; cbn [sm_within sm_regs]; split_and?; try (done || lia).
    + rewrite Hcnt'. f_equal. f_equal. unfold arriving. clear -Hw. case_bool_decide; lia.
    + rewrite Hrd. unfold arriving. apply bool_decide_ext. lia.
Qed.

Lemma sm_summing_step r t s cmd b :
  sm_in_stage (Summing r t) s -> sm_in_stage (sm_next_stage (Summing r t)) (side_step s cmd b).
Proof using Hok.
  intros (Hg & Hb & Hs & Hw & Hrow & Hcnt & Hr). cbn [sm_in_state sm_within] in Hs, Hw.
  destruct (sm_latched s cmd b Hg ltac:(by rewrite Hs) Hb) as [Hg' Hb'].
  destruct (sm_pass_cnt s t Hg (or_intror Hs) ltac:(lia) Hcnt Hr) as [Hreq Hc]. pose proof sm_sizes.
  pose proof (sm_sum_end t ltac:(lia)) as Hend.
  assert (Hrow' : sm_row (side_step s cmd b).1 = softmax_row_at r) by (cbn; unfold softmax_row_step, next_row; by rewrite Hs).
  assert (Hrd : be_rd_r (act_port_b (side_step s cmd b).2) = bool_decide (t < cols)%nat) by exact Hreq.
  assert (Hst' : sm_state (side_step s cmd b).1 = if decide (t = S cols) then SM_NORM_RD else SM_EXP_SUM).
  { cbn. unfold softmax_next. rewrite Hs, Hg, Hcnt. cbn [rcv_cnt_r]. rewrite Hend. by repeat case_decide; case_bool_decide. }
  cbn [sm_next_stage]. destruct (decide (t = S cols)) as [->|Hne].
  - split_and!; try done; cbn [sm_within sm_regs]; split_and?; try (done || lia). cbn. unfold norm_idx_step. rewrite Hs, Hg, Hcnt. cbn [rcv_cnt_r s_is andb].
    by rewrite Hend, bool_decide_eq_true_2.
  - split_and!; try done; cbn [sm_within sm_regs]; split_and?; try (done || lia).
    + cbn. unfold softmax_cnt_step. rewrite Hs, Hc. f_equal. f_equal. unfold arriving. clear -Hw Hne. case_bool_decide; lia.
    + rewrite Hrd. unfold arriving. apply bool_decide_ext. lia.
Qed.

(** The first row, and from a row to the next. *)
Lemma sm_loading_step s cmd b : sm_in_stage SmLoading s -> sm_in_stage (Maximum 0 0) (side_step s cmd b).
Proof using Hok.
  intros (Hg & Hb & Hs & _). cbn [sm_in_state] in Hs. destruct (sm_latched s cmd b Hg ltac:(by rewrite Hs) Hb) as [Hg' Hb'].
  destruct Hok as ((Hia & Hoa) & _). pose proof sm_sizes.
  split_and!; try done; cbn [sm_within sm_regs]; split_and?; try lia; cbn.
  - unfold softmax_next. by rewrite Hs.
  - unfold softmax_row_step. rewrite Hs, Hg. cbn [s_is]. unfold softmax_row_at. by rewrite !row_addr_0.
  - unfold softmax_cnt_step. by rewrite Hs.
  - unfold softmax_read. by rewrite Hs.
Qed.

Lemma sm_write_step r i s cmd b :
  sm_in_stage (NormWrite r i) s -> sm_in_stage (sm_next_stage (NormWrite r i)) (side_step s cmd b).
Proof using Hok.
  intros (Hg & Hb & Hs & [Hr Hi] & Hrow & Hidx). cbn [sm_in_state] in Hs.
  destruct (sm_latched s cmd b Hg ltac:(by rewrite Hs) Hb) as [Hg' Hb']. destruct Hok as (_ & HM & HN).
  assert (Hgnt : be_act_wr_gnt (softmax_request s.1) = true) by (unfold be_act_wr_gnt, softmax_request; by rewrite Hs).
  assert (Hle : last_elem_w c (norm_idx_r s.1) = bool_decide (S i = cols)) by (unfold last_elem_w; rewrite Hidx; by apply last_index).
  assert (Hlr : (sm_row_r (sm_row s.1) =? u32 (s_num_rows c - 1)) = bool_decide (S r = rows)) by (rewrite Hrow; by apply last_index).
  assert (Hnr : next_row s.1 true = bool_decide (S i = cols) && bool_decide (S r <> rows)).
  { unfold next_row. rewrite Hs, Hg, Hle, Hrow. cbn [sm_row_r softmax_row_at s_is andb]. by rewrite not_last_index. }
  cbn [sm_next_stage]. unfold row_done. destruct (decide (S i = cols)) as [Hlast|Hne].
  - rewrite (bool_decide_eq_true_2 (S i = cols)) in * by done. cbn [andb] in Hnr. destruct (decide (S r = rows)) as [Hend|Hmore].
    + split_and!; try done. cbn -[be_act_wr_gnt]. unfold softmax_next.
      by rewrite Hs, Hgnt, Hg, Hle, Hlr, bool_decide_eq_true_2.
    + rewrite bool_decide_eq_true_2 in Hnr by done. rewrite bool_decide_eq_false_2 in Hlr by done.
      split_and!; try done; cbn [sm_within sm_regs]; split_and?; try lia; cbn -[be_act_wr_gnt].
      * unfold softmax_next. by rewrite Hs, Hgnt, Hg, Hle, Hlr.
      * unfold softmax_row_step. rewrite Hgnt, Hnr, Hs, Hrow, Hg. cbn [s_is softmax_row_at sm_row_r row_base_in_r row_base_out_r].
        unfold softmax_row_at. by rewrite !row_addr_S, (count_up (s_num_rows c)) by lia.
      * unfold softmax_cnt_step. by rewrite Hs, Hgnt, Hnr.
      * unfold softmax_read. by rewrite Hs.
  - rewrite (bool_decide_eq_false_2 (S i = cols)) in * by done. cbn [andb] in Hnr.
    split_and!; try done; cbn [sm_within sm_regs]; split_and?; try lia; cbn -[be_act_wr_gnt].
    + unfold softmax_next. by rewrite Hs, Hgnt, Hg, Hle.
    + unfold softmax_row_step. by rewrite Hgnt, Hnr, Hs.
    + unfold norm_idx_step. rewrite Hs, Hgnt, Hg, Hle, Hidx. cbn [s_is andb]. apply (count_up (s_row_len c)); lia.
Qed.

Lemma sm_norm_step st s cmd b :
  match st with NormRead _ _ | NormWait _ _ | NormDiv _ _ _ => True | _ => False end ->
  sm_in_stage st s -> sm_in_stage (sm_next_stage st) (side_step s cmd b).
Proof using Type.
  intros Hst (Hg & Hb & Hs & Hw & Hregs).
  destruct (sm_latched s cmd b Hg ltac:(by rewrite Hs; destruct st) Hb) as [Hg' Hb'].
  destruct st as [| | |r i|r i|r i k| |]; try done; cbn [sm_in_state sm_within sm_next_stage] in *.
  - destruct Hregs as (Hrow & Hidx). split_and!; try done; cbn [sm_regs]; split_and?; cbn;
      unfold softmax_next, softmax_row_step, next_row, norm_idx_step, softmax_read; by rewrite Hs; cbn; unfold softmax_read; rewrite ?Hs.
  - destruct Hregs as (Hrow & Hidx & Hr). split_and!; try done; cbn [sm_within sm_regs]; split_and?; try (done || lia); cbn;
      unfold softmax_next, softmax_row_step, next_row, norm_idx_step, softmax_div_step; rewrite Hs; try done; cbn; by rewrite Hr.
  - destruct Hregs as (Hrow & Hidx & Hcnt). destruct Hw as (Hw1 & Hw2 & Hk).
    assert (Hrow' : sm_row (side_step s cmd b).1 = softmax_row_at r) by (cbn; unfold softmax_row_step, next_row; by rewrite Hs).
    assert (Hidx' : norm_idx_r (side_step s cmd b).1 = Z.of_nat i) by (cbn; unfold norm_idx_step; by rewrite Hs).
    assert (Hn : sm_state (side_step s cmd b).1 = if decide (k = 23%nat) then SM_NORM_WR else SM_NORM_DIV).
    { cbn. unfold softmax_next. rewrite Hs, Hcnt. case_decide; [by subst|]. by rewrite (proj2 (Z.eqb_neq _ 23)) by lia. }
    destruct (decide (k = 23%nat)); split_and!; try done; cbn [sm_within sm_regs]; split_and?; try (done || lia).
    cbn. unfold softmax_div_step. rewrite Hs. cbn [s_is andb]. unfold sm_div_clock. rewrite Hcnt.
    assert (Hwr : wrap 5 (Z.of_nat k + 1) = Z.of_nat (S k)) by (rewrite wrap_small; [lia|unfold fits; change (2 ^ 5) with 32; lia]).
    case_match; cbn [sm_cnt_r]; exact Hwr.
Qed.

Lemma softmax_stage_step st s cmd b : st <> SmFinished -> sm_in_stage st s -> sm_in_stage (sm_next_stage st) (side_step s cmd b).
Proof using Hok.
  intros Hst Hs. destruct st; [by apply sm_loading_step|by apply sm_maximum_step|by apply sm_summing_step|
    by apply sm_norm_step..|by apply sm_write_step|done].
Qed.

Lemma softmax_stage_view T s :
  (T <= softmax_clocks)%nat -> sm_in_stage (softmax_at T) s ->
  softmax_busy s.1 = true /\ softmax_done s.1 = bool_decide (T = softmax_clocks).
Proof using Hok.
  intros HT (_ & _ & Hs & _). rewrite <- (bool_decide_ext _ _ (softmax_at_finished T HT)). unfold softmax_busy, softmax_done.
  by destruct (softmax_at T); rewrite Hs.
Qed.

Lemma softmax_finishes s cmd b :
  sm_in_stage SmFinished s -> sm_state (side_step s cmd b).1 = SM_IDLE /\ no_bias (side_step s cmd b).
Proof using Type. intros (_ & Hb & Hs & _). split; [cbn; unfold softmax_next; by rewrite Hs|by apply router_no_pending]. Qed.
End command.

(** ** The contract of a backend *)

#[export, program] Instance softmax_backend_laws : BackendLaws softmax_backend := {|
  bk_cycles := softmax_clocks;
  bk_runnable := softmax_cmd_ok;
  bk_rest p := sm_state p = SM_IDLE;
  bk_runs c m s := softmax_cmd_ok c /\ staged_runs (sm_next_stage c) SmLoading (softmax_clocks c) (sm_in_stage c) m s |}.
Next Obligation.
  intros p Hp. cbn. unfold softmax_busy, softmax_done, softmax_cmd_ready, asks_nothing, softmax_request, softmax_read. cbn.
  by rewrite Hp.
Qed.
Next Obligation.
  intros p cmd a w i g a' w' i' g' Hp. cbn. unfold softmax_step, softmax_next, softmax_row_step, next_row, softmax_cnt_step,
    softmax_acc_step, norm_idx_step, softmax_div_step, next_row. by rewrite Hp.
Qed.
Next Obligation. intros p a w i g Hp. cbn. unfold softmax_next. by rewrite Hp. Qed.
Next Obligation. by intros c m s [_ [_ (_ & Hb & _)]]. Qed.
Next Obligation. intros c s b Hs Hb Hc. split; [done|]. by apply staged_start, softmax_accepts. Qed.
Next Obligation.
  intros c m s [Hc Hm]. refine (staged_view _ _ _ _ _ m s Hm). intros T s' HT. by apply softmax_stage_view.
Qed.
Next Obligation.
  intros c m s cmd b [Hc Hm]. destruct m as [|m].
  - apply (softmax_finishes c). refine (staged_last _ _ _ _ _ _ s Hm). by apply (softmax_at_finished c Hc).
  - split; [done|]. refine (staged_step _ _ _ _ _ m s cmd b Hm). intros T s' cmd' b' HT Hs'. rewrite stage_at_S.
    apply softmax_stage_step; [done| |done]. intros E. apply (softmax_at_finished c Hc) in E; lia.
Qed.
Next Obligation. done. Qed.

(** ** Commands without an output *)

(** With no rows no row is the last one, with no elements none is awaited. *)
Definition softmax_empty (c : softmax_cmd_t) : Prop := s_num_rows c = 0 \/ s_row_len c = 0.

Definition softmax_lost (c : softmax_cmd_t) (p : softmax_ctrl) : Prop :=
  sm_cmd p = c /\ sm_state p <> SM_IDLE /\ sm_state p <> SM_DONE /\
  (sm_state p = SM_LOAD_CFG \/
   fits 16 (sm_row_r (sm_row p)) /\ fits 16 (rcv_cnt_r (sm_cnt p)) /\ (s_row_len c = 0 -> sm_state p = SM_FIND_MAX)).

Lemma softmax_lost_step c p cmd a w i g : softmax_empty c -> softmax_lost c p -> softmax_lost c (bk_step p cmd a w i g).
Proof.
  intros He (Hc & Hi & Hd & Hf). unfold softmax_lost. cbn. split_and!.
  - unfold softmax_latch. destruct cmd; [|done]. by destruct (sm_state p).
  - unfold softmax_next. destruct (sm_state p); repeat case_match; done.
  - unfold softmax_next. rewrite Hc. destruct (sm_state p) eqn:Hs; repeat case_match; try done.
    destruct Hf as [Hf|(Hrow & _ & Hmax)]; [done|]. destruct He as [E|E]; [|by specialize (Hmax E)].
    rewrite E, never_last in * by done. done.
  - right. destruct Hf as [Hf|(Hrow & Hcnt & Hmax)].
    + unfold softmax_row_step, softmax_cnt_step, softmax_next. rewrite Hf. by split_and!; [apply fits_0..|].
    + split_and!.
      * unfold softmax_row_step. repeat case_match; cbn; first [done|by apply fits_wrap|by apply fits_0].
      * unfold softmax_cnt_step, counted. repeat case_match; cbn; first [done|by apply fits_wrap|by apply fits_0].
      * intros E. specialize (Hmax E). unfold softmax_next, last_elem_w. rewrite Hmax, Hc, E, never_last by done.
        by rewrite andb_false_r.
Qed.

Lemma softmax_endless c w host ins :
  softmax_empty c -> sm_state w.1.1 = SM_IDLE -> softmax_lost c (bk_run (world_step w (Some c) host) ins).1.1.
Proof.
  intros He Hs. induction ins as [|x ins IH] using rev_ind.
  - unfold softmax_lost. cbn. unfold softmax_next, softmax_latch. rewrite Hs. cbn. by split_and!; [..|left].
  - rewrite bk_run_snoc. by apply softmax_lost_step.
Qed.
