(* ===== verification/SoftmaxData.v ===== *)
(** * The softmax backend: data

    What the stages of [SoftmaxBackend] leave in the memories: the maximum of a
    row, the sum of its exponentials, the quotients written. Then that a command
    computes what the testbench's [ref_softmax] says. *)

From S2P Require Import Prelude Regs Command Decode CArith SerialDiv Golden GoldenRows Mem BackendMem Backend RowBlocks SoftmaxBackend.
From stdpp Require Import gmap.

Open Scope Z_scope.

Abbreviation softmax_world := (softmax_ctrl * router * buffers)%type.

(** ** A command on the memories *)

Section command.
Context (c : softmax_cmd_t).

Abbreviation len := (s_row_len c).
Abbreviation rows := (Z.to_nat (s_num_rows c)).
Abbreviation cols := (Z.to_nat (s_row_len c)).
Abbreviation in_cell := (row_in_cell (s_in_addr c) len).

(** The maximum of row [r], the exponential of an element by its byte, and
    their sum, 32 bits wide. *)
Definition sm_max (start : cells) (r : nat) (n : Z) : Z := row_max (row_elem (s_in_addr c) len start r) n.

Definition sm_exp (start : cells) (r : nat) (x : Z) : Z := softmax_exp_lut (diff_comb (sm_max start r len) x).

Definition sm_weight (start : cells) (r : nat) (j : Z) : Z := sm_exp start r (cell start (in_cell r (Z.to_nat j))).

Definition sm_sum (start : cells) (r : nat) (n : Z) : Z := u32 (Zsum n (sm_weight start r)).

(** The divider [k] clocks after it was loaded for an element, and the byte. *)
Definition sm_div_at (start : cells) (r : nat) (x : Z) (k : nat) : softmax_div :=
  Nat.iter k (sm_div_clock (sm_sum start r len)) (sm_div_load (sm_exp start r x)).

#[local] Strategy 100 [sm_div_at].

Definition sm_byte (start : cells) (r : nat) (x : Z) : Z := wrap DATA_W (norm_result (sm_div_at start r x 24)).

Context (m0 : sram).

Abbreviation start r := (rows_written (s_in_addr c) (s_out_addr c) len sm_byte (act_mem m0) r).
Abbreviation buffer r i := (row_written (s_in_addr c) (s_out_addr c) len sm_byte (start r) r i).
Abbreviation memory act := (mk_sram (wt_mem m0) act (psum_mem m0)).

(** The buffers when a command is done. *)
Definition softmax_memory : sram := memory (start rows).

(** Both passes over row [r] are done. *)
Definition row_known (r : nat) (p : softmax_ctrl) : Prop :=
  max_val_r (sm_acc p) = sm_max (start r) r len /\ sm_sum_r (sm_acc p) = sm_sum (start r) r len /\
  exp_sum_rvalid_d (sm_acc p) = false.

Definition sm_stage_data (st : softmax_stage) (w : softmax_world) : Prop :=
  let p := w.1.1 in
  let a := sm_acc p in
  let rdata := b_rdata (act_port_b w.1.2) in
  match st with
  | SmLoading => contents w.2 = m0
  | Maximum r t =>
      contents w.2 = memory (start r) /\ max_val_r a = sm_max (start r) r (Z.of_nat (t - 1)) /\ sm_sum_r a = 0 /\
      exp_sum_rvalid_d a = false /\ (arriving c t = true -> rdata = cell (start r) (in_cell r (t - 1)))
  | Summing r t =>
      contents w.2 = memory (start r) /\ max_val_r a = sm_max (start r) r len /\
      sm_sum_r a = sm_sum (start r) r (Z.of_nat (t - 2)) /\ exp_sum_rvalid_d a = bool_decide (2 <= t)%nat /\
      ((2 <= t)%nat -> exp_sum_lut_d a = sm_weight (start r) r (Z.of_nat (t - 2))) /\
      (arriving c t = true -> rdata = cell (start r) (in_cell r (t - 1)))
  | NormRead r i => contents w.2 = memory (buffer r i) /\ row_known r p
  | NormWait r i => contents w.2 = memory (buffer r i) /\ row_known r p /\ rdata = cell (buffer r i) (in_cell r i)
  | NormDiv r i k =>
      contents w.2 = memory (buffer r i) /\ row_known r p /\ sm_div p = sm_div_at (start r) r (cell (buffer r i) (in_cell r i)) k
  | NormWrite r i =>
      contents w.2 = memory (buffer r i) /\ row_known r p /\ sm_div p = sm_div_at (start r) r (cell (buffer r i) (in_cell r i)) 24
  | SmFinished => contents w.2 = softmax_memory
  end.

Definition sm_world_in (st : softmax_stage) (w : softmax_world) : Prop := sm_in_stage c st w.1 /\ sm_stage_data st w.

Hypothesis Hok : softmax_cmd_ok c.

(** Only the last stage of an element writes. *)
Lemma sm_quiet st w cmd host :
  no_write host -> (forall r i, st <> NormWrite r i) -> sm_in_stage c st w.1 ->
  contents (world_step w cmd host).2 = contents w.2.
Proof using Type.
  intros Hh Hnw (_ & _ & Hs & _). apply world_quiet; [done|]. cbn. rewrite Hs. destruct st; try done. by destruct (Hnw r i).
Qed.

(** What the read port brings. *)
Lemma sm_rdata w cmd host r k addr :
  softmax_read w.1.1 = (addr, true) -> wrap (SRAM_ADDR_W + 1) addr = in_cell r k ->
  b_rdata (act_port_b (world_step w cmd host).1.2) = cell (act_mem (contents w.2)) (in_cell r k).
Proof using Type. intros Hr <-. destruct w as [[p q] b]. cbn in *. unfold rport_step. cbn. by rewrite Hr. Qed.

Lemma sm_pass_rdata st r t w cmd host A :
  (st = Maximum r t \/ st = Summing r t) -> sm_in_stage c st w.1 -> act_mem (contents w.2) = A -> (t <= cols)%nat ->
  arriving c (S t) = true -> b_rdata (act_port_b (world_step w cmd host).1.2) = cell A (in_cell r (S t - 1)).
Proof using Hok.
  intros Hst (Hg & _ & Hs & Hw & Hregs) <- Ht Ha%bool_decide_eq_true. replace (S t - 1)%nat with t by lia.
  assert (Hpass : sm_state w.1.1 = SM_FIND_MAX \/ sm_state w.1.1 = SM_EXP_SUM) by (rewrite Hs; destruct Hst as [-> | ->]; tauto).
  assert (Hr : sm_row w.1.1 = softmax_row_at c r /\
    sm_cnt w.1.1 = mk_softmax_cnt (Z.of_nat (t `min` cols)) (Z.of_nat (t - 1)) /\ be_rd_r (act_port_b w.1.2) = arriving c t)
    by (destruct Hst as [-> | ->]; exact Hregs).
  destruct Hr as (Hrow & Hcnt & Hr). destruct (sm_pass_cnt c Hok w.1 t Hg Hpass ltac:(lia) Hcnt Hr) as [Hreq _].
  rewrite bool_decide_eq_true_2 in Hreq by lia.
  apply (sm_rdata _ _ _ _ _ (softmax_read w.1.1).1); [by rewrite <- Hreq, <- surjective_pairing|].
  unfold softmax_read. destruct Hpass as [-> | ->]; rewrite Hrow, Hcnt; cbn [fst req_cnt_r row_base_in_r softmax_row_at];
    rewrite Nat.min_l by lia; done.
Qed.

Lemma sm_max_S A r n : sm_max A r (Z.of_nat (S n)) =
  let x := i8 (cell A (in_cell r n)) in if sm_max A r (Z.of_nat n) <? x then x else sm_max A r (Z.of_nat n).
Proof using Type.
  unfold sm_max. rewrite Nat2Z.inj_succ, <- Z.add_1_r, row_max_succ by lia. unfold row_elem. rewrite Nat2Z.id. cbv zeta.
  pose proof (i8_range (cell A (in_cell r n))) as [Hlo _].
  destruct (Z.ltb_spec (row_max (fun j => i8 (cell A (in_cell r (Z.to_nat j)))) (Z.of_nat n)) (i8 (cell A (in_cell r n)))); lia.
Qed.

Lemma sm_sum_S A r n : u32 (sm_sum A r (Z.of_nat n) + sm_weight A r (Z.of_nat n)) = sm_sum A r (Z.of_nat (S n)).
Proof using Type.
  unfold sm_sum. rewrite Nat2Z.inj_succ, <- Z.add_1_r, Zsum_succ by lia. unfold wrap. by rewrite Zplus_mod_idemp_l.
Qed.

Lemma sm_world_maximum r t w cmd host :
  no_write host -> sm_world_in (Maximum r t) w -> sm_stage_data (sm_next_stage c (Maximum r t)) (world_step w cmd host).
Proof using Hok.
  intros Hh [Hs (Hm & Hmax & Hsum & Hv & Hd)]. pose proof (sm_quiet (Maximum r t) w cmd host Hh ltac:(done) Hs) as Hq.
  pose proof Hs as (Hg & _ & Hst & [_ Ht] & _ & _ & Hr). cbn [sm_in_state] in Hst.
  assert (Ha : sm_acc (world_step w cmd host).1.1 = mk_softmax_acc (sm_max (start r) r (Z.of_nat t)) 0 false (exp_sum_lut_d (sm_acc w.1.1))).
  { cbn. unfold softmax_acc_step, next_row. rewrite Hst, Hv, Hsum, Hmax. cbn [s_is orb andb rd_rvalid rd_rdata be_act_rd].
    rewrite Hr. f_equal. destruct (arriving c t) eqn:Ha; [|unfold arriving in Ha; apply bool_decide_eq_false in Ha; do 2 f_equal; lia].
    rewrite Hd by done. apply bool_decide_eq_true in Ha. destruct t as [|t]; [lia|].
    rewrite sm_max_S, Nat.sub_succ, Nat.sub_0_r. done. }
  cbn [sm_next_stage]. destruct (decide (t = cols)) as [->|Hne]; cbn [sm_stage_data]; rewrite Ha;
    cbn [max_val_r sm_sum_r exp_sum_rvalid_d exp_sum_lut_d]; split_and!; try done.
  - by rewrite Hq.
  - by rewrite Z2Nat.id by (destruct Hok; lia).
  - lia.
  - by rewrite Hq.
  - by rewrite Nat.sub_succ, Nat.sub_0_r.
  - apply (sm_pass_rdata (Maximum r t)); [by left|done|by rewrite Hm|done].
Qed.

Lemma sm_world_summing r t w cmd host :
  no_write host -> sm_world_in (Summing r t) w -> sm_stage_data (sm_next_stage c (Summing r t)) (world_step w cmd host).
Proof using Hok.
  intros Hh [Hs (Hm & Hmax & Hsum & Hv & Hlut & Hd)]. pose proof (sm_quiet (Summing r t) w cmd host Hh ltac:(done) Hs) as Hq.
  pose proof Hs as (Hg & _ & Hst & [_ Ht] & _ & _ & Hr). cbn [sm_in_state] in Hst.
  assert (Ha : sm_acc (world_step w cmd host).1.1 = mk_softmax_acc (sm_max (start r) r len) (sm_sum (start r) r (Z.of_nat (t - 1)))
    (arriving c t) (if arriving c t then sm_weight (start r) r (Z.of_nat (t - 1)) else exp_sum_lut_d (sm_acc w.1.1))).
  { cbn. unfold softmax_acc_step, next_row, lut_exp_val. rewrite Hst, Hv, Hsum, Hmax. cbn [s_is orb andb rd_rvalid rd_rdata be_act_rd].
    rewrite Hr. f_equal.
    - case_bool_decide as H2; [|do 2 f_equal; lia]. rewrite Hlut by done. rewrite sm_sum_S. do 2 f_equal. lia.
    - destruct (arriving c t); [|done]. rewrite Hd by done. unfold sm_weight, sm_exp. by rewrite Nat2Z.id. }
  pose proof (sm_sizes c Hok). cbn [sm_next_stage]. destruct (decide (t = S cols)) as [->|Hne]; cbn [sm_stage_data]; unfold row_known; rewrite Ha;
    cbn [max_val_r sm_sum_r exp_sum_rvalid_d exp_sum_lut_d]; split_and!; try done.
  - by rewrite Hq.
  - rewrite Nat.sub_succ, Nat.sub_0_r, Z2Nat.id; [done|destruct Hok; lia].
  - unfold arriving. apply bool_decide_eq_false_2. lia.
  - by rewrite Hq.
  - unfold arriving. apply bool_decide_ext. lia.
  - intros H2. unfold arriving. rewrite bool_decide_eq_true_2 by lia. by rewrite Nat.sub_succ.
  - intros Harr. apply (sm_pass_rdata (Summing r t)); [by right|done|by rewrite Hm| |done]. apply bool_decide_eq_true in Harr. lia.
Qed.

(** The passes' results stay while a row is normalised. *)
Lemma row_known_kept r w cmd host :
  row_known r w.1.1 ->
  (sm_state w.1.1 = SM_NORM_RD \/ sm_state w.1.1 = SM_NORM_WAIT \/ sm_state w.1.1 = SM_NORM_DIV \/
   sm_state w.1.1 = SM_NORM_WR /\ next_row w.1.1 true = false) ->
  row_known r (world_step w cmd host).1.1.
Proof using Type.
  intros (Hmax & Hsum & Hv) Hst. unfold row_known. cbn -[be_act_wr_gnt]. unfold softmax_acc_step.
  assert (Hn : next_row w.1.1 (be_act_wr_gnt (softmax_request w.1.1)) = false).
  { destruct Hst as [E|[E|[E|[E Hn]]]]; [unfold next_row; by rewrite E..|].
    destruct (be_act_wr_gnt _); [done|]. unfold next_row. by rewrite E. }
  rewrite Hn. destruct Hst as [E|[E|[E|[E _]]]]; rewrite E, Hv; by split_and!.
Qed.

Lemma sm_world_norm st w cmd host :
  match st with NormRead _ _ | NormWait _ _ | NormDiv _ _ _ => True | _ => False end ->
  no_write host -> sm_world_in st w -> sm_stage_data (sm_next_stage c st) (world_step w cmd host).
Proof using Type.
  intros Hnorm Hh [Hs Hd]. pose proof (sm_quiet st w cmd host Hh ltac:(by destruct st) Hs) as Hq.
  pose proof Hs as (Hg & _ & Hst & Hw & Hregs).
  assert (Hk : forall r, row_known r w.1.1 -> row_known r (world_step w cmd host).1.1).
  { intros r Hk. apply row_known_kept; [done|]. destruct st; try done; tauto. }
  destruct st as [| | |r i|r i|r i k| |]; try done; cbn [sm_in_state sm_next_stage] in *.
  - destruct Hd as (Hm & Hknown), Hregs as (Hrow & Hidx). split_and!; [by rewrite Hq|by apply Hk|].
    rewrite (sm_rdata w cmd host r i (softmax_read w.1.1).1); [by rewrite Hm|..]; unfold softmax_read; rewrite Hst; [done|].
    by rewrite Hrow, Hidx.
  - destruct Hd as (Hm & Hknown & Hrd), Hregs as (Hrow & Hidx & Hr). split_and!; [by rewrite Hq|by apply Hk|].
    cbn. unfold softmax_div_step, lut_exp_val. rewrite Hst. cbn [s_is andb rd_rvalid rd_rdata be_act_rd].
    by rewrite Hr, Hrd, (proj1 Hknown).
  - destruct Hd as (Hm & Hknown & Hdiv).
    assert (Hdiv' : sm_div (world_step w cmd host).1.1 = sm_div_at (start r) r (cell (buffer r i) (in_cell r i)) (S k)).
    { cbn. unfold softmax_div_step. rewrite Hst, Hdiv, (proj1 (proj2 Hknown)). done. }
    destruct (decide (k = 23%nat)) as [->|Hne]; (split_and!; [by rewrite Hq|by apply Hk|exact Hdiv']).
Qed.

Lemma sm_world_write r i w cmd host :
  no_write host -> sm_world_in (NormWrite r i) w -> sm_stage_data (sm_next_stage c (NormWrite r i)) (world_step w cmd host).
Proof using Hok.
  intros Hh [Hs (Hm & Hknown & Hdiv)]. pose proof Hs as (Hg & _ & Hst & [Hr Hi] & Hrow & Hidx). cbn [sm_in_state] in Hst.
  destruct Hok as (_ & HM & HN).
  assert (Hwr : exists v, be_act_write (softmax_request w.1.1) = Some (wrap ADDR_W (row_addr (s_out_addr c) len r + Z.of_nat i), v) /\
    wrap DATA_W v = sm_byte (start r) r (cell (buffer r i) (in_cell r i))).
  { eexists. split; [|reflexivity]. unfold softmax_request. cbn [be_act_write]. by rewrite Hst, Hrow, Hidx, Hdiv. }
  destruct Hwr as (v & Hwr & Hv).
  assert (Hm' : contents (world_step w cmd host).2 = memory (buffer r (S i))).
  { unfold world_step. cbn [snd bk_request softmax_backend]. by rewrite Hwr, backend_write_step, Hm, Hv by done. }
  assert (Hle : last_elem_w c (norm_idx_r w.1.1) = bool_decide (S i = cols)) by (unfold last_elem_w; rewrite Hidx; by apply last_index).
  assert (Hnr : next_row w.1.1 true = bool_decide (S i = cols) && bool_decide (S r <> rows)).
  { unfold next_row. rewrite Hst, Hg, Hle, Hrow. cbn [sm_row_r softmax_row_at s_is andb]. by rewrite not_last_index. }
  cbn [sm_next_stage]. unfold row_done. destruct (decide (S i = cols)) as [Hlast|Hne].
  - assert (Hfull : contents (world_step w cmd host).2 = memory (start (S r))) by (rewrite Hm', Hlast; done).
    destruct (decide (S r = rows)) as [Hend|Hmore]; cbn [sm_stage_data]; [by rewrite Hfull, Hend|].
    assert (Ha : sm_acc (world_step w cmd host).1.1 = mk_softmax_acc (-128) 0 false (exp_sum_lut_d (sm_acc w.1.1))).
    { cbn -[be_act_wr_gnt]. unfold softmax_acc_step, be_act_wr_gnt. rewrite Hwr, (bool_decide_eq_true_2 (is_Some _)) by by eexists.
      rewrite Hnr, !bool_decide_eq_true_2, Hst by done. done. }
    rewrite Ha. split_and!; try done.
  - split; [done|]. apply row_known_kept; [done|]. right; right; right. split; [done|].
    by rewrite Hnr, (bool_decide_eq_false_2 (S i = cols)).
Qed.

Lemma sm_world_loading w cmd host :
  no_write host -> sm_world_in SmLoading w -> sm_stage_data (Maximum 0 0) (world_step w cmd host).
Proof using Type.
  intros Hh [Hs Hm]. pose proof (sm_quiet SmLoading w cmd host Hh ltac:(done) Hs) as Hq. pose proof Hs as (_ & _ & Hst & _).
  cbn [sm_stage_data] in *. cbn [sm_in_state] in Hst. rewrite Hq, Hm. cbn. unfold softmax_acc_step. rewrite Hst.
  split_and!; try done. by destruct m0.
Qed.

Lemma softmax_world_stage st w cmd host :
  no_write host -> st <> SmFinished -> sm_world_in st w -> sm_world_in (sm_next_stage c st) (world_step w cmd host).
Proof using Hok.
  intros Hh Hst Hw. split; [apply softmax_stage_step; [done..|apply Hw]|].
  destruct st; [by apply sm_world_loading|by apply sm_world_maximum|by apply sm_world_summing|by apply sm_world_norm..|
    by apply sm_world_write|done].
Qed.

(** Row after row, and nothing else in the three buffers. *)
Lemma softmax_effect w host ins :
  sm_state w.1.1 = SM_IDLE -> no_bias w.1 -> contents w.2 = m0 -> no_write host -> only_reads ins ->
  length ins = S (softmax_clocks c) ->
  contents (bk_run (world_step w (Some c) host) ins).2 = softmax_memory.
Proof using Hok.
  intros Hs Hb Hm Hhost Hins Hn. eapply (staged_effect (sm_next_stage c) SmLoading (softmax_clocks c) sm_world_in).
  - intros T w' cmd h' HT Hh' Hw'. rewrite stage_at_S. apply softmax_world_stage; [done| |done].
    intros E. apply (softmax_at_finished c Hok) in E; lia.
  - split; [by apply softmax_accepts|]. unfold sm_stage_data. rewrite world_quiet; [done|done|]. cbn. by rewrite Hs.
  - done.
  - done.
  - rewrite (proj2 (softmax_at_finished c Hok _ (le_n _)) eq_refl). intros w' [(_ & _ & Hs' & _) Hd]. split; [exact Hd|].
    cbn. by rewrite Hs'.
Qed.
End command.

#[export, program] Instance softmax_backend_effect : BackendEffect softmax_backend_laws := {| bk_effect := softmax_memory |}.
Next Obligation. intros c m w host ins [Hs Hb] Hm Hc Hhost Hins Hn. by apply softmax_effect. Qed.

(** ** The table and the divider *)

(** The hardware's table of exponentials is the testbench's. *)
Lemma softmax_exp_lut_approx d : fits 8 d -> softmax_exp_lut d = softmax_exp_approx d.
Proof. apply (below (fun d => softmax_exp_lut d = softmax_exp_approx d) 256). by apply (bool_decide_unpack _); vm_compute. Qed.

(** After [k] clocks the upper bits of the numerator have been divided and the
    lower ones are still to come. *)
Lemma sm_divider_step N D k :
  0 <= N < 2 ^ 23 -> 1 <= D < 2 ^ 32 -> 0 <= k < 24 ->
  sm_div_clock D (mk_softmax_div (wrap 24 (N * 2 ^ k)) ((N / 2 ^ (24 - k)) mod D) (wrap 8 (N / 2 ^ (24 - k) / D)) k) =
  mk_softmax_div (wrap 24 (N * 2 ^ (k + 1))) ((N / 2 ^ (24 - (k + 1))) mod D) (wrap 8 (N / 2 ^ (24 - (k + 1)) / D)) (k + 1).
Proof.
  intros HN HD Hk. destruct (shifted_top N 24 k ltac:(lia) Hk) as [Hb Hup]. rewrite Hup.
  assert (Hh : 0 <= N / 2 ^ (24 - k) < 2 ^ 23).
  { assert (0 < 2 ^ (24 - k)) by (apply Z.pow_pos_nonneg; lia).
    split; [apply Z.div_pos; lia|]. apply Z.div_lt_upper_bound; nia. }
  unfold sm_div_clock. cbn [sm_numer_r sm_rem_r sm_quot_r sm_cnt_r]. rewrite Z.shiftr_div_pow2 by done. change (24 - 1) with 23 in *.
  set (h := N / 2 ^ (24 - k)) in *. set (b := wrap 24 (N * 2 ^ k) / 2 ^ 23) in *.
  pose proof (div_bit h b D ltac:(lia) Hb ltac:(lia)) as Hd. cbv zeta in Hd.
  pose proof (Z.mod_pos_bound h D ltac:(lia)) as Hr. pose proof (Z.mod_le h D ltac:(lia) ltac:(lia)) as Hrh.
  assert (Hnum : wrap 24 (2 * wrap 24 (N * 2 ^ k)) = wrap 24 (N * 2 ^ (k + 1))).
  { unfold wrap. rewrite Zmult_mod_idemp_r. f_equal. rewrite Z.pow_add_r by lia. lia. }
  rewrite Hnum, (wrap_small 5) by (unfold fits; lia). rewrite (wrap_small 32 (2 * _)) by (unfold fits; lia).
  assert (Hq : forall q, wrap 8 (2 * wrap 8 q) = wrap 8 (2 * q)) by (intros q; unfold wrap; by rewrite Zmult_mod_idemp_r).
  assert (Hq1 : wrap 8 (2 * (h / D) + 1) = wrap 8 (2 * (h / D)) + 1).
  { unfold wrap. change (2 ^ 8) with (2 * 128). rewrite Z.add_mod, !Z.mul_mod_distr_l by lia. change (1 mod (2 * 128)) with 1.
    pose proof (Z.mod_pos_bound (h / D) 128 ltac:(lia)). apply Z.mod_small. lia. }
  set (t := 2 * (h mod D) + b) in *. assert (Ht : 0 <= t < 2 ^ 24) by lia.
  assert (Hborrow : Z.testbit (wrap 33 (t - D)) 32 = negb (D <=? t)).
  { rewrite Z.testbit_odd, Z.shiftr_div_pow2 by done. unfold wrap. destruct (Z.leb_spec D t); cbn [negb].
    - rewrite (Z.mod_small (t - D)), (Z.div_small (t - D)) by lia. done.
    - rewrite <- (Z.mod_unique_pos (t - D) (2 ^ 33) (-1) (t - D + 2 ^ 33)) by lia.
      by rewrite <- (Z.div_unique_pos (t - D + 2 ^ 33) (2 ^ 32) 1 (t - D + 2 ^ 32)) by lia. }
  rewrite Hborrow, negb_involutive, Hq. destruct (Z.leb_spec D t); injection Hd as -> ->; [|done].
  rewrite Hq1. f_equal. unfold wrap. rewrite (Z.mod_small _ (2 ^ 33)) by lia. apply Z.mod_small. lia.
Qed.

(** 24 clocks divide. *)
Lemma sm_divider_divides N D :
  0 <= N < 2 ^ 23 -> 1 <= D < 2 ^ 32 ->
  sm_quot_r (Nat.iter 24 (sm_div_clock D) (mk_softmax_div N 0 0 0)) = wrap 8 (N / D).
Proof.
  intros HN HD.
  assert (Hk : forall k, (k <= 24)%nat -> Nat.iter k (sm_div_clock D) (mk_softmax_div N 0 0 0) =
    mk_softmax_div (wrap 24 (N * 2 ^ Z.of_nat k)) ((N / 2 ^ (24 - Z.of_nat k)) mod D) (wrap 8 (N / 2 ^ (24 - Z.of_nat k) / D)) (Z.of_nat k)).
  { induction k as [|k IH]; intros Hk.
    - change (Z.of_nat 0) with 0. rewrite Z.sub_0_r, Z.mul_1_r, (Z.div_small N (2 ^ 24)), Zdiv_0_l, Zmod_0_l by lia.
      by rewrite wrap_small by (unfold fits; lia).
    - rewrite Nat.iter_succ, IH by lia. rewrite sm_divider_step by lia. by rewrite Nat2Z.inj_succ, <- Z.add_1_r. }
  rewrite Hk by done. cbn [sm_quot_r]. change (24 - Z.of_nat 24) with 0. change (2 ^ 0) with 1. by rewrite Z.div_1_r.
Qed.

(** ** The reference model *)

Section reference.
Context (c : softmax_cmd_t) (m : sram) (input : list Z).
Hypothesis Hok : softmax_cmd_ok c.
Hypothesis Hops : rows_operands (s_in_addr c) (s_out_addr c) (s_num_rows c) (s_row_len c) m input.

Abbreviation len := (s_row_len c).
Abbreviation weight := (softmax_weight input len).
Abbreviation total := (softmax_total input len).
Abbreviation spec := (softmax_spec input len).
Abbreviation start r := (rows_written (s_in_addr c) (s_out_addr c) len (sm_byte c) (act_mem m) r).
Abbreviation buffer r i := (row_written (s_in_addr c) (s_out_addr c) len (sm_byte c) (start r) r i).
Abbreviation in_cell := (row_in_cell (s_in_addr c) len).

(** The exponential of an element, from the byte that is read. *)
Lemma sm_exp_ref r i :
  Z.of_nat r < s_num_rows c -> 0 <= i < len -> sm_exp c (start r) r (u8 (elem input len (Z.of_nat r) i)) = weight (Z.of_nat r) i.
Proof using Hok Hops.
  intros Hr Hi. destruct Hok as (_ & _ & HN). pose proof (proj1 Hops) as Hwf. unfold sm_exp.
  assert (Hmax : sm_max c (start r) r len = row_max (elem input len (Z.of_nat r)) len).
  { apply row_max_ext. intros j Hj. apply (row_elem_input _ _ (s_num_rows c) _ _ m); [lia|done|done|done]. }
  rewrite Hmax. pose proof (softmax_diff input (s_num_rows c) len Hwf (Z.of_nat r) i Hi) as Hd. unfold diff_u8 in Hd.
  unfold diff_comb. rewrite Hd, softmax_exp_lut_approx; [done|]. rewrite <- Hd. by apply fits_wrap.
Qed.

(** No sum overflows 32 bits. *)
Lemma softmax_total_fits r : 0 < total r < 2 ^ 32.
Proof using Hok Hops.
  destruct Hok as (_ & _ & HN). pose proof (proj1 Hops) as Hwf.
  pose proof (softmax_total_range input (s_num_rows c) len Hwf r 0 ltac:(lia)).
  destruct (Zsum_range len (weight r) 0 65534) as [_ Hhi]; [lia| |].
  - intros i Hi. pose proof (softmax_weight_range input (s_num_rows c) len Hwf r i Hi). lia.
  - unfold softmax_total in *. change (2 ^ 32) with 4294967296. lia.
Qed.

Lemma sm_byte_eq A r x :
  sm_byte c A r x = wrap DATA_W (norm_result (Nat.iter 24 (sm_div_clock (sm_sum c A r len)) (sm_div_load (sm_exp c A r x)))).
Proof using Type. done. Qed.

Lemma sm_byte_ref r i :
  Z.of_nat r < s_num_rows c -> (i < Z.to_nat len)%nat ->
  sm_byte c (start r) r (cell (buffer r i) (in_cell r i)) = u8 (spec (Z.of_nat r) (Z.of_nat i)).
Proof using Hok Hops.
  intros Hr Hi. destruct Hok as (_ & _ & HN). pose proof (proj1 Hops) as Hwf.
  rewrite (row_byte_input _ _ (s_num_rows c) _ _ m input) by (done || lia).
  assert (Hsum : sm_sum c (start r) r len = total (Z.of_nat r)).
  { unfold sm_sum. rewrite (Zsum_ext _ _ (weight (Z.of_nat r))).
    - apply wrap_small. pose proof (softmax_total_fits (Z.of_nat r)). unfold fits. unfold softmax_total in *. lia.
    - intros j Hj. unfold sm_weight. change (start r) with (buffer r 0) at 2.
      rewrite (row_byte_input _ _ (s_num_rows c) _ _ m input), Z2Nat.id by (done || lia). by apply sm_exp_ref. }
  rewrite sm_byte_eq, Hsum, sm_exp_ref by lia.
  pose proof (softmax_weight_range input (s_num_rows c) len Hwf (Z.of_nat r) (Z.of_nat i) ltac:(lia)) as Hw.
  pose proof (softmax_spec_range input (s_num_rows c) len Hwf (Z.of_nat r) (Z.of_nat i) ltac:(lia)) as Hs.
  pose proof (softmax_total_fits (Z.of_nat r)).
  unfold sm_div_load. rewrite (wrap_small 24) by (unfold fits; change (2 ^ 24) with 16777216; lia).
  unfold norm_result. rewrite sm_divider_divides by (try change (2 ^ 23) with 8388608; lia).
  assert (Hq : u8 (weight (Z.of_nat r) (Z.of_nat i) * 127 / total (Z.of_nat r)) = spec (Z.of_nat r) (Z.of_nat i)).
  { apply (wrap_small 8 (spec (Z.of_nat r) (Z.of_nat i))). unfold fits. change (2 ^ 8) with 256. lia. }
  rewrite Hq. by destruct (Z.ltb_spec 127 (spec (Z.of_nat r) (Z.of_nat i))); [lia|].
Qed.

Lemma softmax_reference :
  exists out, ref_softmax input (s_num_rows c) len = Ok out /\ rows_results (s_out_addr c) m (softmax_memory c m) out /\
    Z.of_nat (length out) = s_num_rows c * len /\ Forall fits_i8 out.
Proof using Hok Hops.
  destruct Hok as (_ & HM & HN). pose proof (proj1 Hops) as Hwf.
  eexists. split; [apply ref_softmax_rows; [done|lia]|]. split.
  - apply (rows_reference (s_in_addr c) _ _ _ _ _ input); [lia|lia|exact Hops|].
    intros r i Hr Hi. rewrite sm_byte_ref by done. by rewrite digit_div, digit_mod by lia.
  - apply rows_list_fits; [lia|lia|]. intros r i _ Hi. pose proof (softmax_spec_range _ _ _ Hwf r i Hi) as Hs.
    unfold fits_i8. lia.
Qed.
End reference.

(** C24. The softmax backend is the reference model. With the rows in the
    activation buffer and no output cell that is a later input cell or another
    output cell (the output may replace the input), a command runs for a number
    of clocks that depends on its sizes only, 29 for each element and three for
    each row, whatever commands are offered and whatever the host reads
    meanwhile. It is busy up to its last clock, the only one with [done], and
    leaves in the output cells exactly the bytes that [ref_softmax] of the
    testbench computes for the same input, and every other cell of the three
    buffers as it was. *)
Theorem softmax_matches_reference c m w host ins input :
  softmax_cmd_ok c -> at_rest w.1 -> contents w.2 = m -> no_write host -> only_reads ins ->
  rows_operands (s_in_addr c) (s_out_addr c) (s_num_rows c) (s_row_len c) m input ->
  let w' := bk_run (world_step w (Some c) host) ins in
  ((length ins <= softmax_clocks c)%nat ->
     softmax_busy w'.1.1 = true /\ softmax_done w'.1.1 = bool_decide (length ins = softmax_clocks c)) /\
  (length ins = S (softmax_clocks c) ->
     exists out, ref_softmax input (s_num_rows c) (s_row_len c) = Ok out /\ at_rest w'.1 /\
       rows_results (s_out_addr c) m (contents w'.2) out).
Proof.
  intros Hc Hw Hm Hhost Hins Hops w'. split.
  { intros Hn. exact (command_view c w host ins Hw Hc Hn). }
  intros Hn. destruct (softmax_reference c m input Hc Hops) as (out & Hout & Hres & _). exists out. split_and!; [done|..].
  - by apply command_ends.
  - unfold w'. by rewrite (effect_law c m w host ins).
Qed.

(** ** Witness: a row of four elements, in place *)

Definition ex_softmax_mem : buffers :=
  mk_buffers (mk_bank ∅ 0 false) (mk_bank (<[0 := 1]> (<[1 := 2]> (<[2 := 3]> (<[3 := 100]> ∅)))) 0 false) (mk_bank ∅ 0 false).

Definition ex_softmax_rest : softmax_world :=
  ((softmax_reset, mk_router (mk_rport 0 false) (mk_rport 0 false) false 0 false), ex_softmax_mem).

Definition ex_softmax_cmd : softmax_cmd_t := mk_softmax_cmd 0 0 1 4.

Lemma ex_softmax_operands : rows_operands 0 0 1 4 (contents ex_softmax_mem) [1; 2; 3; 100].
Proof.
  apply rows_operands_inside; [split_and!; try done; by apply (bool_decide_unpack _); vm_compute|done|done|by left|].
  intros k Hk. assert (Hfour : k = 0 \/ k = 1 \/ k = 2 \/ k = 3) by lia. by destruct Hfour as [->|[->|[->| ->]]].
Qed.

Theorem softmax_matches_reference_witness :
  exists out,
    ref_softmax [1; 2; 3; 100] 1 4 = Ok out /\
    let w := bk_run (world_step ex_softmax_rest (Some ex_softmax_cmd) no_request) (replicate 121 (None, no_request)) in
    at_rest w.1 /\ rows_results 0 (contents ex_softmax_mem) (contents w.2) out.
Proof.
  destruct (softmax_matches_reference ex_softmax_cmd (contents ex_softmax_mem) ex_softmax_rest no_request
    (replicate 121 (None, no_request)) [1; 2; 3; 100]) as [_ Hend];
    [by split_and!|done|done|done|by apply Forall_replicate|by apply ex_softmax_operands|].
  destruct (Hend eq_refl) as (out & Hout & Hr & Hc). exists out. split; [exact Hout|]. split; [exact Hr|exact Hc].
Defined.
