(* ===== verification/LnormBackend.v ===== *)
(** * The layer normalisation backend: control

    [lnorm_ctrl] (with [lnorm_composite] around it), clock by clock, on the
    memories of [BackendMem]: a pass over a row for its sum, the serial division
    to the mean, a pass for the squared deviations, the division to the variance,
    the serial square root, and a pass that reads, divides and writes. Then the
    stages of a command, which depend on its sizes only, and the contract that
    follows; what the bytes are is in [LnormData]. *)

From S2P Require Import Prelude Regs Command Decode CArith SerialDiv Golden GoldenRows Mem BackendMem Backend RowBlocks.

Open Scope Z_scope.

(** ** lnorm_ctrl: one record and one function per register block *)

Inductive lnorm_state :=
| LN_IDLE | LN_LOAD_CFG | LN_SUM_RD | LN_SUM_WAIT | LN_MEAN_DIV | LN_VAR_RD | LN_VAR_WAIT | LN_VAR_DIV | LN_SQRT
| LN_NORM_RD | LN_NORM_WAIT | LN_NORM_DIV | LN_NORM_WR | LN_DONE.

#[export] Instance lnorm_state_eq : EqDecision lnorm_state := ltac:(solve_decision).

Abbreviation l_is s t := (bool_decide (s = t)).

Record lnorm_cfg := mk_lnorm_cfg { ln_num_rows_r : Z; ln_row_len_r : Z; ln_norm_shift_r : Z }.
Record lnorm_row := mk_lnorm_row { ln_row_r : Z; in_row_base_r : Z; out_row_base_r : Z }.
Record lnorm_acc := mk_lnorm_acc { ln_sum_r : Z; mean_r : Z; var_sum_r : Z; std_r : Z }.
Record lnorm_div := mk_lnorm_div { ln_quot_r : Z; ln_rem_r : Z; ln_denom_r : Z; ln_cnt_r : Z; ln_sign_r : bool; norm_sign_r : bool }.
Record lnorm_sqrt := mk_lnorm_sqrt { sqrt_input_r : Z; sqrt_rem_r : Z; sqrt_result_r : Z; sqrt_cnt_r : Z }.

Record lnorm_ctrl := mk_lnorm_ctrl {
  ln_state : lnorm_state; ln_cfg : lnorm_cfg; ln_row : lnorm_row; idx_r : Z;
  ln_acc : lnorm_acc; ln_div : lnorm_div; ln_sqrt : lnorm_sqrt }.

(** The comparisons with a length less one are 32 bits wide. *)
Definition last_idx_w (p : lnorm_ctrl) : bool := idx_r p =? u32 (ln_row_len_r (ln_cfg p) - 1).

Definition lnorm_next (p : lnorm_ctrl) (cmd_valid : bool) (act : rd_answer) (out_wr_gnt : bool) : lnorm_state :=
  match ln_state p with
  | LN_IDLE => if cmd_valid then LN_LOAD_CFG else LN_IDLE
  | LN_LOAD_CFG => LN_SUM_RD
  | LN_SUM_RD => if rd_gnt act then LN_SUM_WAIT else LN_SUM_RD
  | LN_SUM_WAIT => if rd_rvalid act then if last_idx_w p then LN_MEAN_DIV else LN_SUM_RD else LN_SUM_WAIT
  | LN_MEAN_DIV => if ln_cnt_r (ln_div p) =? 0 then LN_VAR_RD else LN_MEAN_DIV
  | LN_VAR_RD => if rd_gnt act then LN_VAR_WAIT else LN_VAR_RD
  | LN_VAR_WAIT => if rd_rvalid act then if last_idx_w p then LN_VAR_DIV else LN_VAR_RD else LN_VAR_WAIT
  | LN_VAR_DIV => if ln_cnt_r (ln_div p) =? 0 then LN_SQRT else LN_VAR_DIV
  | LN_SQRT => if sqrt_cnt_r (ln_sqrt p) =? 0 then LN_NORM_RD else LN_SQRT
  | LN_NORM_RD => if rd_gnt act then LN_NORM_WAIT else LN_NORM_RD
  | LN_NORM_WAIT => if rd_rvalid act then LN_NORM_DIV else LN_NORM_WAIT
  | LN_NORM_DIV => if ln_cnt_r (ln_div p) =? 0 then LN_NORM_WR else LN_NORM_DIV
  | LN_NORM_WR =>
      if out_wr_gnt then
        if last_idx_w p then if ln_row_r (ln_row p) =? u32 (ln_num_rows_r (ln_cfg p) - 1) then LN_DONE else LN_SUM_RD
        else LN_NORM_RD
      else LN_NORM_WR
  | LN_DONE => LN_IDLE
  end.

(** The command latch: without the addresses. *)
Definition lnorm_cfg_of (c : lnorm_cmd_t) : lnorm_cfg := mk_lnorm_cfg (l_num_rows c) (l_row_len c) (l_norm_shift c).

Definition lnorm_latch (p : lnorm_ctrl) (cmd : lnorm_cmd_t) (cmd_valid : bool) : lnorm_cfg :=
  if l_is (ln_state p) LN_IDLE && cmd_valid then lnorm_cfg_of cmd else ln_cfg p.

(** A row is finished and another one follows. *)
Definition ln_next_row (p : lnorm_ctrl) (out_wr_gnt : bool) : bool :=
  l_is (ln_state p) LN_NORM_WR && out_wr_gnt && last_idx_w p &&
  (ln_row_r (ln_row p) <? u32 (ln_num_rows_r (ln_cfg p) - 1)).

(** The row and its bases; the addresses come from the command port, a clock
    after the rest of the command. *)
Definition lnorm_row_step (p : lnorm_ctrl) (cmd : lnorm_cmd_t) (out_wr_gnt : bool) : lnorm_row :=
  let w := ln_row p in
  let len := ln_row_len_r (ln_cfg p) in
  if l_is (ln_state p) LN_LOAD_CFG then mk_lnorm_row 0 (l_in_addr cmd) (l_out_addr cmd)
  else if ln_next_row p out_wr_gnt then
    mk_lnorm_row (wrap 16 (ln_row_r w + 1)) (wrap ADDR_W (in_row_base_r w + len)) (wrap ADDR_W (out_row_base_r w + len))
  else w.

(** The element of a pass. *)
Definition idx_step (p : lnorm_ctrl) (act : rd_answer) (out_wr_gnt : bool) : Z :=
  let advance := if last_idx_w p then 0 else wrap 16 (idx_r p + 1) in
  match ln_state p with
  | LN_LOAD_CFG => 0
  | LN_SUM_WAIT | LN_VAR_WAIT => if rd_rvalid act then advance else idx_r p
  | LN_NORM_WR => if out_wr_gnt then advance else idx_r p
  | _ => idx_r p
  end.

(** The deviation of the byte on the port from a mean, its magnitude, its square
    by a 16-bit multiplier, and its magnitude shifted, with saturation. *)
Definition diff_w (mean rdata : Z) : Z := i32 (i8 rdata - mean).
Definition abs_diff_w (mean rdata : Z) : Z := u32 (if diff_w mean rdata <? 0 then - diff_w mean rdata else diff_w mean rdata).
Definition abs_diff_sq_w (mean rdata : Z) : Z := wrap 16 (abs_diff_w mean rdata) * wrap 16 (abs_diff_w mean rdata).
Definition scaled_abs_w (mean shift rdata : Z) : Z :=
  let wide := wrap 40 (abs_diff_w mean rdata ≪ shift) in if wide ≫ 32 =? 0 then u32 wide else 0xFFFFFFFF.

(** The sum and the variance sum with an element more; the latter saturates on
    its way to the divider. *)
Definition final_sum (a : lnorm_acc) (rdata : Z) : Z := i32 (ln_sum_r a + i8 rdata).

Definition final_var (a : lnorm_acc) (rdata : Z) : Z :=
  let wide := var_sum_r a + abs_diff_sq_w (mean_r a) rdata in if wide ≫ 32 =? 0 then u32 wide else 0xFFFFFFFF.

(** The serial divider: loaded, and one clock. *)
Definition ln_div_load (numer denom : Z) (sign norm_sign : bool) : lnorm_div := mk_lnorm_div numer 0 denom 31 sign norm_sign.

Definition ln_div_clock (d : lnorm_div) : lnorm_div :=
  let '(quot, rem) := div_next (ln_quot_r d) (ln_rem_r d) (ln_denom_r d) in
  mk_lnorm_div quot rem (ln_denom_r d) (wrap 5 (ln_cnt_r d - 1)) (ln_sign_r d) (norm_sign_r d).

Definition lnorm_div_step (p : lnorm_ctrl) (act : rd_answer) : lnorm_div :=
  let d := ln_div p in
  let a := ln_acc p in
  let x := rd_rdata act in
  let len := ln_row_len_r (ln_cfg p) in
  match ln_state p with
  | LN_SUM_WAIT =>
      if rd_rvalid act && last_idx_w p then
        ln_div_load (u32 (if final_sum a x <? 0 then - final_sum a x else final_sum a x)) len (final_sum a x <? 0) (norm_sign_r d)
      else d
  | LN_VAR_WAIT => if rd_rvalid act && last_idx_w p then ln_div_load (final_var a x) len false (norm_sign_r d) else d
  | LN_NORM_WAIT =>
      if rd_rvalid act then
        ln_div_load (scaled_abs_w (mean_r a) (ln_norm_shift_r (ln_cfg p)) x) (std_r a) false (diff_w (mean_r a) x <? 0)
      else d
  | LN_MEAN_DIV | LN_VAR_DIV | LN_NORM_DIV => ln_div_clock d
  | _ => d
  end.

(** The quotient that the current clock completes. *)
Definition quot_next (d : lnorm_div) : Z := (div_next (ln_quot_r d) (ln_rem_r d) (ln_denom_r d)).1.

(** The serial square root: two bits of its input per clock. *)
Definition sqrt_next (s : lnorm_sqrt) : Z * Z :=
  let shifted := wrap 32 (4 * sqrt_rem_r s) + sqrt_input_r s ≫ 30 in
  let trial := 4 * sqrt_result_r s + 1 in
  if trial <=? shifted then (shifted - trial, wrap 16 (2 * sqrt_result_r s) + 1) else (shifted, wrap 16 (2 * sqrt_result_r s)).

Definition sqrt_load (n : Z) : lnorm_sqrt := mk_lnorm_sqrt n 0 0 15.

Definition sqrt_clock (s : lnorm_sqrt) : lnorm_sqrt :=
  let '(rem, result) := sqrt_next s in mk_lnorm_sqrt (wrap 32 (4 * sqrt_input_r s)) rem result (wrap 5 (sqrt_cnt_r s - 1)).

Definition lnorm_sqrt_step (p : lnorm_ctrl) : lnorm_sqrt :=
  if l_is (ln_state p) LN_VAR_DIV && (ln_cnt_r (ln_div p) =? 0) then sqrt_load (u32 (quot_next (ln_div p) + 1))
  else if l_is (ln_state p) LN_SQRT then sqrt_clock (ln_sqrt p)
  else ln_sqrt p.

Definition std_of (result : Z) : Z := if result =? 0 then 1 else result.

(** Sum, mean, variance sum and standard deviation. *)
Definition lnorm_acc_step (p : lnorm_ctrl) (act : rd_answer) (out_wr_gnt : bool) : lnorm_acc :=
  let a := ln_acc p in
  let st := ln_state p in
  let fresh := l_is st LN_LOAD_CFG || ln_next_row p out_wr_gnt in
  let d := ln_div p in
  mk_lnorm_acc
    (if fresh then 0 else if l_is st LN_SUM_WAIT && rd_rvalid act then i32 (ln_sum_r a + i8 (rd_rdata act)) else ln_sum_r a)
    (if l_is st LN_MEAN_DIV && (ln_cnt_r d =? 0) then i32 (if ln_sign_r d then - quot_next d else quot_next d) else mean_r a)
    (if fresh then 0
     else if l_is st LN_VAR_WAIT && rd_rvalid act then u32 (var_sum_r a + abs_diff_sq_w (mean_r a) (rd_rdata act)) else var_sum_r a)
    (if l_is st LN_SQRT && (sqrt_cnt_r (ln_sqrt p) =? 0) then std_of (sqrt_next (ln_sqrt p)).2 else std_r a).

Definition lnorm_result (d : lnorm_div) : Z :=
  if norm_sign_r d then if 128 <? ln_quot_r d then 0x80 else wrap 8 (- wrap 8 (ln_quot_r d))
  else if 127 <? ln_quot_r d then 127 else wrap 8 (ln_quot_r d).

Definition lnorm_step (p : lnorm_ctrl) (cmd : lnorm_cmd_t) (cmd_valid : bool) (act : rd_answer) (out_wr_gnt : bool) : lnorm_ctrl :=
  mk_lnorm_ctrl (lnorm_next p cmd_valid act out_wr_gnt) (lnorm_latch p cmd cmd_valid) (lnorm_row_step p cmd out_wr_gnt)
    (idx_step p act out_wr_gnt) (lnorm_acc_step p act out_wr_gnt) (lnorm_div_step p act) (lnorm_sqrt_step p).

(** [lnorm_composite] ties the weight and bias ports off. *)
Definition lnorm_reads (st : lnorm_state) : bool :=
  match st with LN_SUM_RD | LN_VAR_RD | LN_NORM_RD => true | _ => false end.

Definition lnorm_request (p : lnorm_ctrl) : be_request :=
  let rd := lnorm_reads (ln_state p) in
  mk_be_request 0 false (if rd then wrap ADDR_W (in_row_base_r (ln_row p) + idx_r p) else 0) rd
    (if l_is (ln_state p) LN_NORM_WR
     then Some (wrap ADDR_W (out_row_base_r (ln_row p) + idx_r p), lnorm_result (ln_div p)) else None) 0 false.

Definition lnorm_cmd_ready (p : lnorm_ctrl) : bool := l_is (ln_state p) LN_IDLE.
Definition lnorm_done (p : lnorm_ctrl) : bool := l_is (ln_state p) LN_DONE.
Definition lnorm_busy (p : lnorm_ctrl) : bool := negb (l_is (ln_state p) LN_IDLE).

Definition lnorm_reset : lnorm_ctrl :=
  mk_lnorm_ctrl LN_IDLE (mk_lnorm_cfg 0 0 0) (mk_lnorm_row 0 0 0) 0 (mk_lnorm_acc 0 0 0 1)
    (mk_lnorm_div 0 0 0 0 false false) (mk_lnorm_sqrt 0 0 0 0).

(** ** The command port

    [npu_scheduler] drives it from a register that it loads when the backends
    are idle only: a command stays on the port while it runs. *)

Record lnorm_port := mk_lnorm_port { u_lnorm : lnorm_ctrl; port_cmd : lnorm_cmd_t }.

Definition lnorm_bus (p : lnorm_port) (cmd : option lnorm_cmd_t) : lnorm_cmd_t :=
  if lnorm_cmd_ready (u_lnorm p) then default (port_cmd p) cmd else port_cmd p.

Definition lnorm_port_step (p : lnorm_port) (cmd : option lnorm_cmd_t) (act : rd_answer) (out_wr_gnt : bool) : lnorm_port :=
  mk_lnorm_port (lnorm_step (u_lnorm p) (lnorm_bus p cmd) (bool_decide (is_Some cmd)) act out_wr_gnt) (lnorm_bus p cmd).

#[export] Instance lnorm_backend : Backend lnorm_port lnorm_cmd_t := {|
  bk_step p cmd act _ _ out_wr_gnt := lnorm_port_step p cmd act out_wr_gnt;
  bk_request p := lnorm_request (u_lnorm p); bk_ready p := lnorm_cmd_ready (u_lnorm p);
  bk_busy p := lnorm_busy (u_lnorm p); bk_done p := lnorm_done (u_lnorm p);
  bk_reset := mk_lnorm_port lnorm_reset (mk_lnorm_cmd 0 0 0 0 0) |}.

(** ** The stages of a command *)

(** Counters that do not overflow, a shift of five bits; without a row or an
    element a command does not end ([lnorm_endless]). *)
Definition lnorm_cmd_ok (c : lnorm_cmd_t) : Prop :=
  (fits 16 (l_in_addr c) /\ fits 16 (l_out_addr c)) /\ 1 <= l_num_rows c <= 65535 /\ 1 <= l_row_len c <= 65535 /\
  0 <= l_norm_shift c < 32.

(** The three passes over a row. *)
Inductive lnorm_pass := PSum | PVar | PNorm.

Section command.
Context (c : lnorm_cmd_t).

Abbreviation rows := (Z.to_nat (l_num_rows c)).
Abbreviation cols := (Z.to_nat (l_row_len c)).

Definition lnorm_row_at (r : nat) : lnorm_row :=
  mk_lnorm_row (Z.of_nat r) (row_addr (l_in_addr c) (l_row_len c) r) (row_addr (l_out_addr c) (l_row_len c) r).

Inductive lnorm_stage :=
| LnLoading
| LnRead (w : lnorm_pass) (r i : nat) | LnWait (w : lnorm_pass) (r i : nat)
| LnDiv (w : lnorm_pass) (r i k : nat) | LnSqrt (r k : nat) | LnWrite (r i : nat)
| LnFinished.

#[local] Instance lnorm_stage_eq : EqDecision lnorm_stage.
Proof. intros x y. assert (EqDecision lnorm_pass) by solve_decision. solve_decision. Defined.

Definition ln_within (st : lnorm_stage) : Prop :=
  match st with
  | LnRead _ r i | LnWait _ r i | LnWrite r i => (r < rows)%nat /\ (i < cols)%nat
  | LnDiv w r i k => (r < rows)%nat /\ (i < cols)%nat /\ (k < 32)%nat /\ match w with PNorm => True | _ => i = 0%nat end
  | LnSqrt r k => (r < rows)%nat /\ (k < 16)%nat
  | _ => True
  end.

Definition ln_in_state (st : lnorm_stage) : lnorm_state :=
  match st with
  | LnLoading => LN_LOAD_CFG
  | LnRead PSum _ _ => LN_SUM_RD | LnRead PVar _ _ => LN_VAR_RD | LnRead PNorm _ _ => LN_NORM_RD
  | LnWait PSum _ _ => LN_SUM_WAIT | LnWait PVar _ _ => LN_VAR_WAIT | LnWait PNorm _ _ => LN_NORM_WAIT
  | LnDiv PSum _ _ _ => LN_MEAN_DIV | LnDiv PVar _ _ _ => LN_VAR_DIV | LnDiv PNorm _ _ _ => LN_NORM_DIV
  | LnSqrt _ _ => LN_SQRT | LnWrite _ _ => LN_NORM_WR | LnFinished => LN_DONE
  end.

Definition ln_regs (st : lnorm_stage) (s : lnorm_port * router) : Prop :=
  let p := u_lnorm s.1 in
  match st with
  | LnRead _ r i | LnWrite r i => ln_row p = lnorm_row_at r /\ idx_r p = Z.of_nat i
  | LnWait _ r i => ln_row p = lnorm_row_at r /\ idx_r p = Z.of_nat i /\ be_rd_r (act_port_b s.2) = true
  | LnDiv _ r i k => ln_row p = lnorm_row_at r /\ idx_r p = Z.of_nat i /\ ln_cnt_r (ln_div p) = 31 - Z.of_nat k
  | LnSqrt r k => ln_row p = lnorm_row_at r /\ idx_r p = 0 /\ sqrt_cnt_r (ln_sqrt p) = 15 - Z.of_nat k
  | _ => True
  end.

Definition ln_in_stage (st : lnorm_stage) (s : lnorm_port * router) : Prop :=
  ln_cfg (u_lnorm s.1) = lnorm_cfg_of c /\ port_cmd s.1 = c /\ no_bias s /\ ln_state (u_lnorm s.1) = ln_in_state st /\
  ln_within st /\ ln_regs st s.

(** After the last element of a pass, after a division, after a row. *)
Definition ln_passed (w : lnorm_pass) (r i : nat) : lnorm_stage :=
  match w with
  | PNorm => LnDiv PNorm r i 0
  | _ => if decide (S i = cols) then LnDiv w r 0 0 else LnRead w r (S i)
  end.

Definition ln_divided (w : lnorm_pass) (r i : nat) : lnorm_stage :=
  match w with PSum => LnRead PVar r 0 | PVar => LnSqrt r 0 | PNorm => LnWrite r i end.

Definition ln_row_done (r : nat) : lnorm_stage := if decide (S r = rows) then LnFinished else LnRead PSum (S r) 0.

Definition ln_next_stage (st : lnorm_stage) : lnorm_stage :=
  match st with
  | LnLoading => LnRead PSum 0 0
  | LnRead w r i => LnWait w r i
  | LnWait w r i => ln_passed w r i
  | LnDiv w r i k => if decide (k = 31%nat) then ln_divided w r i else LnDiv w r i (S k)
  | LnSqrt r k => if decide (k = 15%nat) then LnRead PNorm r 0 else LnSqrt r (S k)
  | LnWrite r i => if decide (S i = cols) then ln_row_done r else LnRead PNorm r (S i)
  | LnFinished => LnFinished
  end.

Lemma lnorm_accepts s b :
  ln_state (u_lnorm s.1) = LN_IDLE -> no_bias s -> ln_in_stage LnLoading (side_step s (Some c) b).
Proof using Type.
  destruct s as [[[]] []]. unfold no_bias. cbn. intros Hs Hb. subst.
  split_and!; cbn; unfold lnorm_latch, lnorm_bus, lnorm_cmd_ready; cbn; done.
Qed.

(** ** How long a command takes *)

Definition ln_row_clocks : nat := 39 * cols + 80.
Definition lnorm_clocks : nat := S (rows * ln_row_clocks).

Definition ln_rows_left (r : nat) : nat := (rows - r) * ln_row_clocks.

(** From a stage to the end. *)
Definition ln_left (st : lnorm_stage) : nat :=
  match st with
  | LnLoading => lnorm_clocks
  | LnRead PSum r i => 2 * (cols - i) + 37 * cols + 80 + ln_rows_left (S r)
  | LnWait PSum r i => 2 * (cols - S i) + 1 + 37 * cols + 80 + ln_rows_left (S r)
  | LnDiv PSum r _ k => (32 - k) + 37 * cols + 48 + ln_rows_left (S r)
  | LnRead PVar r i => 2 * (cols - i) + 35 * cols + 48 + ln_rows_left (S r)
  | LnWait PVar r i => 2 * (cols - S i) + 1 + 35 * cols + 48 + ln_rows_left (S r)
  | LnDiv PVar r _ k => (32 - k) + 35 * cols + 16 + ln_rows_left (S r)
  | LnSqrt r k => (16 - k) + 35 * cols + ln_rows_left (S r)
  | LnRead PNorm r i => 35 * (cols - i) + ln_rows_left (S r)
  | LnWait PNorm r i => 34 + 35 * (cols - S i) + ln_rows_left (S r)
  | LnDiv PNorm r i k => (33 - k) + 35 * (cols - S i) + ln_rows_left (S r)
  | LnWrite r i => 1 + 35 * (cols - S i) + ln_rows_left (S r)
  | LnFinished => 0
  end.

Hypothesis Hok : lnorm_cmd_ok c.

Lemma ln_sizes : (1 <= rows)%nat /\ (1 <= cols)%nat.
Proof using Hok. destruct Hok as (_ & HM & HN & _). lia. Qed.

Lemma ln_rows_left_S r : (r < rows)%nat -> ln_rows_left r = (39 * cols + 80 + ln_rows_left (S r))%nat.
Proof using Type. intros Hr. unfold ln_rows_left. replace (rows - r)%nat with (S (rows - S r)) by lia. unfold ln_row_clocks. lia. Qed.

Lemma ln_left_next st :
  ln_within st -> ln_within (ln_next_stage st) /\ ln_left (ln_next_stage st) = (ln_left st - 1)%nat.
Proof using Hok.
  pose proof ln_sizes. intros Hw. split; revert Hw; destruct st as [|w r i|w r i|w r i k|r k|r i|]; try (destruct w);
    cbn [ln_within ln_next_stage ln_left]; intros Hw; unfold ln_row_done, ln_passed, ln_divided; repeat case_decide;
    cbn [ln_within ln_left]; try lia.
  - unfold lnorm_clocks. pose proof (ln_rows_left_S 0 ltac:(lia)) as Hr. unfold ln_rows_left in *. rewrite Nat.sub_0_r in Hr. lia.
  - replace (S r) with rows in * by lia. unfold ln_rows_left. lia.
  - rewrite (ln_rows_left_S (S r)) by lia. lia.
Qed.

Lemma ln_left_pos st : ln_within st -> st <> LnFinished -> (1 <= ln_left st)%nat.
Proof using Type.
  destruct st as [|w r i|w r i|w r i k|r k|r i|]; try (destruct w); cbn [ln_within ln_left]; intros Hw Hst; try lia; [|done].
  unfold lnorm_clocks. lia.
Qed.

Abbreviation lnorm_at := (stage_at ln_next_stage LnLoading).

Lemma lnorm_at_finished T : (T <= lnorm_clocks)%nat -> lnorm_at T = LnFinished <-> T = lnorm_clocks.
Proof using Hok. apply (countdown_finished ln_next_stage LnLoading LnFinished ln_within ln_left); [done|exact ln_left_next|exact ln_left_pos|done]. Qed.

(** ** The stages follow each other *)

(** The command stays latched and on the port, and no bias is read. *)
Lemma ln_latched s cmd b :
  ln_cfg (u_lnorm s.1) = lnorm_cfg_of c -> port_cmd s.1 = c -> ln_state (u_lnorm s.1) <> LN_IDLE -> no_bias s ->
  let s' := side_step s cmd b in
  ln_cfg (u_lnorm s'.1) = lnorm_cfg_of c /\ port_cmd s'.1 = c /\ no_bias s' /\ lnorm_bus s.1 cmd = c.
Proof using Type.
  intros Hg Hp Hst Hb. cbv zeta. cbn. unfold lnorm_latch, lnorm_bus, lnorm_cmd_ready.
  rewrite bool_decide_eq_false_2 by done. split_and!; try done. by apply router_no_pending.
Qed.

Lemma ln_last s i : ln_cfg (u_lnorm s) = lnorm_cfg_of c -> idx_r (u_lnorm s) = Z.of_nat i -> (i < cols)%nat ->
  last_idx_w (u_lnorm s) = bool_decide (S i = cols).
Proof using Hok.
  intros Hg Hidx Hi. destruct Hok as (_ & _ & HN & _). unfold last_idx_w. rewrite Hg, Hidx. by apply last_index.
Qed.

Lemma ln_row_kept s cmd b :
  ln_state (u_lnorm s.1) <> LN_LOAD_CFG -> ln_state (u_lnorm s.1) <> LN_NORM_WR ->
  ln_row (u_lnorm (side_step s cmd b).1) = ln_row (u_lnorm s.1).
Proof using Type.
  intros H1 H2. cbn. unfold lnorm_row_step, ln_next_row. by rewrite !bool_decide_eq_false_2.
Qed.

Lemma ln_loading_step s cmd b : ln_in_stage LnLoading s -> ln_in_stage (LnRead PSum 0 0) (side_step s cmd b).
Proof using Hok.
  intros (Hg & Hp & Hb & Hs & _). cbn [ln_in_state] in Hs.
  destruct (ln_latched s cmd b Hg Hp ltac:(by rewrite Hs) Hb) as (Hg' & Hp' & Hb' & Hbus).
  destruct Hok as ((Hia & Hoa) & _). pose proof ln_sizes. split_and!; try done; cbn [ln_within ln_regs]; split_and?; try lia; cbn.
  - unfold lnorm_next. by rewrite Hs.
  - unfold lnorm_row_step. rewrite Hs, Hbus, bool_decide_eq_true_2 by done. unfold lnorm_row_at. by rewrite !row_addr_0.
  - unfold idx_step. by rewrite Hs.
Qed.

Lemma ln_read_step w r i s cmd b : ln_in_stage (LnRead w r i) s -> ln_in_stage (LnWait w r i) (side_step s cmd b).
Proof using Type.
  intros (Hg & Hp & Hb & Hs & Hw & Hrow & Hidx).
  destruct (ln_latched s cmd b Hg Hp ltac:(by rewrite Hs; destruct w) Hb) as (Hg' & Hp' & Hb' & _).
  split_and!; try done; cbn [ln_regs]; split_and?.
  - cbn. unfold lnorm_next. rewrite Hs. cbn. rewrite Hs. by destruct w.
  - rewrite ln_row_kept; [done|rewrite Hs; by destruct w..].
  - cbn. unfold idx_step. rewrite Hs. by destruct w.
  - cbn. rewrite Hs. by destruct w.
Qed.

Lemma ln_wait_step w r i s cmd b : ln_in_stage (LnWait w r i) s -> ln_in_stage (ln_passed w r i) (side_step s cmd b).
Proof using Hok.
  intros (Hg & Hp & Hb & Hs & [Hr Hi] & Hrow & Hidx & Hrd). cbn [ln_within] in *. pose proof ln_sizes.
  destruct (ln_latched s cmd b Hg Hp ltac:(by rewrite Hs; destruct w) Hb) as (Hg' & Hp' & Hb' & _).
  assert (Hrow' : ln_row (u_lnorm (side_step s cmd b).1) = lnorm_row_at r) by (rewrite ln_row_kept; [done|rewrite Hs; by destruct w..]).
  pose proof (ln_last s.1 i Hg Hidx Hi) as Hlast. destruct Hok as (_ & _ & HN & _).
  destruct w; cbn [ln_in_state ln_passed] in *; [destruct (decide (S i = cols)) as [He|He]..|].
  all: first [rewrite bool_decide_eq_true_2 in Hlast by done|rewrite bool_decide_eq_false_2 in Hlast by done|idtac].
  all: split_and!; try done; cbn [ln_within ln_regs]; split_and?; try (done || lia); cbn.
  all: unfold lnorm_next, idx_step, lnorm_div_step; rewrite Hs; cbn; rewrite ?Hrd, ?Hlast, ?Hidx; try done.
  all: apply (count_up (l_row_len c)); lia.
Qed.

Lemma ln_cnt_clock d k : ln_cnt_r d = 31 - Z.of_nat k -> (k < 31)%nat -> ln_cnt_r (ln_div_clock d) = 31 - Z.of_nat (S k).
Proof using Type.
  intros Hc Hk. unfold ln_div_clock. destruct (div_next _ _ _). cbn [ln_cnt_r]. rewrite Hc, wrap_small; [lia|].
  unfold fits. change (2 ^ 5) with 32. lia.
Qed.

Lemma ln_div_stage_step w r i k s cmd b :
  ln_in_stage (LnDiv w r i k) s -> ln_in_stage (ln_next_stage (LnDiv w r i k)) (side_step s cmd b).
Proof using Hok.
  intros (Hg & Hp & Hb & Hs & (Hr & Hi & Hk & Hw) & Hrow & Hidx & Hcnt). pose proof ln_sizes.
  destruct (ln_latched s cmd b Hg Hp ltac:(by rewrite Hs; destruct w) Hb) as (Hg' & Hp' & Hb' & _).
  assert (Hrow' : ln_row (u_lnorm (side_step s cmd b).1) = lnorm_row_at r) by (rewrite ln_row_kept; [done|rewrite Hs; by destruct w..]).
  assert (Hidx' : idx_r (u_lnorm (side_step s cmd b).1) = Z.of_nat i) by (cbn; unfold idx_step; rewrite Hs; by destruct w).
  assert (Hz : (ln_cnt_r (ln_div (u_lnorm s.1)) =? 0) = bool_decide (k = 31%nat)) by (rewrite Hcnt; apply eqb_decide; lia).
  cbn [ln_next_stage]. destruct (decide (k = 31%nat)) as [->|Hne].
  - rewrite bool_decide_eq_true_2 in Hz by done. unfold ln_divided.
    destruct w; cbn [ln_in_state] in *; split_and!; try done; cbn [ln_within ln_regs]; split_and?; try (done || lia).
    all: cbn; unfold lnorm_next, lnorm_sqrt_step; rewrite Hs, Hz; done.
  - rewrite bool_decide_eq_false_2 in Hz by done. split_and!; try done; cbn [ln_within ln_regs]; split_and?; try (done || lia).
    + cbn. unfold lnorm_next. rewrite Hs. destruct w; cbn [ln_in_state]; by rewrite Hz.
    + cbn. unfold lnorm_div_step. rewrite Hs. destruct w; cbn [ln_in_state]; apply ln_cnt_clock; (done || lia).
Qed.

Lemma ln_sqrt_stage_step r k s cmd b :
  ln_in_stage (LnSqrt r k) s -> ln_in_stage (ln_next_stage (LnSqrt r k)) (side_step s cmd b).
Proof using Hok.
  intros (Hg & Hp & Hb & Hs & (Hr & Hk) & Hrow & Hidx & Hcnt). pose proof ln_sizes. cbn [ln_in_state] in Hs.
  destruct (ln_latched s cmd b Hg Hp ltac:(by rewrite Hs) Hb) as (Hg' & Hp' & Hb' & _).
  assert (Hrow' : ln_row (u_lnorm (side_step s cmd b).1) = lnorm_row_at r) by (rewrite ln_row_kept; [done|by rewrite Hs..]).
  assert (Hidx' : idx_r (u_lnorm (side_step s cmd b).1) = 0) by (cbn; unfold idx_step; by rewrite Hs).
  assert (Hst : ln_state (u_lnorm (side_step s cmd b).1) = if decide (k = 15%nat) then LN_NORM_RD else LN_SQRT).
  { cbn. unfold lnorm_next. rewrite Hs, Hcnt, (eqb_decide _ 0 (k = 15%nat)) by lia. by repeat case_decide; case_bool_decide. }
  cbn [ln_next_stage]. destruct (decide (k = 15%nat)) as [->|Hne].
  - split_and!; try done; cbn [ln_within ln_regs]; split_and?; (done || lia).
  - split_and!; try done; cbn [ln_within ln_regs]; split_and?; try (done || lia). cbn. unfold lnorm_sqrt_step.
    rewrite Hs, bool_decide_eq_false_2, bool_decide_eq_true_2 by done. cbn [andb]. unfold sqrt_clock.
    destruct (sqrt_next _). cbn [sqrt_cnt_r]. rewrite Hcnt, wrap_small; [lia|].
    unfold fits. change (2 ^ 5) with 32. lia.
Qed.

Lemma ln_write_step r i s cmd b :
  ln_in_stage (LnWrite r i) s -> ln_in_stage (ln_next_stage (LnWrite r i)) (side_step s cmd b).
Proof using Hok.
  intros (Hg & Hp & Hb & Hs & [Hr Hi] & Hrow & Hidx). cbn [ln_in_state] in Hs. pose proof ln_sizes.
  destruct (ln_latched s cmd b Hg Hp ltac:(by rewrite Hs) Hb) as (Hg' & Hp' & Hb' & _).
  pose proof (ln_last s.1 i Hg Hidx Hi) as Hlast. destruct Hok as (_ & HM & HN & _).
  assert (Hgnt : be_act_wr_gnt (lnorm_request (u_lnorm s.1)) = true) by (unfold be_act_wr_gnt, lnorm_request; by rewrite Hs).
  assert (Hlr : (ln_row_r (ln_row (u_lnorm s.1)) =? u32 (l_num_rows c - 1)) = bool_decide (S r = rows)) by (rewrite Hrow; by apply last_index).
  assert (Hnr : ln_next_row (u_lnorm s.1) true = bool_decide (S i = cols) && bool_decide (S r <> rows)).
  { unfold ln_next_row. rewrite Hs, Hg, Hlast, Hrow. cbn [ln_row_r lnorm_row_at ln_num_rows_r lnorm_cfg_of andb].
    rewrite not_last_index by done. by rewrite bool_decide_eq_true_2. }
  assert (Hidx' : idx_r (u_lnorm (side_step s cmd b).1) = if decide (S i = cols) then 0 else Z.of_nat (S i)).
  { cbn -[be_act_wr_gnt]. unfold idx_step. rewrite Hs, Hgnt, Hlast, Hidx. destruct (decide (S i = cols)); [by rewrite bool_decide_eq_true_2|].
    rewrite bool_decide_eq_false_2 by done. apply (count_up (l_row_len c)); lia. }
  assert (Hst : ln_state (u_lnorm (side_step s cmd b).1) =
    if decide (S i = cols) then if decide (S r = rows) then LN_DONE else LN_SUM_RD else LN_NORM_RD).
  { cbn -[be_act_wr_gnt]. unfold lnorm_next. rewrite Hs, Hgnt, Hlast, Hg. cbn [ln_num_rows_r lnorm_cfg_of]. rewrite Hlr.
    by repeat case_decide; repeat case_bool_decide. }
  assert (Hrow' : ln_row (u_lnorm (side_step s cmd b).1) =
    if decide (S i = cols) then if decide (S r = rows) then lnorm_row_at r else lnorm_row_at (S r) else lnorm_row_at r).
  { cbn -[be_act_wr_gnt]. unfold lnorm_row_step. rewrite Hgnt, Hnr, Hs, Hrow, Hg, (bool_decide_eq_false_2 (LN_NORM_WR = _)) by done.
    cbn [lnorm_row_at ln_row_r in_row_base_r out_row_base_r ln_row_len_r lnorm_cfg_of].
    rewrite !row_addr_S, (count_up (l_num_rows c)) by lia. repeat case_decide; repeat case_bool_decide; done. }
  cbn [ln_next_stage]. unfold ln_row_done. destruct (decide (S i = cols)); [destruct (decide (S r = rows))|];
    split_and!; try done; cbn [ln_within ln_regs]; split_and?; (done || lia).
Qed.

Lemma lnorm_stage_step st s cmd b : st <> LnFinished -> ln_in_stage st s -> ln_in_stage (ln_next_stage st) (side_step s cmd b).
Proof using Hok.
  intros Hst Hs. destruct st; [by apply ln_loading_step|by apply ln_read_step|by apply ln_wait_step|by apply ln_div_stage_step|
    by apply ln_sqrt_stage_step|by apply ln_write_step|done].
Qed.

Lemma lnorm_stage_view T s :
  (T <= lnorm_clocks)%nat -> ln_in_stage (lnorm_at T) s ->
  lnorm_busy (u_lnorm s.1) = true /\ lnorm_done (u_lnorm s.1) = bool_decide (T = lnorm_clocks).
Proof using Hok.
  intros HT (_ & _ & _ & Hs & _). rewrite <- (bool_decide_ext _ _ (lnorm_at_finished T HT)). unfold lnorm_busy, lnorm_done.
  rewrite Hs. by destruct (lnorm_at T) as [|[]|[]|[]| | |].
Qed.

Lemma lnorm_finishes s cmd b :
  ln_in_stage LnFinished s -> ln_state (u_lnorm (side_step s cmd b).1) = LN_IDLE /\ no_bias (side_step s cmd b).
Proof using Type. intros (_ & _ & Hb & Hs & _). split; [cbn; unfold lnorm_next; by rewrite Hs|by apply router_no_pending]. Qed.
End command.

(** ** The contract of a backend *)

#[export, program] Instance lnorm_backend_laws : BackendLaws lnorm_backend := {|
  bk_cycles := lnorm_clocks;
  bk_runnable := lnorm_cmd_ok;
  bk_rest p := ln_state (u_lnorm p) = LN_IDLE;
  bk_runs c m s := lnorm_cmd_ok c /\ staged_runs (ln_next_stage c) LnLoading (lnorm_clocks c) (ln_in_stage c) m s |}.
Next Obligation.
  intros p Hp. cbn. unfold lnorm_busy, lnorm_done, lnorm_cmd_ready, asks_nothing, lnorm_request. cbn. by rewrite Hp.
Qed.
Next Obligation.
  intros p cmd a w i g a' w' i' g' Hp. cbn. unfold lnorm_port_step, lnorm_step, lnorm_next, lnorm_row_step, ln_next_row, idx_step,
    lnorm_acc_step, ln_next_row, lnorm_div_step, lnorm_sqrt_step. by rewrite Hp.
Qed.
Next Obligation. intros p a w i g Hp. cbn. unfold lnorm_next. by rewrite Hp. Qed.
Next Obligation. by intros c m s [_ [_ (_ & _ & Hb & _)]]. Qed.
Next Obligation. intros c s b Hs Hb Hc. split; [done|]. by apply staged_start, lnorm_accepts. Qed.
Next Obligation.
  intros c m s [Hc Hm]. refine (staged_view _ _ _ _ _ m s Hm). intros T s' HT. by apply lnorm_stage_view.
Qed.
Next Obligation.
  intros c m s cmd b [Hc Hm]. destruct m as [|m].
  - apply (lnorm_finishes c). refine (staged_last _ _ _ _ _ _ s Hm). by apply (lnorm_at_finished c Hc).
  - split; [done|]. refine (staged_step _ _ _ _ _ m s cmd b Hm). intros T s' cmd' b' HT Hs'. rewrite stage_at_S.
    apply lnorm_stage_step; [done| |done]. intros E. apply (lnorm_at_finished c Hc) in E; lia.
Qed.
Next Obligation. done. Qed.

(** ** Commands without an output *)

(** With no rows no row is the last one, with no elements no element is. *)
Definition lnorm_empty (c : lnorm_cmd_t) : Prop := l_num_rows c = 0 \/ l_row_len c = 0.

Definition lnorm_lost (c : lnorm_cmd_t) (p : lnorm_ctrl) : Prop :=
  ln_cfg p = lnorm_cfg_of c /\ ln_state p <> LN_IDLE /\ ln_state p <> LN_DONE /\
  (ln_state p = LN_LOAD_CFG \/ fits 16 (ln_row_r (ln_row p)) /\ fits 16 (idx_r p)).

Lemma lnorm_lost_step c p cmd a w i g :
  lnorm_empty c -> lnorm_lost c (u_lnorm p) -> lnorm_lost c (u_lnorm (bk_step p cmd a w i g)).
Proof.
  intros He (Hc & Hi & Hd & Hf). unfold lnorm_lost. cbn. split_and!.
  - unfold lnorm_latch. by rewrite bool_decide_eq_false_2.
  - unfold lnorm_next. destruct (ln_state (u_lnorm p)); repeat case_match; done.
  - unfold lnorm_next, last_idx_w. rewrite Hc. cbn [ln_num_rows_r ln_row_len_r lnorm_cfg_of].
    destruct (ln_state (u_lnorm p)) eqn:Hs; repeat case_match; try done.
    destruct Hf as [Hf|[Hrow Hidx]]; [done|]. destruct He as [E|E]; rewrite E, never_last in * by done; done.
  - right. destruct Hf as [Hf|[Hrow Hidx]].
    + unfold lnorm_row_step, idx_step. rewrite Hf, bool_decide_eq_true_2 by done. by split; apply fits_0.
    + unfold lnorm_row_step, idx_step. split; repeat case_match; cbn; first [done|by apply fits_wrap|by apply fits_0].
Qed.

Lemma lnorm_endless c w host ins :
  lnorm_empty c -> ln_state (u_lnorm w.1.1) = LN_IDLE ->
  lnorm_lost c (u_lnorm (bk_run (world_step w (Some c) host) ins).1.1).
Proof.
  intros He Hs. induction ins as [|x ins IH] using rev_ind.
  - unfold lnorm_lost. cbn. unfold lnorm_next, lnorm_latch, lnorm_bus, lnorm_cmd_ready. rewrite Hs. cbn.
    by split_and!; [..|left].
  - rewrite bk_run_snoc. by apply lnorm_lost_step.
Qed.
