(* ===== verification/LnormData.v ===== *)
(** * The layer normalisation backend: data

    What the stages of [LnormBackend] leave in the memories: the sum and mean of
    a row, its variance and standard deviation, the quotients written. Then that
    a command computes what the testbench's [ref_lnorm] says. *)

From S2P Require Import Prelude Regs Command Decode CArith SerialDiv Golden GoldenRows Mem BackendMem Backend RowBlocks LnormBackend.
From stdpp Require Import gmap.

Open Scope Z_scope.

Abbreviation lnorm_world := (lnorm_port * router * buffers)%type.

Lemma i32_add x y : i32 (i32 x + y) = i32 (x + y).
Proof.
  unfold i32. f_equal. replace ((x + 2 ^ 31) mod 2 ^ 32 - 2 ^ 31 + y + 2 ^ 31) with ((x + 2 ^ 31) mod 2 ^ 32 + y) by lia.
  rewrite Zplus_mod_idemp_l. f_equal. lia.
Qed.

(** ** The serial units, by what they have computed *)

(** [k] clocks into the division of [N] by [D]. *)
Definition dividing (d : lnorm_div) (N D : Z) (k : nat) : Prop :=
  (ln_quot_r d, ln_rem_r d) = serial N D k /\ ln_denom_r d = D.

Lemma dividing_clock d N D k :
  dividing d N D k ->
  dividing (ln_div_clock d) N D (S k) /\ ln_sign_r (ln_div_clock d) = ln_sign_r d /\
  norm_sign_r (ln_div_clock d) = norm_sign_r d /\ quot_next d = (serial N D (S k)).1.
Proof.
  intros [Hs Hd]. unfold dividing, ln_div_clock, quot_next. rewrite serial_S, <- Hs, Hd. by destruct (div_next _ _ _).
Qed.

(** [k] clocks into the square root of [n]. *)
Definition rooting (n : Z) (k : nat) : lnorm_sqrt := Nat.iter k sqrt_clock (sqrt_load n).

Lemma rooting_S n k : rooting n (S k) = sqrt_clock (rooting n k).
Proof. done. Qed.

Lemma rooting_next n k : (sqrt_next (rooting n k)).2 = sqrt_result_r (rooting n (S k)).
Proof. rewrite rooting_S. unfold sqrt_clock. by destruct (sqrt_next _). Qed.

#[local] Opaque serial rooting.

(** ** A command on the memories *)

Section command.
Context (c : lnorm_cmd_t).

Abbreviation len := (l_row_len c).
Abbreviation rows := (Z.to_nat (l_num_rows c)).
Abbreviation cols := (Z.to_nat (l_row_len c)).
Abbreviation in_cell := (row_in_cell (l_in_addr c) len).

Definition magnitude (x : Z) : Z := u32 (if x <? 0 then - x else x).

(** The sum of row [r] and its mean; the squares, their sum, the variance and
    the standard deviation. *)
Definition ln_sum (start : cells) (r : nat) (n : Z) : Z := i32 (Zsum n (row_elem (l_in_addr c) len start r)).

Definition ln_mean (start : cells) (r : nat) : Z :=
  let quot := (serial (magnitude (ln_sum start r len)) len 32).1 in i32 (if ln_sum start r len <? 0 then - quot else quot).

Definition ln_sq (start : cells) (r : nat) (j : Z) : Z := abs_diff_sq_w (ln_mean start r) (cell start (in_cell r (Z.to_nat j))).

Definition ln_var_sum (start : cells) (r : nat) (n : Z) : Z := u32 (Zsum n (ln_sq start r)).

Definition ln_var_numer (start : cells) (r : nat) : Z :=
  let wide := ln_var_sum start r (len - 1) + ln_sq start r (len - 1) in if wide ≫ 32 =? 0 then u32 wide else 0xFFFFFFFF.

Definition ln_variance (start : cells) (r : nat) : Z := (serial (ln_var_numer start r) len 32).1.

Definition ln_std (start : cells) (r : nat) : Z := std_of (sqrt_result_r (rooting (u32 (ln_variance start r + 1)) 16)).

(** The dividend of an element, and the byte. *)
Definition ln_scaled (start : cells) (r : nat) (x : Z) : Z := scaled_abs_w (ln_mean start r) (l_norm_shift c) x.

Definition ln_neg (start : cells) (r : nat) (x : Z) : bool := diff_w (ln_mean start r) x <? 0.

Definition ln_result (neg : bool) (quot : Z) : Z := lnorm_result (mk_lnorm_div quot 0 0 0 false neg).

Definition ln_byte (start : cells) (r : nat) (x : Z) : Z :=
  wrap DATA_W (ln_result (ln_neg start r x) (serial (ln_scaled start r x) (ln_std start r) 32).1).

Lemma ln_byte_eq A r x : ln_byte A r x = wrap DATA_W (ln_result (ln_neg A r x) (serial (ln_scaled A r x) (ln_std A r) 32).1).
Proof using Type. done. Qed.

Context (m0 : sram).

Abbreviation start r := (rows_written (l_in_addr c) (l_out_addr c) len ln_byte (act_mem m0) r).
Abbreviation buffer r i := (row_written (l_in_addr c) (l_out_addr c) len ln_byte (start r) r i).
Abbreviation memory act := (mk_sram (wt_mem m0) act (psum_mem m0)).

(** The buffers when a command is done. *)
Definition lnorm_memory : sram := memory (start rows).

(** In the division of an element. *)
Definition ln_normalising (r i k : nat) (p : lnorm_ctrl) : Prop :=
  let x := cell (buffer r i) (in_cell r i) in
  dividing (ln_div p) (ln_scaled (start r) r x) (ln_std (start r) r) k /\ norm_sign_r (ln_div p) = ln_neg (start r) r x.

Definition ln_stage_data (st : lnorm_stage) (w : lnorm_world) : Prop :=
  let p := u_lnorm w.1.1 in
  let a := ln_acc p in
  let rdata := b_rdata (act_port_b w.1.2) in
  match st with
  | LnLoading => contents w.2 = m0
  | LnRead PSum r i | LnWait PSum r i =>
      contents w.2 = memory (start r) /\ ln_sum_r a = ln_sum (start r) r (Z.of_nat i) /\ var_sum_r a = 0
  | LnDiv PSum r _ k =>
      contents w.2 = memory (start r) /\ var_sum_r a = 0 /\
      dividing (ln_div p) (magnitude (ln_sum (start r) r len)) len k /\ ln_sign_r (ln_div p) = (ln_sum (start r) r len <? 0)
  | LnRead PVar r i | LnWait PVar r i =>
      contents w.2 = memory (start r) /\ mean_r a = ln_mean (start r) r /\ var_sum_r a = ln_var_sum (start r) r (Z.of_nat i)
  | LnDiv PVar r _ k =>
      contents w.2 = memory (start r) /\ mean_r a = ln_mean (start r) r /\ dividing (ln_div p) (ln_var_numer (start r) r) len k
  | LnSqrt r k =>
      contents w.2 = memory (start r) /\ mean_r a = ln_mean (start r) r /\
      ln_sqrt p = rooting (u32 (ln_variance (start r) r + 1)) k
  | LnRead PNorm r i | LnWait PNorm r i =>
      contents w.2 = memory (buffer r i) /\ mean_r a = ln_mean (start r) r /\ std_r a = ln_std (start r) r
  | LnDiv PNorm r i k =>
      contents w.2 = memory (buffer r i) /\ mean_r a = ln_mean (start r) r /\ std_r a = ln_std (start r) r /\ ln_normalising r i k p
  | LnWrite r i =>
      contents w.2 = memory (buffer r i) /\ mean_r a = ln_mean (start r) r /\ std_r a = ln_std (start r) r /\ ln_normalising r i 32 p
  | LnFinished => contents w.2 = lnorm_memory
  end.

(** A byte arrives. *)
Definition ln_arrives (st : lnorm_stage) (w : lnorm_world) : Prop :=
  match st with
  | LnWait v r i => b_rdata (act_port_b w.1.2) = cell (act_mem (contents w.2)) (in_cell r i)
  | _ => True
  end.

Definition ln_world_in (st : lnorm_stage) (w : lnorm_world) : Prop :=
  ln_in_stage c st w.1 /\ ln_stage_data st w /\ ln_arrives st w.

Hypothesis Hok : lnorm_cmd_ok c.

(** Only the last stage of an element writes. *)
Lemma ln_quiet st w cmd host :
  no_write host -> (forall r i, st <> LnWrite r i) -> ln_in_stage c st w.1 ->
  contents (world_step w cmd host).2 = contents w.2.
Proof using Type.
  intros Hh Hnw (_ & _ & _ & Hs & _). apply world_quiet; [done|]. cbn. rewrite Hs.
  destruct st as [|[]|[]|[]| | |]; try done. by destruct (Hnw r i).
Qed.

(** What the read port brings. *)
Lemma ln_read_arrives v r i w cmd host :
  no_write host -> ln_in_stage c (LnRead v r i) w.1 -> ln_arrives (LnWait v r i) (world_step w cmd host).
Proof using Type.
  intros Hh Hs. unfold ln_arrives. rewrite (ln_quiet (LnRead v r i)) by done.
  destruct Hs as (_ & _ & _ & Hs & _ & Hrow & Hidx). destruct w as [[p q] b]. cbn in *. unfold rport_step. cbn.
  rewrite Hs, Hrow, Hidx. by destruct v.
Qed.

(** The accumulators outside the two ends of a row. *)
Lemma ln_acc_kept w cmd host :
  ln_state (u_lnorm w.1.1) <> LN_LOAD_CFG -> (ln_state (u_lnorm w.1.1) = LN_NORM_WR -> ln_next_row (u_lnorm w.1.1) true = false) ->
  ln_acc (u_lnorm (world_step w cmd host).1.1) =
  let p := u_lnorm w.1.1 in
  let act := be_act_rd w.1.2 (lnorm_request p) in
  let a := ln_acc p in
  mk_lnorm_acc
    (if l_is (ln_state p) LN_SUM_WAIT && rd_rvalid act then i32 (ln_sum_r a + i8 (rd_rdata act)) else ln_sum_r a)
    (if l_is (ln_state p) LN_MEAN_DIV && (ln_cnt_r (ln_div p) =? 0)
     then i32 (if ln_sign_r (ln_div p) then - quot_next (ln_div p) else quot_next (ln_div p)) else mean_r a)
    (if l_is (ln_state p) LN_VAR_WAIT && rd_rvalid act then u32 (var_sum_r a + abs_diff_sq_w (mean_r a) (rd_rdata act)) else var_sum_r a)
    (if l_is (ln_state p) LN_SQRT && (sqrt_cnt_r (ln_sqrt p) =? 0) then std_of (sqrt_next (ln_sqrt p)).2 else std_r a).
Proof using Type.
  intros Hl Hn. destruct w as [[[p bus] q] b]. cbn -[be_act_wr_gnt be_act_rd] in *. unfold lnorm_acc_step.
  rewrite (bool_decide_eq_false_2 (ln_state p = LN_LOAD_CFG)) by done.
  assert (Hnr : ln_next_row p (be_act_wr_gnt (lnorm_request p)) = false).
  { destruct (decide (ln_state p = LN_NORM_WR)) as [E|E].
    - destruct (be_act_wr_gnt _); [by apply Hn|]. unfold ln_next_row. by rewrite andb_false_r.
    - unfold ln_next_row. by rewrite (bool_decide_eq_false_2 (ln_state p = LN_NORM_WR)). }
  by rewrite Hnr.
Qed.

Lemma ln_sum_S A r n : i32 (ln_sum A r (Z.of_nat n) + i8 (cell A (in_cell r n))) = ln_sum A r (Z.of_nat (S n)).
Proof using Type.
  unfold ln_sum. rewrite Nat2Z.inj_succ, <- Z.add_1_r, Zsum_succ, i32_add by lia. do 2 f_equal. unfold row_elem. by rewrite Nat2Z.id.
Qed.

Lemma ln_var_S A r n : u32 (ln_var_sum A r (Z.of_nat n) + ln_sq A r (Z.of_nat n)) = ln_var_sum A r (Z.of_nat (S n)).
Proof using Type.
  unfold ln_var_sum. rewrite Nat2Z.inj_succ, <- Z.add_1_r, Zsum_succ by lia. unfold wrap. by rewrite Zplus_mod_idemp_l.
Qed.

Lemma ln_world_read v r i w cmd host :
  no_write host -> ln_world_in (LnRead v r i) w -> ln_stage_data (LnWait v r i) (world_step w cmd host).
Proof using Type.
  intros Hh (Hs & Hd & _). pose proof (ln_quiet (LnRead v r i) w cmd host Hh ltac:(done) Hs) as Hq.
  pose proof Hs as (_ & _ & _ & Hst & _).
  assert (Ha : ln_acc (u_lnorm (world_step w cmd host).1.1) = ln_acc (u_lnorm w.1.1)).
  { rewrite ln_acc_kept by (rewrite Hst; by destruct v). cbv zeta. rewrite Hst. destruct v; cbn [ln_in_state];
      rewrite !bool_decide_eq_false_2 by done; cbn [andb]; by destruct (ln_acc _). }
  destruct v; cbn [ln_stage_data] in *; by rewrite Hq, Ha.
Qed.

(** An element of the sum. *)
Lemma ln_world_sum r i w cmd host :
  no_write host -> ln_world_in (LnWait PSum r i) w -> ln_stage_data (ln_passed c PSum r i) (world_step w cmd host).
Proof using Hok.
  intros Hh (Hs & (Hm & Hsum & Hvar) & Hx). pose proof (ln_quiet (LnWait PSum r i) w cmd host Hh ltac:(done) Hs) as Hq.
  pose proof Hs as (Hg & _ & _ & Hst & [Hr Hi] & Hrow & Hidx & Hrd). cbn [ln_in_state ln_arrives] in *. rewrite Hm in Hx. cbn [act_mem] in Hx.
  pose proof (ln_last c Hok w.1.1 i Hg Hidx Hi) as Hlast.
  assert (Ha : ln_acc (u_lnorm (world_step w cmd host).1.1) =
    mk_lnorm_acc (ln_sum (start r) r (Z.of_nat (S i))) (mean_r (ln_acc (u_lnorm w.1.1))) 0 (std_r (ln_acc (u_lnorm w.1.1)))).
  { rewrite ln_acc_kept by (by rewrite Hst). cbv zeta. rewrite Hst. cbn [rd_rvalid rd_rdata be_act_rd].
    rewrite bool_decide_eq_true_2, !bool_decide_eq_false_2, Hrd, Hx, Hsum, Hvar by done. cbn [andb]. by rewrite ln_sum_S. }
  unfold ln_passed. destruct (decide (S i = cols)) as [He|Hne]; cbn [ln_stage_data]; rewrite Hq, Ha; [|by split_and!].
  assert (Hfs : final_sum (ln_acc (u_lnorm w.1.1)) (cell (start r) (in_cell r i)) = ln_sum (start r) r len).
  { unfold final_sum. rewrite Hsum, ln_sum_S, He, Z2Nat.id; [done|destruct Hok; lia]. }
  assert (Hd : ln_div (u_lnorm (world_step w cmd host).1.1) = ln_div_load (magnitude (ln_sum (start r) r len)) len
    (ln_sum (start r) r len <? 0) (norm_sign_r (ln_div (u_lnorm w.1.1)))).
  { cbn. unfold lnorm_div_step. rewrite Hst, Hlast, bool_decide_eq_true_2 by done. cbn [rd_rvalid rd_rdata be_act_rd].
    rewrite Hrd, Hx, Hfs, Hg. done. }
  rewrite Hd. by split_and!.
Qed.

(** An element of the variance. *)
Lemma ln_world_var r i w cmd host :
  no_write host -> ln_world_in (LnWait PVar r i) w -> ln_stage_data (ln_passed c PVar r i) (world_step w cmd host).
Proof using Hok.
  intros Hh (Hs & (Hm & Hmean & Hvar) & Hx). pose proof (ln_quiet (LnWait PVar r i) w cmd host Hh ltac:(done) Hs) as Hq.
  pose proof Hs as (Hg & _ & _ & Hst & [Hr Hi] & Hrow & Hidx & Hrd). cbn [ln_in_state ln_arrives] in *. rewrite Hm in Hx. cbn [act_mem] in Hx.
  pose proof (ln_last c Hok w.1.1 i Hg Hidx Hi) as Hlast.
  assert (Hsq : abs_diff_sq_w (ln_mean (start r) r) (cell (start r) (in_cell r i)) = ln_sq (start r) r (Z.of_nat i)).
  { unfold ln_sq. by rewrite Nat2Z.id. }
  assert (Ha : ln_acc (u_lnorm (world_step w cmd host).1.1) =
    mk_lnorm_acc (ln_sum_r (ln_acc (u_lnorm w.1.1))) (ln_mean (start r) r) (ln_var_sum (start r) r (Z.of_nat (S i)))
      (std_r (ln_acc (u_lnorm w.1.1)))).
  { rewrite ln_acc_kept by (by rewrite Hst). cbv zeta. rewrite Hst. cbn [rd_rvalid rd_rdata be_act_rd].
    rewrite (bool_decide_eq_true_2 (LN_VAR_WAIT = LN_VAR_WAIT)), !bool_decide_eq_false_2, Hrd, Hx, Hmean, Hvar by done. cbn [andb].
    by rewrite Hsq, ln_var_S. }
  unfold ln_passed. destruct (decide (S i = cols)) as [He|Hne]; cbn [ln_stage_data]; rewrite Hq, Ha; [|by split_and!].
  assert (Hfv : final_var (ln_acc (u_lnorm w.1.1)) (cell (start r) (in_cell r i)) = ln_var_numer (start r) r).
  { unfold final_var, ln_var_numer. rewrite Hmean, Hsq, Hvar. by replace (len - 1) with (Z.of_nat i) by (destruct Hok; lia). }
  assert (Hd : ln_div (u_lnorm (world_step w cmd host).1.1) =
    ln_div_load (ln_var_numer (start r) r) len false (norm_sign_r (ln_div (u_lnorm w.1.1)))).
  { cbn. unfold lnorm_div_step. rewrite Hst, Hlast, bool_decide_eq_true_2 by done. cbn [rd_rvalid rd_rdata be_act_rd].
    rewrite Hrd, Hx, Hfv, Hg. done. }
  rewrite Hd. by split_and!.
Qed.

(** The divider and the mean, a clock into a division. *)
Lemma ln_world_div v r i k w cmd host N D :
  ln_in_stage c (LnDiv v r i k) w.1 -> dividing (ln_div (u_lnorm w.1.1)) N D k ->
  let p := u_lnorm (world_step w cmd host).1.1 in
  dividing (ln_div p) N D (S k) /\ ln_sign_r (ln_div p) = ln_sign_r (ln_div (u_lnorm w.1.1)) /\
  norm_sign_r (ln_div p) = norm_sign_r (ln_div (u_lnorm w.1.1)) /\ quot_next (ln_div (u_lnorm w.1.1)) = (serial N D (S k)).1.
Proof using Type.
  intros (_ & _ & _ & Hst & _) Hd.
  assert (Hstep : ln_div (u_lnorm (world_step w cmd host).1.1) = ln_div_clock (ln_div (u_lnorm w.1.1))).
  { cbn. unfold lnorm_div_step. rewrite Hst. by destruct v. }
  cbv zeta. rewrite Hstep. by apply dividing_clock.
Qed.

Lemma ln_world_mean r i k w cmd host :
  no_write host -> ln_world_in (LnDiv PSum r i k) w -> ln_stage_data (ln_next_stage c (LnDiv PSum r i k)) (world_step w cmd host).
Proof using Type.
  intros Hh (Hs & (Hm & Hvar & Hd & Hsign) & _). pose proof (ln_quiet (LnDiv PSum r i k) w cmd host Hh ltac:(done) Hs) as Hq.
  destruct (ln_world_div PSum r i k w cmd host _ _ Hs Hd) as (Hd' & Hsign' & _ & Hquot).
  destruct Hs as (Hg & _ & _ & Hst & (_ & _ & Hk & _) & _ & _ & Hcnt). cbn [ln_in_state] in Hst.
  assert (Hz : (ln_cnt_r (ln_div (u_lnorm w.1.1)) =? 0) = bool_decide (k = 31%nat)) by (rewrite Hcnt; apply eqb_decide; lia).
  assert (Ha : ln_acc (u_lnorm (world_step w cmd host).1.1) = mk_lnorm_acc (ln_sum_r (ln_acc (u_lnorm w.1.1)))
    (if decide (k = 31%nat) then ln_mean (start r) r else mean_r (ln_acc (u_lnorm w.1.1))) 0 (std_r (ln_acc (u_lnorm w.1.1)))).
  { rewrite ln_acc_kept by (by rewrite Hst). cbv zeta. rewrite Hst, Hz, Hvar, Hquot, Hsign.
    rewrite (bool_decide_eq_true_2 (LN_MEAN_DIV = LN_MEAN_DIV)), !bool_decide_eq_false_2 by done. cbn [andb].
    destruct (decide (k = 31%nat)) as [->|Hne]; [by rewrite bool_decide_eq_true_2|by rewrite bool_decide_eq_false_2]. }
  cbn [ln_next_stage]. destruct (decide (k = 31%nat)) as [->|Hne]; cbn [ln_divided ln_stage_data]; rewrite Hq, Ha; [by split_and!|].
  split_and!; [done|done|done|by rewrite Hsign'].
Qed.

Lemma ln_world_variance r i k w cmd host :
  no_write host -> ln_world_in (LnDiv PVar r i k) w -> ln_stage_data (ln_next_stage c (LnDiv PVar r i k)) (world_step w cmd host).
Proof using Type.
  intros Hh (Hs & (Hm & Hmean & Hd) & _). pose proof (ln_quiet (LnDiv PVar r i k) w cmd host Hh ltac:(done) Hs) as Hq.
  destruct (ln_world_div PVar r i k w cmd host _ _ Hs Hd) as (Hd' & _ & _ & Hquot).
  destruct Hs as (Hg & _ & _ & Hst & (_ & _ & Hk & _) & _ & _ & Hcnt). cbn [ln_in_state] in Hst.
  assert (Ha : ln_acc (u_lnorm (world_step w cmd host).1.1) = ln_acc (u_lnorm w.1.1)).
  { rewrite ln_acc_kept by (by rewrite Hst). cbv zeta. rewrite Hst, !bool_decide_eq_false_2 by done.
    cbn [andb]. by destruct (ln_acc _). }
  cbn [ln_next_stage]. destruct (decide (k = 31%nat)) as [->|Hne]; cbn [ln_divided ln_stage_data]; rewrite Hq, Ha; [|by split_and!].
  split_and!; [done|done|]. cbn. unfold lnorm_sqrt_step. rewrite Hst, Hcnt, Hquot, bool_decide_eq_true_2 by done. done.
Qed.

Lemma ln_world_sqrt r k w cmd host :
  no_write host -> ln_world_in (LnSqrt r k) w -> ln_stage_data (ln_next_stage c (LnSqrt r k)) (world_step w cmd host).
Proof using Type.
  intros Hh (Hs & (Hm & Hmean & Hroot) & _). pose proof (ln_quiet (LnSqrt r k) w cmd host Hh ltac:(done) Hs) as Hq.
  destruct Hs as (Hg & _ & _ & Hst & (_ & Hk) & _ & _ & Hcnt). cbn [ln_in_state] in Hst.
  assert (Hz : (sqrt_cnt_r (ln_sqrt (u_lnorm w.1.1)) =? 0) = bool_decide (k = 15%nat)) by (rewrite Hcnt; apply eqb_decide; lia).
  assert (Hmean' : mean_r (ln_acc (u_lnorm (world_step w cmd host).1.1)) = ln_mean (start r) r).
  { rewrite ln_acc_kept by (by rewrite Hst). cbv zeta. cbn [mean_r]. by rewrite Hst, bool_decide_eq_false_2. }
  cbn [ln_next_stage]. destruct (decide (k = 15%nat)) as [->|Hne]; cbn [ln_stage_data]; rewrite Hq; split_and!; try done.
  - rewrite ln_acc_kept by (by rewrite Hst). cbv zeta. cbn [std_r].
    by rewrite Hz, Hst, Hroot, !bool_decide_eq_true_2, rooting_next by done.
  - rewrite rooting_S. cbn. unfold lnorm_sqrt_step. rewrite Hst, Hroot, (bool_decide_eq_true_2 (LN_SQRT = LN_SQRT)) by done.
    by rewrite bool_decide_eq_false_2.
Qed.

(** Mean and standard deviation stay while a row is normalised. *)
Lemma ln_known_kept w cmd host :
  (ln_state (u_lnorm w.1.1) = LN_NORM_WAIT \/ ln_state (u_lnorm w.1.1) = LN_NORM_DIV \/
   ln_state (u_lnorm w.1.1) = LN_NORM_WR /\ ln_next_row (u_lnorm w.1.1) true = false) ->
  mean_r (ln_acc (u_lnorm (world_step w cmd host).1.1)) = mean_r (ln_acc (u_lnorm w.1.1)) /\
  std_r (ln_acc (u_lnorm (world_step w cmd host).1.1)) = std_r (ln_acc (u_lnorm w.1.1)).
Proof using Type.
  intros Hst. rewrite ln_acc_kept.
  - cbv zeta. cbn [mean_r std_r]. by destruct Hst as [->|[->|[-> _]]]; rewrite !bool_decide_eq_false_2.
  - by destruct Hst as [->|[->|[-> _]]].
  - destruct Hst as [->|[->|[_ ->]]]; done.
Qed.

Lemma ln_world_norm r i w cmd host :
  no_write host -> ln_world_in (LnWait PNorm r i) w -> ln_stage_data (LnDiv PNorm r i 0) (world_step w cmd host).
Proof using Type.
  intros Hh (Hs & (Hm & Hmean & Hstd) & Hx). pose proof (ln_quiet (LnWait PNorm r i) w cmd host Hh ltac:(done) Hs) as Hq.
  destruct Hs as (Hg & _ & _ & Hst & _ & _ & _ & Hrd). cbn [ln_in_state ln_arrives] in *. rewrite Hm in Hx. cbn [act_mem] in Hx.
  destruct (ln_known_kept w cmd host (or_introl Hst)) as [Hmean' Hstd']. cbn [ln_stage_data]. rewrite Hq, Hmean', Hstd'.
  split_and!; [done..|]. unfold ln_normalising.
  assert (Hd : ln_div (u_lnorm (world_step w cmd host).1.1) =
    let x := cell (buffer r i) (in_cell r i) in
    ln_div_load (ln_scaled (start r) r x) (ln_std (start r) r) false (ln_neg (start r) r x)).
  { cbn. unfold lnorm_div_step. rewrite Hst, Hmean, Hstd, Hg. cbn [rd_rvalid rd_rdata be_act_rd]. by rewrite Hrd, Hx. }
  by rewrite Hd.
Qed.

Lemma ln_world_norm_div r i k w cmd host :
  no_write host -> ln_world_in (LnDiv PNorm r i k) w -> ln_stage_data (ln_next_stage c (LnDiv PNorm r i k)) (world_step w cmd host).
Proof using Type.
  intros Hh (Hs & (Hm & Hmean & Hstd & Hd & Hneg) & _). pose proof (ln_quiet (LnDiv PNorm r i k) w cmd host Hh ltac:(done) Hs) as Hq.
  destruct (ln_world_div PNorm r i k w cmd host _ _ Hs Hd) as (Hd' & _ & Hneg' & _).
  destruct Hs as (_ & _ & _ & Hst & _). cbn [ln_in_state] in Hst.
  destruct (ln_known_kept w cmd host ltac:(tauto)) as [Hmean' Hstd'].
  assert (Hall : contents (world_step w cmd host).2 = memory (buffer r i) /\
    mean_r (ln_acc (u_lnorm (world_step w cmd host).1.1)) = ln_mean (start r) r /\
    std_r (ln_acc (u_lnorm (world_step w cmd host).1.1)) = ln_std (start r) r /\
    ln_normalising r i (S k) (u_lnorm (world_step w cmd host).1.1)).
  { rewrite Hq, Hmean', Hstd'. unfold ln_normalising. by rewrite Hneg'. }
  cbn [ln_next_stage]. by destruct (decide (k = 31%nat)) as [->|Hne].
Qed.

Lemma ln_world_write r i w cmd host :
  no_write host -> ln_world_in (LnWrite r i) w -> ln_stage_data (ln_next_stage c (LnWrite r i)) (world_step w cmd host).
Proof using Hok.
  intros Hh (Hs & (Hm & Hmean & Hstd & Hnorm) & _). destruct Hs as (Hg & _ & _ & Hst & [Hr Hi] & Hrow & Hidx). cbn [ln_in_state] in Hst.
  pose proof (ln_last c Hok w.1.1 i Hg Hidx Hi) as Hlast. destruct Hok as (_ & HM & HN & _).
  assert (Hwr : exists v, be_act_write (lnorm_request (u_lnorm w.1.1)) = Some (wrap ADDR_W (row_addr (l_out_addr c) len r + Z.of_nat i), v) /\
    wrap DATA_W v = ln_byte (start r) r (cell (buffer r i) (in_cell r i))).
  { eexists. split.
    - unfold lnorm_request. cbn [be_act_write]. by rewrite Hst, Hrow, Hidx, bool_decide_eq_true_2.
    - destruct Hnorm as [[Hser _] Hneg]. rewrite ln_byte_eq, <- Hser, <- Hneg. done. }
  destruct Hwr as (v & Hwr & Hv).
  assert (Hm' : contents (world_step w cmd host).2 = memory (buffer r (S i))).
  { unfold world_step. cbn [snd bk_request lnorm_backend]. by rewrite Hwr, backend_write_step, Hm, Hv by done. }
  assert (Hnr : ln_next_row (u_lnorm w.1.1) true = bool_decide (S i = cols) && bool_decide (S r <> rows)).
  { unfold ln_next_row. rewrite Hst, Hg, Hlast, Hrow. cbn [ln_row_r lnorm_row_at ln_num_rows_r lnorm_cfg_of andb].
    rewrite not_last_index by done. by rewrite bool_decide_eq_true_2. }
  cbn [ln_next_stage]. unfold ln_row_done. destruct (decide (S i = cols)) as [Hend|Hne].
  - assert (Hfull : contents (world_step w cmd host).2 = memory (start (S r))) by (rewrite Hm', Hend; done).
    destruct (decide (S r = rows)) as [Hdone|Hmore]; cbn [ln_stage_data]; [by rewrite Hfull, Hdone|].
    split_and!; [done|..]; cbn -[be_act_wr_gnt]; unfold lnorm_acc_step, be_act_wr_gnt;
      rewrite Hwr, (bool_decide_eq_true_2 (is_Some _)) by (by eexists);
      rewrite Hnr, (bool_decide_eq_true_2 (S i = cols)), (bool_decide_eq_true_2 (S r <> rows)), orb_true_r by done; done.
  - rewrite (bool_decide_eq_false_2 (S i = cols)) in Hnr by done. cbn [andb] in Hnr.
    destruct (ln_known_kept w cmd host ltac:(tauto)) as [Hmean' Hstd']. cbn [ln_stage_data]. by rewrite Hmean', Hstd'.
Qed.

Lemma ln_world_loading w cmd host :
  no_write host -> ln_world_in LnLoading w -> ln_stage_data (LnRead PSum 0 0) (world_step w cmd host).
Proof using Type.
  intros Hh (Hs & Hm & _). pose proof (ln_quiet LnLoading w cmd host Hh ltac:(done) Hs) as Hq. destruct Hs as (_ & _ & _ & Hst & _).
  cbn [ln_stage_data ln_in_state] in *. rewrite Hq, Hm. cbn. unfold lnorm_acc_step. rewrite Hst, bool_decide_eq_true_2 by done.
  split_and!; try done. by destruct m0.
Qed.

Lemma lnorm_world_stage st w cmd host :
  no_write host -> st <> LnFinished -> ln_world_in st w -> ln_world_in (ln_next_stage c st) (world_step w cmd host).
Proof using Hok.
  intros Hh Hst Hw. split; [apply lnorm_stage_step; [done..|apply Hw]|]. split.
  - destruct st as [|v r i|[] r i|[] r i k| | |]; cbn [ln_next_stage ln_passed]; [by apply ln_world_loading|by apply ln_world_read|
      by apply ln_world_sum|by apply ln_world_var|by apply ln_world_norm|by apply ln_world_mean|by apply ln_world_variance|
      by apply ln_world_norm_div|by apply ln_world_sqrt|by apply ln_world_write|done].
  - destruct st as [|v r i|v r i|v r i k|r k|r i|]; [done|by apply ln_read_arrives; [|apply Hw]|destruct v|destruct v|..];
      cbn [ln_next_stage]; unfold ln_passed, ln_divided, ln_row_done; repeat case_decide; done.
Qed.

(** Row after row, and nothing else in the three buffers. *)
Lemma lnorm_effect w host ins :
  ln_state (u_lnorm w.1.1) = LN_IDLE -> no_bias w.1 -> contents w.2 = m0 -> no_write host -> only_reads ins ->
  length ins = S (lnorm_clocks c) ->
  contents (bk_run (world_step w (Some c) host) ins).2 = lnorm_memory.
Proof using Hok.
  intros Hs Hb Hm Hhost Hins Hn. eapply (staged_effect (ln_next_stage c) LnLoading (lnorm_clocks c) ln_world_in).
  - intros T w' cmd h' HT Hh' Hw'. rewrite stage_at_S. apply lnorm_world_stage; [done| |done].
    intros E. apply (lnorm_at_finished c Hok) in E; lia.
  - split_and!; [by apply lnorm_accepts| |done]. unfold ln_stage_data. rewrite world_quiet; [done|done|]. cbn. by rewrite Hs.
  - done.
  - done.
  - rewrite (proj2 (lnorm_at_finished c Hok _ (le_n _)) eq_refl). intros w' [(_ & _ & _ & Hs' & _) [Hd _]]. split; [exact Hd|].
    cbn. by rewrite Hs'.
Qed.
End command.

#[export, program] Instance lnorm_backend_effect : BackendEffect lnorm_backend_laws := {| bk_effect := lnorm_memory |}.
Next Obligation. intros c m w host ins [Hs Hb] Hm Hc Hhost Hins Hn. by apply lnorm_effect. Qed.

(** ** The square root *)

(** A clock of the unit is a turn of the testbench's loop. *)
Lemma sqrt_next_step n i s :
  0 <= i < 16 -> isqrt_inv n (i + 1) (sqrt_rem_r s, sqrt_result_r s) -> sqrt_input_r s ≫ 30 = Z.land (n ≫ (2 * i)) 3 ->
  sqrt_next s = isqrt_step n i (sqrt_rem_r s, sqrt_result_r s).
Proof.
  intros Hi (_ & Hrem & Hres) Hin. cbn [fst snd] in *. unfold sqrt_next, isqrt_step. rewrite Hin.
  pose proof (land3_bound (n ≫ (2 * i))) as Hd. set (d := Z.land (n ≫ (2 * i)) 3) in *. clearbody d.
  assert (H15 : 2 ^ (16 - (i + 1)) <= 2 ^ 15) by (apply Z.pow_le_mono_r; lia). change (2 ^ 15) with 32768 in H15.
  set (rem := sqrt_rem_r s) in *. set (res := sqrt_result_r s) in *.
  rewrite (lor_add 2) by (done || exact Hd). change (2 ^ 2) with 4.
  rewrite (wrap_small 32 (rem * 4 + d)), (wrap_small 32 (4 * rem)) by (words; lia).
  rewrite (wrap_small 32 (res ≪ 2)) by (rewrite Z.shiftl_mul_pow2 by done; words; lia).
  rewrite (lor_add 2 res 1), (lor_add 1 res 1), (Z.shiftl_mul_pow2 res 1) by done. change (2 ^ 1) with 2. change (2 ^ 2) with 4.
  replace (rem * 4 + d) with (4 * rem + d) by lia. replace (res * 4 + 1) with (4 * res + 1) by lia.
  rewrite !(wrap_small 16) by (words; lia). destruct (4 * res + 1 <=? 4 * rem + d); f_equal; lia.
Qed.

#[local] Transparent rooting.

(** The pair of bits that comes next. *)
Lemma sqrt_top n k :
  (k < 16)%nat -> wrap 32 (n * 2 ^ (2 * Z.of_nat k)) ≫ 30 = Z.land (n ≫ (2 * (15 - Z.of_nat k))) 3.
Proof.
  intros Hk. change 3 with (2 ^ 2 - 1). rewrite land_mask, !Z.shiftr_div_pow2 by lia. unfold wrap.
  replace (2 ^ 32) with (2 ^ (32 - 2 * Z.of_nat k) * 2 ^ (2 * Z.of_nat k)) by (rewrite <- Z.pow_add_r by lia; f_equal; lia).
  replace (2 ^ 30) with (2 ^ (2 * (15 - Z.of_nat k)) * 2 ^ (2 * Z.of_nat k)) by (rewrite <- Z.pow_add_r by lia; f_equal; lia).
  assert (0 < 2 ^ (2 * Z.of_nat k)) by (apply Z.pow_pos_nonneg; lia).
  assert (0 < 2 ^ (2 * (15 - Z.of_nat k))) by (apply Z.pow_pos_nonneg; lia).
  rewrite Z.mul_mod_distr_r, Z.div_mul_cancel_r by lia.
  replace (32 - 2 * Z.of_nat k) with (2 * (15 - Z.of_nat k) + 2) by lia. rewrite Z.pow_add_r by lia.
  rewrite Z.rem_mul_r, (Z.mul_comm (2 ^ _) (_ mod 2 ^ 2)), Z.div_add, (Z.div_small (_ mod _)) by (try apply Z.mod_pos_bound; lia). lia.
Qed.

(** [k] clocks have consumed the upper [2 k] bits. *)
Lemma rooting_inv n k :
  fits 32 n -> (k <= 16)%nat ->
  sqrt_input_r (rooting n k) = wrap 32 (n * 2 ^ (2 * Z.of_nat k)) /\
  isqrt_inv n (16 - Z.of_nat k) (sqrt_rem_r (rooting n k), sqrt_result_r (rooting n k)).
Proof.
  intros Hn. induction k as [|k IH]; intros Hk.
  - cbn. split; [rewrite Z.mul_1_r; symmetry; by apply wrap_small|]. unfold isqrt_inv. cbn [fst snd].
    rewrite Z.shiftr_div_pow2 by done. change (2 * (16 - 0)) with 32. by rewrite Z.div_small.
  - destruct (IH ltac:(lia)) as [Hin Hinv]. cbv zeta. rewrite rooting_S. set (s := rooting n k) in *. clearbody s.
    assert (Htop : sqrt_input_r s ≫ 30 = Z.land (n ≫ (2 * (15 - Z.of_nat k))) 3) by (rewrite Hin; apply sqrt_top; lia).
    replace (16 - Z.of_nat k) with (15 - Z.of_nat k + 1) in Hinv by lia.
    unfold sqrt_clock. rewrite (sqrt_next_step n (15 - Z.of_nat k)) by (done || lia).
    pose proof (isqrt_step_inv n (15 - Z.of_nat k) _ ltac:(lia) Hinv) as Hinv'. destruct (isqrt_step _ _ _) as [rem res].
    cbn [sqrt_input_r sqrt_rem_r sqrt_result_r]. replace (16 - Z.of_nat (S k)) with (15 - Z.of_nat k) by lia. split; [|done].
    rewrite Hin. unfold wrap. rewrite Zmult_mod_idemp_r. f_equal.
    replace (2 * Z.of_nat (S k)) with (2 * Z.of_nat k + 2) by lia. rewrite Z.pow_add_r by lia. lia.
Qed.

(** 16 clocks give the root. *)
Lemma rooting_sqrt n : fits 32 n -> sqrt_result_r (rooting n 16) = Z.sqrt n.
Proof.
  intros Hn. destruct (rooting_inv n 16 Hn (le_n _)) as [_ Hinv]. revert Hinv. generalize (rooting n 16). intros s (Heq & Hrem & Hres).
  cbn [fst snd] in *. change (16 - Z.of_nat 16) with 0 in *.
  rewrite Z.mul_0_r, Z.shiftr_0_r in Heq. symmetry. apply Z.sqrt_unique. nia.
Qed.

#[local] Opaque rooting.

(** ** The reference model *)

Section reference.
Context (c : lnorm_cmd_t) (m : sram) (input : list Z).
Hypothesis Hok : lnorm_cmd_ok c.
Hypothesis Hops : rows_operands (l_in_addr c) (l_out_addr c) (l_num_rows c) (l_row_len c) m input.

Abbreviation len := (l_row_len c).
Abbreviation mean r := (lnorm_mean input len (Z.of_nat r)).
Abbreviation dev r i := (lnorm_dev input len (Z.of_nat r) i).
Abbreviation var r := (lnorm_var input len (Z.of_nat r)).
Abbreviation spec := (lnorm_spec input len (l_norm_shift c)).
Abbreviation start r := (rows_written (l_in_addr c) (l_out_addr c) len (ln_byte c) (act_mem m) r).
Abbreviation buffer r i := (row_written (l_in_addr c) (l_out_addr c) len (ln_byte c) (start r) r i).
Abbreviation in_cell := (row_in_cell (l_in_addr c) len).

Lemma ln_rows_wf : rows_wf input (l_num_rows c) len /\ 1 <= len <= 65535 /\ 1 <= len <= 66051.
Proof using Hok Hops. destruct Hok as (_ & _ & HN & _). split; [apply Hops|lia]. Qed.

Lemma magnitude_abs x : Z.abs x < 2 ^ 32 -> magnitude x = Z.abs x.
Proof using Type.
  intros Hx. unfold magnitude. replace (if x <? 0 then - x else x) with (Z.abs x) by (destruct (Z.ltb_spec x 0); lia).
  apply wrap_small. unfold fits. lia.
Qed.

Lemma ln_mean_ref r : Z.of_nat r < l_num_rows c -> ln_mean c (start r) r = mean r.
Proof using Hok Hops.
  intros Hr. destruct ln_rows_wf as (Hwf & HN & HN').
  destruct (lnorm_sum_ok input (l_num_rows c) len Hwf HN' (Z.of_nat r) ltac:(lia)) as [_ Hb].
  assert (Hsum : ln_sum c (start r) r len = Zsum len (elem input len (Z.of_nat r))).
  { unfold ln_sum. rewrite (Zsum_ext _ _ (elem input len (Z.of_nat r))).
    - apply i32_id. unfold INT_MIN, INT_MAX. lia.
    - intros j Hj. apply (row_elem_input _ _ (l_num_rows c) _ _ m); [lia|done|done|done]. }
  unfold ln_mean. rewrite Hsum. set (S := Zsum len _) in *.
  rewrite magnitude_abs by (change (2 ^ 32) with 4294967296; lia).
  rewrite serial_divides by (unfold fits; change (2 ^ 32) with 4294967296; change (2 ^ 31) with 2147483648; lia). cbn [fst].
  rewrite quot_abs by lia. apply i32_id. pose proof (lnorm_mean_range input (l_num_rows c) len Hwf HN' (Z.of_nat r)) as [Hlo Hhi].
  unfold lnorm_mean in *. fold S in Hlo, Hhi |- *. unfold INT_MIN, INT_MAX. lia.
Qed.

(** The deviation of an element, from the byte that is read. *)
Lemma ln_dev_ref r i :
  Z.of_nat r < l_num_rows c -> 0 <= i < len ->
  let x := u8 (elem input len (Z.of_nat r) i) in
  diff_w (ln_mean c (start r) r) x = dev r i /\ abs_diff_w (ln_mean c (start r) r) x = Z.abs (dev r i) /\ Z.abs (dev r i) <= 255.
Proof using Hok Hops.
  intros Hr Hi x. destruct ln_rows_wf as (Hwf & HN & HN').
  pose proof (lnorm_dev_range input (l_num_rows c) len Hwf HN' (Z.of_nat r) i) as Hd.
  assert (Hdiff : diff_w (ln_mean c (start r) r) x = dev r i).
  { unfold diff_w, x. rewrite ln_mean_ref, i8_u8 by (done || by apply (elem_i8 input (l_num_rows c) len)).
    fold (dev r i). apply i32_id. unfold INT_MIN, INT_MAX. lia. }
  split_and!; [done| |done]. unfold abs_diff_w. rewrite Hdiff. apply magnitude_abs. lia.
Qed.

Lemma ln_sq_ref r j : Z.of_nat r < l_num_rows c -> 0 <= j < len -> ln_sq c (start r) r j = dev r j * dev r j.
Proof using Hok Hops.
  intros Hr Hj. unfold ln_sq. change (start r) with (buffer r 0) at 2.
  rewrite (row_byte_input _ _ (l_num_rows c) _ _ m input), Z2Nat.id by (done || destruct Hok; lia).
  destruct (ln_dev_ref r j Hr Hj) as (_ & Ha & Hb). unfold abs_diff_sq_w. rewrite Ha, wrap_small by (unfold fits; lia). lia.
Qed.

(** No sum of squares overflows 32 bits. *)
Lemma ln_squares_fit r n : 0 <= n <= len -> 0 <= Zsum n (fun i => dev r i * dev r i) < 2 ^ 32.
Proof using Hok Hops.
  intros Hn. destruct ln_rows_wf as (Hwf & HN & HN'). change (2 ^ 32) with 4294967296.
  destruct (Zsum_range n (fun i => dev r i * dev r i) 0 65025); [lia| |lia].
  intros i Hi. by apply (lnorm_sq_range input (l_num_rows c)).
Qed.

Lemma ln_var_sum_ref r n :
  Z.of_nat r < l_num_rows c -> 0 <= n <= len -> ln_var_sum c (start r) r n = Zsum n (fun i => dev r i * dev r i).
Proof using Hok Hops.
  intros Hr Hn. unfold ln_var_sum. rewrite (Zsum_ext _ _ (fun i => dev r i * dev r i)) by (intros j Hj; apply ln_sq_ref; lia).
  apply wrap_small. by apply ln_squares_fit.
Qed.

Lemma ln_std_ref r : Z.of_nat r < l_num_rows c -> ln_std c (start r) r = Z.sqrt (var r + 1) /\ 1 <= Z.sqrt (var r + 1) <= 65535.
Proof using Hok Hops.
  intros Hr. destruct ln_rows_wf as (Hwf & HN & HN').
  pose proof (lnorm_var_range input (l_num_rows c) len Hwf HN' (Z.of_nat r)) as Hv.
  assert (Hroot : 1 <= Z.sqrt (var r + 1) <= 65535).
  { split; [apply (Z.sqrt_le_mono 1); lia|]. transitivity (Z.sqrt (256 * 256)); [apply Z.sqrt_le_mono; lia|by rewrite Z.sqrt_square]. }
  split; [|done].
  assert (Hnum : ln_var_numer c (start r) r = Zsum len (fun i => dev r i * dev r i)).
  { unfold ln_var_numer. rewrite ln_var_sum_ref, ln_sq_ref by lia.
    assert (Hlast : Zsum (len - 1) (fun i => dev r i * dev r i) + dev r (len - 1) * dev r (len - 1) = Zsum len (fun i => dev r i * dev r i)).
    { pose proof (Zsum_succ (len - 1) (fun i => dev r i * dev r i) ltac:(lia)) as Hz. by replace (len - 1 + 1) with len in Hz by lia. }
    rewrite Hlast. pose proof (ln_squares_fit r len ltac:(lia)) as Hf. rewrite Z.shiftr_div_pow2, Z.div_small by done.
    by apply wrap_small. }
  unfold ln_std, ln_variance. rewrite Hnum, serial_divides by (try apply ln_squares_fit; change (2 ^ 31) with 2147483648; lia). cbn [fst].
  fold (var r). rewrite (wrap_small 32 (var r + 1)), rooting_sqrt by (unfold fits; change (2 ^ 32) with 4294967296; lia).
  unfold std_of. by rewrite (proj2 (Z.eqb_neq _ 0)) by lia.
Qed.

Lemma ln_scaled_ref r i :
  Z.of_nat r < l_num_rows c -> 0 <= i < len ->
  ln_scaled c (start r) r (u8 (elem input len (Z.of_nat r) i)) = Z.min (Z.abs (dev r i) * 2 ^ l_norm_shift c) (2 ^ 32 - 1).
Proof using Hok Hops.
  intros Hr Hi. destruct (ln_dev_ref r i Hr Hi) as (_ & Ha & Hb). destruct Hok as (_ & _ & _ & Hshift).
  unfold ln_scaled, scaled_abs_w. rewrite Ha, Z.shiftl_mul_pow2 by lia.
  assert (Hp : 0 < 2 ^ l_norm_shift c) by (apply Z.pow_pos_nonneg; lia).
  assert (Hp' : 2 ^ l_norm_shift c <= 2 ^ 31) by (apply Z.pow_le_mono_r; lia). change (2 ^ 31) with 2147483648 in Hp'.
  assert (Hwide : 0 <= Z.abs (dev r i) * 2 ^ l_norm_shift c < 2 ^ 40) by (change (2 ^ 40) with 1099511627776; nia).
  set (wide := Z.abs (dev r i) * 2 ^ l_norm_shift c) in *. rewrite (wrap_small 40 wide) by done. cbv zeta.
  rewrite Z.shiftr_div_pow2 by done. change (2 ^ 32) with 4294967296.
  destruct (Z.eqb_spec (wide / 4294967296) 0) as [Hz|Hz].
  - apply Z.div_small_iff in Hz; [|lia]. rewrite wrap_small by (unfold fits; change (2 ^ 32) with 4294967296; lia). lia.
  - assert (~ wide < 4294967296) by (intros Hlt; apply Hz, Z.div_small; lia). lia.
Qed.

Lemma ln_byte_ref r i :
  Z.of_nat r < l_num_rows c -> (i < Z.to_nat len)%nat ->
  ln_byte c (start r) r (cell (buffer r i) (in_cell r i)) = u8 (spec (Z.of_nat r) (Z.of_nat i)).
Proof using Hok Hops.
  intros Hr Hi. destruct ln_rows_wf as (Hwf & HN & HN').
  rewrite (row_byte_input _ _ (l_num_rows c) _ _ m input) by (done || lia).
  destruct (ln_dev_ref r (Z.of_nat i) Hr ltac:(lia)) as (Hd & _ & Hb). destruct (ln_std_ref r Hr) as [Hstd Hroot].
  assert (Hnum : 0 <= Z.min (Z.abs (dev r (Z.of_nat i)) * 2 ^ l_norm_shift c) (2 ^ 32 - 1) < 2 ^ 32).
  { assert (0 <= Z.abs (dev r (Z.of_nat i)) * 2 ^ l_norm_shift c) by (apply Z.mul_nonneg_nonneg; [lia|apply Z.pow_nonneg; lia]).
    change (2 ^ 32) with 4294967296. lia. }
  rewrite ln_byte_eq, ln_scaled_ref, Hstd, serial_divides by (done || change (2 ^ 31) with 2147483648; lia). cbn [fst].
  unfold ln_neg. rewrite Hd. unfold lnorm_spec. fold (lnorm_scaled (l_norm_shift c) (Z.sqrt (var r + 1)) (dev r (Z.of_nat i))).
  pose proof (lnorm_scaled_nonneg (l_norm_shift c) (Z.sqrt (var r + 1)) (dev r (Z.of_nat i)) ltac:(lia) ltac:(destruct Hok; lia)) as Hq.
  set (q := lnorm_scaled (l_norm_shift c) (Z.sqrt (var r + 1)) (dev r (Z.of_nat i))) in *. clearbody q.
  unfold ln_result, lnorm_result. cbn [norm_sign_r ln_quot_r]. destruct (dev r (Z.of_nat i) <? 0).
  - destruct (Z.ltb_spec 128 q); [by rewrite Z.min_l by lia|]. rewrite Z.min_r, (wrap_small 8 q) by (unfold fits; change (2 ^ 8) with 256; lia).
    unfold wrap. by rewrite Zmod_mod.
  - destruct (Z.ltb_spec 127 q); [by rewrite Z.min_l by lia|]. rewrite Z.min_r by lia. unfold wrap. by rewrite Zmod_mod.
Qed.

Lemma lnorm_reference :
  exists out, ref_lnorm input (l_num_rows c) len (l_norm_shift c) = Ok out /\ rows_results (l_out_addr c) m (lnorm_memory c m) out /\
    Z.of_nat (length out) = l_num_rows c * len /\ Forall fits_i8 out.
Proof using Hok Hops.
  destruct ln_rows_wf as (Hwf & HN & HN'). destruct Hok as (_ & HM & _ & Hshift).
  eexists. split; [by apply ref_lnorm_rows|]. split.
  - apply (rows_reference (l_in_addr c) _ _ _ _ _ input); [lia|lia|exact Hops|].
    intros r i Hr Hi. rewrite ln_byte_ref by done. by rewrite digit_div, digit_mod by lia.
  - apply rows_list_fits; [lia|lia|]. intros r i _ _.
    assert (0 <= lnorm_scaled (l_norm_shift c) (Z.sqrt (lnorm_var input len r + 1)) (lnorm_dev input len r i))
      by (apply lnorm_scaled_nonneg; [apply Z.sqrt_pos; pose proof (lnorm_var_range input (l_num_rows c) len Hwf HN' r); lia|lia]).
    unfold fits_i8, lnorm_spec. cbv zeta. destruct (lnorm_dev input len r i <? 0); lia.
Qed.
End reference.

(** C25. The layer normalisation backend is the reference model. With the rows
    in the activation buffer and no output cell that is a later input cell or
    another output cell (the output may replace the input), a command runs for a
    number of clocks that depends on its sizes only, 39 for each element and 80
    for each row, whatever the host reads meanwhile. It is busy up to its last
    clock, the only one with [done], and leaves in the output cells exactly the
    bytes that [ref_lnorm] of the testbench computes for the same input (mean,
    variance, square root and quotients by serial units of 32, 32, 16 and 32
    clocks), and every other cell of the three buffers as it was. *)
Theorem lnorm_matches_reference c m w host ins input :
  lnorm_cmd_ok c -> at_rest w.1 -> contents w.2 = m -> no_write host -> only_reads ins ->
  rows_operands (l_in_addr c) (l_out_addr c) (l_num_rows c) (l_row_len c) m input ->
  let w' := bk_run (world_step w (Some c) host) ins in
  ((length ins <= lnorm_clocks c)%nat ->
     lnorm_busy (u_lnorm w'.1.1) = true /\ lnorm_done (u_lnorm w'.1.1) = bool_decide (length ins = lnorm_clocks c)) /\
  (length ins = S (lnorm_clocks c) ->
     exists out, ref_lnorm input (l_num_rows c) (l_row_len c) (l_norm_shift c) = Ok out /\ at_rest w'.1 /\
       rows_results (l_out_addr c) m (contents w'.2) out).
Proof.
  intros Hc Hw Hm Hhost Hins Hops w'. split.
  { intros Hn. exact (command_view c w host ins Hw Hc Hn). }
  intros Hn. destruct (lnorm_reference c m input Hc Hops) as (out & Hout & Hres & _). exists out. split_and!; [done|..].
  - by apply command_ends.
  - unfold w'. by rewrite (effect_law c m w host ins).
Qed.

(** ** Witness: a row of four elements, in place *)

Definition ex_lnorm_mem : buffers :=
  mk_buffers (mk_bank ∅ 0 false) (mk_bank (<[0 := 1]> (<[1 := 2]> (<[2 := 3]> (<[3 := 10]> ∅)))) 0 false) (mk_bank ∅ 0 false).

Definition ex_lnorm_rest : lnorm_world :=
  ((mk_lnorm_port lnorm_reset (mk_lnorm_cmd 0 0 0 0 0), mk_router (mk_rport 0 false) (mk_rport 0 false) false 0 false), ex_lnorm_mem).

Definition ex_lnorm_cmd : lnorm_cmd_t := mk_lnorm_cmd 0 0 1 4 4.

Lemma ex_lnorm_operands : rows_operands 0 0 1 4 (contents ex_lnorm_mem) [1; 2; 3; 10].
Proof.
  apply rows_operands_inside; [split_and!; try done; by apply (bool_decide_unpack _); vm_compute|done|done|by left|].
  intros k Hk. assert (Hfour : k = 0 \/ k = 1 \/ k = 2 \/ k = 3) by lia. by destruct Hfour as [->|[->|[->| ->]]].
Qed.

Theorem lnorm_matches_reference_witness :
  exists out,
    ref_lnorm [1; 2; 3; 10] 1 4 4 = Ok out /\
    let w := bk_run (world_step ex_lnorm_rest (Some ex_lnorm_cmd) no_request) (replicate 238 (None, no_request)) in
    at_rest w.1 /\ rows_results 0 (contents ex_lnorm_mem) (contents w.2) out.
Proof.
  destruct (lnorm_matches_reference ex_lnorm_cmd (contents ex_lnorm_mem) ex_lnorm_rest no_request
    (replicate 238 (None, no_request)) [1; 2; 3; 10]) as [_ Hend];
    [by split_and!|done|done|done|by apply Forall_replicate|by apply ex_lnorm_operands|].
  destruct (Hend eq_refl) as (out & Hout & Hr & Hc). exists out. split; [exact Hout|]. split; [exact Hr|exact Hc].
Defined.
