(* ===== verification/ConvBlocks.v ===== *)
(** * The blocks of the matrix datapath

    What [gemm_backend] and [conv_backend] are built of, one record of registers
    and one function per clock edge each: [pipeline_reg], [skid_buffer],
    [conv_loader], [conv_pe] (in [conv_array]), [conv_accum], [postproc]
    ([bias_add], [activation], [quantize]) and [conv_writer]. *)

From S2P Require Import Prelude Regs CArith Golden Mem BackendMem Backend.

Open Scope Z_scope.

(** ** pipeline_reg *)

Record pipeline_reg := mk_pr { pr_data_r : Z; pr_valid_r : bool }.

Definition pr_in_ready (p : pipeline_reg) (out_ready : bool) : bool := negb (pr_valid_r p) || out_ready.

Definition pr_step (p : pipeline_reg) (in_data : Z) (in_valid out_ready : bool) : pipeline_reg :=
  if in_valid && pr_in_ready p out_ready then mk_pr in_data true
  else if pr_valid_r p && out_ready then mk_pr (pr_data_r p) false
  else p.

(** ** skid_buffer *)

Record skid_buffer := mk_skid { out_data_r : Z; skid_data_r : Z; out_valid_r : bool; skid_valid_r : bool }.

Definition skid_in_ready (s : skid_buffer) : bool := negb (skid_valid_r s).

Definition skid_step (s : skid_buffer) (in_data : Z) (in_valid out_ready : bool) : skid_buffer :=
  let pop_out := out_valid_r s && out_ready in
  let push_in := in_valid && skid_in_ready s in
  let free := pop_out || negb (out_valid_r s) in
  let spill := out_valid_r s && negb out_ready && push_in in
  let refill := free && skid_valid_r s in
  let bypass := free && negb (skid_valid_r s) && push_in in
  mk_skid
    (if refill then skid_data_r s else if bypass then in_data else out_data_r s)
    (if spill then in_data else skid_data_r s)
    (if refill || bypass then true else if pop_out then false else out_valid_r s)
    (if spill then true else if refill then false else skid_valid_r s).

(** ** conv_loader *)

Inductive load_state := L_IDLE | L_REQ | L_WAIT | L_DONE.

Definition l_is (s t : load_state) : bool :=
  match s, t with
  | L_IDLE, L_IDLE | L_REQ, L_REQ | L_WAIT, L_WAIT | L_DONE, L_DONE => true
  | _, _ => false
  end.

Record conv_loader := mk_loader {
  l_state : load_state; act_addr_r : Z; wt_addr_r : Z;
  act_latched : bool; wt_latched : bool; act_r : Z; wt_r : Z; is_zero_pad_r : bool }.

Definition load_ready (l : conv_loader) : bool := l_is (l_state l) L_IDLE.
Definition pair_valid (l : conv_loader) : bool := l_is (l_state l) L_DONE.

Definition act_mem_req (l : conv_loader) : bool := l_is (l_state l) L_REQ && negb (is_zero_pad_r l) && negb (act_latched l).
Definition wt_mem_req (l : conv_loader) : bool := l_is (l_state l) L_REQ && negb (is_zero_pad_r l) && negb (wt_latched l).

(** The address pair that is offered, and whether it lies in the padding. *)
Record load_req := mk_load_req { lr_act : Z; lr_wt : Z; lr_pad : bool }.

Definition load_next (l : conv_loader) (req : option load_req) (act wt : rd_answer) (pair_ready : bool) : load_state :=
  match l_state l with
  | L_IDLE => match req with Some _ => L_REQ | None => L_IDLE end
  | L_REQ =>
      if is_zero_pad_r l then L_DONE
      else if (act_latched l || rd_gnt act) && (wt_latched l || rd_gnt wt) then L_WAIT else L_REQ
  | L_WAIT => if act_latched l && wt_latched l then L_DONE else L_WAIT
  | L_DONE => if pair_ready then L_IDLE else L_DONE
  end.

Definition load_step (l : conv_loader) (req : option load_req) (act wt : rd_answer) (pair_ready : bool) : conv_loader :=
  let st := load_next l req act wt pair_ready in
  match l_state l with
  | L_IDLE =>
      match req with
      | Some q =>
          mk_loader st (lr_act q) (lr_wt q) (lr_pad q) (lr_pad q)
            (if lr_pad q then 0 else act_r l) (if lr_pad q then 0 else wt_r l) (lr_pad q)
      | None => mk_loader st (act_addr_r l) (wt_addr_r l) (act_latched l) (wt_latched l) (act_r l) (wt_r l) (is_zero_pad_r l)
      end
  | L_REQ | L_WAIT =>
      let take_act := rd_rvalid act && negb (act_latched l) in
      let take_wt := rd_rvalid wt && negb (wt_latched l) in
      mk_loader st (act_addr_r l) (wt_addr_r l)
        (act_latched l || take_act) (wt_latched l || take_wt)
        (if take_act then rd_rdata act else act_r l) (if take_wt then rd_rdata wt else wt_r l) (is_zero_pad_r l)
  | L_DONE => mk_loader st (act_addr_r l) (wt_addr_r l) (act_latched l) (wt_latched l) (act_r l) (wt_r l) (is_zero_pad_r l)
  end.

(** ** conv_pe *)

Record conv_pe := mk_pe { result_r : Z; pe_valid_r : bool }.

Definition pe_ready_out (p : conv_pe) (ready_in : bool) : bool := negb (pe_valid_r p) || ready_in.

(** The operands are bytes, read as signed. *)
Definition pe_step (p : conv_pe) (valid_in : bool) (act_in wt_in acc_in : Z) (ready_in : bool) : conv_pe :=
  if valid_in && pe_ready_out p ready_in then mk_pe (i32 (acc_in + i8 act_in * i8 wt_in)) true
  else if pe_valid_r p && ready_in then mk_pe (result_r p) false
  else p.

(** ** conv_accum *)

Definition accum_feedback (acc : Z) (clr : bool) : Z := if clr then 0 else acc.

Definition accum_step (acc : Z) (clr acc_en : bool) (mac_result : Z) : Z :=
  if clr then 0 else if acc_en then mac_result else acc.

(** ** postproc *)

Definition biased (in_data bias_val : Z) : Z := i32 (in_data + i8 bias_val).

(** [activation]: anything but NONE and LEAKY_RELU is RELU. *)
Definition activated (act_mode in_data : Z) : Z :=
  if act_mode =? 0 then in_data
  else if act_mode =? 2 then (if in_data <? 0 then in_data ≫ 3 else in_data)
  else if in_data <? 0 then 0 else in_data.

(** [quantize] *)
Definition quantized (quant_shift in_data : Z) : Z :=
  let shifted := in_data ≫ quant_shift in
  if 127 <? shifted then 127 else if shifted <? -128 then 0x80 else wrap DATA_W shifted.

Record postproc := mk_post { u_bias : pipeline_reg; u_relu : pipeline_reg; u_quant : pipeline_reg }.

Definition relu_ready (p : postproc) (out_ready : bool) : bool := pr_in_ready (u_quant p) out_ready.
Definition bias_ready (p : postproc) (out_ready : bool) : bool := pr_in_ready (u_relu p) (relu_ready p out_ready).
Definition post_in_ready (p : postproc) (out_ready : bool) : bool := pr_in_ready (u_bias p) (bias_ready p out_ready).

Definition post_step (p : postproc) (bias_val quant_shift act_mode in_data : Z) (in_valid out_ready : bool) : postproc :=
  mk_post
    (pr_step (u_bias p) (biased in_data bias_val) in_valid (bias_ready p out_ready))
    (pr_step (u_relu p) (activated act_mode (pr_data_r (u_bias p))) (pr_valid_r (u_bias p)) (relu_ready p out_ready))
    (pr_step (u_quant p) (quantized quant_shift (pr_data_r (u_relu p))) (pr_valid_r (u_relu p)) out_ready).

(** ** conv_writer *)

Inductive write_state := W_IDLE | W_WRITE | W_ACK.

Record conv_writer := mk_writer { w_state : write_state; w_addr_r : Z; w_data_r : Z }.

Definition writer_ready (w : conv_writer) : bool := match w_state w with W_IDLE => true | _ => false end.
Definition writer_req (w : conv_writer) : option (Z * Z) :=
  match w_state w with W_WRITE => Some (w_addr_r w, w_data_r w) | _ => None end.

Definition writer_step (w : conv_writer) (out_addr : Z) (addr_valid : bool) (in_data : Z) (in_valid mem_gnt : bool) : conv_writer :=
  match w_state w with
  | W_IDLE => if in_valid && addr_valid then mk_writer W_WRITE out_addr in_data else w
  | W_WRITE => if mem_gnt then mk_writer W_ACK (w_addr_r w) (w_data_r w) else w
  | W_ACK => mk_writer W_IDLE (w_addr_r w) (w_data_r w)
  end.

(** At reset. *)
Definition pr_reset : pipeline_reg := mk_pr 0 false.
Definition skid_reset : skid_buffer := mk_skid 0 0 false false.
Definition loader_reset : conv_loader := mk_loader L_IDLE 0 0 false false 0 0 false.
Definition pe_reset : conv_pe := mk_pe 0 false.
Definition post_reset : postproc := mk_post pr_reset pr_reset pr_reset.
Definition writer_reset : conv_writer := mk_writer W_IDLE 0 0.

(** ** From the accumulator to the memory

    The sums of completed outputs go through [postproc] and [conv_writer], their
    addresses through the skid buffer beside them. An output that [pp_trigger]
    starts is one stage further every clock: sum latched and address queued (age
    1), biased, activated, quantised (age 4), being written (age 5), acknowledged
    (age 6). *)

Record output := mk_output { o_sum : Z; o_bias : Z; o_addr : Z }.

Section output_chain.
Context (act_mode quant_shift : Z).

Definition out_biased (o : output) : Z := biased (o_sum o) (o_bias o).
Definition out_activated (o : output) : Z := activated act_mode (out_biased o).
Definition out_byte (o : output) : Z := quantized quant_shift (out_activated o).

Definition present (h : option output) : bool := match h with Some _ => true | None => false end.

(** No two outputs within three clocks. *)
Fixpoint spaced (h : list (option output)) : bool :=
  match h with
  | [] => true
  | None :: t => spaced t
  | Some _ :: t => match t with Some _ :: _ => false | _ :: Some _ :: _ => false | _ => spaced t end
  end.

(** A valid register holds the output of its age, an invalid one nothing. *)
Definition pr_holds (p : pipeline_reg) (o : option output) (f : output -> Z) : Prop :=
  match o with Some x => p = mk_pr (f x) true | None => pr_valid_r p = false end.

Definition skid_holds (s : skid_buffer) (older younger : option output) : Prop :=
  match older, younger with
  | Some x, Some y => s = mk_skid (o_addr x) (o_addr y) true true
  | Some x, None | None, Some x => out_data_r s = o_addr x /\ out_valid_r s = true /\ skid_valid_r s = false
  | None, None => out_valid_r s = false /\ skid_valid_r s = false
  end.

Definition writer_holds (w : conv_writer) (writing acked : option output) : Prop :=
  match writing, acked with
  | Some x, _ => w = mk_writer W_WRITE (o_addr x) (out_byte x)
  | None, Some _ => w_state w = W_ACK
  | None, None => w_state w = W_IDLE
  end.

(** The outputs of age 1 to 6 in the registers. *)
Definition chain_holds (p : postproc) (s : skid_buffer) (w : conv_writer) (h1 h2 h3 h4 h5 h6 : option output) : Prop :=
  pr_holds (u_bias p) h2 out_biased /\ pr_holds (u_relu p) h3 out_activated /\ pr_holds (u_quant p) h4 out_byte /\
  skid_holds s (union h4 (union h3 h2)) h1 /\ writer_holds w h5 h6.

(** The cases that spacing leaves. *)
Ltac chain_cases h0 h1 h2 h3 h4 h5 h6 :=
  try destruct h0; destruct h1; try done; destruct h2; try done; destruct h3; try done;
  destruct h4; try done; destruct h5; try done; destruct h6; try done.

(** Outputs that far apart never wait for each other. *)
Lemma chain_step p s w h0 h1 h2 h3 h4 h5 h6 acc bias addr gnt :
  spaced [h0; h1; h2; h3; h4; h5; h6] = true -> chain_holds p s w h1 h2 h3 h4 h5 h6 ->
  (forall o, h1 = Some o -> acc = o_sum o /\ bias = o_bias o) -> (forall o, h0 = Some o -> addr = o_addr o) ->
  (present h5 = true -> gnt = true) ->
  chain_holds (post_step p bias quant_shift act_mode acc (present h1) (writer_ready w))
    (skid_step s addr (present h0) (pr_valid_r (u_quant p) && writer_ready w))
    (writer_step w (out_data_r s) (out_valid_r s) (pr_data_r (u_quant p)) (pr_valid_r (u_quant p)) gnt)
    h0 h1 h2 h3 h4 h5.
Proof.
  destruct p as [[bd bv] [rd rv] [qd qv]], s as [od sd ov sv], w as [ws wa wd]. chain_cases h0 h1 h2 h3 h4 h5 h6;
    intros _ (Hb & Hr & Hq & Hs & Hw) Hacc Hadd Hg; cbn in *;
    repeat match goal with H : forall o, Some ?x = Some o -> _ |- _ => specialize (H x eq_refl) end;
    destruct_and?; simplify_eq/=; try rewrite Hg by done; by split_and!.
Qed.

(** What the rest of the datapath sees of them. *)
Lemma chain_view p s w h1 h2 h3 h4 h5 h6 :
  spaced [h1; h2; h3; h4; h5; h6] = true -> chain_holds p s w h1 h2 h3 h4 h5 h6 ->
  pr_valid_r (u_quant p) = present h4 /\ out_valid_r s = present (union h4 (union h3 (union h2 h1))) /\
  writer_ready w = negb (present h5 || present h6) /\ writer_req w = (fun o => (o_addr o, out_byte o)) <$> h5 /\
  (h1 = None -> h2 = None -> post_in_ready p (writer_ready w) = true /\ skid_in_ready s = true).
Proof.
  destruct p as [[bd bv] [rd rv] [qd qv]], s as [od sd ov sv], w as [ws wa wd]. chain_cases (None (A := output)) h1 h2 h3 h4 h5 h6;
    intros _ (Hb & Hr & Hq & Hs & Hw); cbn in *; destruct_and?; simplify_eq/=; by split_and!.
Qed.
End output_chain.
