(* ===== verification/MacPath.v ===== *)
(** * The multiply-accumulate path

    [gemm_backend] and [conv_backend] share it, line for line: [conv_loader],
    [conv_array], [conv_accum], the metadata that travels with an iteration,
    [postproc] and [conv_writer]. Fed an address pair every five clocks it
    computes: each iteration multiplies and adds, each last inner iteration sends
    its sum on to the memory. *)

From S2P Require Import Prelude Regs CArith Golden Mem BackendMem Backend ConvBlocks.
From stdpp Require Import gmap.

Open Scope Z_scope.

(** What travels with an iteration. *)
Record iter_meta := mk_meta { im_last : bool; im_clr : bool; im_wr_addr : Z; im_bias_addr : Z }.

Record mac_path := mk_path {
  u_loader : conv_loader; load_r : iter_meta; last_inner_d : bool; wr_addr_d : Z;
  u_pe : conv_pe; acc : Z; pp_trigger_r : bool; bias_val : Z;
  u_postproc : postproc; u_wr_addr_q : skid_buffer; u_writer : conv_writer }.

Section signals.
Context (p : mac_path).

Definition pp_out_ready : bool := writer_ready (u_writer p).
Definition pp_out_valid : bool := pr_valid_r (u_quant (u_postproc p)).
Definition pe_ready_in : bool :=
  if last_inner_d p then post_in_ready (u_postproc p) pp_out_ready && skid_in_ready (u_wr_addr_q p) else true.
Definition load_pair_ready : bool := pe_ready_out (u_pe p) pe_ready_in.
Definition pe_accept : bool := pair_valid (u_loader p) && load_pair_ready.
Definition pp_trigger : bool := last_inner_d p && pe_valid_r (u_pe p) && pe_ready_in.
Definition acc_clear : bool := im_clr (load_r p) && pe_accept.

Definition pipe_empty : bool :=
  negb (pp_trigger_r p) && negb pp_out_valid && negb (out_valid_r (u_wr_addr_q p)) && pp_out_ready.

Definition path_request : be_request :=
  mk_be_request (wt_addr_r (u_loader p)) (wt_mem_req (u_loader p)) (act_addr_r (u_loader p)) (act_mem_req (u_loader p))
    (writer_req (u_writer p)) (im_bias_addr (load_r p)) (im_last (load_r p) && pe_accept).

(** One clock: the address pair that is offered with its metadata, the
    parameters of the command, the answers of the memories. *)
Definition path_step (offer : option load_req) (iter_r : iter_meta) (quant_shift act_mode : Z)
    (act wt bias : rd_answer) (out_wr_gnt : bool) : mac_path :=
  mk_path
    (load_step (u_loader p) offer act wt load_pair_ready)
    (if bool_decide (is_Some offer) && load_ready (u_loader p) then iter_r else load_r p)
    (if pe_accept then im_last (load_r p) else last_inner_d p)
    (if pe_accept then im_wr_addr (load_r p) else wr_addr_d p)
    (pe_step (u_pe p) (pair_valid (u_loader p)) (act_r (u_loader p)) (wt_r (u_loader p))
       (accum_feedback (acc p) acc_clear) pe_ready_in)
    (accum_step (acc p) acc_clear (pe_valid_r (u_pe p) && pe_ready_in) (result_r (u_pe p)))
    pp_trigger
    (if rd_rvalid bias then rd_rdata bias else bias_val p)
    (post_step (u_postproc p) (bias_val p) quant_shift act_mode (acc p) (pp_trigger_r p) pp_out_ready)
    (skid_step (u_wr_addr_q p) (wr_addr_d p) pp_trigger (pp_out_valid && pp_out_ready))
    (writer_step (u_writer p) (out_data_r (u_wr_addr_q p)) (out_valid_r (u_wr_addr_q p))
       (pr_data_r (u_quant (u_postproc p))) pp_out_valid out_wr_gnt).
End signals.

Definition path_reset : mac_path :=
  mk_path loader_reset (mk_meta false false 0 0) false 0 pe_reset 0 false 0 post_reset skid_reset writer_reset.

(** Nothing is under way. *)
Definition path_rest (p : mac_path) : Prop :=
  l_state (u_loader p) = L_IDLE /\ pe_valid_r (u_pe p) = false /\ pp_trigger_r p = false /\
  (pr_valid_r (u_bias (u_postproc p)) = false /\ pr_valid_r (u_relu (u_postproc p)) = false /\
   pr_valid_r (u_quant (u_postproc p)) = false /\
   (out_valid_r (u_wr_addr_q p) = false /\ skid_valid_r (u_wr_addr_q p) = false) /\ w_state (u_writer p) = W_IDLE).

Lemma path_rest_view p : path_rest p -> asks_nothing (path_request p) /\ pipe_empty p = true.
Proof.
  intros (Hl & Hv & Ht & _ & _ & Hq & (Ho & _) & Hw). unfold asks_nothing, path_request, pe_accept, pair_valid, wt_mem_req, act_mem_req,
    writer_req, pipe_empty, pp_out_valid, pp_out_ready, writer_ready. cbn.
  rewrite Hl, Hw, Ht, Hq, Ho. cbn. by rewrite andb_false_r.
Qed.

Lemma path_rest_step p m qs am act wt bias gnt : path_rest p -> path_rest (path_step p None m qs am act wt bias gnt).
Proof.
  destruct p as [l lr li wa pe ac pt bv [[bd bvv] [rd rv] [qd qv]] [od sd ov sv] [ws wad wdd]].
  intros (Hl & Hv & Ht & Hb & Hr & Hq & (Ho & Hs) & Hw). cbn in *. subst. unfold path_rest. cbn.
  destruct l as [[] ? ? ? ? ? ? ?], pe as [? []]; try done. unfold pp_trigger. cbn. rewrite andb_false_r. by split_and!.
Qed.

(** ** The iterations of a command *)

Record iteration := mk_iter { it_load : load_req; it_last : bool; it_clr : bool; it_addr : Z; it_bias : Z }.

Section schedule.
Context (n : nat) (its : nat -> iteration) (quant_shift act_mode : Z) (m0 : sram).

Abbreviation pad i := (lr_pad (it_load (its i))).

(** The cells of an iteration. *)
Definition act_cell (i : nat) : Z := wrap (SRAM_ADDR_W + 1) (lr_act (it_load (its i))).
Definition wt_cell (i : nat) : Z := wrap SRAM_ADDR_W (lr_wt (it_load (its i))).
Definition bias_cell (i : nat) : Z := wrap SRAM_ADDR_W (it_bias (its i)).
Definition dest_cell (i : nat) : Z := wrap (SRAM_ADDR_W + 1) (it_addr (its i)).

Definition operand_a (i : nat) : Z := if pad i then 0 else cell (act_mem m0) (act_cell i).
Definition operand_b (i : nat) : Z := if pad i then 0 else cell (wt_mem m0) (wt_cell i).

(** The accumulator after [q] iterations, and what the last of them may send on. *)
Fixpoint sum_after (q : nat) : Z :=
  match q with
  | O => 0
  | S i => i32 ((if it_clr (its i) then 0 else sum_after i) + i8 (operand_a i) * i8 (operand_b i))
  end.

Definition output_of (i : nat) : output := mk_output (sum_after (S i)) (cell (wt_mem m0) (bias_cell i)) (it_addr (its i)).

(** ** The schedule: iteration [i] is offered at clock [5 * i] *)

(** The clock of iteration [i], from 0, in which the array takes it. *)
Definition takes (i ph : nat) : bool := (i <? n)%nat && (ph =? if pad i then 2 else 4)%nat.

(** The clock after, with the product. *)
Definition arrives (i ph : nat) : bool :=
  match ph with
  | O => match i with O => false | S j => takes j 4 end
  | S f => takes i f
  end.

(** How many have been taken. *)
Definition taken (i ph : nat) : nat :=
  if (i <? n)%nat then if pad i && (3 <=? ph)%nat then S i else i else n.

Definition trig (T : nat) : option output :=
  let i := (T / 5)%nat in let ph := (T mod 5)%nat in
  let j := pred (taken i ph) in
  if arrives i ph && it_last (its j) then Some (output_of j) else None.

(** The output that was started [a] clocks ago. *)
Definition aged (T a : nat) : option output := if (a <=? T)%nat then trig (T - a) else None.

Definition write_out (m : sram) (o : output) : sram :=
  mk_sram (wt_mem m) (<[wrap (SRAM_ADDR_W + 1) (o_addr o) := wrap DATA_W (out_byte act_mode quant_shift o)]> (act_mem m)) (psum_mem m).

(** The memories at clock [T]. *)
Fixpoint mem_at (T : nat) : sram :=
  match T with
  | O => m0
  | S T => match aged T 5 with Some o => write_out (mem_at T) o | None => mem_at T end
  end.

(** ** The state at clock [5 * i + ph] *)

Definition load_at (i ph : nat) (l : conv_loader) : Prop :=
  let r := it_load (its i) in
  if (i <? n)%nat then
    if pad i then
      match ph with
      | 1%nat => l_state l = L_REQ /\ is_zero_pad_r l = true /\ act_latched l = true /\ wt_latched l = true /\
          act_r l = 0 /\ wt_r l = 0
      | 2%nat => l_state l = L_DONE /\ act_r l = 0 /\ wt_r l = 0
      | _ => l_state l = L_IDLE
      end
    else
      match ph with
      | 0%nat => l_state l = L_IDLE
      | 1%nat => l_state l = L_REQ /\ is_zero_pad_r l = false /\ act_latched l = false /\ wt_latched l = false /\
          act_addr_r l = lr_act r /\ wt_addr_r l = lr_wt r
      | 2%nat => l_state l = L_WAIT /\ act_latched l = false /\ wt_latched l = false
      | 3%nat => l_state l = L_WAIT /\ act_latched l = true /\ wt_latched l = true /\
          act_r l = operand_a i /\ wt_r l = operand_b i
      | _ => l_state l = L_DONE /\ act_r l = operand_a i /\ wt_r l = operand_b i
      end
  else l_state l = L_IDLE.

Definition carries (i : nat) (m : iter_meta) : Prop :=
  im_last m = it_last (its i) /\ im_clr m = it_clr (its i) /\
  (it_last (its i) = true -> im_wr_addr m = it_addr (its i) /\ im_bias_addr m = it_bias (its i)).

(** Taken [q] iterations, the last of them just now or not. *)
Definition mac_at (q : nat) (now : bool) (p : mac_path) : Prop :=
  pe_valid_r (u_pe p) = now /\
  match q with
  | O => now = false
  | S i =>
      last_inner_d p = it_last (its i) /\ (it_last (its i) = true -> wr_addr_d p = it_addr (its i)) /\
      (if now then result_r (u_pe p) else acc p) = sum_after q
  end.

Definition ports_at (i ph : nat) (r : router) : Prop :=
  bias_pending_r r = false /\
  (ph = 1%nat -> be_rd_r (act_port_b r) = false /\ be_rd_r (wt_port_b r) = false) /\
  (ph = 2%nat -> (i < n)%nat -> pad i = false ->
    act_port_b r = mk_rport (operand_a i) true /\ wt_port_b r = mk_rport (operand_b i) true /\ bias_was_sel r = false) /\
  (arrives i ph = true -> it_last (its (pred (taken i ph))) = true ->
    wt_port_b r = mk_rport (cell (wt_mem m0) (bias_cell (pred (taken i ph)))) true /\ bias_was_sel r = true).

Definition chain_at (T : nat) (p : mac_path) : Prop :=
  chain_holds act_mode quant_shift (u_postproc p) (u_wr_addr_q p) (u_writer p)
    (aged T 1) (aged T 2) (aged T 3) (aged T 4) (aged T 5) (aged T 6) /\
  pp_trigger_r p = present (aged T 1) /\
  (forall o, aged T 1 = Some o -> acc p = o_sum o /\ bias_val p = o_bias o).

Definition path_at (i ph : nat) (p : mac_path) (r : router) (b : buffers) : Prop :=
  load_at i ph (u_loader p) /\ ((i < n)%nat -> (1 <= ph)%nat -> carries i (load_r p)) /\
  mac_at (taken i ph) (arrives i ph) p /\ ports_at i ph r /\ chain_at (5 * i + ph) p /\
  contents b = mem_at (5 * i + ph).

(** ** The schedule, seen from the outputs *)

Lemma clock_split i ph : (ph < 5)%nat -> ((5 * i + ph) / 5 = i /\ (5 * i + ph) mod 5 = ph)%nat.
Proof using Type.
  intros Hp. rewrite (Nat.mul_comm 5), Nat.div_add_l, Nat.div_small, Nat.add_0_r by lia.
  split; [done|]. by rewrite Nat.add_comm, Nat.Div0.mod_add, Nat.mod_small.
Qed.

Lemma clock_cases T : exists i ph, T = (5 * i + ph)%nat /\ (ph < 5)%nat.
Proof using Type.
  exists (T / 5)%nat, (T mod 5)%nat. split; [apply Nat.div_mod; lia|apply Nat.mod_upper_bound; lia].
Qed.

Lemma trig_at i ph :
  (ph < 5)%nat -> trig (5 * i + ph) =
    (if arrives i ph && it_last (its (pred (taken i ph))) then Some (output_of (pred (taken i ph))) else None).
Proof using Type. intros Hp. unfold trig. by destruct (clock_split i ph Hp) as [-> ->]. Qed.

Lemma arrives_phase i ph : (ph < 5)%nat -> arrives i ph = true ->
  (ph = 0%nat /\ (1 <= i <= n)%nat /\ pad (pred i) = false) \/ (ph = 3%nat /\ (i < n)%nat /\ pad i = true).
Proof using Type.
  intros Hp. unfold arrives, takes.
  destruct ph as [|[|[|[|[|]]]]], i as [|i]; try lia; cbn [pred]; intros [Hi Hf]%andb_true_iff; apply Nat.ltb_lt in Hi;
    try (destruct (pad _); (done || (left; split_and!; (done || lia)) || (right; split_and!; (done || lia)))).
Qed.

Lemma trig_phase T : trig T <> None -> exists i,
  (T = (5 * i)%nat /\ (1 <= i <= n)%nat /\ pad (pred i) = false) \/ (T = (5 * i + 3)%nat /\ (i < n)%nat /\ pad i = true).
Proof using Type.
  destruct (clock_cases T) as (i & ph & -> & Hp). rewrite trig_at by done. intros Hs. exists i.
  destruct (arrives i ph) eqn:Hf; [|done]. destruct (arrives_phase i ph Hp Hf) as [(-> & H)|(-> & H)]; [left|right].
  - by rewrite Nat.add_0_r.
  - done.
Qed.

Lemma trig_gap T d : trig (T + d) <> None -> (1 <= d <= 2)%nat -> trig T = None.
Proof using Type.
  intros Hs Hd. destruct (trig T) eqn:Ht; [exfalso|done].
  destruct (trig_phase _ Hs) as (i & [(Hi & H1 & H2)|(Hi & H1 & H2)]);
    (destruct (trig_phase T) as (j & [(Hj & H3 & H4)|(Hj & H3 & H4)]); [by rewrite Ht|..]); try lia.
  assert (i = S j) by lia. subst i. cbn in H2. congruence.
Qed.

Lemma aged_gap T a d : (1 <= d <= 2)%nat -> aged T a <> None -> aged T (a + d) = None.
Proof using Type.
  intros Hd. unfold aged. destruct (Nat.leb_spec a T), (Nat.leb_spec (a + d) T); try done; intros Hs.
  apply (trig_gap _ d); [|done]. by replace (T - (a + d) + d)%nat with (T - a)%nat by lia.
Qed.

Lemma aged_spaced T : spaced [aged T 0; aged T 1; aged T 2; aged T 3; aged T 4; aged T 5; aged T 6] = true.
Proof using Type.
  assert (G1 := fun a => aged_gap T a 1 ltac:(lia)). assert (G2 := fun a => aged_gap T a 2 ltac:(lia)).
  pose proof (G1 0%nat); pose proof (G1 1%nat); pose proof (G1 2%nat); pose proof (G1 3%nat); pose proof (G1 4%nat); pose proof (G1 5%nat).
  pose proof (G2 0%nat); pose proof (G2 1%nat); pose proof (G2 2%nat); pose proof (G2 3%nat); pose proof (G2 4%nat).
  cbn [Nat.add] in *. clear G1 G2.
  repeat (let E := fresh in match goal with |- context [aged T ?k] => destruct (aged T k) eqn:E end; cbn [spaced]);
    done || (exfalso; naive_solver).
Qed.

Lemma aged_S T a : aged (S T) (S a) = aged T a.
Proof using Type. done. Qed.

(** ** One clock *)

Lemma arrives_not_taking i ph : (ph < 5)%nat -> arrives i ph = true -> takes i ph = false.
Proof using Type.
  intros Hp Hf. unfold takes. destruct (arrives_phase i ph Hp Hf) as [(-> & _)|(-> & _)]; destruct (pad i); apply andb_false_r.
Qed.

Lemma load_pair i ph l : (ph < 5)%nat -> load_at i ph l -> pair_valid l = takes i ph.
Proof using Type.
  intros Hp. unfold load_at, takes, pair_valid. destruct (i <? n)%nat; [|by intros ->].
  destruct (pad i); destruct ph as [|[|[|[|[|]]]]]; try lia; intros H; destruct_and?; by destruct (l_state l).
Qed.

Definition requesting (i ph : nat) : bool := (i <? n)%nat && negb (pad i) && (ph =? 1)%nat.

Lemma load_requests i ph l : (ph < 5)%nat -> load_at i ph l ->
  wt_mem_req l = requesting i ph /\ act_mem_req l = requesting i ph.
Proof using Type.
  intros Hp. unfold load_at, requesting, wt_mem_req, act_mem_req. destruct (i <? n)%nat; [|by intros ->].
  destruct (pad i); destruct ph as [|[|[|[|[|]]]]]; try lia; intros H; destruct_and?;
    repeat match goal with E : _ = _ |- _ => rewrite E end; done.
Qed.

Lemma path_signals i ph p r b : (ph < 5)%nat -> path_at i ph p r b ->
  pe_accept p = takes i ph /\ (arrives i ph = true -> pe_ready_in p = true) /\
  pp_trigger p = present (aged (5 * i + ph) 0).
Proof using Type.
  intros Hp (Hl & _ & (Hv & Hm) & _ & (Hc & _) & _). set (T := (5 * i + ph)%nat) in *.
  assert (Htr : aged T 0 = trig T) by (unfold aged; rewrite Nat.sub_0_r; done).
  assert (Hready : arrives i ph = true -> pe_ready_in p = true).
  { intros Hf. unfold pe_ready_in. destruct (last_inner_d p) eqn:Hld; [|done].
    assert (Ht : aged T 0 <> None).
    { rewrite Htr. unfold T. rewrite trig_at, Hf by done. destruct (taken i ph) as [|j]; [congruence|].
      destruct Hm as (Hm & _). cbn [pred]. by rewrite <- Hm. }
    pose proof (aged_spaced T) as Hsp. destruct (aged T 0) eqn:E0; [|done].
    assert (H1 : aged T 1 = None) by (apply (aged_gap T 0 1); [lia|by rewrite E0]).
    assert (H2 : aged T 2 = None) by (apply (aged_gap T 0 2); [lia|by rewrite E0]).
    cbn [spaced] in Hsp. rewrite H1, H2 in Hsp. rewrite H1, H2 in Hc.
    destruct (chain_view act_mode quant_shift _ _ _ None None (aged T 3) (aged T 4) (aged T 5) (aged T 6) Hsp Hc) as (_ & _ & _ & _ & Hr).
    unfold pp_out_ready. by destruct Hr as [-> ->]. }
  split_and!; [|done|].
  - unfold pe_accept. rewrite (load_pair i ph) by done. destruct (takes i ph) eqn:Ht; [|done]. cbn [andb].
    unfold load_pair_ready, pe_ready_out. rewrite Hv. destruct (arrives i ph) eqn:Hf; [|done].
    by rewrite (arrives_not_taking i ph Hp Hf) in Ht.
  - rewrite Htr. unfold pp_trigger. rewrite Hv. unfold T. rewrite trig_at by done.
    destruct (arrives i ph) eqn:Hf; [|by rewrite andb_false_r]. rewrite Hready by done.
    destruct (taken i ph) as [|j]; [congruence|]. destruct Hm as (-> & _). cbn [pred]. by destruct (it_last (its j)).
Qed.

(** The next clock. *)
Definition next_i (i ph : nat) : nat := if (ph =? 4)%nat then S i else i.
Definition next_ph (ph : nat) : nat := if (ph =? 4)%nat then 0%nat else S ph.

Lemma next_clock i ph : (ph < 5)%nat -> (5 * next_i i ph + next_ph ph = S (5 * i + ph))%nat /\ (next_ph ph < 5)%nat.
Proof using Type. intros Hp. unfold next_i, next_ph. destruct (Nat.eqb_spec ph 4); lia. Qed.

Lemma arrives_next i ph : (ph < 5)%nat -> arrives (next_i i ph) (next_ph ph) = takes i ph.
Proof using Type. intros Hp. by destruct ph as [|[|[|[|[|]]]]]; [..|lia]. Qed.

Lemma taken_next i ph : (ph < 5)%nat ->
  taken (next_i i ph) (next_ph ph) = if takes i ph then S (taken i ph) else taken i ph.
Proof using Type.
  intros Hp. unfold taken, takes, next_i, next_ph.
  destruct ph as [|[|[|[|[|]]]]]; try lia; cbn [Nat.eqb]; destruct (Nat.ltb_spec i n); cbn [andb];
    try destruct (Nat.ltb_spec (S i) n); try lia; destruct (pad i); cbn; rewrite ?andb_false_r; cbn; lia.
Qed.

Lemma taken_taking i ph : (ph < 5)%nat -> takes i ph = true -> taken i ph = i /\ (i < n)%nat /\ (1 <= ph)%nat.
Proof using Type.
  intros Hp. unfold taken, takes. destruct (Nat.ltb_spec i n); [cbn [andb]|done].
  destruct (pad i); destruct ph as [|[|[|[|[|]]]]]; try done; cbn; intros _; lia.
Qed.

(** No output falls on an operand still to be read. *)
Definition safe : Prop :=
  forall i j, (j < i < n)%nat -> it_last (its j) = true -> pad i = false -> dest_cell j <> act_cell i.

Lemma trig_output T o : trig T = Some o ->
  exists j, o = output_of j /\ (j < n)%nat /\ it_last (its j) = true /\ (T = 5 * j + if pad j then 3 else 5)%nat.
Proof using Type.
  destruct (clock_cases T) as (i & ph & -> & Hp). rewrite trig_at by done.
  destruct (arrives i ph) eqn:Hf; [|done]. destruct (it_last _) eqn:Hlast; [|done]. intros [= <-].
  exists (pred (taken i ph)). split; [done|]. unfold taken in *.
  destruct (arrives_phase i ph Hp Hf) as [(-> & Hi & Hpad)|(-> & Hi & Hpad)].
  - assert (E : pred (if (i <? n)%nat then if pad i && (3 <=? 0)%nat then S i else i else n) = pred i).
    { destruct (Nat.ltb_spec i n); [by rewrite andb_false_r|cbn; lia]. }
    rewrite E in *. rewrite Hpad. split_and!; (done || lia).
  - rewrite (proj2 (Nat.ltb_lt i n)), Hpad in * by done. cbn [andb Nat.leb pred] in *. rewrite Hpad. split_and!; (done || lia).
Qed.

Lemma mem_at_wt T : wt_mem (mem_at T) = wt_mem m0.
Proof using Type. induction T as [|T IH]; [done|]. cbn [mem_at]. by destruct (aged T 5). Qed.

Lemma mem_at_act T a :
  (forall j, (j < n)%nat -> it_last (its j) = true -> (5 * j + (if pad j then 8 else 10) < T)%nat -> dest_cell j <> a) ->
  cell (act_mem (mem_at T)) a = cell (act_mem m0) a.
Proof using Type.
  induction T as [|T IH]; intros Ha; [done|]. cbn [mem_at].
  rewrite <- IH by (intros j H1 H2 H3; apply Ha; (done || lia)). destruct (aged T 5) as [o|] eqn:Ho; [|done].
  unfold aged in Ho. destruct (Nat.leb_spec 5 T); [|done].
  destruct (trig_output _ _ Ho) as (j & -> & Hj & Hl & Ht). unfold cell. cbn [act_mem write_out o_addr output_of].
  rewrite lookup_insert_ne; [done|]. apply Ha; [done..|]. destruct (pad j); lia.
Qed.

Lemma load_at_0 i l : load_at i 0 l <-> l_state l = L_IDLE.
Proof using Type. unfold load_at. destruct (i <? n)%nat; [|done]. by destruct (pad i). Qed.

Lemma load_step_at i ph l offer act wt ready :
  (ph < 5)%nat -> load_at i ph l -> (takes i ph = true -> ready = true) ->
  (requesting i ph = true -> rd_gnt act = true /\ rd_gnt wt = true /\ rd_rvalid act = false /\ rd_rvalid wt = false) ->
  (ph = 2%nat -> (i < n)%nat -> pad i = false ->
    rd_rvalid act = true /\ rd_rdata act = operand_a i /\ rd_rvalid wt = true /\ rd_rdata wt = operand_b i) ->
  (ph = 0%nat -> (i < n)%nat -> offer = Some (it_load (its i))) ->
  ((n <= i)%nat \/ (pad i = true /\ (3 <= ph)%nat) -> offer = None) ->
  load_at (next_i i ph) (next_ph ph) (load_step l offer act wt ready).
Proof using Type.
  intros Hp Hl Hready Hgnt Hdata Hoffer Hnone. unfold next_i, next_ph.
  destruct (Nat.ltb_spec i n) as [Hi|Hi].
  2:{ unfold load_at in *. rewrite Hnone by by left. rewrite !(proj2 (Nat.ltb_ge _ n)) in * by (destruct (ph =? 4)%nat; lia).
      destruct l. cbn in *. by subst. }
  unfold takes, requesting in Hready, Hgnt. rewrite (proj2 (Nat.ltb_lt i n)) in Hready, Hgnt by done.
  destruct ph as [|[|[|[|[|]]]]]; try lia; cbn [Nat.eqb]; [..|apply load_at_0];
    unfold load_at in *; rewrite (proj2 (Nat.ltb_lt i n)) in * by done; destruct (pad i) eqn:Hpad;
    destruct l; cbn in *; destruct_and?; subst; unfold load_step, load_next; cbn;
    try (rewrite Hoffer by done); try (rewrite Hnone by (right; split; [done|lia])); try (rewrite Hready by done); cbn; rewrite ?Hpad;
    try (destruct Hgnt as (-> & -> & -> & ->); [done|]); try (destruct Hdata as (-> & -> & -> & ->); [done..|]);
    cbn; rewrite ?andb_false_r; cbn; first [done | by split_and!].
Qed.

Section clock.
Context (i ph : nat) (p : mac_path) (r : router) (b : buffers) (offer : option load_req) (m : iter_meta) (host : port).
Hypothesis Hsafe : safe.
Hypothesis Hfirst : it_clr (its 0%nat) = true.
Hypothesis Hph : (ph < 5)%nat.
Hypothesis Hat : path_at i ph p r b.
Hypothesis Hhost : no_write host.
(** What is offered when the loader is ready. *)
Hypothesis Hoffer : ph = 0%nat -> (i < n)%nat -> offer = Some (it_load (its i)) /\ carries i m.
Hypothesis Hnone : (n <= i)%nat \/ (pad i = true /\ (3 <= ph)%nat) -> offer = None.

Abbreviation q := (path_request p).
Abbreviation p' := (path_step p offer m quant_shift act_mode (be_act_rd r q) (be_wt r q) (be_bias r q) (be_act_wr_gnt q)).
Abbreviation r' := (router_step r b q).
Abbreviation i' := (next_i i ph).
Abbreviation ph' := (next_ph ph).

Lemma no_weight_and_bias : be_bias_req q && be_wt_req q = false.
Proof using All.
  destruct (path_signals i ph p r b Hph Hat) as (Hacc & _). destruct Hat as (Hl & _).
  cbn. rewrite (proj1 (load_requests i ph _ Hph Hl)), Hacc. unfold requesting, takes.
  destruct (i <? n)%nat, (pad i), ph as [|[|[|[|[|]]]]]; try done; by rewrite ?andb_false_r.
Qed.

Lemma load_clock : load_at i' ph' (u_loader p').
Proof using All.
  destruct (path_signals i ph p r b Hph Hat) as (Hacc & _).
  pose proof (load_pair i ph (u_loader p) Hph (proj1 Hat)) as Hpair. destruct (load_requests i ph _ Hph (proj1 Hat)) as [Hwr Har].
  destruct Hat as (Hl & _ & _ & (Hnb & Hq & Hd & _) & _). cbn [u_loader path_step]. apply load_step_at; try done.
  - intros Ht. unfold pe_accept in Hacc. rewrite Hpair, Ht in Hacc. exact Hacc.
  - intros Hr. rewrite Hr in Hwr, Har. destruct Hq as [Hqa Hqw].
    { unfold requesting in Hr. apply andb_true_iff in Hr as [_ Hr]. by apply Nat.eqb_eq in Hr. }
    pose proof no_weight_and_bias as Hnw. cbn in Hnw. rewrite Hwr, andb_true_r in Hnw.
    unfold be_wt, be_act_rd, wt_be_req, wt_issue_bias. cbn. rewrite Hnb, Hwr, Har, Hnw, Hqa, Hqw. done.
  - intros H1 H2 H3. destruct (Hd H1 H2 H3) as (Ha & Hw & Hs). unfold be_wt, be_act_rd. cbn. by rewrite Ha, Hw, Hs.
  - intros H1 H2. by apply Hoffer.
Qed.

Lemma carries_clock : (i' < n)%nat -> (1 <= ph')%nat -> carries i' (load_r p').
Proof using All.
  intros Hi Hp'. unfold next_i, next_ph in *. destruct (Nat.eqb_spec ph 4) as [->|Hne]; [lia|].
  destruct Hat as (Hl & Hc & _). cbn [load_r path_step]. destruct (Nat.eq_dec ph 0%nat) as [->|Hp0].
  - destruct Hoffer as [-> Hm]; [done..|]. rewrite bool_decide_eq_true_2 by done. apply load_at_0 in Hl.
    unfold load_ready. by rewrite Hl.
  - assert (Hk : bool_decide (is_Some offer) && load_ready (u_loader p) = false); [|rewrite Hk; apply Hc; lia].
    unfold load_at, load_ready in *. rewrite (proj2 (Nat.ltb_lt i n)) in Hl by done.
    destruct (pad i) eqn:Hpad; destruct ph as [|[|[|[|[|]]]]]; try lia; destruct_and?;
      repeat match goal with E : l_state _ = _ |- _ => rewrite E end; cbn; rewrite ?andb_false_r; try done;
      rewrite Hnone by (right; split; [done|lia]); done.
Qed.

Lemma array_clock : mac_at (taken i' ph') (arrives i' ph') p'.
Proof using All.
  destruct (path_signals i ph p r b Hph Hat) as (Hacc & Hready & _).
  pose proof (load_pair i ph (u_loader p) Hph (proj1 Hat)) as Hpair. destruct Hat as (Hl & Hc & (Hv & Hm) & _).
  rewrite arrives_next, taken_next by done. unfold mac_at. cbn [u_pe last_inner_d wr_addr_d acc path_step].
  unfold pe_step, accum_step, acc_clear, pe_ready_out. rewrite Hacc, Hpair, Hv.
  destruct (takes i ph) eqn:Ht.
  - destruct (taken_taking i ph Hph Ht) as (Hq & Hi & Hp1). rewrite Hq in *. destruct (Hc Hi Hp1) as (Hlast & Hclr & Haddr).
    assert (Hf : arrives i ph = false).
    { destruct (arrives i ph) eqn:Hf; [|done]. by rewrite (arrives_not_taking i ph Hph Hf) in Ht. }
    rewrite Hf in *. cbn [negb orb andb pe_valid_r result_r]. split_and!; [done|done|by apply Haddr|].
    assert (Ho : act_r (u_loader p) = operand_a i /\ wt_r (u_loader p) = operand_b i).
    { unfold load_at, takes in *. rewrite (proj2 (Nat.ltb_lt i n)) in * by done.
      destruct (pad i) eqn:Hpad; destruct ph as [|[|[|[|[|]]]]]; try done; destruct_and?;
        first [by split | unfold operand_a, operand_b; rewrite Hpad; by split]. }
    destruct Ho as [-> ->]. unfold accum_feedback. cbn [sum_after]. rewrite Hclr, andb_true_r.
    destruct (it_clr (its i)) eqn:Hci; [done|]. destruct i as [|j]; [congruence|by destruct Hm as (_ & _ & ->)].
  - rewrite andb_false_r. cbn [andb]. destruct (arrives i ph) eqn:Hf.
    + rewrite Hready by done. cbn [andb pe_valid_r result_r]. split; [done|]. by destruct (taken i ph).
    + cbn [andb]. split; [done|]. by destruct (taken i ph).
Qed.

Lemma ports_clock : ports_at i' ph' r'.
Proof using All.
  destruct (path_signals i ph p r b Hph Hat) as (Hacc & _).
  destruct (load_requests i ph _ Hph (proj1 Hat)) as [Hwr Har].
  destruct Hat as (Hl & Hc & _ & (Hnb & _) & _ & Hm). pose proof no_weight_and_bias as Hnw.
  assert (Hwb : act_mem (mem_at (5 * i + ph)) = mem_cells (u_act_buf b) /\ wt_mem m0 = mem_cells (u_wt_buf b)).
  { rewrite <- (mem_at_wt (5 * i + ph)), <- Hm. done. }
  destruct Hwb as [Hab Hwb]. unfold ports_at. split_and!.
  - by apply router_no_pending.
  - intros Hp'. unfold next_ph in Hp'. assert (ph = 0%nat) by (destruct (Nat.eqb_spec ph 4); lia). subst ph.
    unfold requesting in *. rewrite andb_false_r in *.
    assert (Ht : takes i 0 = false) by (unfold takes; destruct (pad i); apply andb_false_r). rewrite Ht in Hacc.
    cbn. unfold wt_be_req, wt_issue_bias. cbn. by rewrite Hwr, Har, Hacc, Hnb, andb_false_r.
  - intros Hp' Hi Hpad. unfold next_ph, next_i in *. assert (ph = 1%nat) by (destruct (Nat.eqb_spec ph 4); lia). subst ph.
    cbn [Nat.eqb] in *. unfold requesting in *. rewrite (proj2 (Nat.ltb_lt i n)), Hpad in * by done. cbn in Hwr, Har.
    unfold load_at in Hl. rewrite (proj2 (Nat.ltb_lt i n)), Hpad in Hl by done. destruct Hl as (_ & _ & _ & _ & Haa & Hwa).
    cbn in Hnw. rewrite Hwr, andb_true_r in Hnw. cbn. unfold wt_be_req, wt_be_addr, wt_issue_bias. cbn.
    rewrite Hwr, Har, Hnw, Hnb, Haa, Hwa, <- Hab, <- Hwb. cbn. split_and!; [|..|done].
    + unfold rport_step, operand_a. rewrite Hpad. f_equal. apply mem_at_act. intros j Hj Hlast Ht. apply Hsafe; [destruct (pad j); lia|done..].
    + unfold rport_step, operand_b. by rewrite Hpad.
  - rewrite arrives_next, taken_next by done. intros Ht. rewrite Ht in *. cbn [pred].
    destruct (taken_taking i ph Hph Ht) as (-> & Hi & Hp1). destruct (Hc Hi Hp1) as (Hlast & _ & Haddr). intros Hil.
    cbn in Hnw. rewrite Hlast, Hil, Hacc in Hnw. cbn in Hnw.
    cbn. unfold wt_be_req, wt_be_addr, wt_issue_bias. cbn. rewrite Hnw, Hlast, Hil, Hacc, Hnb, <- Hwb. cbn.
    by destruct Haddr as [_ ->].
Qed.

Lemma chain_clock : chain_at (S (5 * i + ph)) p'.
Proof using All.
  destruct (path_signals i ph p r b Hph Hat) as (Hacc & Hready & Htrig).
  destruct Hat as (_ & _ & (Hv & Hm) & (Hnb & _ & _ & Hbias) & (Hch & Htr & Hsrc) & _).
  pose proof (aged_spaced (5 * i + ph)) as Hsp. pose proof (trig_at i ph Hph) as Hta.
  set (T := (5 * i + ph)%nat) in *. assert (H0 : aged T 0 = trig T) by (unfold aged; by rewrite Nat.sub_0_r).
  unfold chain_at. rewrite !aged_S. cbn [u_postproc u_wr_addr_q u_writer pp_trigger_r acc bias_val path_step]. split_and!.
  - rewrite Htr, Htrig. unfold pp_out_ready, pp_out_valid. apply (chain_step _ _ _ _ _ _ _ _ _ _ _ (aged T 6)); try done.
    + intros o Ho. rewrite H0, Hta in Ho. destruct (arrives i ph); [|done]. cbn [andb] in Ho.
      destruct (taken i ph) as [|j]; [done|]. cbn [pred] in Ho. destruct (it_last (its j)) eqn:Hlast; [|done].
      injection Ho as <-. destruct Hm as (_ & Ha & _). by apply Ha.
    + intros H5. unfold be_act_wr_gnt. cbn.
      assert (Hs1 : spaced [aged T 1; aged T 2; aged T 3; aged T 4; aged T 5; aged T 6] = true).
      { cbn [spaced] in Hsp. destruct (aged T 0), (aged T 1), (aged T 2); done. }
      destruct (chain_view act_mode quant_shift _ _ _ _ _ _ _ _ _ Hs1 Hch) as (_ & _ & _ & -> & _). by destruct (aged T 5).
  - exact Htrig.
  - intros o Ho. rewrite H0, Hta in Ho. destruct (arrives i ph) eqn:Hf; [|done]. cbn [andb] in Ho.
    destruct (it_last _) eqn:Hlast; [|done]. injection Ho as <-. destruct Hbias as [Hwp Hws]; [done..|].
    unfold be_bias, accum_step, acc_clear. cbn [rd_rvalid rd_rdata]. rewrite Hwp, Hws, Hacc, (arrives_not_taking i ph Hph Hf), andb_false_r, Hv, Hready by done.
    cbn [andb be_rd_r b_rdata o_sum o_bias output_of]. split; [|done].
    destruct (taken i ph) as [|j]; [done|]. by destruct Hm as (_ & _ & ->).
Qed.

Lemma mem_clock : contents (buffers_step b host (be_act_write q)) = mem_at (S (5 * i + ph)).
Proof using All.
  destruct Hat as (_ & _ & _ & _ & (Hch & _) & Hm). pose proof (aged_spaced (5 * i + ph)) as Hsp.
  set (T := (5 * i + ph)%nat) in *.
  assert (Hs1 : spaced [aged T 1; aged T 2; aged T 3; aged T 4; aged T 5; aged T 6] = true).
  { cbn [spaced] in Hsp. destruct (aged T 0), (aged T 1), (aged T 2); done. }
  destruct (chain_view act_mode quant_shift _ _ _ _ _ _ _ _ _ Hs1 Hch) as (_ & _ & _ & Hr & _).
  cbn [be_act_write path_request mem_at]. rewrite Hr. destruct (aged T 5) as [o|]; cbn [fmap option_fmap option_map].
  - rewrite backend_write_step by done. by rewrite Hm.
  - by rewrite read_only_step.
Qed.

(** The schedule is kept. *)
Lemma path_clock : path_at i' ph' p' r' (buffers_step b host (be_act_write q)).
Proof using All.
  destruct (next_clock i ph Hph) as [Hn _]. unfold path_at. rewrite Hn.
  split_and!; [apply load_clock|apply carries_clock|apply array_clock|apply ports_clock|apply chain_clock|apply mem_clock].
Qed.
End clock.

(** ** Before the first iteration and after the last *)

Lemma path_starts p r b : path_rest p -> bias_pending_r r = false -> contents b = m0 -> path_at 0 0 p r b.
Proof using Type.
  intros (Hl & Hv & Ht & Hc) Hr Hm. unfold path_at. split_and!; [by apply load_at_0|lia| |..|done].
  - assert (Hq : taken 0 0 = 0%nat) by (unfold taken; destruct n; [done|]; cbn; by rewrite andb_false_r).
    by rewrite Hq.
  - unfold ports_at. by split_and!.
  - by split_and!.
Qed.

(** No output any more. *)
Lemma trig_none T : (5 * n < T)%nat -> trig T = None.
Proof using Type.
  intros HT. destruct (trig T) as [o|] eqn:Ho; [|done].
  destruct (trig_output _ _ Ho) as (j & _ & Hj & _ & Ht). destruct (pad j); lia.
Qed.

Lemma aged_none T a : (5 * n + a < T)%nat -> aged T a = None.
Proof using Type. intros HT. unfold aged. destruct (a <=? T)%nat; [|done]. apply trig_none. lia. Qed.

Lemma path_ends i ph p r b : (5 * n + 6 < 5 * i + ph)%nat -> (ph < 5)%nat -> path_at i ph p r b -> path_rest p.
Proof using Type.
  intros HT Hp (Hl & _ & (Hv & _) & _ & (Hc & Htr & _) & _).
  assert (Ha : forall a, (a <= 6)%nat -> aged (5 * i + ph) a = None) by (intros a H; apply aged_none; lia).
  rewrite (Ha 1%nat) in Hc, Htr by lia. rewrite (Ha 2%nat), (Ha 3%nat), (Ha 4%nat), (Ha 5%nat), (Ha 6%nat) in Hc by lia.
  split; [|split; [|split; [done|exact Hc]]].
  - unfold load_at in Hl. by rewrite (proj2 (Nat.ltb_ge i n)) in Hl by lia.
  - rewrite Hv. destruct (arrives i ph) eqn:Hf; [|done]. destruct (arrives_phase i ph Hp Hf); lia.
Qed.

(** When the path reports to be empty. *)
Definition none_under_way (T : nat) : bool :=
  negb (present (aged T 1) || present (aged T 2) || present (aged T 3) || present (aged T 4) || present (aged T 5) || present (aged T 6)).

Lemma pipe_empty_at i ph p r b : path_at i ph p r b -> pipe_empty p = none_under_way (5 * i + ph).
Proof using Type.
  intros (_ & _ & _ & _ & (Hch & Htr & _) & _). pose proof (aged_spaced (5 * i + ph)) as Hsp. set (T := (5 * i + ph)%nat) in *.
  assert (Hs1 : spaced [aged T 1; aged T 2; aged T 3; aged T 4; aged T 5; aged T 6] = true).
  { cbn [spaced] in Hsp. destruct (aged T 0), (aged T 1), (aged T 2); done. }
  destruct (chain_view act_mode quant_shift _ _ _ _ _ _ _ _ _ Hs1 Hch) as (Hq & Hs & Hw & _).
  unfold pipe_empty, pp_out_valid, pp_out_ready, none_under_way. rewrite Htr, Hq, Hs, Hw.
  by destruct (aged T 1), (aged T 2), (aged T 3), (aged T 4), (aged T 5), (aged T 6).
Qed.

(** ** What is in the memories in the end *)

(** After the outputs of the first [q] iterations. *)
Fixpoint stored (q : nat) : sram :=
  match q with
  | O => m0
  | S i => if it_last (its i) then write_out (stored i) (output_of i) else stored i
  end.

Lemma mem_at_stored i : (i <= n)%nat -> mem_at (5 * i + 6) = stored i.
Proof using Type.
  induction i as [|i IH]; intros Hi; [done|].
  assert (Htr : forall k, (k < 5)%nat -> aged (5 * i + 6 + k) 5 = trig (5 * i + S k)).
  { intros k Hk. unfold aged. destruct (Nat.leb_spec 5 (5 * i + 6 + k)); [|lia]. f_equal. lia. }
  replace (5 * S i + 6)%nat with (S (5 * i + 6 + 4)) by lia. cbn [mem_at]. rewrite Htr by lia.
  replace (5 * i + 6 + 4)%nat with (S (5 * i + 6 + 3)) by lia. cbn [mem_at]. rewrite Htr by lia.
  replace (5 * i + 6 + 3)%nat with (S (5 * i + 6 + 2)) by lia. cbn [mem_at]. rewrite Htr by lia.
  replace (5 * i + 6 + 2)%nat with (S (5 * i + 6 + 1)) by lia. cbn [mem_at]. rewrite Htr by lia.
  replace (5 * i + 6 + 1)%nat with (S (5 * i + 6 + 0)) by lia. cbn [mem_at]. rewrite Htr, Nat.add_0_r, IH by lia.
  replace (5 * i + 5)%nat with (5 * S i + 0)%nat by lia. rewrite !trig_at by lia. cbn [arrives stored]. unfold takes.
  rewrite (proj2 (Nat.ltb_lt i n)) by lia. cbn [andb].
  destruct (pad i) eqn:Hpad; cbn [Nat.eqb andb].
  - unfold taken. rewrite (proj2 (Nat.ltb_lt i n)), Hpad by lia. cbn [andb Nat.leb pred]. by destruct (it_last (its i)).
  - assert (Hq : pred (taken (S i) 0) = i).
    { unfold taken. destruct (Nat.ltb_spec (S i) n); [by rewrite andb_false_r|cbn; lia]. }
    rewrite Hq. by destruct (it_last (its i)).
Qed.

Lemma mem_at_end T : (5 * n + 6 <= T)%nat -> mem_at T = stored n.
Proof using Type.
  induction 1 as [|T HT IH]; [by apply mem_at_stored|]. cbn [mem_at]. rewrite aged_none by lia. done.
Qed.

Lemma stored_other q a :
  (forall j, (j < q)%nat -> it_last (its j) = true -> dest_cell j <> a) -> cell (act_mem (stored q)) a = cell (act_mem m0) a.
Proof using Type.
  induction q as [|i IH]; intros Ha; [done|]. cbn [stored]. rewrite <- IH by (intros j Hj; apply Ha; lia).
  destruct (it_last (its i)) eqn:Hl; [|done]. unfold cell. cbn [act_mem write_out o_addr output_of].
  rewrite lookup_insert_ne; [done|]. apply (Ha i); [lia|done].
Qed.

Lemma stored_rest q : wt_mem (stored q) = wt_mem m0 /\ psum_mem (stored q) = psum_mem m0.
Proof using Type. induction q as [|i IH]; [done|]. cbn [stored]. destruct (it_last (its i)); exact IH. Qed.

Lemma stored_at q j :
  (j < q)%nat -> it_last (its j) = true ->
  (forall k, (j < k < q)%nat -> it_last (its k) = true -> dest_cell k <> dest_cell j) ->
  cell (act_mem (stored q)) (dest_cell j) = wrap DATA_W (out_byte act_mode quant_shift (output_of j)).
Proof using Type.
  intros Hj Hl. induction q as [|i IH]; intros Hd; [lia|]. cbn [stored]. destruct (decide (i = j)) as [->|Hne].
  - rewrite Hl. unfold cell. cbn [act_mem write_out o_addr output_of]. change (wrap _ (it_addr (its j))) with (dest_cell j).
    by rewrite lookup_insert_eq.
  - rewrite <- IH by (lia || (intros k Hk; apply Hd; lia)).
    destruct (it_last (its i)) eqn:Hli; [|done]. unfold cell. cbn [act_mem write_out o_addr output_of].
    rewrite lookup_insert_ne; [done|]. apply (Hd i); [lia|done].
Qed.

(** ** The sum of an output *)

(** The [len] iterations from [lo] on make one dot product, which fits the
    accumulator. *)
Lemma sum_dot lo len (f : Z -> Z) :
  it_clr (its lo) = true -> (forall t, (0 < t < len)%nat -> it_clr (its (lo + t)%nat) = false) ->
  (forall t, (t < len)%nat -> i8 (operand_a (lo + t)) * i8 (operand_b (lo + t)) = f (Z.of_nat t)) ->
  (forall t, 0 <= t < Z.of_nat len -> Z.abs (f t) <= 16384) -> Z.of_nat len * 16384 <= INT_MAX ->
  forall k, (1 <= k <= len)%nat -> sum_after (lo + k) = Zsum (Z.of_nat k) f.
Proof using Type.
  intros Hclr Hnot Hf Hb Hlen k Hk. induction k as [|k IH]; [lia|].
  rewrite Nat.add_succ_r. cbn [sum_after]. rewrite Hf by lia.
  assert (Hs : Zsum (Z.of_nat (S k)) f = Zsum (Z.of_nat k) f + f (Z.of_nat k)) by (rewrite <- Zsum_succ by lia; f_equal; lia).
  rewrite Hs.
  assert (Hprev : (if it_clr (its (lo + k)%nat) then 0 else sum_after (lo + k)) = Zsum (Z.of_nat k) f).
  { destruct k as [|k]; [by rewrite Nat.add_0_r, Hclr|]. rewrite Hnot by lia. apply IH. lia. }
  rewrite Hprev, <- Hs. apply i32_id.
  pose proof (Zsum_bound (Z.of_nat (S k)) f 16384 ltac:(lia) ltac:(intros; apply Hb; lia)). unfold INT_MIN, INT_MAX in *. lia.
Qed.
End schedule.

(** The bytes that are stored are the reference's. The blocks take the
    activation code 3, which the reference does not know, for ReLU. *)
Lemma out_byte_spec act_mode quant_shift o s bv :
  o_sum o = s -> o_bias o = u8 bv -> fits_i8 bv -> Z.abs s <= INT_MAX - 128 -> 0 <= act_mode <= 2 -> 0 <= quant_shift ->
  out_byte act_mode quant_shift o = u8 (quant_spec quant_shift act_mode (s + bv)).
Proof.
  intros Hs Hb Hbv Habs Ham Hq. unfold out_byte, out_activated, out_biased, biased. rewrite Hs, Hb, i8_u8 by done.
  rewrite i32_id by (unfold INT_MIN, INT_MAX, fits_i8 in *; lia). unfold quantized. rewrite saturated. unfold quant_spec.
  rewrite Z.shiftr_div_pow2 by done. do 4 f_equal. rewrite <- activate_spec. unfold activated, activate.
  change ACT_MODE_RELU with 1. change ACT_MODE_LEAKY_RELU with 2. change LEAKY_SHIFT with 3.
  destruct (Z.eqb_spec act_mode 0), (Z.eqb_spec act_mode 1), (Z.eqb_spec act_mode 2); try lia; done.
Qed.
