(* ===== verification/MacFront.v ===== *)
(** * The two matrix backends, but for their indices

    [gemm_backend] and [conv_backend] have the same text around the same path:
    a sequencer that steps through loop indices, an address generator, the
    metadata registers, [done] and [busy]. The class [MacFront] holds what
    differs; [FrontLaws] is what the indices of a command promise, and the
    schedule of a whole command follows from it. *)

From S2P Require Import Prelude Regs CArith Golden Mem BackendMem Backend ConvBlocks MacPath.
From stdpp Require Import gmap.

Open Scope Z_scope.

(** The states of [gemm_ctrl] and [conv_ctrl]. *)
Inductive seq_state := SQ_IDLE | SQ_LOAD_CFG | SQ_COMPUTE | SQ_DRAIN | SQ_DONE.

Definition sq_is (s t : seq_state) : bool :=
  match s, t with
  | SQ_IDLE, SQ_IDLE | SQ_LOAD_CFG, SQ_LOAD_CFG | SQ_COMPUTE, SQ_COMPUTE | SQ_DRAIN, SQ_DRAIN | SQ_DONE, SQ_DONE => true
  | _, _ => false
  end.

(** Their next state; [last] is the last iteration of all. *)
Definition seq_next (s : seq_state) (cmd_valid iter_ready last : bool) : seq_state :=
  match s with
  | SQ_IDLE => if cmd_valid then SQ_LOAD_CFG else SQ_IDLE
  | SQ_LOAD_CFG => SQ_COMPUTE
  | SQ_COMPUTE => if iter_ready && last then SQ_DRAIN else SQ_COMPUTE
  | SQ_DRAIN => if iter_ready then SQ_DONE else SQ_DRAIN
  | SQ_DONE => SQ_IDLE
  end.

(** Sequencer, address generator, metadata registers, commands. *)
Class MacFront (G A I C : Type) := {
  fr_state : G -> seq_state; fr_cmd : G -> C;
  fr_step : G -> option C -> bool -> G;
  fr_gen_ready : A -> bool; fr_offer : A -> option load_req;
  fr_gen_step : A -> G -> bool -> A;
  fr_meta : I -> iter_meta;
  fr_meta_step : G -> I -> option C -> bool -> I;
  fr_shift : C -> Z; fr_mode : C -> Z;
  fr_reset : G * A * I }.

Record mac_backend (G A I : Type) := mk_mac {
  u_ctrl : G; u_addr_gen : A; iter_r : I; u_path : mac_path; ctrl_finished : bool }.
Arguments mk_mac {G A I}.
Arguments u_ctrl {G A I}.
Arguments u_addr_gen {G A I}.
Arguments iter_r {G A I}.
Arguments u_path {G A I}.
Arguments ctrl_finished {G A I}.

Section mac_backend.
Context {G A I C : Type} {F : MacFront G A I C}.

Abbreviation backend := (mac_backend G A I).

Definition iter_valid (g : G) : bool := sq_is (fr_state g) SQ_COMPUTE.
Definition ctrl_done (g : G) : bool := sq_is (fr_state g) SQ_DONE.
Definition ctrl_busy (g : G) : bool := negb (sq_is (fr_state g) SQ_IDLE).

Section signals.
Context (b : backend).

Definition iter_ready : bool := fr_gen_ready (u_addr_gen b).
Definition iter_accept : bool := iter_valid (u_ctrl b) && iter_ready.
Definition mac_done : bool := (ctrl_done (u_ctrl b) || ctrl_finished b) && pipe_empty (u_path b).
Definition mac_busy : bool := ctrl_busy (u_ctrl b) || negb (pipe_empty (u_path b)) || ctrl_finished b.
Definition mac_ready : bool := sq_is (fr_state (u_ctrl b)) SQ_IDLE.

Definition mac_step (cmd : option C) (act wt bias : rd_answer) (out_wr_gnt : bool) : backend :=
  let g := u_ctrl b in
  mk_mac
    (fr_step g cmd iter_ready)
    (fr_gen_step (u_addr_gen b) g (load_ready (u_loader (u_path b))))
    (fr_meta_step g (iter_r b) (if mac_ready then cmd else None) iter_accept)
    (path_step (u_path b) (fr_offer (u_addr_gen b)) (fr_meta (iter_r b)) (fr_shift (fr_cmd g)) (fr_mode (fr_cmd g))
       act wt bias out_wr_gnt)
    (if mac_done then false else ctrl_done g || ctrl_finished b).
End signals.

Definition mac_reset : backend := mk_mac fr_reset.1.1 fr_reset.1.2 fr_reset.2 path_reset false.

#[export] Instance mac_ports : Backend backend C := {|
  bk_step := mac_step; bk_request b := path_request (u_path b); bk_ready := mac_ready; bk_busy := mac_busy;
  bk_done := mac_done; bk_reset := mac_reset |}.

Definition mac_rest (b : backend) : Prop :=
  fr_state (u_ctrl b) = SQ_IDLE /\ fr_gen_ready (u_addr_gen b) = true /\ fr_offer (u_addr_gen b) = None /\
  path_rest (u_path b) /\ ctrl_finished b = false.

Definition mac_at_rest (s : backend * router) : Prop := mac_rest s.1 /\ no_bias s.

Lemma mac_rest_view b : mac_rest b ->
  mac_busy b = false /\ mac_done b = false /\ mac_ready b = true /\ asks_nothing (bk_request b).
Proof using Type.
  intros (Hs & _ & _ & Hp & Hf). destruct (path_rest_view _ Hp) as [Hq He].
  unfold mac_busy, mac_done, mac_ready, ctrl_busy, ctrl_done. by rewrite Hs, Hf, He.
Qed.
End mac_backend.

(** ** At rest *)

(** The sequencer waits for a command, the address generator for an iteration. *)
Class FrontRest {G A I C} (F : MacFront G A I C) := {
  seq_stays g ready : fr_state g = SQ_IDLE -> fr_state (fr_step g None ready) = SQ_IDLE;
  gen_idle a g ready : iter_valid g = false -> fr_gen_ready a = true ->
    fr_gen_ready (fr_gen_step a g ready) = true;
  gen_idle_offer a : fr_gen_ready a = true -> fr_offer a = None;
  front_resets : fr_state fr_reset.1.1 = SQ_IDLE /\ fr_gen_ready fr_reset.1.2 = true }.

Section rest.
Context {G A I C : Type} {F : MacFront G A I C} {R : FrontRest F}.

Lemma mac_rest_stays (b : mac_backend G A I) act wt bias gnt : mac_rest b -> mac_rest (mac_step b None act wt bias gnt).
Proof using R.
  intros (Hs & Hg & Ho & Hp & Hf). assert (Hv : iter_valid (u_ctrl b) = false) by (unfold iter_valid; by rewrite Hs).
  unfold mac_rest, mac_step. cbn. rewrite Ho. unfold ctrl_done. rewrite Hs, Hf. split_and!.
  - by apply seq_stays.
  - by apply gen_idle.
  - by apply gen_idle_offer, gen_idle.
  - by apply path_rest_step.
  - by destruct (mac_done b).
Qed.

(** Only an arriving bias is noticed. *)
Lemma path_rest_deaf p m qs am act wt bias gnt act' wt' bias' gnt' :
  path_rest p -> rd_rvalid bias = false -> rd_rvalid bias' = false ->
  path_step p None m qs am act wt bias gnt = path_step p None m qs am act' wt' bias' gnt'.
Proof using Type.
  intros (Hl & _ & _ & _ & _ & _ & _ & Hw) Hb Hb'. unfold path_step. rewrite Hb, Hb'. f_equal.
  - unfold load_step, load_next. by rewrite Hl.
  - unfold writer_step. by rewrite Hw.
Qed.

(** They are [done] too early to keep the contract ([GemmData.gemm_done_early],
    [ConvData.conv_done_early]): no command is runnable in its sense. *)
#[export, program] Instance mac_laws : BackendLaws (mac_ports (F := F)) := {|
  bk_cycles _ := 0%nat; bk_runnable _ := False; bk_rest := mac_rest; bk_runs _ _ _ := False |}.
Next Obligation. apply mac_rest_view. Qed.
Next Obligation.
  intros b cmd a w i g a' w' i' g' (_ & _ & Ho & Hp & _) Hi Hi'. cbn. unfold mac_step. rewrite Ho. f_equal. by apply path_rest_deaf.
Qed.
Next Obligation. intros. by apply mac_rest_stays. Qed.
Next Obligation. done. Qed.
Next Obligation. done. Qed.
Next Obligation. done. Qed.
Next Obligation. done. Qed.
Next Obligation. destruct front_resets as [Hs Hg]. split_and!; [done|done|by apply gen_idle_offer|by split_and!|done]. Qed.
End rest.

(** ** What the indices of a command promise *)

(** [computing P]: iteration [P] of [n] is the next to be handed over;
    [preparing k P]: the addresses of iteration [P] are computed, [k] clocks after
    it was handed over, and offered from clock [depth] on; [meta_at P]: the
    metadata after [P] iterations. *)
Class FrontLaws {G A I C} (F : MacFront G A I C) (c : C) (n : nat) (its : nat -> iteration) := {
  front_rest :: FrontRest F;
  depth : nat;
  computing : nat -> G -> Prop;
  preparing : nat -> nat -> A -> Prop;
  meta_at : nat -> I -> Prop;
  n_pos : (0 < n)%nat;
  depth_bounds : (1 <= depth <= 3)%nat;
  seq_accepts g ready : fr_state g = SQ_IDLE -> fr_state (fr_step g (Some c) ready) = SQ_LOAD_CFG /\ fr_cmd (fr_step g (Some c) ready) = c;
  seq_loads g ready : fr_state g = SQ_LOAD_CFG -> fr_cmd g = c -> computing 0 (fr_step g None ready);
  seq_ends g ready : fr_state g = SQ_DONE \/ fr_state g = SQ_IDLE -> fr_cmd g = c ->
    fr_state (fr_step g None ready) = SQ_IDLE /\ fr_cmd (fr_step g None ready) = c;
  computing_state P g : computing P g -> (P <= n)%nat ->
    fr_cmd g = c /\ fr_state g = if (P <? n)%nat then SQ_COMPUTE else SQ_DRAIN;
  computing_hold P g : computing P g -> computing P (fr_step g None false);
  computing_next P g : (P < n)%nat -> computing P g -> computing (S P) (fr_step g None true);
  draining g : computing n g -> fr_cmd (fr_step g None true) = c /\ fr_state (fr_step g None true) = SQ_DONE;
  gen_accepts P a g ready : computing P g -> (P < n)%nat -> fr_gen_ready a = true -> preparing 0 P (fr_gen_step a g ready);
  gen_prepares k P a g ready : preparing k P a -> (k < 3)%nat -> (k < depth)%nat \/ ready = false -> preparing (S k) P (fr_gen_step a g ready);
  gen_waits k P a : preparing k P a -> (depth <= k)%nat -> preparing 3 P a;
  gen_busy k P a : preparing k P a -> fr_gen_ready a = false;
  gen_quiet k P a : preparing k P a -> (k < depth)%nat -> fr_offer a = None;
  gen_offers P a : preparing 3 P a -> fr_offer a = Some (it_load (its P));
  gen_taken P a g : preparing 3 P a -> fr_gen_ready (fr_gen_step a g true) = true;
  meta_start g m : fr_state g = SQ_IDLE -> meta_at 0 (fr_meta_step g m (Some c) false);
  meta_hold g m : fr_meta_step g m None false = m;
  meta_next P g m : (P < n)%nat -> computing P g -> meta_at P m -> meta_at (S P) (fr_meta_step g m None true);
  meta_carries P m : (P < n)%nat -> meta_at (S P) m -> carries its P (fr_meta m);
  pad_depth i : lr_pad (it_load (its i)) = true -> depth = 3%nat }.

Section schedule.
Context {G A I C : Type} {F : MacFront G A I C} {c : C} {n : nat} {its : nat -> iteration} {L : FrontLaws F c n its}.
Context (m0 : sram).

Abbreviation world := (mac_backend G A I * router * buffers)%type.
Abbreviation path_in := (path_at n its (fr_shift c) (fr_mode c) m0).
Abbreviation quiet_at := (none_under_way n its m0).

(** ** The schedule, from the first offer on *)

(** The clock of [DONE]. *)
Definition last_issue : nat := 5 * (n - 1) + 2.

(** [ctrl_finished] and [done]. *)
Fixpoint finished_at (T : nat) : bool :=
  match T with
  | O => false
  | S T => ((T =? last_issue)%nat || finished_at T) && negb (quiet_at T)
  end.

Definition done_at (T : nat) : bool := ((T =? last_issue)%nat || finished_at T) && quiet_at T.

(** From its third clock on an iteration has handed over to the next one. *)
Definition ahead (ph : nat) : bool := match ph with O | 1%nat => false | _ => true end.

Definition ctrl_phase (i ph : nat) (g : G) : Prop :=
  let P := if ahead ph then S (S i) else S i in
  if (P <=? n)%nat then computing P g
  else fr_cmd g = c /\ fr_state g = if (5 * i + ph =? last_issue)%nat then SQ_DONE else SQ_IDLE.

Definition gen_phase (i ph : nat) (a : A) : Prop :=
  match ph with
  | O => if (i <? n)%nat then preparing 3 i a else fr_gen_ready a = true
  | 1%nat => fr_gen_ready a = true
  | S (S k) => if (S i <? n)%nat then preparing k (S i) a else fr_gen_ready a = true
  end.

Definition meta_phase (i ph : nat) (m : I) : Prop :=
  let P := if ahead ph then S i else i in (P < n)%nat -> meta_at (S P) m.

Definition mac_at (i ph : nat) (w : world) : Prop :=
  let b := w.1.1 in
  path_in i ph (u_path b) w.1.2 w.2 /\ ctrl_phase i ph (u_ctrl b) /\ gen_phase i ph (u_addr_gen b) /\
  meta_phase i ph (iter_r b) /\ ctrl_finished b = finished_at (5 * i + ph).

Lemma computing_eq P Q g : P = Q -> computing P g -> computing Q g.
Proof using Type. by intros ->. Qed.

Lemma ctrl_view i ph g : (ph < 5)%nat -> ctrl_phase i ph g ->
  ctrl_done g = (5 * i + ph =? last_issue)%nat /\ ctrl_busy g = (5 * i + ph <=? last_issue)%nat.
Proof using L.
  intros Hp Hg. pose proof n_pos as Hn. unfold ctrl_phase, ctrl_done, ctrl_busy, last_issue in *.
  set (P := if ahead ph then S (S i) else S i) in *.
  assert (HP : (P <=? n)%nat = (5 * i + ph <? 5 * (n - 1) + 2)%nat).
  { unfold P, ahead. destruct (Nat.ltb_spec (5 * i + ph) (5 * (n - 1) + 2)), ph as [|[|ph]]; apply Nat.leb_le || apply Nat.leb_gt; lia. }
  rewrite HP in Hg. destruct (Nat.ltb_spec (5 * i + ph) (5 * (n - 1) + 2)) as [Hlt|Hge].
  - destruct (computing_state P g Hg ltac:(by apply Nat.leb_le)) as [_ Hs].
    rewrite (proj2 (Nat.eqb_neq _ _)), (proj2 (Nat.leb_le _ _)) by lia. rewrite Hs. by destruct (P <? n)%nat.
  - destruct Hg as [_ ->]. destruct (Nat.eqb_spec (5 * i + ph) (5 * (n - 1) + 2)) as [->|Hne].
    + by rewrite Nat.leb_refl.
    + by rewrite (proj2 (Nat.leb_gt _ _)) by lia.
Qed.

Lemma mac_view i ph w : (ph < 5)%nat -> mac_at i ph w ->
  mac_done w.1.1 = done_at (5 * i + ph) /\
  mac_busy w.1.1 = (5 * i + ph <=? last_issue)%nat || finished_at (5 * i + ph) || negb (quiet_at (5 * i + ph)) /\
  mac_ready w.1.1 = negb (5 * i + ph <=? last_issue)%nat.
Proof using L.
  intros Hp (Hpath & Hg & _ & _ & Hf). destruct (ctrl_view i ph _ Hp Hg) as [Hd Hb].
  pose proof (pipe_empty_at _ _ _ _ _ _ _ _ _ _ Hpath) as Hq. unfold mac_done, mac_busy, mac_ready, done_at.
  assert (Hready : sq_is (fr_state (u_ctrl w.1.1)) SQ_IDLE = negb (ctrl_busy (u_ctrl w.1.1))) by (unfold ctrl_busy; by rewrite negb_involutive).
  rewrite Hready, Hd, Hb, Hf, Hq. split_and!; [done|..|done]. by rewrite <- !orb_assoc, (orb_comm (negb _)).
Qed.

Lemma ctrl_cmd i ph g : ctrl_phase i ph g -> fr_cmd g = c.
Proof using L.
  unfold ctrl_phase. destruct (Nat.leb_spec (if ahead ph then S (S i) else S i) n) as [HP|HP]; [|by intros [Hc _]].
  intros Hg. by apply (computing_state _ g Hg HP).
Qed.

(** Nothing is handed over any more. *)
Lemma ctrl_over i ph g : (n <= i)%nat \/ (S i = n /\ (2 <= ph)%nat) -> ctrl_phase i ph g -> iter_valid g = false.
Proof using L.
  intros Hi Hg. unfold ctrl_phase in Hg.
  rewrite (proj2 (Nat.leb_gt _ n)) in Hg by (destruct ph as [|[|ph]]; cbn [ahead]; lia).
  destruct Hg as [_ Hs]. unfold iter_valid. rewrite Hs. by destruct (_ =? _)%nat.
Qed.

Lemma ctrl_before i ph g : (i < n)%nat -> (ph <= 1)%nat -> ctrl_phase i ph g -> computing (S i) g.
Proof using Type.
  intros Hi Hp Hg. unfold ctrl_phase in Hg. destruct ph as [|[|]]; [..|lia]; cbn [ahead] in Hg;
    by rewrite (proj2 (Nat.leb_le _ n)) in Hg by lia.
Qed.

Lemma computing_over g : computing n g -> iter_valid g = false.
Proof using Type.
  intros Hg. destruct (computing_state n g Hg (Nat.le_refl n)) as [_ Hs]. rewrite Nat.ltb_irrefl in Hs.
  unfold iter_valid. by rewrite Hs.
Qed.

Lemma gen_ready_at i ph a : (ph < 5)%nat -> gen_phase i ph a ->
  fr_gen_ready a = (ph =? 1)%nat || negb (if ahead ph then S i <? n else i <? n)%nat.
Proof using Type.
  intros Hp Ha. unfold gen_phase in Ha. destruct ph as [|[|[|[|[|]]]]]; [..|lia]; cbn [ahead Nat.eqb orb]; try done;
    (destruct (_ <? n)%nat; [by apply gen_busy in Ha|done]).
Qed.

Lemma ctrl_clock i ph g a : (ph < 5)%nat -> ctrl_phase i ph g -> gen_phase i ph a ->
  ctrl_phase (next_i i ph) (next_ph ph) (fr_step g None (fr_gen_ready a)).
Proof using Type.
  intros Hp Hg Ha. pose proof n_pos as Hn. rewrite (gen_ready_at i ph) by done. clear Ha.
  set (ready := (ph =? 1)%nat || negb (if ahead ph then S i <? n else i <? n)%nat).
  assert (Hover : (n <= i)%nat \/ (S i = n /\ (2 <= ph)%nat) -> ctrl_phase (next_i i ph) (next_ph ph) (fr_step g None ready)).
  { intros Hi. unfold ctrl_phase, last_issue in *. destruct (next_clock i ph Hp) as [-> _].
    rewrite (proj2 (Nat.leb_gt _ n)) in Hg by (destruct ph as [|[|ph]]; cbn [ahead]; lia).
    rewrite (proj2 (Nat.leb_gt _ n)) by (destruct ph as [|[|[|[|[|ph]]]]]; cbn; lia).
    rewrite (proj2 (Nat.eqb_neq (S _) _)) by lia. destruct Hg as [Hc Hs].
    destruct (seq_ends g ready) as [-> ->]; [|done..]. destruct (_ =? _)%nat; auto. }
  destruct (Nat.leb_spec n i); [by apply Hover; left|].
  destruct (Nat.eqb_spec (S i) n) as [He|Hne]; [destruct (Nat.leb_spec 2 ph); [by apply Hover; right|]|]; clear Hover.
  - assert (Hc : computing n g) by (apply (computing_eq (S i)); [done|]; by apply (ctrl_before i ph); [..|lia|]).
    unfold ctrl_phase. destruct ph as [|[|]]; [..|lia]; unfold next_i, next_ph; cbn [Nat.eqb ahead] in *.
    + rewrite (proj2 (Nat.leb_le _ n)) by lia. subst ready. rewrite (proj2 (Nat.ltb_lt i n)) by lia. cbn [negb orb].
      apply (computing_eq n); [done|]. by apply computing_hold.
    + rewrite (proj2 (Nat.leb_gt _ n)) by lia. rewrite (proj2 (Nat.eqb_eq _ _)) by (unfold last_issue; lia).
      by apply draining.
  - unfold ctrl_phase in *. subst ready. destruct ph as [|[|[|[|[|]]]]]; [..|lia]; unfold next_i, next_ph; cbn [Nat.eqb ahead orb] in *;
      rewrite !(proj2 (Nat.leb_le _ n)) in * by lia; rewrite ?(proj2 (Nat.ltb_lt _ n)) by lia; cbn [negb].
    + by apply computing_hold.
    + apply computing_next; [lia|done].
    + by apply computing_hold.
    + by apply computing_hold.
    + by apply computing_hold.
Qed.

Lemma gen_clock i ph g a ready : (ph < 5)%nat -> ctrl_phase i ph g -> gen_phase i ph a ->
  ((i < n)%nat -> ph = 0%nat -> ready = true) ->
  ((i < n)%nat -> (2 <= ph)%nat -> lr_pad (it_load (its i)) = false -> ready = false) ->
  gen_phase (next_i i ph) (next_ph ph) (fr_gen_step a g ready).
Proof using Type.
  intros Hp Hg Ha Hr0 Hr2. destruct (Nat.leb_spec n i) as [Hi|Hi].
  - pose proof (ctrl_over i ph g (or_introl Hi) Hg) as Hv. unfold gen_phase in *.
    destruct ph as [|[|[|[|[|]]]]]; [..|lia]; cbn [next_i next_ph Nat.eqb];
      rewrite ?(proj2 (Nat.ltb_ge _ n)) in * by lia; by apply gen_idle.
  - assert (Hmove : forall k, ph = S (S k) -> (k < 3)%nat -> gen_phase i ph a ->
      if (S i <? n)%nat then preparing (S k) (S i) (fr_gen_step a g ready) else fr_gen_ready (fr_gen_step a g ready) = true).
    { intros k -> Hk Hgk. cbn [gen_phase] in Hgk. destruct (Nat.ltb_spec (S i) n) as [HS|HS].
      - apply gen_prepares; [done|lia|]. destruct (lr_pad (it_load (its i))) eqn:Hpad.
        + left. by rewrite (pad_depth i Hpad).
        + right. apply Hr2; [done|lia|done].
      - apply gen_idle; [apply (ctrl_over i (S (S k)) g); [lia|done]|done]. }
    destruct ph as [|[|ph]].
    + unfold next_i, next_ph. cbn [gen_phase Nat.eqb] in *. rewrite (proj2 (Nat.ltb_lt i n)) in Ha by done. rewrite Hr0 by done. by apply (gen_taken i).
    + unfold next_i, next_ph. cbn [gen_phase Nat.eqb] in *. pose proof (ctrl_before i 1 g Hi ltac:(lia) Hg) as Hc. destruct (Nat.ltb_spec (S i) n) as [HS|HS].
      * by apply gen_accepts.
      * apply gen_idle; [|done]. apply computing_over. apply (computing_eq (S i)); [lia|done].
    + specialize (Hmove ph eq_refl ltac:(lia) Ha). destruct ph as [|[|[|]]]; [..|lia]; exact Hmove.
Qed.

Lemma meta_clock i ph b : (ph < 5)%nat -> ctrl_phase i ph (u_ctrl b) -> gen_phase i ph (u_addr_gen b) -> meta_phase i ph (iter_r b) ->
  meta_phase (next_i i ph) (next_ph ph) (fr_meta_step (u_ctrl b) (iter_r b) None (iter_accept b)).
Proof using Type.
  intros Hp Hg Ha Hm. unfold meta_phase, iter_accept, iter_ready in *. rewrite (gen_ready_at i ph) by done.
  destruct (Nat.eqb_spec ph 1) as [->|Hne].
  - cbn. intros HS. pose proof (ctrl_before i 1 _ ltac:(lia) ltac:(lia) Hg) as Hc.
    destruct (computing_state _ _ Hc ltac:(lia)) as [_ Hs]. rewrite (proj2 (Nat.ltb_lt (S i) n)) in Hs by done.
    unfold iter_valid. rewrite Hs. cbn. apply meta_next; [done..|]. apply Hm. cbn. lia.
  - intros HP. assert (HP' : ((if ahead ph then S i else i) < n)%nat).
    { destruct ph as [|[|[|[|[|]]]]]; cbn in *; lia. }
    assert (Hno : iter_valid (u_ctrl b) && (false || negb (if ahead ph then S i <? n else i <? n)%nat) = false).
    { destruct (ahead ph); rewrite (proj2 (Nat.ltb_lt _ n)) by done; by rewrite andb_false_r. }
    rewrite Hno, meta_hold. specialize (Hm HP').
    destruct ph as [|[|[|[|[|]]]]]; cbn [next_i next_ph Nat.eqb ahead] in *; (done || lia).
Qed.

(** One clock, when no command is offered. *)
Lemma mac_clock i ph w host :
  (ph < 5)%nat -> it_clr (its 0%nat) = true -> safe n its -> no_write host -> mac_at i ph w ->
  mac_at (next_i i ph) (next_ph ph) (world_step w None host).
Proof using Type.
  intros Hp Hfirst Hsafe Hhost Hw. destruct (mac_view i ph w Hp Hw) as (Hdone & _).
  destruct Hw as (Hpath & Hg & Ha & Hm & Hf). destruct (ctrl_view i ph _ Hp Hg) as [Hd _].
  destruct (next_clock i ph Hp) as [Hnext _].
  assert (Hl : load_at n its m0 i ph (u_loader (u_path w.1.1))) by apply Hpath.
  unfold mac_at, world_step, side_step. cbn [fst snd bk_step mac_ports mac_step u_ctrl u_addr_gen iter_r u_path ctrl_finished].
  assert (Hnc : (if mac_ready w.1.1 then None else None) = (None : option C)) by by destruct (mac_ready _).
  rewrite Hnc. split; [|split; [|split; [|split]]].
  - rewrite (ctrl_cmd i ph) by done. apply path_clock; try done.
    + intros -> Hi. unfold gen_phase in Ha. rewrite (proj2 (Nat.ltb_lt i n)) in Ha by done.
      split; [by apply gen_offers|]. apply meta_carries; [done|]. by apply Hm.
    + intros Hno. destruct (Nat.leb_spec n i) as [Hi|Hi].
      * apply gen_idle_offer. rewrite (gen_ready_at i ph) by done. destruct (ahead ph); rewrite (proj2 (Nat.ltb_ge _ n)) by lia; apply orb_true_r.
      * destruct Hno as [|[Hpad Hp3]]; [lia|]. apply pad_depth in Hpad. destruct ph as [|[|ph]]; [lia..|]. cbn [gen_phase] in Ha.
        destruct (S i <? n)%nat; [|by apply gen_idle_offer]. apply (gen_quiet ph (S i)); [done|lia].
  - by apply ctrl_clock.
  - apply gen_clock; [done..| |].
    + intros Hi ->. apply load_at_0 in Hl. unfold load_ready. by rewrite Hl.
    + intros Hi Hp2 Hpad. unfold load_at, load_ready in *. rewrite (proj2 (Nat.ltb_lt i n)), Hpad in Hl by done.
      destruct ph as [|[|[|[|[|]]]]]; try lia; destruct_and?; by destruct (l_state _).
  - by apply meta_clock.
  - rewrite Hdone, Hd, Hf, Hnext. cbn [finished_at]. unfold done_at. by destruct (_ || _), (quiet_at _).
Qed.

(** ** Before the first address pair *)

Hypothesis Hfirst : it_clr (its 0%nat) = true.
Hypothesis Hsafe : safe n its.

Definition before (k : nat) (w : world) : Prop :=
  let b := w.1.1 in
  path_rest (u_path b) /\ no_bias w.1 /\ contents w.2 = m0 /\ ctrl_finished b = false /\
  match k with
  | O => fr_cmd (u_ctrl b) = c /\ fr_state (u_ctrl b) = SQ_LOAD_CFG /\ fr_gen_ready (u_addr_gen b) = true /\ meta_at 0 (iter_r b)
  | 1%nat => computing 0 (u_ctrl b) /\ fr_gen_ready (u_addr_gen b) = true /\ meta_at 0 (iter_r b)
  | S (S j) => computing 1 (u_ctrl b) /\ preparing j 0 (u_addr_gen b) /\ meta_at 1 (iter_r b)
  end.

(** A clock in which the path rests. *)
Lemma unoffered_clock (w : world) cmd host :
  path_rest (u_path w.1.1) -> fr_offer (u_addr_gen w.1.1) = None -> no_bias w.1 -> no_write host ->
  let w' := world_step w cmd host in
  path_rest (u_path w'.1.1) /\ no_bias w'.1 /\ contents w'.2 = contents w.2.
Proof using Type.
  intros Hp Ha Hb Hh. destruct (path_rest_view _ Hp) as [Hq _]. cbv zeta. split_and!.
  - cbn. rewrite Ha. by apply path_rest_step.
  - unfold no_bias, world_step, side_step. cbn [fst snd]. apply router_no_pending; [done|].
    destruct Hq as (Hw & _ & Hbi & _). change (bk_request w.1.1) with (path_request (u_path w.1.1)). by rewrite Hbi.
  - apply world_quiet; [done|]. apply Hq.
Qed.

Lemma accepted w host : mac_at_rest w.1 -> contents w.2 = m0 -> no_write host -> before 0 (world_step w (Some c) host).
Proof using L.
  intros [(Hs & Ha & Ho & Hp & Hf) Hb] Hm Hh. destruct (unoffered_clock w (Some c) host Hp Ho Hb Hh) as (Hp' & Hb' & Hm').
  destruct (path_rest_view _ Hp) as [_ He]. destruct (seq_accepts (u_ctrl w.1.1) (fr_gen_ready (u_addr_gen w.1.1)) Hs) as [Hs' Hc'].
  assert (Hiv : iter_valid (u_ctrl w.1.1) = false) by (unfold iter_valid; by rewrite Hs).
  unfold before. split; [done|split; [done|split; [by rewrite Hm'|split; [|split; [|split; [|split]]]]]]; cbn.
  - unfold ctrl_done. rewrite Hs, Hf. by destruct (mac_done _).
  - done.
  - done.
  - by apply gen_idle.
  - unfold mac_ready, iter_accept. rewrite Hs, Hiv. by apply meta_start.
Qed.

Lemma no_command (b : mac_backend G A I) : (if mac_ready b then None else None) = (None : option C).
Proof using Type. by destruct (mac_ready b). Qed.

Lemma before_0 w host : before 0 w -> no_write host -> before 1 (world_step w None host).
Proof using L.
  intros (Hp & Hb & Hm & Hf & Hc & Hs & Ha & Hi) Hh. assert (Hiv : iter_valid (u_ctrl w.1.1) = false) by (unfold iter_valid; by rewrite Hs).
  destruct (unoffered_clock w None host Hp (gen_idle_offer _ Ha) Hb Hh) as (Hp' & Hb' & Hm'). unfold before.
  split; [done|split; [done|split; [by rewrite Hm'|split; [|split; [|split]]]]]; cbn; rewrite ?no_command; unfold iter_accept; rewrite ?Hiv.
  - unfold ctrl_done. rewrite Hs, Hf. by destruct (mac_done _).
  - by apply seq_loads.
  - by apply gen_idle.
  - by rewrite meta_hold.
Qed.

Lemma computing_not_done P g : computing P g -> (P <= n)%nat -> ctrl_done g = false.
Proof using Type. intros Hg HP. destruct (computing_state P g Hg HP) as [_ Hs]. unfold ctrl_done. rewrite Hs. by destruct (P <? n)%nat. Qed.

Lemma before_1 w host : before 1 w -> no_write host -> before 2 (world_step w None host).
Proof using L.
  intros (Hp & Hb & Hm & Hf & Hg & Ha & Hi) Hh. pose proof n_pos as Hn.
  destruct (unoffered_clock w None host Hp (gen_idle_offer _ Ha) Hb Hh) as (Hp' & Hb' & Hm').
  destruct (computing_state 0 _ Hg ltac:(lia)) as [_ Hs]. rewrite (proj2 (Nat.ltb_lt 0 n)) in Hs by done.
  unfold before. split; [done|split; [done|split; [by rewrite Hm'|split; [|split; [|split]]]]]; cbn; rewrite ?no_command;
    unfold iter_accept, iter_ready, iter_valid; rewrite ?Ha, ?Hs.
  - rewrite (computing_not_done 0), Hf by (done || lia). by destruct (mac_done _).
  - by apply computing_next.
  - by apply gen_accepts.
  - by apply meta_next.
Qed.

(** The clocks until the first offer. *)
Definition lead : nat := S (S depth).

Lemma before_2 j w host : (j < depth)%nat -> before (S (S j)) w -> no_write host ->
  if (S j <? depth)%nat then before (S (S (S j))) (world_step w None host) else mac_at 0 0 (world_step w None host).
Proof using L.
  intros Hj (Hp & Hb & Hm & Hf & Hg & Ha & Hi) Hh. pose proof n_pos as Hn. pose proof depth_bounds as Hd.
  destruct (unoffered_clock w None host Hp (gen_quiet j 0 _ Ha Hj) Hb Hh) as (Hp' & Hb' & Hm').
  assert (Hready : fr_gen_ready (u_addr_gen w.1.1) = false) by by eapply gen_busy.
  pose proof (computing_not_done 1 _ Hg ltac:(lia)) as Hnd.
  assert (Hnext : preparing (S j) 0 (u_addr_gen (world_step w None host).1.1)) by (cbn; apply gen_prepares; [done|lia|by left]).
  assert (Hctrl : computing 1 (u_ctrl (world_step w None host).1.1)) by (cbn; unfold iter_ready; rewrite Hready; by apply computing_hold).
  assert (Hmeta : meta_at 1 (iter_r (world_step w None host).1.1)).
  { cbn. rewrite no_command. unfold iter_accept, iter_ready. by rewrite Hready, andb_false_r, meta_hold. }
  assert (Hfin : ctrl_finished (world_step w None host).1.1 = false) by (cbn; rewrite Hnd, Hf; by destruct (mac_done _)).
  destruct (Nat.ltb_spec (S j) depth) as [Hlt|Hge].
  - unfold before. by rewrite Hm'.
  - unfold mac_at. split; [|split; [|split; [|split]]].
    + apply path_starts; [done|done|by rewrite Hm'].
    + unfold ctrl_phase. cbn [ahead]. by rewrite (proj2 (Nat.leb_le 1 n)) by lia.
    + unfold gen_phase. rewrite (proj2 (Nat.ltb_lt 0 n)) by done. by apply (gen_waits (S j)).
    + unfold meta_phase. cbn [ahead]. done.
    + exact Hfin.
Qed.

(** ** From the acceptance of the command on *)

(** The host reads at most, and no command is offered. *)
Definition undisturbed (ins : list (option C * port)) : Prop := Forall (fun x => x.1 = None /\ no_write x.2) ins.

Lemma undisturbed_snoc ins x : undisturbed (ins ++ [x]) -> undisturbed ins /\ x.1 = None /\ no_write x.2.
Proof using Type. intros [Hi [Hx _]%Forall_cons_iff]%Forall_app. done. Qed.

Abbreviation after w host ins := (bk_run (world_step w (Some c) host) ins).

Lemma mac_run w host ins :
  mac_at_rest w.1 -> contents w.2 = m0 -> no_write host -> undisturbed ins ->
  if (length ins <? lead)%nat then before (length ins) (after w host ins)
  else let T := (length ins - lead)%nat in mac_at (T / 5) (T mod 5) (after w host ins).
Proof using All.
  intros Hr Hm Hh. unfold lead. pose proof depth_bounds as Hd.
  induction ins as [|x ins IH] using rev_ind; intros Hins; [by apply accepted|].
  apply undisturbed_snoc in Hins as (Hins & Hx1 & Hx2). specialize (IH Hins).
  rewrite bk_run_snoc, Hx1, length_app. cbn [length]. rewrite Nat.add_1_r.
  destruct (Nat.ltb_spec (length ins) (S (S depth))) as [HL|HL].
  - destruct (length ins) as [|[|j]].
    + rewrite (proj2 (Nat.ltb_lt 1 _)) by lia. by apply before_0.
    + rewrite (proj2 (Nat.ltb_lt 2 _)) by lia. by apply before_1.
    + pose proof (before_2 j _ x.2 ltac:(lia) IH Hx2) as Hs. destruct (Nat.ltb_spec (S j) depth) as [Hlt|Hge].
      * by rewrite (proj2 (Nat.ltb_lt _ _)) by lia.
      * rewrite (proj2 (Nat.ltb_ge _ _)) by lia. by replace (S (S (S j)) - S (S depth))%nat with 0%nat by lia.
  - rewrite (proj2 (Nat.ltb_ge _ _)) by lia. cbv zeta in *.
    destruct (clock_cases (length ins - S (S depth))) as (i & ph & HT & Hp). rewrite HT in IH.
    destruct (clock_split i ph Hp) as [E1 E2]. rewrite E1, E2 in IH. destruct (next_clock i ph Hp) as [Hn Hp'].
    replace (S (length ins) - S (S depth))%nat with (5 * next_i i ph + next_ph ph)%nat by lia.
    destruct (clock_split (next_i i ph) (next_ph ph) Hp') as [-> ->]. by apply mac_clock.
Qed.

(** What it signals. *)
Lemma mac_signals w host ins :
  mac_at_rest w.1 -> contents w.2 = m0 -> no_write host -> undisturbed ins ->
  let l := length ins in let T := (l - lead)%nat in
  mac_done (after w host ins).1.1 = (lead <=? l)%nat && done_at T /\
  mac_busy (after w host ins).1.1 = (l <=? last_issue + lead)%nat || finished_at T || negb (quiet_at T).
Proof using All.
  intros Hr Hm Hh Hins l T. pose proof (mac_run w host ins Hr Hm Hh Hins) as Hrun. fold l T in Hrun. pose proof n_pos.
  destruct (Nat.ltb_spec l lead) as [HL|HL].
  - rewrite (proj2 (Nat.leb_gt _ _)), (proj2 (Nat.leb_le l _)) by lia. cbn [andb orb].
    destruct Hrun as (Hp & _ & _ & Hf & Hs). destruct (path_rest_view _ Hp) as [_ He]. unfold mac_done, mac_busy.
    rewrite He, Hf. destruct l as [|l].
    + destruct Hs as (_ & Hs & _). unfold ctrl_done, ctrl_busy. by rewrite Hs.
    + assert (Hg : exists P, (P <= n)%nat /\ computing P (u_ctrl (after w host ins).1.1)) by (destruct l; [exists 0%nat|exists 1%nat]; split; (lia || apply Hs)).
      destruct Hg as (P & HP & Hg). rewrite (computing_not_done P) by done. split; [done|].
      destruct (computing_state P _ Hg HP) as [_ Hst]. unfold ctrl_busy. rewrite Hst. by destruct (P <? n)%nat.
  - cbv zeta in Hrun. destruct (clock_cases T) as (i & ph & HT & Hp). rewrite HT in Hrun |- *.
    destruct (clock_split i ph Hp) as [E1 E2]. rewrite E1, E2 in Hrun.
    destruct (mac_view i ph _ Hp Hrun) as (-> & -> & _). rewrite (proj2 (Nat.leb_le lead l)) by done. split; [done|].
    f_equal. f_equal. apply eq_true_iff_eq. rewrite !Nat.leb_le. lia.
Qed.

Lemma mac_memory w host ins :
  mac_at_rest w.1 -> contents w.2 = m0 -> no_write host -> undisturbed ins ->
  contents (after w host ins).2 = mem_at n its (fr_shift c) (fr_mode c) m0 (length ins - lead).
Proof using All.
  intros Hr Hm Hh Hins. pose proof (mac_run w host ins Hr Hm Hh Hins) as Hrun.
  destruct (Nat.ltb_spec (length ins) lead) as [HL|HL].
  - replace (length ins - lead)%nat with 0%nat by lia. apply Hrun.
  - destruct Hrun as ((_ & _ & _ & _ & _ & ->) & _). by rewrite <- Nat.div_mod.
Qed.

Lemma quiet_end T : (5 * n + 6 < T)%nat -> quiet_at T = true.
Proof using Type. intros HT. unfold none_under_way. by rewrite !aged_none by lia. Qed.

Lemma finished_end T : (5 * n + 7 < T)%nat -> finished_at T = false.
Proof using L.
  destruct T as [|T]; [done|]. intros HT. cbn [finished_at]. rewrite quiet_end by lia. by rewrite andb_false_r.
Qed.

Lemma mac_rests w host ins :
  mac_at_rest w.1 -> contents w.2 = m0 -> no_write host -> undisturbed ins -> (5 * n + 8 + lead <= length ins)%nat ->
  mac_at_rest (after w host ins).1.
Proof using All.
  intros Hr Hm Hh Hins HL. pose proof (mac_run w host ins Hr Hm Hh Hins) as Hrun. pose proof n_pos.
  rewrite (proj2 (Nat.ltb_ge _ lead)) in Hrun by lia. cbv zeta in Hrun.
  destruct (clock_cases (length ins - lead)) as (i & ph & HT & Hp). rewrite HT in Hrun.
  destruct (clock_split i ph Hp) as [E1 E2]. rewrite E1, E2 in Hrun. destruct Hrun as (Hpath & Hg & Ha & _ & Hf).
  assert (Hready : fr_gen_ready (u_addr_gen (after w host ins).1.1) = true).
  { rewrite (gen_ready_at i ph) by done. destruct (ahead ph); rewrite (proj2 (Nat.ltb_ge _ n)) by lia; apply orb_true_r. }
  split; [split; [|split; [done|split; [by apply gen_idle_offer|split]]]|].
  - unfold ctrl_phase in Hg. rewrite (proj2 (Nat.leb_gt _ n)) in Hg by (destruct (ahead ph); lia).
    rewrite (proj2 (Nat.eqb_neq _ _)) in Hg by (unfold last_issue; lia). apply Hg.
  - apply (path_ends n its (fr_shift c) (fr_mode c) m0 i ph _ _ _ ltac:(lia) Hp Hpath).
  - rewrite Hf. apply finished_end. lia.
  - apply Hpath.
Qed.

(** ** When [done] comes *)

(** If nothing is on its way when the sequencer ends, [done] does not wait. *)
Lemma done_early T : quiet_at last_issue = true -> done_at T = (T =? last_issue)%nat /\ finished_at T = false.
Proof using Type.
  intros Hq. assert (Hf : forall T, finished_at T = false).
  { intros t. induction t as [|t IH]; [done|]. cbn [finished_at]. rewrite IH, orb_false_r.
    destruct (Nat.eqb_spec t last_issue) as [->|]; [by rewrite Hq|done]. }
  split; [|done]. unfold done_at. rewrite Hf, orb_false_r. destruct (Nat.eqb_spec T last_issue) as [->|]; [by rewrite Hq|done].
Qed.

(** That is so when the last iteration but one is no output: the last one is
    still in the loader. *)
Lemma quiet_early T :
  n = 1%nat \/ it_last (its (n - 2)%nat) = false ->
  (last_issue <= T <= 5 * (n - 1) + if lr_pad (it_load (its (n - 1)%nat)) then 3 else 5)%nat -> quiet_at T = true.
Proof using L.
  intros Hl HT. pose proof n_pos as Hn. assert (Hnone : forall a, (a <= 6)%nat -> (1 <= a)%nat -> aged n its m0 T a = None).
  { intros a Ha1 Ha2. unfold aged. destruct (Nat.leb_spec a T); [|done]. destruct (trig n its m0 (T - a)) eqn:Ht; [|done].
    destruct (trig_output _ _ _ _ _ Ht) as (j & _ & Hj & Hlj & Htj). unfold last_issue in HT.
    destruct (decide (j = n - 1)%nat) as [->|Hne].
    - destruct (lr_pad (it_load (its (n - 1)%nat))); lia.
    - assert (Hj2 : j = (n - 2)%nat) by (destruct (lr_pad (it_load (its j))), (lr_pad (it_load (its (n - 1)%nat))); lia). subst j.
      destruct Hl as [Hl|Hl]; [lia|congruence]. }
  unfold none_under_way. by rewrite !Hnone by lia.
Qed.

(** The clock of the last trigger, which comes after the end of the sequencer. *)
Definition last_trigger : nat := 5 * (n - 1) + if lr_pad (it_load (its (n - 1)%nat)) then 3 else 5.

Lemma early_signals w host ins :
  n = 1%nat \/ it_last (its (n - 2)%nat) = false ->
  mac_at_rest w.1 -> contents w.2 = m0 -> no_write host -> undisturbed ins ->
  let l := length ins in
  mac_done (after w host ins).1.1 = (l =? last_issue + lead)%nat /\
  ((last_issue + lead < l <= last_trigger + lead)%nat -> mac_busy (after w host ins).1.1 = false).
Proof using All.
  intros He Hr Hm Hh Hins l. destruct (mac_signals w host ins Hr Hm Hh Hins) as [-> ->]. fold l.
  assert (Hli : (last_issue <= last_issue <= last_trigger)%nat) by (unfold last_issue, last_trigger; destruct (lr_pad _); lia).
  destruct (done_early (l - lead) (quiet_early last_issue He Hli)) as [-> ->]. split.
  - apply eq_true_iff_eq. rewrite andb_true_iff, Nat.leb_le, !Nat.eqb_eq. unfold last_issue. lia.
  - intros Hl. rewrite (proj2 (Nat.leb_gt _ _)), quiet_early by (done || (unfold last_trigger in *; lia)). done.
Qed.

(** If something always is, up to [D], it waits until then. *)
Lemma finished_late D T : (last_issue <= D)%nat -> quiet_at D = true -> (forall t, (last_issue <= t < D)%nat -> quiet_at t = false) ->
  finished_at T = (last_issue <? T)%nat && (T <=? D)%nat.
Proof.
  intros HD Hq Hw. induction T as [|t IH]; [done|]. cbn [finished_at]. rewrite IH.
  destruct (Nat.eqb_spec t last_issue), (Nat.ltb_spec last_issue t), (Nat.leb_spec t D), (Nat.ltb_spec last_issue (S t)),
    (Nat.leb_spec (S t) D); try lia; cbn [andb orb]; rewrite ?Hw by lia; try done;
    replace t with D by lia; by rewrite Hq.
Qed.

Lemma done_late D T : (last_issue <= D)%nat -> quiet_at D = true -> (forall t, (last_issue <= t < D)%nat -> quiet_at t = false) ->
  done_at T = (T =? D)%nat.
Proof using Type.
  intros HD Hq Hw.
  unfold done_at. rewrite (finished_late D) by done. destruct (Nat.eqb_spec T D) as [->|Hne].
  - rewrite Hq. destruct (Nat.eqb_spec D last_issue), (Nat.ltb_spec last_issue D); try lia; cbn; by rewrite ?Nat.leb_refl.
  - destruct (Nat.eqb_spec T last_issue), (Nat.ltb_spec last_issue T), (Nat.leb_spec T D); try lia; try done; cbn; apply Hw; lia.
Qed.

(** In any case [done] comes once, and the backend is busy until then. *)
Lemma done_once : exists D, (last_issue <= D <= 5 * n + 7)%nat /\ (forall T, done_at T = (T =? D)%nat) /\
  forall T, (T <= D)%nat -> (T <=? last_issue)%nat || finished_at T = true.
Proof using L.
  pose proof n_pos as Hn.
  assert (Hleast : forall d, (exists D, (last_issue <= D <= last_issue + d)%nat /\ quiet_at D = true /\
      forall t, (last_issue <= t < D)%nat -> quiet_at t = false) \/
    forall t, (last_issue <= t <= last_issue + d)%nat -> quiet_at t = false).
  { induction d as [|d [(D & HD & Hq)|Hw]].
    - destruct (quiet_at last_issue) eqn:Hq; [left|right].
      + exists last_issue. split_and!; [lia|lia|done|lia].
      + intros t Ht. by replace t with last_issue by lia.
    - left. exists D. split; [lia|done].
    - destruct (quiet_at (last_issue + S d)) eqn:Hq; [left|right].
      + exists (last_issue + S d)%nat. split_and!; [lia|lia|done|]. intros t Ht. apply Hw. lia.
      + intros t Ht. destruct (decide (t = last_issue + S d)%nat) as [->|]; [done|apply Hw; lia]. }
  assert (Hd : (last_issue + (5 * n + 7 - last_issue) = 5 * n + 7)%nat) by (unfold last_issue; lia).
  destruct (Hleast (5 * n + 7 - last_issue)%nat) as [(D & HD & Hq & Hw)|Hw]; rewrite Hd in *.
  - exists D. split; [done|]. split; [intros T; by apply done_late; [lia|..]|]. intros T HT. rewrite (finished_late D) by (done || lia).
    destruct (Nat.leb_spec T last_issue), (Nat.ltb_spec last_issue T), (Nat.leb_spec T D); (done || lia).
  - exfalso. specialize (Hw (5 * n + 7)%nat). rewrite quiet_end in Hw by lia. unfold last_issue in Hw. by specialize (Hw ltac:(lia)).
Qed.

(** Then it rests, and no bias is on its way. *)
Lemma mac_settles w host ins :
  mac_at_rest w.1 -> contents w.2 = m0 -> no_write host -> undisturbed ins -> (5 * n + 9 + lead <= length ins)%nat ->
  mac_at_rest (after w host ins).1 /\ bias_still (after w host ins).1.2.
Proof using All.
  intros Hr Hm Hh Hins HL. split; [apply mac_rests; (done || lia)|].
  destruct ins as [|x ins _] using rev_ind; [cbn in HL; lia|].
  apply undisturbed_snoc in Hins as (Hins & _ & _). rewrite length_app, Nat.add_1_r in HL.
  destruct (mac_rests w host ins Hr Hm Hh Hins ltac:(lia)) as [Hrest Hb]. rewrite bk_run_snoc.
  apply router_still; [done|]. by destruct (mac_rest_view _ Hrest) as (_ & _ & _ & _ & _ & -> & _).
Qed.

(** Without padding, and with outputs at the last two iterations, it does wait. *)
Lemma busy_late T :
  (2 <= n)%nat -> (forall i, lr_pad (it_load (its i)) = false) -> it_last (its (n - 2)%nat) = true -> it_last (its (n - 1)%nat) = true ->
  (last_issue <= T <= 5 * n + 6)%nat -> quiet_at T = false.
Proof using Type.
  intros Hn Hpad Hl2 Hl1 HT. unfold last_issue in HT.
  assert (Htr : forall j, (j < n)%nat -> it_last (its j) = true -> trig n its m0 (5 * S j + 0) <> None).
  { intros j Hj Hl. rewrite trig_at by lia. assert (Hq : pred (taken n its (S j) 0) = j).
    { unfold taken. destruct (Nat.ltb_spec (S j) n); [by rewrite andb_false_r|cbn; lia]. }
    rewrite Hq, Hl. cbn [arrives]. unfold takes. by rewrite (proj2 (Nat.ltb_lt j n)), Hpad by done. }
  assert (Hsome : exists a, (1 <= a <= 6)%nat /\ aged n its m0 T a <> None).
  { unfold aged. destruct (Nat.leb_spec T (5 * (n - 1) + 6)).
    - exists (T - 5 * (n - 1))%nat. split; [lia|]. rewrite (proj2 (Nat.leb_le _ T)) by lia.
      replace (T - (T - 5 * (n - 1)))%nat with (5 * S (n - 2) + 0)%nat by lia. apply Htr; [lia|done].
    - exists (T - 5 * n)%nat. split; [lia|]. rewrite (proj2 (Nat.leb_le _ T)) by lia.
      replace (T - (T - 5 * n))%nat with (5 * S (n - 1) + 0)%nat by lia. apply Htr; [lia|done]. }
  destruct Hsome as (a & Ha & Hs). unfold none_under_way.
  destruct a as [|[|[|[|[|[|[|]]]]]]]; try lia; destruct (aged n its m0 T _) eqn:E in Hs; try done; rewrite E; cbn [present];
    by rewrite ?orb_true_r.
Qed.
End schedule.

(** Nothing happens for [T] clocks. *)
Definition idle_for {C} (T : nat) : list (option C * port) := replicate T (None, no_request).

Lemma idle_undisturbed {C} T : undisturbed (C := C) (idle_for T).
Proof. by apply Forall_replicate. Qed.
