(* ===== verification/GemmBackend.v ===== *)
(** * The matrix backend

    [gemm_ctrl], [gemm_addr_gen] and [gemm_backend]: what [MacFront] leaves open,
    the three loop indices, the two addresses computed in one stage, and the
    laws that these keep for a command with dimensions of at least one. *)

From S2P Require Import Prelude Regs Command Decode CArith Golden Mem BackendMem Backend ConvBlocks MacPath MacFront.
From stdpp Require Import gmap.

Open Scope Z_scope.

(** ** gemm_ctrl *)

Record gemm_ctrl := mk_gemm_ctrl { g_state : seq_state; g_cmd : gemm_cmd_t; m_r : Z; n_r : Z; k_r : Z }.

(** The subtractions are 32 bits wide. *)
Definition last_k (g : gemm_ctrl) : bool := k_r g =? u32 (g_k_dim (g_cmd g) - 1).
Definition last_n (g : gemm_ctrl) : bool := n_r g =? u32 (g_n_dim (g_cmd g) - 1).
Definition outer_last (g : gemm_ctrl) : bool := (m_r g =? u32 (g_m_dim (g_cmd g) - 1)) && last_n g.
Definition acc_clr (g : gemm_ctrl) : bool := sq_is (g_state g) SQ_COMPUTE && (k_r g =? 0).

Definition ctrl_step (g : gemm_ctrl) (cmd : option gemm_cmd_t) (iter_ready : bool) : gemm_ctrl :=
  let st := seq_next (g_state g) (bool_decide (is_Some cmd)) iter_ready (last_k g && outer_last g) in
  let c := match cmd with Some c => if sq_is (g_state g) SQ_IDLE then c else g_cmd g | None => g_cmd g end in
  if sq_is (g_state g) SQ_LOAD_CFG then mk_gemm_ctrl st c 0 0 0
  else if sq_is (g_state g) SQ_COMPUTE && iter_ready then
    if negb (last_k g) then mk_gemm_ctrl st c (m_r g) (n_r g) (wrap 16 (k_r g + 1))
    else if negb (last_n g) then mk_gemm_ctrl st c (m_r g) (wrap 16 (n_r g + 1)) 0
    else mk_gemm_ctrl st c (if m_r g <? u32 (g_m_dim (g_cmd g) - 1) then wrap 16 (m_r g + 1) else m_r g) 0 0
  else mk_gemm_ctrl st c (m_r g) (n_r g) (k_r g).

(** ** gemm_addr_gen *)

Inductive gen_state := A_IDLE | A_STAGE1 | A_OUT.

Record addr_gen := mk_addr_gen {
  a_state : gen_state; a_mul_s1 : Z; b_mul_s1 : Z; a_base_s1 : Z; b_base_s1 : Z; k_s1 : Z; n_s1 : Z;
  a_addr_r : Z; b_addr_r : Z }.

Definition gen_in_ready (a : addr_gen) : bool := match a_state a with A_IDLE => true | _ => false end.
Definition gen_out_valid (a : addr_gen) : bool := match a_state a with A_OUT => true | _ => false end.

Definition gen_step (a : addr_gen) (g : gemm_ctrl) (out_ready : bool) : addr_gen :=
  let c := g_cmd g in
  match a_state a with
  | A_IDLE =>
      if sq_is (g_state g) SQ_COMPUTE then
        mk_addr_gen A_STAGE1 (u32 (m_r g * g_k_dim c)) (u32 (k_r g * g_n_dim c)) (g_a_addr c) (g_b_addr c) (k_r g) (n_r g)
          (a_addr_r a) (b_addr_r a)
      else a
  | A_STAGE1 =>
      mk_addr_gen A_OUT (a_mul_s1 a) (b_mul_s1 a) (a_base_s1 a) (b_base_s1 a) (k_s1 a) (n_s1 a)
        (wrap ADDR_W (a_base_s1 a + wrap ADDR_W (u32 (a_mul_s1 a + k_s1 a))))
        (wrap ADDR_W (b_base_s1 a + wrap ADDR_W (u32 (b_mul_s1 a + n_s1 a))))
  | A_OUT =>
      mk_addr_gen (if out_ready then A_IDLE else A_OUT) (a_mul_s1 a) (b_mul_s1 a) (a_base_s1 a) (b_base_s1 a) (k_s1 a) (n_s1 a)
        (a_addr_r a) (b_addr_r a)
  end.

(** ** gemm_backend *)

(** The metadata of the iteration at hand. *)
Definition iter_next (g : gemm_ctrl) (r : iter_meta) : iter_meta :=
  let c := g_cmd g in
  mk_meta (last_k g) (acc_clr g)
    (if last_k g then wrap ADDR_W (g_c_addr c + wrap ADDR_W (m_r g * g_n_dim c + n_r g)) else im_wr_addr r)
    (if last_k g then wrap ADDR_W (g_bias_addr c + wrap ADDR_W (n_r g)) else im_bias_addr r).

(** The zero padding of the loader is tied to 0. *)
Definition gemm_offer (a : addr_gen) : option load_req :=
  if gen_out_valid a then Some (mk_load_req (a_addr_r a) (b_addr_r a) false) else None.

Definition gemm_ctrl_reset : gemm_ctrl := mk_gemm_ctrl SQ_IDLE (mk_gemm_cmd 0 0 0 0 0 0 0 0 0) 0 0 0.
Definition gemm_gen_reset : addr_gen := mk_addr_gen A_IDLE 0 0 0 0 0 0 0 0.

#[export] Instance gemm_front : MacFront gemm_ctrl addr_gen iter_meta gemm_cmd_t := {|
  fr_state := g_state; fr_cmd := g_cmd; fr_step := ctrl_step;
  fr_gen_ready := gen_in_ready; fr_offer := gemm_offer; fr_gen_step := gen_step;
  fr_meta r := r; fr_meta_step g r _ accept := if accept then iter_next g r else r;
  fr_shift := g_quant_shift; fr_mode := g_act_mode;
  fr_reset := (gemm_ctrl_reset, gemm_gen_reset, mk_meta false false 0 0) |}.

Abbreviation gemm_backend := (mac_backend gemm_ctrl addr_gen iter_meta).

#[export, program] Instance gemm_front_rest : FrontRest gemm_front.
Next Obligation. intros g ready Hs. cbn in *. unfold ctrl_step, seq_next. by rewrite Hs. Qed.
Next Obligation.
  intros a g ready Hv Ha. unfold iter_valid in Hv. cbn in *. unfold gen_in_ready, gen_step in *. rewrite Hv. by destruct (a_state a) eqn:Hs; rewrite ?Hs.
Qed.
Next Obligation. intros a Ha. cbn in *. unfold gen_in_ready, gemm_offer, gen_out_valid in *. by destruct (a_state a). Qed.
Next Obligation. done. Qed.

(** ** The iterations of a command *)

Definition gemm_cmd_fits (c : gemm_cmd_t) : Prop :=
  fits 16 (g_a_addr c) /\ fits 16 (g_b_addr c) /\ fits 16 (g_c_addr c) /\ fits 16 (g_bias_addr c) /\
  fits 16 (g_m_dim c) /\ fits 16 (g_n_dim c) /\ fits 16 (g_k_dim c).

Section command.
Context (c : gemm_cmd_t) (m0 : sram).

Abbreviation M := (g_m_dim c).
Abbreviation N := (g_n_dim c).
Abbreviation K := (g_k_dim c).

(** The indices of iteration [j]: [k] runs fastest, then the column. *)
Definition k_of (j : nat) : Z := Z.of_nat j mod K.
Definition n_of (j : nat) : Z := (Z.of_nat j / K) mod N.
Definition m_of (j : nat) : Z := (Z.of_nat j / K) / N.

Definition gemm_iter (j : nat) : iteration :=
  mk_iter
    (mk_load_req (wrap ADDR_W (g_a_addr c + (m_of j * K + k_of j))) (wrap ADDR_W (g_b_addr c + (k_of j * N + n_of j))) false)
    (k_of j =? K - 1) (k_of j =? 0)
    (wrap ADDR_W (g_c_addr c + (m_of j * N + n_of j))) (wrap ADDR_W (g_bias_addr c + n_of j)).

Definition iterations : nat := Z.to_nat (M * N * K).
Abbreviation n := iterations.

Hypothesis Hfit : gemm_cmd_fits c.
Hypothesis HM : 1 <= M.
Hypothesis HN : 1 <= N.
Hypothesis HK : 1 <= K.

Lemma iterations_pos : (0 < n)%nat.
Proof using HM HN HK. unfold iterations. assert (1 <= M * N) by nia. assert (1 <= M * N * K) by nia. lia. Qed.

Lemma index_range j : (j < n)%nat -> 0 <= Z.of_nat j < M * N * K.
Proof using HM HN HK. unfold iterations. lia. Qed.

Lemma index_bounds j : (j < n)%nat -> 0 <= k_of j < K /\ 0 <= n_of j < N /\ 0 <= m_of j < M.
Proof using HM HN HK. intros Hj. by apply digits_bounds, index_range. Qed.

(** The counters move on like the indices. *)
Lemma index_succ j :
  k_of (S j) = (if k_of j =? K - 1 then 0 else k_of j + 1) /\
  n_of (S j) = (if k_of j =? K - 1 then if n_of j =? N - 1 then 0 else n_of j + 1 else n_of j) /\
  m_of (S j) = (if (k_of j =? K - 1) && (n_of j =? N - 1) then m_of j + 1 else m_of j).
Proof using HN HK. unfold k_of, n_of, m_of. rewrite Nat2Z.inj_succ, <- Z.add_1_r. by apply digits_succ. Qed.

Lemma index_sum j : Z.of_nat j = (m_of j * N + n_of j) * K + k_of j.
Proof using HN HK. by apply digits_sum. Qed.

(** The last one. *)
Lemma index_last j : (j < n)%nat ->
  (k_of j =? K - 1) && ((m_of j =? M - 1) && (n_of j =? N - 1)) = bool_decide (S j = n).
Proof using HM HN HK.
  intros Hj. pose proof (index_range j Hj). unfold k_of, m_of, n_of. rewrite digits_last by done.
  apply bool_decide_ext. unfold iterations. lia.
Qed.

(** ** The sequencer *)

(** Iteration [P] is the next to be handed over; after the last one the
    sequencer drains. *)
Definition gemm_computing (P : nat) (g : gemm_ctrl) : Prop :=
  g_cmd g = c /\
  if (P <? n)%nat then g_state g = SQ_COMPUTE /\ m_r g = m_of P /\ n_r g = n_of P /\ k_r g = k_of P
  else g_state g = SQ_DRAIN.

Lemma dim_pred d : fits 16 d -> 1 <= d -> u32 (d - 1) = d - 1.
Proof using Type. intros Hd H1. apply wrap_small. words. lia. Qed.

Lemma gemm_signals P g : gemm_computing P g -> (P < n)%nat ->
  sq_is (g_state g) SQ_COMPUTE = true /\ last_k g = (k_of P =? K - 1) /\ last_n g = (n_of P =? N - 1) /\
  outer_last g = ((m_of P =? M - 1) && (n_of P =? N - 1)) /\ acc_clr g = (k_of P =? 0).
Proof using Hfit HM HN HK.
  intros [Hc Hs] HP. rewrite (proj2 (Nat.ltb_lt P n)) in Hs by done. destruct Hs as (Hs & Hm & Hn & Hk).
  destruct Hfit as (_ & _ & _ & _ & Hf1 & Hf2 & Hf3).
  unfold last_k, last_n, outer_last, acc_clr, last_n. rewrite Hc, Hs, Hm, Hn, Hk, !dim_pred by done. done.
Qed.

Lemma gemm_hold P g : gemm_computing P g -> gemm_computing P (ctrl_step g None false).
Proof using Type.
  intros [Hc Hs]. unfold gemm_computing, ctrl_step, seq_next. destruct (P <? n)%nat.
  - destruct Hs as (Hs & ?). rewrite Hs. done.
  - rewrite Hs. done.
Qed.

Lemma gemm_next P g : (P < n)%nat -> gemm_computing P g -> gemm_computing (S P) (ctrl_step g None true).
Proof using Hfit HM HN HK.
  intros HP Hg. destruct (gemm_signals P g Hg HP) as (_ & Hk & Hn & Ho & _).
  destruct Hg as [Hc Hs]. rewrite (proj2 (Nat.ltb_lt P n)) in Hs by done. destruct Hs as (Hs & Hmr & Hnr & Hkr).
  destruct (index_succ P) as (Sk & Sn & Sm). destruct (index_bounds P HP) as (Bk & Bn & Bm).
  pose proof (index_last P HP) as Hend. destruct Hfit as (_ & _ & _ & _ & Hf1 & Hf2 & Hf3).
  unfold gemm_computing, ctrl_step, seq_next. rewrite Hs, Hk, Hn, Ho, Hc, Hmr, Hnr, Hkr, dim_pred by done. cbn [sq_is andb].
  rewrite Hend. split; [by destruct (_ =? K - 1), (_ =? N - 1)|].
  destruct (Nat.ltb_spec (S P) n) as [HS|HS].
  - rewrite bool_decide_eq_false_2 in * by lia. destruct (index_bounds (S P) HS) as (Bk' & Bn' & Bm').
    destruct (Z.eqb_spec (k_of P) (K - 1)); cbn [negb andb] in *;
      [destruct (Z.eqb_spec (n_of P) (N - 1)); cbn [negb andb] in *|]; cbn [g_state m_r n_r k_r]; rewrite Sk, Sn, Sm;
      split_and!; try done; try (apply wrap_small; words; lia).
    destruct (Z.ltb_spec (m_of P) (M - 1)); [apply wrap_small; words; lia|lia].
  - rewrite bool_decide_eq_true_2 in * by lia. by destruct (_ =? K - 1), (_ =? N - 1).
Qed.

Lemma gemm_draining g : gemm_computing n g -> g_cmd (ctrl_step g None true) = c /\ g_state (ctrl_step g None true) = SQ_DONE.
Proof using Type.
  intros [Hc Hs]. rewrite Nat.ltb_irrefl in Hs. unfold ctrl_step, seq_next. by rewrite Hs.
Qed.

(** ** The address generator *)

Definition multiplied (P : nat) (a : addr_gen) : Prop :=
  a = mk_addr_gen A_STAGE1 (u32 (m_of P * K)) (u32 (k_of P * N)) (g_a_addr c) (g_b_addr c) (k_of P) (n_of P) (a_addr_r a) (b_addr_r a).

Definition offering (P : nat) (a : addr_gen) : Prop :=
  a_state a = A_OUT /\ a_addr_r a = lr_act (it_load (gemm_iter P)) /\ b_addr_r a = lr_wt (it_load (gemm_iter P)).

Lemma gemm_accepts P a g ready : gemm_computing P g -> (P < n)%nat -> a_state a = A_IDLE -> multiplied P (gen_step a g ready).
Proof using Hfit HM HN HK.
  intros Hg HP Ha. destruct (gemm_signals P g Hg HP) as (Hv & _). destruct Hg as [Hc Hs].
  rewrite (proj2 (Nat.ltb_lt P n)) in Hs by done. destruct Hs as (_ & Hm & Hn & Hk).
  unfold multiplied, gen_step. by rewrite Ha, Hv, Hc, Hm, Hn, Hk.
Qed.

Lemma gemm_offers P a g ready : multiplied P a -> offering P (gen_step a g ready).
Proof using Type.
  intros ->. unfold offering, gen_step. cbn. split; [done|].
  assert (Hw : forall x y z, wrap ADDR_W (x + wrap ADDR_W (u32 (u32 y + z))) = wrap ADDR_W (x + (y + z))).
  { intros x y z. unfold ADDR_W. rewrite wrap_wrap_le by lia. unfold wrap.
    rewrite Zplus_mod_idemp_r, Z.add_assoc, (Z.add_comm x), <- Z.add_assoc.
    change (2 ^ 32) with (2 ^ 16 * 2 ^ 16). rewrite <- Zplus_mod_idemp_l. rewrite Z.mod_mod_divide by (by exists (2 ^ 16)).
    rewrite Zplus_mod_idemp_l. f_equal. lia. }
  by rewrite !Hw.
Qed.

Lemma gemm_holds P a g : offering P a -> offering P (gen_step a g false).
Proof using Type. intros (Hs & Ha & Hb). unfold offering, gen_step. by rewrite Hs. Qed.

Lemma gemm_taken P a g : offering P a -> a_state (gen_step a g true) = A_IDLE.
Proof using Type. intros (Hs & _). unfold gen_step. by rewrite Hs. Qed.

Lemma gemm_meta_next P g r : gemm_computing P g -> (P < n)%nat -> carries gemm_iter P (iter_next g r).
Proof using Hfit HM HN HK.
  intros Hg HP. destruct (gemm_signals P _ Hg HP) as (_ & Hk & _ & _ & Hz). destruct Hg as [Hc Hs].
  rewrite (proj2 (Nat.ltb_lt P n)) in Hs by done. destruct Hs as (_ & Hm & Hn & _).
  unfold carries, iter_next. cbn [im_last im_clr im_wr_addr im_bias_addr gemm_iter it_last it_clr it_addr it_bias].
  rewrite Hk, Hz. split; [done|split; [done|]]. intros Hl. rewrite Hl, Hc, Hm, Hn. unfold wrap. by rewrite !Zplus_mod_idemp_r.
Qed.

Definition gemm_preparing (k P : nat) (a : addr_gen) : Prop := match k with O => multiplied P a | _ => offering P a end.

#[program] Definition gemm_front_laws : FrontLaws gemm_front c n gemm_iter := {|
  depth := 1; computing := gemm_computing; preparing := gemm_preparing;
  meta_at P r := match P with O => True | S j => carries gemm_iter j r end |}.
Next Obligation. exact (iterations_pos). Qed.
Next Obligation. lia. Qed.
Next Obligation. intros g ready Hs. cbn in *. unfold ctrl_step, seq_next. by rewrite Hs. Qed.
Next Obligation.
  intros g ready Hs Hc. cbn in *. unfold gemm_computing, ctrl_step, seq_next. rewrite Hs, Hc. cbn -[Nat.ltb].
  rewrite (proj2 (Nat.ltb_lt 0 n)) by apply iterations_pos. unfold m_of, n_of, k_of. cbn. by rewrite !Zmod_0_l, !Zdiv_0_l.
Qed.
Next Obligation. intros g ready Hs Hc. cbn in *. unfold ctrl_step, seq_next. by destruct Hs as [-> | ->]. Qed.
Next Obligation. intros P g [Hc Hs] HP. split; [done|]. cbn -[Nat.ltb]. by destruct (P <? n)%nat; [destruct Hs as (-> & _)|]. Qed.
Next Obligation. exact gemm_hold. Qed.
Next Obligation. exact gemm_next. Qed.
Next Obligation. exact gemm_draining. Qed.
Next Obligation.
  intros P a g ready Hg HP Ha. cbn in Ha. unfold gen_in_ready in Ha. destruct (a_state a) eqn:Hs; [|done..]. by apply gemm_accepts.
Qed.
Next Obligation.
  intros k P a g ready Ha Hk Hr. destruct k as [|k]; [by apply gemm_offers|]. destruct Hr as [Hr | ->]; [lia|]. by apply gemm_holds.
Qed.
Next Obligation. intros k P a Ha Hk. by destruct k as [|k]; [lia|]. Qed.
Next Obligation. intros k P a Ha. cbn. unfold gen_in_ready. destruct k as [|k]; [by rewrite Ha|by destruct Ha as (-> & _)]. Qed.
Next Obligation. intros k P a Ha Hk. destruct k as [|k]; [|lia]. cbn. unfold gemm_offer, gen_out_valid. by rewrite Ha. Qed.
Next Obligation. intros P a (Hs & Ha & Hb). cbn. unfold gemm_offer, gen_out_valid. by rewrite Hs, Ha, Hb. Qed.
Next Obligation. intros P a g Ha. cbn. unfold gen_in_ready. by rewrite (gemm_taken P). Qed.
Next Obligation. done. Qed.
Next Obligation. done. Qed.
Next Obligation. intros P g r HP Hg _. by apply gemm_meta_next. Qed.
Next Obligation. done. Qed.
Next Obligation. done. Qed.
End command.
