(* ===== verification/GemmData.v ===== *)
(** * What the matrix backend computes, and when it says so

    A command of [GemmBackend] from rest to rest: the bytes it leaves are those of
    [ref_gemm], but [done] comes before the last of them is stored. *)

From S2P Require Import Prelude Regs Command Decode CArith Golden Mem BackendMem Backend ConvBlocks MacPath MacFront GemmBackend.
From stdpp Require Import gmap.

Open Scope Z_scope.

Abbreviation gemm_world := (gemm_backend * router * buffers)%type.

(** ** The matrices *)

Definition gemm_a_cell (c : gemm_cmd_t) (x : Z) : Z := wrap (SRAM_ADDR_W + 1) (wrap ADDR_W (g_a_addr c + x)).
Definition gemm_b_cell (c : gemm_cmd_t) (x : Z) : Z := wrap SRAM_ADDR_W (wrap ADDR_W (g_b_addr c + x)).
Definition gemm_bias_cell (c : gemm_cmd_t) (x : Z) : Z := wrap SRAM_ADDR_W (wrap ADDR_W (g_bias_addr c + x)).
Definition gemm_c_cell (c : gemm_cmd_t) (x : Z) : Z := wrap (SRAM_ADDR_W + 1) (wrap ADDR_W (g_c_addr c + x)).

(** A command that runs, within the indices of [ref_gemm]. *)
Definition gemm_runs (c : gemm_cmd_t) : Prop :=
  gemm_cmd_fits c /\ 1 <= g_m_dim c /\ 1 <= g_n_dim c /\ 1 <= g_k_dim c /\
  g_m_dim c * g_n_dim c <= INT_MAX /\ g_m_dim c * g_k_dim c <= INT_MAX /\ g_k_dim c * g_n_dim c <= INT_MAX /\
  0 <= g_quant_shift c < 32 /\ 0 <= g_act_mode c <= 2.

(** The outputs fall on different cells, none of them an operand. *)
Definition gemm_apart (c : gemm_cmd_t) : Prop :=
  (forall x y, 0 <= x < g_m_dim c * g_k_dim c -> 0 <= y < g_m_dim c * g_n_dim c -> gemm_c_cell c y <> gemm_a_cell c x) /\
  (forall x y, 0 <= x < y -> y < g_m_dim c * g_n_dim c -> gemm_c_cell c y <> gemm_c_cell c x).

(** The matrices are in the buffers; without a bias its cells hold zero. *)
Definition gemm_operands (c : gemm_cmd_t) (m : sram) (a b bias : list Z) : Prop :=
  let '(M, N, K) := (g_m_dim c, g_n_dim c, g_k_dim c) in
  i8_array a (M * K) /\ i8_array b (K * N) /\ bias_wf bias N /\
  (forall x, 0 <= x < M * K -> cell (act_mem m) (gemm_a_cell c x) = u8 (at_ a x)) /\
  (forall x, 0 <= x < K * N -> cell (wt_mem m) (gemm_b_cell c x) = u8 (at_ b x)) /\
  (forall x, 0 <= x < N -> cell (wt_mem m) (gemm_bias_cell c x) = u8 (bias_at bias x)).

(** The product is there, and nothing else has changed. *)
Definition gemm_results (c : gemm_cmd_t) (m m' : sram) (out : list Z) : Prop :=
  let size := g_m_dim c * g_n_dim c in
  (forall x, 0 <= x < size -> cell (act_mem m') (gemm_c_cell c x) = u8 (at_ out x)) /\
  (forall a, (forall x, 0 <= x < size -> gemm_c_cell c x <> a) -> cell (act_mem m') a = cell (act_mem m) a) /\
  wt_mem m' = wt_mem m /\ psum_mem m' = psum_mem m.

Section data.
Context (c : gemm_cmd_t) (m0 : sram).

Abbreviation M := (g_m_dim c).
Abbreviation N := (g_n_dim c).
Abbreviation K := (g_k_dim c).
Abbreviation n := (iterations c).
Abbreviation its := (gemm_iter c).

Hypothesis Hruns : gemm_runs c.
Hypothesis Hapart : gemm_apart c.

(** The output that iteration [j] works on. *)
Definition out_of (j : nat) : Z := m_of c j * N + n_of c j.

Lemma out_bounds j : (j < n)%nat -> 0 <= out_of j < M * N /\ Z.of_nat j = out_of j * K + k_of c j /\ 0 <= k_of c j < K.
Proof using Hruns.
  destruct Hruns as (_ & HM & HN & HK & _). intros Hj. destruct (index_bounds c HM HN HK j Hj) as (Bk & Bn & Bm).
  split; [by apply digit_index|]. by rewrite (index_sum c HN HK j) at 1.
Qed.

Lemma dest_out j : dest_cell its j = gemm_c_cell c (out_of j).
Proof using Type. done. Qed.

Lemma its_last j : it_last (its j) = true -> k_of c j = K - 1.
Proof using Type. apply Z.eqb_eq. Qed.

Lemma out_order i j : (j < i < n)%nat -> it_last (its i) = true -> it_last (its j) = true -> out_of j < out_of i.
Proof using Hruns.
  intros Hij Hi%its_last Hj%its_last. destruct (out_bounds i ltac:(lia)) as (_ & Ei & _). destruct (out_bounds j ltac:(lia)) as (_ & Ej & _).
  destruct Hruns as (_ & _ & _ & HK & _). nia.
Qed.

Lemma gemm_safe : safe n its.
Proof using Hruns Hapart.
  intros i j Hij Hl _. rewrite dest_out. destruct Hapart as [Ha _]. destruct Hruns as (_ & HM & HN & HK & _).
  destruct (index_bounds c HM HN HK i ltac:(lia)) as (Bk & _ & Bm).
  apply (Ha (m_of c i * K + k_of c i) (out_of j)); [by apply digit_index|apply out_bounds; lia].
Qed.

(** The last iteration of an output. *)
Definition closing (x : Z) : nat := Z.to_nat (x * K + (K - 1)).

Lemma closing_index x : 0 <= x < M * N ->
  (closing x < n)%nat /\ it_last (its (closing x)) = true /\ out_of (closing x) = x.
Proof using Hruns.
  intros Hx. destruct Hruns as (_ & HM & HN & HK & _). assert (Hj : 0 <= x * K + (K - 1) < M * N * K) by (apply digit_index; lia).
  assert (Hz : Z.of_nat (closing x) = x * K + (K - 1)) by (unfold closing; lia).
  split; [unfold closing, iterations; lia|]. unfold gemm_iter, out_of, m_of, n_of, k_of. cbn [it_last].
  rewrite Hz, digit_mod, digit_div by lia. split; [apply Z.eqb_refl|]. rewrite Z.mul_comm. symmetry. apply Z.div_mod. lia.
Qed.

(** What the schedule asks for. *)
Definition gemm_laws : FrontLaws gemm_front c n its :=
  gemm_front_laws c (proj1 Hruns) (proj1 (proj2 Hruns)) (proj1 (proj2 (proj2 Hruns))) (proj1 (proj2 (proj2 (proj2 Hruns)))).

Lemma gemm_first : it_clr (its 0%nat) = true.
Proof using Type. cbn [gemm_iter it_clr]. unfold k_of. by rewrite Zmod_0_l. Qed.

Lemma gemm_other q a : (q <= n)%nat -> (forall x, 0 <= x < M * N -> gemm_c_cell c x <> a) ->
  cell (act_mem (stored its (g_quant_shift c) (g_act_mode c) m0 q)) a = cell (act_mem m0) a.
Proof using Hruns.
  intros Hq Ha. apply stored_other. intros j Hj _. rewrite dest_out. apply Ha, out_bounds. lia.
Qed.

Section reference.
Context (a b bias : list Z).
Hypothesis Hops : gemm_operands c m0 a b bias.

Abbreviation product x t := (at_ a ((x / N) * K + t) * at_ b (t * N + x mod N)).
Abbreviation golden := (ref_gemm a b bias M N K (g_quant_shift c) (g_act_mode c)).

Lemma gemm_sum x : 0 <= x < M * N -> sum_after its m0 (S (closing x)) = Zsum K (fun t => product x t).
Proof using Hops Hruns.
  intros Hx. destruct Hruns as (Hf & HM & HN & HK & _). destruct Hops as (Ha & Hb & _ & Hca & Hcb & _).
  assert (Hxd : 0 <= x / N < M /\ 0 <= x mod N < N).
  { split; [split; [apply Z.div_pos; lia|apply Z.div_lt_upper_bound; lia]|apply Z.mod_pos_bound; lia]. }
  set (lo := Z.to_nat (x * K)). assert (Hidx : forall t, (t < Z.to_nat K)%nat ->
    k_of c (lo + t) = Z.of_nat t /\ n_of c (lo + t) = x mod N /\ m_of c (lo + t) = x / N).
  { intros t Ht. unfold k_of, n_of, m_of. replace (Z.of_nat (lo + t)) with (x * K + Z.of_nat t) by (unfold lo; nia).
    by rewrite digit_mod, digit_div by lia. }
  replace (S (closing x)) with (lo + Z.to_nat K)%nat by (unfold lo, closing; nia).
  rewrite (sum_dot its m0 lo (Z.to_nat K) (fun t => product x t)); [by rewrite Z2Nat.id by lia|..].
  - destruct (Hidx 0%nat ltac:(lia)) as (Hk & _). rewrite Nat.add_0_r in Hk. cbn [gemm_iter it_clr]. by rewrite Hk.
  - intros t Ht. destruct (Hidx t ltac:(lia)) as (Hk & _). cbn [gemm_iter it_clr]. rewrite Hk. apply Z.eqb_neq. lia.
  - intros t Ht. destruct (Hidx t ltac:(lia)) as (Hk & Hn & Hm). unfold operand_a, operand_b, act_cell, wt_cell.
    cbn [gemm_iter it_load lr_pad lr_act lr_wt]. rewrite Hk, Hn, Hm.
    change (cell (act_mem m0) _) with (cell (act_mem m0) (gemm_a_cell c (x / N * K + Z.of_nat t))).
    change (cell (wt_mem m0) _) with (cell (wt_mem m0) (gemm_b_cell c (Z.of_nat t * N + x mod N))).
    rewrite Hca by (apply digit_index; lia). rewrite Hcb by (apply digit_index; lia). rewrite !i8_u8; [done|..]; by eapply at_i8.
  - intros t Ht. apply mul_i8_bound; by eapply at_i8.
  - destruct Hf as (_ & _ & _ & _ & _ & _ & Hk). words. unfold INT_MAX. lia.
  - lia.
Qed.

Lemma gemm_reference : exists out, golden = Ok out /\
  gemm_results c m0 (stored its (g_quant_shift c) (g_act_mode c) m0 n) out /\ i8_array out (M * N).
Proof using Hops Hruns Hapart.
  pose proof Hruns as (Hf & HM & HN & HK & HMN & HMK & HKN & Hq & Hact). pose proof Hops as (Ha & Hb & Hbias & Hca & Hcb & Hcbias).
  assert (HKb : K * 16384 + 128 <= INT_MAX) by (destruct Hf as (_ & _ & _ & _ & _ & _ & Hk); words; unfold INT_MAX; lia).
  assert (HMb : M <= INT_MAX /\ N <= INT_MAX) by (destruct Hf as (_ & _ & _ & _ & H1 & H2 & _); words; unfold INT_MAX; lia).
  eexists. split; [apply ref_gemm_correct; (done || lia)|].
  split; [|apply spec_array; [nia|intros i; apply clamp_fits]].
  split; [|split; [intros x Hx; by apply gemm_other|apply stored_rest]].
  intros x Hx. destruct (closing_index x Hx) as (Hlt & Hlast & Hout).
  rewrite <- Hout at 1. rewrite <- dest_out, stored_at; [|done|done|].
  2:{ intros k Hk Hkl. rewrite !dest_out. destruct Hapart as [_ Hd]. apply Hd; [|apply out_bounds; lia].
      split; [apply out_bounds; lia|]. apply out_order; [lia|done|done]. }
  unfold at_ at 1. rewrite (list_lookup_total_fmap (B := Z) _ (seqZ 0 (M * N))) by (rewrite length_seqZ; lia).
  rewrite lookup_total_seqZ_lt, Z2Nat.id, Z.add_0_l by lia. unfold gemm_spec.
  assert (Hxm : 0 <= x mod N < N) by (apply Z.mod_pos_bound; lia).
  rewrite (out_byte_spec _ _ _ (Zsum K (fun t => product x t)) (bias_at bias (x mod N))).
  - unfold wrap, DATA_W. apply Z.mod_mod. lia.
  - by apply gemm_sum.
  - cbn [output_of o_bias]. unfold bias_cell. cbn [gemm_iter it_bias]. rewrite <- (Hcbias (x mod N) Hxm). unfold gemm_bias_cell. do 4 f_equal.
    pose proof (digit_mod (m_of c (closing x)) (n_of c (closing x)) N ltac:(by apply (index_bounds c HM HN HK))) as Hd.
    unfold out_of in Hout. by rewrite Hout in Hd.
  - unfold bias_at. case_bool_decide; [done|]. destruct Hbias as [->|Hbi]; [done|]. by eapply at_i8.
  - assert (Hs : Z.abs (Zsum K (fun t => product x t)) <= K * 16384).
    { apply Zsum_bound; [lia|]. intros t Ht. apply mul_i8_bound; by eapply at_i8. }
    lia.
  - done.
  - lia.
Qed.
End reference.
End data.

Lemma iterations_size c : gemm_runs c -> Z.of_nat (iterations c) = g_m_dim c * g_n_dim c * g_k_dim c.
Proof. intros (_ & HM & HN & HK & _). unfold iterations. rewrite Z2Nat.id; nia. Qed.

Lemma iterations_last c j : gemm_runs c -> (j < iterations c)%nat ->
  it_last (gemm_iter c j) = bool_decide ((Z.of_nat j + 1) mod g_k_dim c = 0).
Proof.
  intros (_ & HM & HN & HK & _) Hj. cbn [gemm_iter it_last]. unfold k_of.
  destruct (div_mod_succ (Z.of_nat j) (g_k_dim c) ltac:(lia)) as [_ ->]. pose proof (Z.mod_pos_bound (Z.of_nat j) (g_k_dim c) ltac:(lia)).
  destruct (Z.eqb_spec (Z.of_nat j mod g_k_dim c) (g_k_dim c - 1)); symmetry; [by apply bool_decide_eq_true_2|].
  apply bool_decide_eq_false_2. lia.
Qed.

(** Before the last iteration there is one that is no output, if there is any. *)
Lemma early_iff c : gemm_runs c ->
  if bool_decide (2 <= g_k_dim c \/ g_m_dim c * g_n_dim c = 1)
  then iterations c = 1%nat \/ it_last (gemm_iter c (iterations c - 2)%nat) = false
  else (2 <= iterations c)%nat /\ forall j, it_last (gemm_iter c j) = true.
Proof.
  intros Hc. pose proof (iterations_size c Hc) as Hn. pose proof Hc as (_ & HM & HN & HK & _).
  case_bool_decide as Hcase.
  - destruct (decide (iterations c = 1%nat)) as [|Hne]; [by left|right].
    assert (HK2 : 2 <= g_k_dim c) by (destruct Hcase as [|E]; [done|rewrite E in Hn; lia]).
    assert (H2 : (2 <= iterations c)%nat) by nia. rewrite iterations_last by (done || lia). apply bool_decide_eq_false_2.
    replace (Z.of_nat (iterations c - 2) + 1) with (-1 + g_m_dim c * g_n_dim c * g_k_dim c) by lia.
    rewrite <- (Z.mod_unique _ (g_k_dim c) (g_m_dim c * g_n_dim c - 1) (g_k_dim c - 1)) by (lia || nia). lia.
  - assert (HK1 : g_k_dim c = 1) by lia. rewrite HK1 in Hn. split; [nia|]. intros j. cbn [gemm_iter it_last]. unfold k_of.
    by rewrite HK1, Z.mod_1_r.
Qed.

(** The matrix backend is the reference model. With int8 matrices and a
    bias in the buffers, and outputs on different cells that are no operands, a
    command that is left alone leaves in the output cells exactly the bytes that
    [ref_gemm] of the testbench computes, every other cell of the three buffers as
    it was, and the backend at rest: [n] multiply-accumulate steps take five
    clocks each, and the last byte is stored nine clocks after them. *)
Theorem gemm_matches_reference c m w host ins a b bias :
  gemm_runs c -> gemm_apart c -> gemm_operands c m a b bias ->
  mac_at_rest w.1 -> contents w.2 = m -> no_write host -> undisturbed ins ->
  let n := iterations c in
  let w' := bk_run (world_step w (Some c) host) ins in
  exists out,
    ref_gemm a b bias (g_m_dim c) (g_n_dim c) (g_k_dim c) (g_quant_shift c) (g_act_mode c) = Ok out /\
    ((5 * n + 9 <= length ins)%nat -> gemm_results c m (contents w'.2) out) /\
    ((5 * n + 11 <= length ins)%nat -> mac_at_rest w'.1).
Proof.
  intros Hc Hap Hops Hr Hm Hh Hins n w'. destruct (gemm_reference c m Hc Hap a b bias Hops) as (out & Hout & Hres & _).
  pose proof (gemm_safe c Hc Hap) as Hs. pose (L := gemm_laws c Hc). exists out. split; [done|split]; intros HL.
  - unfold w'. rewrite (mac_memory (L := L) m) by (done || apply gemm_first). change (lead (L := L)) with 3%nat.
    rewrite mem_at_end by (fold n; lia). done.
  - apply (mac_rests (L := L) m); try done. change (lead (L := L)) with 3%nat. fold n. lia.
Qed.

(** [done] comes before the last output is stored. In [gemm_backend] it is
    gated with [pipe_empty], which is to say that nothing is on its way to the
    memory, but which looks only behind the array: the last iteration is still in
    the loader when the sequencer ends. Unless every iteration is an output and
    there are several, [done] is high in clock [5 * n] after acceptance, [busy]
    is low in the three clocks after it, and up to clock [5 * n + 8] the last
    output cell holds what was there before the command. Only in an outer product
    [done] waits for the last store. *)
Theorem gemm_done_early c m w host ins :
  gemm_runs c -> gemm_apart c -> mac_at_rest w.1 -> contents w.2 = m -> no_write host -> undisturbed ins ->
  let n := iterations c in
  let L := length ins in
  let w' := bk_run (world_step w (Some c) host) ins in
  let last := gemm_c_cell c (g_m_dim c * g_n_dim c - 1) in
  if bool_decide (2 <= g_k_dim c \/ g_m_dim c * g_n_dim c = 1) then
    mac_done w'.1.1 = (L =? 5 * n)%nat /\
    ((5 * n < L <= 5 * n + 3)%nat -> mac_busy w'.1.1 = false) /\
    ((L <= 5 * n + 8)%nat -> cell (act_mem (contents w'.2)) last = cell (act_mem m) last)
  else mac_done w'.1.1 = (L =? 5 * n + 10)%nat.
Proof.
  intros Hc Hap Hr Hm Hh Hins n L w' last. subst n. pose proof (early_iff c Hc) as He. pose proof (gemm_safe c Hc Hap) as Hs.
  pose proof (iterations_size c Hc) as Hsize. pose proof Hc as (_ & HM & HN & HK & _). pose (FL := gemm_laws c Hc).
  pose proof (n_pos (FrontLaws := FL)) as Hn. case_bool_decide.
  - destruct (early_signals (L := FL) m (gemm_first c) Hs w host ins He Hr Hm Hh Hins) as [Hd Hb].
    fold w' L in Hd, Hb. change (lead (L := FL)) with 3%nat in *. unfold last_trigger, last_issue in *.
    split; [rewrite Hd; f_equal; lia|split; intros HL; [apply Hb; cbn [gemm_iter it_load lr_pad]; lia|]].
    unfold w'. rewrite (mac_memory (L := FL) m) by (done || apply gemm_first). change (lead (L := FL)) with 3%nat.
      apply mem_at_act. fold L. intros j Hj Hl Ht Heq. cbn [gemm_iter it_load lr_pad] in Ht.
      assert (Hx : 0 <= g_m_dim c * g_n_dim c - 1 < g_m_dim c * g_n_dim c) by nia.
      destruct (closing_index c Hc _ Hx) as (Hcl & Hcll & Hclo). set (e := closing c (g_m_dim c * g_n_dim c - 1)) in *.
      assert (Hen : (S e = iterations c)%nat) by (unfold e, closing; nia).
      destruct Hap as [_ Hd']. apply (Hd' (out_of c j) (out_of c e)); [|by apply out_bounds|].
      * split; [by apply out_bounds|]. apply (out_order c Hc); [lia|done|done].
      * rewrite Hclo. symmetry. exact Heq.
  - destruct He as [H2 Hlast]. destruct (mac_signals (L := FL) m (gemm_first c) Hs w host ins Hr Hm Hh Hins) as [Hd _].
    fold w' L in Hd. change (lead (L := FL)) with 3%nat in *. rewrite Hd, (done_late m (5 * iterations c + 7)).
    + apply eq_true_iff_eq. rewrite andb_true_iff, Nat.leb_le, !Nat.eqb_eq. lia.
    + unfold last_issue. lia.
    + apply (quiet_end (n := iterations c)). lia.
    + intros t Ht. apply (busy_late (n := iterations c)); [done|done|apply Hlast|apply Hlast|lia].
Qed.

(** ** Witnesses *)

(** A 2x2 product of depth 2, shifted by one, with ReLU, a bias of 1 and -1. *)
Definition ex_gemm_cmd : gemm_cmd_t := mk_gemm_cmd 0 2048 0 100 2 2 2 1 1.
Definition ex_gemm_mem : buffers :=
  mk_buffers (mk_bank (<[0 := 5]> (<[1 := 6]> (<[2 := 7]> (<[3 := 8]> (<[100 := 1]> (<[101 := 255]> ∅)))))) 0 false)
    (mk_bank (<[0 := 1]> (<[1 := 2]> (<[2 := 3]> (<[3 := 252]> (<[2051 := 77]> ∅))))) 0 false) (mk_bank ∅ 0 false).
Definition ex_gemm_rest : gemm_world :=
  ((mac_reset, mk_router (mk_rport 0 false) (mk_rport 0 false) false 0 false), ex_gemm_mem).

Lemma ex_gemm_rests : mac_at_rest ex_gemm_rest.1.
Proof. by repeat split. Qed.

Lemma ex_gemm_runs : gemm_runs ex_gemm_cmd.
Proof. apply (bool_decide_unpack _). vm_compute. done. Qed.

Lemma ex_gemm_apart : gemm_apart ex_gemm_cmd.
Proof.
  assert (H1 : Forall (fun x => Forall (fun y => gemm_c_cell ex_gemm_cmd y <> gemm_a_cell ex_gemm_cmd x) (seqZ 0 4)) (seqZ 0 4))
    by (apply (bool_decide_unpack _); vm_compute; done).
  assert (H2 : Forall (fun y => Forall (fun x => gemm_c_cell ex_gemm_cmd y <> gemm_c_cell ex_gemm_cmd x) (seqZ 0 y)) (seqZ 0 4))
    by (apply (bool_decide_unpack _); vm_compute; done).
  split; intros x y.
  - intros Hx Hy. exact (below _ 4 (below _ 4 H1 x Hx) y Hy).
  - intros Hxy Hy. exact (below _ y (below _ 4 H2 y ltac:(cbn in Hy; lia)) x Hxy).
Qed.

Lemma ex_gemm_operands : gemm_operands ex_gemm_cmd (contents ex_gemm_mem) [1; 2; 3; -4] [5; 6; 7; 8] [1; -1].
Proof.
  split; [by split; [done|repeat constructor]|split; [by split; [done|repeat constructor]|split; [right; by split; [done|repeat constructor]|]]].
  split; [|split]; apply below; apply (bool_decide_unpack _); vm_compute; done.
Qed.

Theorem gemm_matches_reference_witness :
  ref_gemm [1; 2; 3; -4] [5; 6; 7; 8] [1; -1] 2 2 2 1 1 = Ok [10; 10; 0; 0] /\
  cell (act_mem (contents (bk_run (world_step ex_gemm_rest (Some ex_gemm_cmd) no_request) (idle_for 51)).2)) 2048 = 10.
Proof.
  destruct (gemm_matches_reference ex_gemm_cmd (contents ex_gemm_mem) ex_gemm_rest no_request (idle_for 51)
    [1; 2; 3; -4] [5; 6; 7; 8] [1; -1] ex_gemm_runs ex_gemm_apart ex_gemm_operands ex_gemm_rests eq_refl eq_refl
    (idle_undisturbed 51)) as (out & Hout & Hres & _).
  assert (E : ref_gemm [1; 2; 3; -4] [5; 6; 7; 8] [1; -1] 2 2 2 1 1 = Ok [10; 10; 0; 0]) by (vm_compute; done).
  split; [exact E|]. assert (Ho : Ok out = Ok [10; 10; 0; 0]) by (rewrite <- Hout; exact E). injection Ho as Ho.
  destruct Hres as (Hc & _); [vm_compute; lia|]. rewrite Ho in Hc. exact (Hc 0 ltac:(cbn; lia)).
Defined.

(** With [done] the byte at 2051 is still the old one, and [busy] falls. *)
Theorem gemm_done_early_witness :
  let at_clock T := bk_run (world_step ex_gemm_rest (Some ex_gemm_cmd) no_request) (idle_for T) in
  mac_done (at_clock 40%nat).1.1 = true /\ mac_busy (at_clock 41%nat).1.1 = false /\
  cell (act_mem (contents (at_clock 48%nat).2)) 2051 = 77.
Proof.
  pose proof (fun T => gemm_done_early ex_gemm_cmd (contents ex_gemm_mem) ex_gemm_rest no_request (idle_for T)
    ex_gemm_runs ex_gemm_apart ex_gemm_rests eq_refl eq_refl (idle_undisturbed T)) as H.
  split; [|split].
  - destruct (H 40%nat) as (Hd & _). exact Hd.
  - destruct (H 41%nat) as (_ & Hb & _). apply Hb. vm_compute. lia.
  - destruct (H 48%nat) as (_ & _ & Hm). apply Hm. vm_compute. lia.
Defined.
