(* ===== verification/ConvBackend.v ===== *)
(** * The convolution backend

    [conv_ctrl], [conv_addr_gen] and [conv_backend]: what [MacFront] leaves open,
    six loop indices, addresses computed in three stages with the test for
    padding, an output address that counts, and the laws that these keep for a
    command with sizes of at least one. *)

From S2P Require Import Prelude Regs Command Decode CArith Golden Mem BackendMem Backend ConvBlocks MacPath MacFront.
From stdpp Require Import gmap.

Open Scope Z_scope.

(** ** conv_ctrl *)

Record conv_ctrl := mk_conv_ctrl {
  cc_state : seq_state; cc_cmd : conv_cmd_t; oh_r : Z; ow_r : Z; k_r : Z; r_r : Z; s_r : Z; c_r : Z }.

Definition oh_max (g : conv_ctrl) : Z := u16 (c_out_h (cc_cmd g) - 1).
Definition ow_max (g : conv_ctrl) : Z := u16 (c_out_w (cc_cmd g) - 1).

(** The subtractions that are not stored are 32 bits wide. *)
Definition last_c (g : conv_ctrl) : bool := c_r g =? u32 (c_in_c (cc_cmd g) - 1).
Definition last_s (g : conv_ctrl) : bool := s_r g =? u32 (c_filt_s (cc_cmd g) - 1).
Definition last_r (g : conv_ctrl) : bool := r_r g =? u32 (c_filt_r (cc_cmd g) - 1).
Definition last_k (g : conv_ctrl) : bool := k_r g =? u32 (c_out_k (cc_cmd g) - 1).
Definition last_ow (g : conv_ctrl) : bool := ow_r g =? ow_max g.
Definition inner_last (g : conv_ctrl) : bool := last_r g && last_s g && last_c g.
Definition outer_last (g : conv_ctrl) : bool := (oh_r g =? oh_max g) && last_ow g && last_k g.
Definition acc_clr (g : conv_ctrl) : bool := sq_is (cc_state g) SQ_COMPUTE && (r_r g =? 0) && (s_r g =? 0) && (c_r g =? 0).

Definition ctrl_step (g : conv_ctrl) (cmd : option conv_cmd_t) (iter_ready : bool) : conv_ctrl :=
  let st := seq_next (cc_state g) (bool_decide (is_Some cmd)) iter_ready (inner_last g && outer_last g) in
  let c := match cmd with Some c => if sq_is (cc_state g) SQ_IDLE then c else cc_cmd g | None => cc_cmd g end in
  if sq_is (cc_state g) SQ_LOAD_CFG then mk_conv_ctrl st c 0 0 0 0 0 0
  else if sq_is (cc_state g) SQ_COMPUTE && iter_ready then
    if negb (last_c g) then mk_conv_ctrl st c (oh_r g) (ow_r g) (k_r g) (r_r g) (s_r g) (wrap 16 (c_r g + 1))
    else if negb (last_s g) then mk_conv_ctrl st c (oh_r g) (ow_r g) (k_r g) (r_r g) (wrap 16 (s_r g + 1)) 0
    else if negb (last_r g) then mk_conv_ctrl st c (oh_r g) (ow_r g) (k_r g) (wrap 16 (r_r g + 1)) 0 0
    else if negb (last_k g) then mk_conv_ctrl st c (oh_r g) (ow_r g) (wrap 16 (k_r g + 1)) 0 0 0
    else if negb (last_ow g) then mk_conv_ctrl st c (oh_r g) (wrap 16 (ow_r g + 1)) 0 0 0 0
    else mk_conv_ctrl st c (if oh_r g <? oh_max g then wrap 16 (oh_r g + 1) else oh_r g) 0 0 0 0 0
  else mk_conv_ctrl st c (oh_r g) (ow_r g) (k_r g) (r_r g) (s_r g) (c_r g).

(** ** conv_addr_gen *)

Inductive gen_state := A_IDLE | A_STAGE1 | A_STAGE2 | A_STAGE3 | A_OUT.

Record stage1 := mk_stage1 {
  zero_pad_s1 : bool; act_base_s1 : Z; wt_base_s1 : Z; in_c_s1 : Z; filt_s_s1 : Z; iw_u_s1 : Z;
  c_s1 : Z; r_s1 : Z; s_s1 : Z; act_m1_s1 : Z; wt_m1_s1 : Z }.

Record stage2 := mk_stage2 {
  act_m2_s2 : Z; wt_m2_s2 : Z; zero_pad_s2 : bool; act_base_s2 : Z; wt_base_s2 : Z; in_c_s2 : Z; c_s2 : Z; s_s2 : Z }.

Record stage3 := mk_stage3 { act_idx_s3 : Z; wt_idx_s3 : Z; zero_pad_s3 : bool; act_base_s3 : Z; wt_base_s3 : Z }.

(** The output registers are the pair that is offered. *)
Record conv_addr_gen := mk_conv_gen { a_state : gen_state; a_s1 : stage1; a_s2 : stage2; a_s3 : stage3; a_out : load_req }.

Definition gen_in_ready (a : conv_addr_gen) : bool := match a_state a with A_IDLE => true | _ => false end.
Definition gen_out_valid (a : conv_addr_gen) : bool := match a_state a with A_OUT => true | _ => false end.

(** [logic signed [DIM_W:0]] *)
Definition i17 (z : Z) : Z := wrap 17 (z + 2 ^ 16) - 2 ^ 16.

Definition ih_calc_w (g : conv_ctrl) : Z :=
  i17 (oh_r g * c_stride_h (cc_cmd g) + r_r g - c_pad_h (cc_cmd g)).
Definition iw_calc_w (g : conv_ctrl) : Z :=
  i17 (ow_r g * c_stride_w (cc_cmd g) + s_r g - c_pad_w (cc_cmd g)).

Definition to_stage1 (g : conv_ctrl) : stage1 :=
  let c := cc_cmd g in
  mk_stage1
    ((ih_calc_w g <? 0) || (c_in_h c <=? ih_calc_w g) || (iw_calc_w g <? 0) || (c_in_w c <=? iw_calc_w g))
    (c_act_in_addr c) (c_weight_addr c) (c_in_c c) (c_filt_s c) (wrap 16 (iw_calc_w g)) (c_r g) (r_r g) (s_r g)
    (u32 (wrap 16 (ih_calc_w g) * c_in_w c)) (u32 (k_r g * c_filt_r c)).

Definition to_stage2 (s : stage1) : stage2 :=
  mk_stage2
    (u32 (u32 (act_m1_s1 s + iw_u_s1 s) * in_c_s1 s)) (u32 (u32 (wt_m1_s1 s + r_s1 s) * filt_s_s1 s))
    (zero_pad_s1 s) (act_base_s1 s) (wt_base_s1 s) (in_c_s1 s) (c_s1 s) (s_s1 s).

Definition to_stage3 (s : stage2) : stage3 :=
  mk_stage3
    (wrap ADDR_W (u32 (act_m2_s2 s + c_s2 s)))
    (wrap ADDR_W (u32 (u32 (u32 (wt_m2_s2 s + s_s2 s) * in_c_s2 s) + c_s2 s)))
    (zero_pad_s2 s) (act_base_s2 s) (wt_base_s2 s).

Definition to_out (s : stage3) : load_req :=
  mk_load_req (wrap ADDR_W (act_base_s3 s + act_idx_s3 s)) (wrap ADDR_W (wt_base_s3 s + wt_idx_s3 s)) (zero_pad_s3 s).

Definition gen_step (a : conv_addr_gen) (g : conv_ctrl) (out_ready : bool) : conv_addr_gen :=
  match a_state a with
  | A_IDLE =>
      if sq_is (cc_state g) SQ_COMPUTE then mk_conv_gen A_STAGE1 (to_stage1 g) (a_s2 a) (a_s3 a) (a_out a) else a
  | A_STAGE1 => mk_conv_gen A_STAGE2 (a_s1 a) (to_stage2 (a_s1 a)) (a_s3 a) (a_out a)
  | A_STAGE2 => mk_conv_gen A_STAGE3 (a_s1 a) (a_s2 a) (to_stage3 (a_s2 a)) (a_out a)
  | A_STAGE3 => mk_conv_gen A_OUT (a_s1 a) (a_s2 a) (a_s3 a) (to_out (a_s3 a))
  | A_OUT => if out_ready then mk_conv_gen A_IDLE (a_s1 a) (a_s2 a) (a_s3 a) (a_out a) else a
  end.

(** ** conv_backend *)

(** The metadata of the iteration at hand, with [first_last_inner_seen_r]: the
    output address starts at the base and counts. *)
Definition conv_meta : Type := iter_meta * bool.

Definition meta_step (g : conv_ctrl) (m : conv_meta) (cmd : option conv_cmd_t) (accept : bool) : conv_meta :=
  let (r, seen) := m in
  let c := cc_cmd g in
  let cleared := match cmd with Some _ => false | None => seen end in
  if accept then
    (mk_meta (inner_last g) (acc_clr g)
      (if inner_last g then if seen then wrap ADDR_W (im_wr_addr r + 1) else c_act_out_addr c else im_wr_addr r)
      (if inner_last g then wrap ADDR_W (c_bias_addr c + wrap ADDR_W (k_r g)) else im_bias_addr r),
     if inner_last g && negb seen then true else cleared)
  else (r, cleared).

Definition conv_offer (a : conv_addr_gen) : option load_req := if gen_out_valid a then Some (a_out a) else None.

Definition conv_ctrl_reset : conv_ctrl :=
  mk_conv_ctrl SQ_IDLE (mk_conv_cmd 0 0 0 0 0 0 0 0 0 0 0 0 0 0 0 0 0 0 0) 0 0 0 0 0 0.
Definition conv_gen_reset : conv_addr_gen :=
  mk_conv_gen A_IDLE (mk_stage1 false 0 0 0 0 0 0 0 0 0 0) (mk_stage2 0 0 false 0 0 0 0 0) (mk_stage3 0 0 false 0 0)
    (mk_load_req 0 0 false).

#[export] Instance conv_front : MacFront conv_ctrl conv_addr_gen conv_meta conv_cmd_t := {|
  fr_state := cc_state; fr_cmd := cc_cmd; fr_step := ctrl_step;
  fr_gen_ready := gen_in_ready; fr_offer := conv_offer; fr_gen_step := gen_step;
  fr_meta := fst; fr_meta_step := meta_step;
  fr_shift := c_quant_shift; fr_mode := c_act_mode;
  fr_reset := (conv_ctrl_reset, conv_gen_reset, (mk_meta false false 0 0, false)) |}.

Abbreviation conv_backend := (mac_backend conv_ctrl conv_addr_gen conv_meta).

#[export, program] Instance conv_front_rest : FrontRest conv_front.
Next Obligation. intros g ready Hs. cbn in *. unfold ctrl_step, seq_next. by rewrite Hs. Qed.
Next Obligation.
  intros a g ready Hv Ha. unfold iter_valid in Hv. cbn in *. unfold gen_in_ready, gen_step in *. rewrite Hv. by destruct (a_state a) eqn:Hs; rewrite ?Hs.
Qed.
Next Obligation. intros a Ha. cbn in *. unfold gen_in_ready, conv_offer, gen_out_valid in *. by destruct (a_state a). Qed.
Next Obligation. done. Qed.

(** ** The iterations of a command *)

Definition conv_cmd_fits (c : conv_cmd_t) : Prop :=
  fits 16 (c_act_in_addr c) /\ fits 16 (c_act_out_addr c) /\ fits 16 (c_weight_addr c) /\ fits 16 (c_bias_addr c) /\
  fits 16 (c_in_h c) /\ fits 16 (c_in_w c) /\ fits 16 (c_in_c c) /\ fits 16 (c_out_k c) /\
  fits 16 (c_filt_r c) /\ fits 16 (c_filt_s c) /\ fits 16 (c_out_h c) /\ fits 16 (c_out_w c).

Section command.
Context (c : conv_cmd_t).

Abbreviation H := (c_in_h c).
Abbreviation W := (c_in_w c).
Abbreviation C := (c_in_c c).
Abbreviation K := (c_out_k c).
Abbreviation R := (c_filt_r c).
Abbreviation S := (c_filt_s c).
Abbreviation OH := (c_out_h c).
Abbreviation OW := (c_out_w c).

(** The indices of iteration [j]: the channel runs fastest. *)
Definition c_of (j : nat) : Z := Z.of_nat j mod C.
Definition s_of (j : nat) : Z := (Z.of_nat j / C) mod S.
Definition r_of (j : nat) : Z := (Z.of_nat j / C / S) mod R.
Definition out_of (j : nat) : Z := Z.of_nat j / C / S / R.
Definition k_of (j : nat) : Z := out_of j mod K.
Definition ow_of (j : nat) : Z := (out_of j / K) mod OW.
Definition oh_of (j : nat) : Z := out_of j / K / OW.

Definition ih_of (j : nat) : Z := oh_of j * c_stride_h c + r_of j - c_pad_h c.
Definition iw_of (j : nat) : Z := ow_of j * c_stride_w c + s_of j - c_pad_w c.

Definition conv_iter (j : nat) : iteration :=
  mk_iter
    (mk_load_req (wrap ADDR_W (c_act_in_addr c + ((ih_of j * W + iw_of j) * C + c_of j)))
       (wrap ADDR_W (c_weight_addr c + (((k_of j * R + r_of j) * S + s_of j) * C + c_of j)))
       (negb (inside H W (ih_of j) (iw_of j))))
    ((r_of j =? R - 1) && (s_of j =? S - 1) && (c_of j =? C - 1)) ((r_of j =? 0) && (s_of j =? 0) && (c_of j =? 0))
    (wrap ADDR_W (c_act_out_addr c + out_of j)) (wrap ADDR_W (c_bias_addr c + k_of j)).

Definition conv_iterations : nat := Z.to_nat (OH * OW * K * R * S * C).
Abbreviation n := conv_iterations.

(** A command with sizes of at least one whose coordinates fit 17 bits. *)
Definition conv_sized : Prop :=
  conv_cmd_fits c /\ 1 <= C /\ 1 <= K /\ 1 <= R /\ 1 <= S /\ 1 <= OH /\ 1 <= OW /\
  (forall o r, 0 <= o < OH -> 0 <= r < R -> - 2 ^ 16 <= o * c_stride_h c + r - c_pad_h c < 2 ^ 16) /\
  (forall o s, 0 <= o < OW -> 0 <= s < S -> - 2 ^ 16 <= o * c_stride_w c + s - c_pad_w c < 2 ^ 16).

Hypothesis Hsized : conv_sized.

Lemma conv_sizes_pos : 1 <= C /\ 1 <= K /\ 1 <= R /\ 1 <= S /\ 1 <= OH /\ 1 <= OW.
Proof using Hsized. by destruct Hsized as (_ & ? & ? & ? & ? & ? & ? & _). Qed.

Lemma sizes_fit : (u32 (C - 1) = C - 1 /\ u32 (K - 1) = K - 1 /\ u32 (R - 1) = R - 1 /\ u32 (S - 1) = S - 1) /\
  u16 (OH - 1) = OH - 1 /\ u16 (OW - 1) = OW - 1.
Proof using Hsized.
  destruct Hsized as ((_ & _ & _ & _ & _ & _ & ? & ? & ? & ? & ? & ?) & ? & ? & ? & ? & ? & ? & _).
  split_and!; apply wrap_small; words; lia.
Qed.

Lemma conv_iterations_pos : (0 < n)%nat.
Proof using Hsized.
  destruct conv_sizes_pos as (? & ? & ? & ? & ? & ?). unfold conv_iterations.
  assert (1 <= OH * OW) by nia. assert (1 <= OH * OW * K) by nia. assert (1 <= OH * OW * K * R) by nia.
  assert (1 <= OH * OW * K * R * S) by nia. assert (1 <= OH * OW * K * R * S * C) by nia. lia.
Qed.

Lemma digit_bounds x d X : 1 <= d -> 0 <= x < X * d -> 0 <= x mod d < d /\ 0 <= x / d < X.
Proof using Type.
  intros Hd Hx. split; [apply Z.mod_pos_bound; lia|]. split; [apply Z.div_pos; lia|apply Z.div_lt_upper_bound; lia].
Qed.

Lemma conv_index_bounds j : (j < n)%nat ->
  (0 <= c_of j < C /\ 0 <= s_of j < S /\ 0 <= r_of j < R) /\ 0 <= out_of j < OH * OW * K /\
  0 <= k_of j < K /\ 0 <= ow_of j < OW /\ 0 <= oh_of j < OH.
Proof using Hsized.
  destruct conv_sizes_pos as (? & ? & ? & ? & ? & ?). intros Hj. unfold conv_iterations in Hj. unfold k_of, ow_of, oh_of, c_of, s_of, r_of, out_of.
  destruct (digit_bounds (Z.of_nat j) C (OH * OW * K * R * S)) as [Bc B1]; [lia..|].
  destruct (digit_bounds _ S (OH * OW * K * R) ltac:(lia) B1) as [Bs B2].
  destruct (digit_bounds _ R (OH * OW * K) ltac:(lia) B2) as [Br B3].
  destruct (digit_bounds _ K (OH * OW) ltac:(lia) B3) as [Bk B4].
  destruct (digit_bounds _ OW OH ltac:(lia) B4) as [Bow B5]. done.
Qed.

(** The counters move on like the indices. *)
Lemma inner_succ j :
  let lc := c_of j =? C - 1 in let ls := s_of j =? S - 1 in let lr := r_of j =? R - 1 in
  c_of (Datatypes.S j) = (if lc then 0 else c_of j + 1) /\
  s_of (Datatypes.S j) = (if lc then if ls then 0 else s_of j + 1 else s_of j) /\
  r_of (Datatypes.S j) = (if lc then if ls then if lr then 0 else r_of j + 1 else r_of j else r_of j) /\
  out_of (Datatypes.S j) = (if lr && ls && lc then out_of j + 1 else out_of j).
Proof using Hsized.
  destruct conv_sizes_pos as (? & ? & ? & ? & _). unfold c_of, s_of, r_of, out_of. rewrite Nat2Z.inj_succ, <- Z.add_1_r.
  destruct (div_mod_succ (Z.of_nat j) C ltac:(lia)) as [-> ->]. destruct (_ =? C - 1); [|by rewrite andb_false_r].
  destruct (div_mod_succ (Z.of_nat j / C) S ltac:(lia)) as [-> ->]. destruct (_ =? S - 1); [|by rewrite andb_false_r].
  destruct (div_mod_succ (Z.of_nat j / C / S) R ltac:(lia)) as [-> ->]. by destruct (_ =? R - 1).
Qed.

Lemma outer_succ j :
  out_of (Datatypes.S j) = out_of j + 1 ->
  let lk := k_of j =? K - 1 in let low := ow_of j =? OW - 1 in
  k_of (Datatypes.S j) = (if lk then 0 else k_of j + 1) /\
  ow_of (Datatypes.S j) = (if lk then if low then 0 else ow_of j + 1 else ow_of j) /\
  oh_of (Datatypes.S j) = (if lk then if low then oh_of j + 1 else oh_of j else oh_of j).
Proof using Hsized.
  destruct conv_sizes_pos as (? & ? & ? & ? & ? & ?). intros Ho. unfold k_of, ow_of, oh_of. rewrite Ho.
  destruct (div_mod_succ (out_of j) K ltac:(lia)) as [-> ->]. destruct (_ =? K - 1); [|done].
  destruct (div_mod_succ (out_of j / K) OW ltac:(lia)) as [-> ->]. by destruct (_ =? OW - 1).
Qed.

Lemma outer_same j : out_of (Datatypes.S j) = out_of j ->
  k_of (Datatypes.S j) = k_of j /\ ow_of (Datatypes.S j) = ow_of j /\ oh_of (Datatypes.S j) = oh_of j.
Proof using Type. unfold k_of, ow_of, oh_of. by intros ->. Qed.

(** The last of [X * d]. *)
Lemma last_step x d X : 1 <= d -> (x mod d =? d - 1) && bool_decide (x / d + 1 = X) = bool_decide (x + 1 = X * d).
Proof using Type.
  intros Hd. pose proof (Z.div_mod x d ltac:(lia)). pose proof (Z.mod_pos_bound x d ltac:(lia)).
  destruct (Z.eqb_spec (x mod d) (d - 1)) as [E|E]; cbn [andb].
  - apply bool_decide_ext. split; nia.
  - symmetry. apply bool_decide_eq_false_2. intros Hx. apply E.
    assert (x / d + 1 = X) by nia. nia.
Qed.

Lemma conv_index_last j :
  ((r_of j =? R - 1) && (s_of j =? S - 1) && (c_of j =? C - 1)) &&
  ((oh_of j =? OH - 1) && (ow_of j =? OW - 1) && (k_of j =? K - 1)) = bool_decide (Datatypes.S j = n).
Proof using Hsized.
  destruct conv_sizes_pos as (? & ? & ? & ? & ? & ?).
  transitivity (bool_decide (Z.of_nat j + 1 = OH * OW * K * R * S * C)).
  2:{ apply bool_decide_ext. pose proof conv_iterations_pos as Hn. unfold conv_iterations in *. lia. }
  rewrite <- last_step, <- last_step, <- last_step, <- last_step, <- last_step by lia.
  assert (Hoh : (oh_of j =? OH - 1) = bool_decide (oh_of j + 1 = OH)).
  { destruct (Z.eqb_spec (oh_of j) (OH - 1)); symmetry; [apply bool_decide_eq_true_2|apply bool_decide_eq_false_2]; lia. }
  rewrite Hoh. unfold k_of, ow_of, oh_of, c_of, s_of, r_of, out_of.
  repeat match goal with |- context [?a =? ?b] => destruct (a =? b) end; cbn; by rewrite ?andb_false_r, ?andb_true_r.
Qed.

(** ** The sequencer *)

Definition conv_computing (P : nat) (g : conv_ctrl) : Prop :=
  cc_cmd g = c /\
  if (P <? n)%nat then
    cc_state g = SQ_COMPUTE /\ oh_r g = oh_of P /\ ow_r g = ow_of P /\ k_r g = k_of P /\
    r_r g = r_of P /\ s_r g = s_of P /\ c_r g = c_of P
  else cc_state g = SQ_DRAIN.

Lemma conv_signals P g : conv_computing P g -> (P < n)%nat ->
  sq_is (cc_state g) SQ_COMPUTE = true /\
  (last_c g = (c_of P =? C - 1) /\ last_s g = (s_of P =? S - 1) /\ last_r g = (r_of P =? R - 1) /\
   last_k g = (k_of P =? K - 1) /\ last_ow g = (ow_of P =? OW - 1)) /\
  inner_last g = it_last (conv_iter P) /\
  outer_last g = ((oh_of P =? OH - 1) && (ow_of P =? OW - 1) && (k_of P =? K - 1)) /\
  acc_clr g = it_clr (conv_iter P).
Proof using Hsized.
  intros [Hc Hs] HP. rewrite (proj2 (Nat.ltb_lt P n)) in Hs by done. destruct Hs as (Hs & Hoh & How & Hk & Hr & Hss & Hcc).
  destruct sizes_fit as ((E1 & E2 & E3 & E4) & E5 & E6).
  unfold inner_last, outer_last, acc_clr, last_c, last_s, last_r, last_k, last_ow, oh_max, ow_max.
  rewrite Hc, Hs, Hoh, How, Hk, Hr, Hss, Hcc, E1, E2, E3, E4, E5, E6. by split_and!.
Qed.

Lemma conv_hold P g : conv_computing P g -> conv_computing P (ctrl_step g None false).
Proof using Type.
  intros [Hc Hs]. unfold conv_computing, ctrl_step, seq_next. destruct (P <? n)%nat.
  - destruct Hs as (Hs & ?). rewrite Hs. done.
  - rewrite Hs. done.
Qed.

Lemma conv_next P g : (P < n)%nat -> conv_computing P g -> conv_computing (Datatypes.S P) (ctrl_step g None true).
Proof using Hsized.
  intros HP Hg. destruct (conv_signals P g Hg HP) as (_ & (Lc & Ls & Lr & Lk & Low) & Li & Lo & _).
  destruct Hg as [Hc Hs]. rewrite (proj2 (Nat.ltb_lt P n)) in Hs by done. destruct Hs as (Hs & Hoh & How & Hk & Hr & Hss & Hcc).
  destruct (inner_succ P) as (Sc & Ss & Sr & So). pose proof (outer_succ P) as Hinc. pose proof (outer_same P) as Hsame.
  destruct (conv_index_bounds P HP) as ((Bc & Bs & Br) & _ & Bk & Bow & Boh). pose proof (conv_index_last P) as Hend.
  destruct sizes_fit as (_ & E5 & _). destruct Hsized as ((_ & _ & _ & _ & _ & _ & F1 & F2 & F3 & F4 & F5 & F6) & _).
  unfold conv_computing, ctrl_step, seq_next. rewrite Hs, Li, Lo, Lc, Ls, Lr, Lk, Low, Hc, Hoh, How, Hk, Hr, Hss, Hcc. cbn [sq_is andb].
  change (it_last (conv_iter P)) with ((r_of P =? R - 1) && (s_of P =? S - 1) && (c_of P =? C - 1)). rewrite Hend. clear Hend Li Lo.
  assert (Hmax : oh_max g = OH - 1) by (unfold oh_max; by rewrite Hc). rewrite Hmax.
  split; [by repeat case_match|].
  destruct (Nat.ltb_spec (Datatypes.S P) n) as [HS|HS].
  2:{ rewrite bool_decide_eq_true_2 by lia. by repeat case_match. }
  rewrite bool_decide_eq_false_2 by lia. destruct (conv_index_bounds _ HS) as ((Bc' & Bs' & Br') & _ & Bk' & Bow' & Boh').
  destruct (c_of P =? C - 1), (s_of P =? S - 1), (r_of P =? R - 1); cbn [negb andb] in *;
    try (destruct (Hsame So) as (-> & -> & ->); cbn; rewrite Sc, Ss, Sr in *; split_and!; try done; apply wrap_small; words; lia).
  destruct (Hinc So) as (Sk & Sow & Soh). destruct (k_of P =? K - 1), (ow_of P =? OW - 1); cbn in *;
    rewrite Sc, Ss, Sr, Sk, Sow, Soh in *; split_and!; try done; try (apply wrap_small; words; lia).
  destruct (Z.ltb_spec (oh_of P) (OH - 1)); [apply wrap_small; words; lia|lia].
Qed.

Lemma conv_draining g : conv_computing n g -> cc_cmd (ctrl_step g None true) = c /\ cc_state (ctrl_step g None true) = SQ_DONE.
Proof using Type. intros [Hc Hs]. rewrite Nat.ltb_irrefl in Hs. unfold ctrl_step, seq_next. by rewrite Hs. Qed.

(** ** The address generator *)

Lemma i17_small z : - 2 ^ 16 <= z < 2 ^ 16 -> i17 z = z.
Proof using Type. intros Hz. unfold i17. rewrite wrap_small by (unfold fits; lia). lia. Qed.

Lemma conv_coords P g : conv_computing P g -> (P < n)%nat -> ih_calc_w g = ih_of P /\ iw_calc_w g = iw_of P.
Proof using Hsized.
  intros [Hc Hs] HP. rewrite (proj2 (Nat.ltb_lt P n)) in Hs by done. destruct Hs as (_ & Hoh & How & _ & Hr & Hss & _).
  destruct (conv_index_bounds P HP) as ((_ & Bs & Br) & _ & _ & Bow & Boh). destruct Hsized as (_ & _ & _ & _ & _ & _ & _ & Hih & Hiw).
  unfold ih_calc_w, iw_calc_w. rewrite Hc, Hoh, How, Hr, Hss. split; apply i17_small; [by apply Hih|by apply Hiw].
Qed.

(** The registers [k] clocks after iteration [P] was handed over. *)
Definition conv_preparing (k P : nat) (a : conv_addr_gen) : Prop :=
  exists g, conv_computing P g /\ (P < n)%nat /\
  match k with
  | 0%nat => a_state a = A_STAGE1 /\ a_s1 a = to_stage1 g
  | 1%nat => a_state a = A_STAGE2 /\ a_s2 a = to_stage2 (to_stage1 g)
  | 2%nat => a_state a = A_STAGE3 /\ a_s3 a = to_stage3 (to_stage2 (to_stage1 g))
  | _ => a_state a = A_OUT /\ a_out a = to_out (to_stage3 (to_stage2 (to_stage1 g)))
  end.

Lemma wrap_u32_add x y : wrap ADDR_W (u32 x + y) = wrap ADDR_W (x + y).
Proof using Type.
  unfold wrap, ADDR_W. rewrite <- Zplus_mod_idemp_l. rewrite Z.mod_mod_divide by (by exists (2 ^ 16)). by rewrite Zplus_mod_idemp_l.
Qed.

Lemma wrap_u32_mul x y z : wrap ADDR_W (u32 x * y + z) = wrap ADDR_W (x * y + z).
Proof using Type.
  unfold wrap, ADDR_W. rewrite <- (Zplus_mod_idemp_l (_ * _)), <- (Zmult_mod_idemp_l (_ mod 2 ^ 32)). rewrite Z.mod_mod_divide by (by exists (2 ^ 16)).
  by rewrite Zmult_mod_idemp_l, Zplus_mod_idemp_l.
Qed.

Lemma wrap_add_l x y : wrap ADDR_W (wrap ADDR_W x + y) = wrap ADDR_W (x + y).
Proof using Type. apply Zplus_mod_idemp_l. Qed.

Lemma wrap_mul_l x y z : wrap ADDR_W (wrap ADDR_W x * y + z) = wrap ADDR_W (x * y + z).
Proof using Type. unfold wrap. by rewrite <- (Zplus_mod_idemp_l (_ * _)), Zmult_mod_idemp_l, Zplus_mod_idemp_l. Qed.

(** Low bits of an index do not see how its high bits were cut. *)
Lemma wrap_congr x y z t : wrap ADDR_W x = wrap ADDR_W y -> wrap ADDR_W (x * z + t) = wrap ADDR_W (y * z + t).
Proof using Type. intros E. by rewrite <- (wrap_mul_l x), E, wrap_mul_l. Qed.

Lemma base_congr b x y : wrap ADDR_W x = wrap ADDR_W y -> wrap ADDR_W (b + wrap ADDR_W x) = wrap ADDR_W (b + y).
Proof using Type. intros ->. unfold wrap. by rewrite Zplus_mod_idemp_r. Qed.

Lemma out_address P g : conv_computing P g -> (P < n)%nat ->
  to_out (to_stage3 (to_stage2 (to_stage1 g))) = it_load (conv_iter P).
Proof using Hsized.
  intros Hg HP. destruct (conv_coords P g Hg HP) as [Eh Ew].
  destruct Hg as [Hc Hs]. rewrite (proj2 (Nat.ltb_lt P n)) in Hs by done. destruct Hs as (_ & _ & _ & Hk & Hr & Hss & Hcc).
  unfold to_out, to_stage3, to_stage2, to_stage1. cbn. rewrite Eh, Ew, Hc, Hk, Hr, Hss, Hcc. f_equal.
  - rewrite (wrap_wrap_le ADDR_W 32) by (unfold ADDR_W; lia). apply base_congr. rewrite wrap_u32_add. apply wrap_congr.
    rewrite wrap_wrap_le, wrap_u32_add by (unfold ADDR_W; lia). change (wrap 16) with (wrap ADDR_W). rewrite wrap_mul_l.
    unfold wrap. by rewrite Zplus_mod_idemp_r.
  - rewrite (wrap_wrap_le ADDR_W 32) by (unfold ADDR_W; lia). apply base_congr. rewrite wrap_u32_add, wrap_u32_mul.
    apply wrap_congr. rewrite wrap_u32_add, wrap_u32_mul. apply wrap_congr. by rewrite wrap_u32_add.
  - unfold inside. lia.
Qed.

Lemma conv_accepts P a g ready : conv_computing P g -> (P < n)%nat -> a_state a = A_IDLE -> conv_preparing 0 P (gen_step a g ready).
Proof using Hsized.
  intros Hg HP Ha. destruct (conv_signals P g Hg HP) as (Hv & _). exists g. split; [done|split; [done|]].
  unfold gen_step. by rewrite Ha, Hv.
Qed.

Lemma conv_prepares k P a g ready : conv_preparing k P a -> (k < 3)%nat -> conv_preparing (Datatypes.S k) P (gen_step a g ready).
Proof using Type.
  intros (g0 & Hg & HP & Ha) Hk. exists g0. split; [done|split; [done|]].
  destruct k as [|[|[|]]]; [..|lia]; destruct Ha as [Hs Ha]; unfold gen_step; rewrite Hs; cbn; by rewrite Ha.
Qed.

Lemma conv_offering k P a : (3 <= k)%nat -> conv_preparing k P a -> a_state a = A_OUT /\ a_out a = it_load (conv_iter P).
Proof using Hsized.
  intros Hk (g0 & Hg & HP & Ha). destruct k as [|[|[|k]]]; [lia..|]. destruct Ha as [Hs Ha].
  split; [done|]. rewrite Ha. by apply out_address.
Qed.

(** ** The metadata *)

Definition inner_steps : Z := R * S * C.

Lemma out_of_div j : out_of j = Z.of_nat j / inner_steps.
Proof using Hsized.
  destruct conv_sizes_pos as (? & ? & ? & ? & _). unfold out_of, inner_steps. rewrite !Z.div_div by nia. f_equal. lia.
Qed.

(** After [P] iterations: the output address is that of the last output. *)
Definition conv_meta_at (P : nat) (m : conv_meta) : Prop :=
  m.2 = bool_decide (0 < out_of P) /\ (0 < out_of P -> im_wr_addr m.1 = wrap ADDR_W (c_act_out_addr c + (out_of P - 1))) /\
  match P with O => True | Datatypes.S j => carries conv_iter j m.1 end.

Lemma conv_meta_start g m : conv_meta_at 0 (meta_step g m (Some c) false).
Proof using Hsized.
  destruct m as [r seen]. unfold conv_meta_at. assert (H0 : out_of 0 = 0) by (unfold out_of; by rewrite !Zdiv_0_l). rewrite H0.
  by split_and!.
Qed.

Lemma conv_meta_next P g m : (P < n)%nat -> conv_computing P g -> conv_meta_at P m -> conv_meta_at (Datatypes.S P) (meta_step g m None true).
Proof using Hsized.
  intros HP Hg. destruct (conv_signals P g Hg HP) as (_ & _ & Hi & _ & Hz). destruct m as [r seen].
  destruct (inner_succ P) as (_ & _ & _ & So). destruct (conv_index_bounds P HP) as (_ & Bo & _).
  change ((r_of P =? R - 1) && (s_of P =? S - 1) && (c_of P =? C - 1)) with (it_last (conv_iter P)) in So.
  destruct Hg as [Hc Hs]. rewrite (proj2 (Nat.ltb_lt P n)) in Hs by done. destruct Hs as (_ & _ & _ & Hk & _).
  destruct Hsized as ((_ & Fo & _) & _). unfold conv_meta_at, carries, meta_step. cbn [fst snd im_last im_clr im_wr_addr im_bias_addr]. intros (-> & Ha & _).
  rewrite Hi, Hz, Hc, Hk, So. destruct (it_last (conv_iter P)) eqn:Hl; cbn [andb].
  - rewrite (bool_decide_eq_true_2 (0 < out_of P + 1)) by lia. change (it_addr (conv_iter P)) with (wrap ADDR_W (c_act_out_addr c + out_of P)).
    change (it_bias (conv_iter P)) with (wrap ADDR_W (c_bias_addr c + k_of P)).
    assert (Hw : (if bool_decide (0 < out_of P) then wrap ADDR_W (im_wr_addr r + 1) else c_act_out_addr c) =
      wrap ADDR_W (c_act_out_addr c + out_of P)).
    { case_bool_decide as Ho; [rewrite Ha by done; rewrite wrap_add_l; f_equal; lia|].
      symmetry. replace (c_act_out_addr c + out_of P) with (c_act_out_addr c) by lia. by apply wrap_small. }
    rewrite Hw. split_and!; try done; [by case_bool_decide|intros _; f_equal; lia|].
    intros _. split; [done|]. unfold wrap. by rewrite Zplus_mod_idemp_r.
  - by split_and!.
Qed.

#[program] Definition conv_front_laws : FrontLaws conv_front c n conv_iter := {|
  depth := 3; computing := conv_computing; preparing := conv_preparing; meta_at := conv_meta_at |}.
Next Obligation. exact conv_iterations_pos. Qed.
Next Obligation. lia. Qed.
Next Obligation. intros g ready Hs. cbn in *. unfold ctrl_step, seq_next. by rewrite Hs. Qed.
Next Obligation.
  intros g ready Hs Hc. cbn in *. unfold conv_computing, ctrl_step, seq_next. rewrite Hs, Hc. cbn -[Nat.ltb].
  rewrite (proj2 (Nat.ltb_lt 0 n)) by apply conv_iterations_pos.
  unfold oh_of, ow_of, k_of, r_of, s_of, c_of, out_of. cbn. by rewrite ?Zmod_0_l, ?Zdiv_0_l, ?Zmod_0_l, ?Zdiv_0_l.
Qed.
Next Obligation. intros g ready Hs Hc. cbn in *. unfold ctrl_step, seq_next. by destruct Hs as [-> | ->]. Qed.
Next Obligation. intros P g [Hc Hs] HP. split; [done|]. cbn -[Nat.ltb]. by destruct (P <? n)%nat; [destruct Hs as (-> & _)|]. Qed.
Next Obligation. exact conv_hold. Qed.
Next Obligation. exact conv_next. Qed.
Next Obligation. exact conv_draining. Qed.
Next Obligation.
  intros P a g ready Hg HP Ha. cbn in Ha. unfold gen_in_ready in Ha. destruct (a_state a) eqn:Hs; [|done..]. by apply conv_accepts.
Qed.
Next Obligation. intros k P a g ready Ha Hk _. by apply conv_prepares. Qed.
Next Obligation. intros k P a (g0 & Hg & HP & Ha) Hk. exists g0. destruct k as [|[|[|k]]]; [lia..|]. done. Qed.
Next Obligation.
  intros k P a (g0 & Hg & HP & Ha). cbn. unfold gen_in_ready. by destruct k as [|[|[|k]]]; destruct Ha as [-> _].
Qed.
Next Obligation.
  intros k P a (g0 & Hg & HP & Ha) Hk. cbn. unfold conv_offer, gen_out_valid. by destruct k as [|[|[|k]]]; [..|lia]; destruct Ha as [-> _].
Qed.
Next Obligation.
  intros P a Ha. destruct (conv_offering 3 P a ltac:(lia) Ha) as [Hs Ho]. cbn. unfold conv_offer, gen_out_valid. by rewrite Hs, Ho.
Qed.
Next Obligation.
  intros P a g Ha. destruct (conv_offering 3 P a ltac:(lia) Ha) as [Hs _]. cbn. unfold gen_in_ready, gen_step. by rewrite Hs.
Qed.
Next Obligation. intros g m Hs. apply conv_meta_start. Qed.
Next Obligation. by intros g [r seen]. Qed.
Next Obligation. exact conv_meta_next. Qed.
Next Obligation. intros P m HP (_ & _ & Hm). exact Hm. Qed.
Next Obligation. done. Qed.
End command.
