(* ===== verification/ConvData.v ===== *)
(** * What the convolution backend computes, and when it says so

    A command of [ConvBackend] from rest to rest: the bytes it leaves are those of
    [ref_conv], but [done] comes before the last of them is stored. *)

From S2P Require Import Prelude Regs Command Decode CArith Golden GoldenRows Mem BackendMem Backend ConvBlocks MacPath MacFront ConvBackend.
From stdpp Require Import gmap.

Open Scope Z_scope.

Abbreviation conv_world := (conv_backend * router * buffers)%type.

(** ** The tensors *)

Definition conv_act_cell (c : conv_cmd_t) (x : Z) : Z := wrap (SRAM_ADDR_W + 1) (wrap ADDR_W (c_act_in_addr c + x)).
Definition conv_wt_cell (c : conv_cmd_t) (x : Z) : Z := wrap SRAM_ADDR_W (wrap ADDR_W (c_weight_addr c + x)).
Definition conv_bias_cell (c : conv_cmd_t) (x : Z) : Z := wrap SRAM_ADDR_W (wrap ADDR_W (c_bias_addr c + x)).
Definition conv_out_cell (c : conv_cmd_t) (x : Z) : Z := wrap (SRAM_ADDR_W + 1) (wrap ADDR_W (c_act_out_addr c + x)).

Definition in_size (c : conv_cmd_t) : Z := c_in_h c * c_in_w c * c_in_c c.
Definition wt_size (c : conv_cmd_t) : Z := c_out_k c * c_filt_r c * c_filt_s c * c_in_c c.
Definition out_count (c : conv_cmd_t) : Z := c_out_h c * c_out_w c * c_out_k c.

(** A command that runs: its output is as large as its windows say, and every
    coordinate fits the 17 bits of the address generator. *)
Definition conv_runs (c : conv_cmd_t) : Prop :=
  conv_cmd_fits c /\ 1 <= c_in_c c /\ 1 <= c_out_k c /\ 1 <= c_filt_r c /\ 1 <= c_filt_s c /\
  window_wf (c_in_h c) (c_pad_h c) (c_filt_r c) (c_stride_h c) /\
  window_wf (c_in_w c) (c_pad_w c) (c_filt_s c) (c_stride_w c) /\
  c_out_h c = positions (c_in_h c) (c_pad_h c) (c_filt_r c) (c_stride_h c) /\
  c_out_w c = positions (c_in_w c) (c_pad_w c) (c_filt_s c) (c_stride_w c) /\
  c_in_h c + c_pad_h c <= 2 ^ 16 /\ c_in_w c + c_pad_w c <= 2 ^ 16 /\ 0 <= c_act_mode c <= 2.

(** The outputs fall on different cells, none of them an input. *)
Definition conv_apart (c : conv_cmd_t) : Prop :=
  (forall x y, 0 <= x < in_size c -> 0 <= y < out_count c -> conv_out_cell c y <> conv_act_cell c x) /\
  (forall x y, 0 <= x < y -> y < out_count c -> conv_out_cell c y <> conv_out_cell c x).

(** The tensors are in the buffers, of sizes for which the reference model is
    defined; without a bias its cells hold zero. *)
Definition conv_operands (c : conv_cmd_t) (m : sram) (act wt bias : list Z) : Prop :=
  conv_defined act wt bias (c_in_h c) (c_in_w c) (c_in_c c) (c_out_k c) (c_filt_r c) (c_filt_s c)
    (c_stride_h c) (c_stride_w c) (c_pad_h c) (c_pad_w c) (c_quant_shift c) /\
  (forall x, 0 <= x < in_size c -> cell (act_mem m) (conv_act_cell c x) = u8 (at_ act x)) /\
  (forall x, 0 <= x < wt_size c -> cell (wt_mem m) (conv_wt_cell c x) = u8 (at_ wt x)) /\
  (forall x, 0 <= x < c_out_k c -> cell (wt_mem m) (conv_bias_cell c x) = u8 (bias_at bias x)).

(** The result is there, and nothing else has changed. *)
Definition conv_results (c : conv_cmd_t) (m m' : sram) (out : list Z) : Prop :=
  (forall x, 0 <= x < out_count c -> cell (act_mem m') (conv_out_cell c x) = u8 (at_ out x)) /\
  (forall a, (forall x, 0 <= x < out_count c -> conv_out_cell c x <> a) -> cell (act_mem m') a = cell (act_mem m) a) /\
  wt_mem m' = wt_mem m /\ psum_mem m' = psum_mem m.

Lemma coordinates dim pad filt stride : window_wf dim pad filt stride -> dim + pad <= 2 ^ 16 ->
  forall o r, 0 <= o < positions dim pad filt stride -> 0 <= r < filt -> - 2 ^ 16 <= o * stride + r - pad < 2 ^ 16.
Proof.
  intros (Hd & Hp & Hf & Hs & _) Hsum o r Ho Hr. unfold positions in Ho.
  pose proof (Z.mul_div_le (dim + 2 * pad - filt) stride Hs). nia.
Qed.

Lemma runs_sized c : conv_runs c -> conv_sized c.
Proof.
  intros (Hf & HC & HK & HR & HS & Hh & Hw & Eh & Ew & Bh & Bw & _). unfold conv_sized. rewrite Eh, Ew.
  split; [done|]. pose proof (positions_bound _ _ _ _ Hh). pose proof (positions_bound _ _ _ _ Hw).
  split_and!; try lia; by apply coordinates.
Qed.

Section data.
Context (c : conv_cmd_t) (m0 : sram).

Abbreviation H := (c_in_h c).
Abbreviation W := (c_in_w c).
Abbreviation C := (c_in_c c).
Abbreviation K := (c_out_k c).
Abbreviation R := (c_filt_r c).
Abbreviation F := (c_filt_s c).
Abbreviation OH := (c_out_h c).
Abbreviation OW := (c_out_w c).
Abbreviation D := (inner_steps c).
Abbreviation n := (conv_iterations c).
Abbreviation its := (conv_iter c).

Hypothesis Hruns : conv_runs c.

Lemma sized : conv_sized c.
Proof using Hruns. by apply runs_sized. Qed.

Lemma steps_pos : 1 <= D.
Proof using Hruns. destruct (conv_sizes_pos c sized) as (? & ? & ? & ? & _). unfold inner_steps. nia. Qed.

Lemma conv_iterations_size : Z.of_nat n = out_count c * D.
Proof using Hruns.
  destruct (conv_sizes_pos c sized) as (? & ? & ? & ? & ? & ?). unfold conv_iterations, out_count, inner_steps.
  rewrite Z2Nat.id; [lia|]. assert (0 <= OH * OW) by nia. assert (0 <= OH * OW * K) by nia. assert (0 <= OH * OW * K * R) by nia.
  assert (0 <= OH * OW * K * R * F) by nia. nia.
Qed.

(** ** Inner and outer indices *)

Definition inner_of (j : nat) : Z := (r_of c j * F + s_of c j) * C + c_of c j.

Lemma index_split j : (j < n)%nat -> Z.of_nat j = out_of c j * D + inner_of j /\ 0 <= inner_of j < D.
Proof using Hruns.
  intros Hj. destruct (conv_index_bounds c sized j Hj) as ((Bc & Bs & Br) & _). destruct (conv_sizes_pos c sized) as (? & ? & ? & ? & _). split.
  - unfold inner_of, inner_steps, out_of, r_of, s_of, c_of. pose proof (Z.div_mod (Z.of_nat j) C ltac:(lia)).
    pose proof (Z.div_mod (Z.of_nat j / C) F ltac:(lia)). pose proof (Z.div_mod (Z.of_nat j / C / F) R ltac:(lia)). nia.
  - unfold inner_of, inner_steps. apply (digit_index _ _ C (R * F)); [by apply digit_index|done].
Qed.

Lemma last_inner j : (j < n)%nat -> it_last (its j) = (inner_of j =? D - 1).
Proof using Hruns.
  intros Hj. destruct (conv_index_bounds c sized j Hj) as ((Bc & Bs & Br) & _). destruct (conv_sizes_pos c sized) as (? & ? & ? & ? & _).
  destruct (index_split j Hj) as [_ Be]. pose proof (digits_last (inner_of j) C F ltac:(lia) ltac:(lia) R Be) as Hd.
  unfold inner_of in Hd. rewrite digit_mod, digit_div, digit_mod, digit_div in Hd by lia. fold (inner_of j) in Hd.
  change (it_last (its j)) with ((r_of c j =? R - 1) && (s_of c j =? F - 1) && (c_of c j =? C - 1)).
  transitivity (bool_decide (inner_of j + 1 = R * F * C)); [rewrite <- Hd|].
  - by destruct (c_of c j =? C - 1), (r_of c j =? R - 1), (s_of c j =? F - 1).
  - unfold inner_steps. destruct (Z.eqb_spec (inner_of j) (R * F * C - 1)); [apply bool_decide_eq_true_2|apply bool_decide_eq_false_2]; lia.
Qed.

Lemma first_inner j : (j < n)%nat -> it_clr (its j) = (inner_of j =? 0).
Proof using Hruns.
  intros Hj. destruct (conv_index_bounds c sized j Hj) as ((Bc & Bs & Br) & _). destruct (conv_sizes_pos c sized) as (? & ? & ? & ? & _).
  change (it_clr (its j)) with ((r_of c j =? 0) && (s_of c j =? 0) && (c_of c j =? 0)). unfold inner_of.
  destruct (Z.eqb_spec (r_of c j) 0), (Z.eqb_spec (s_of c j) 0), (Z.eqb_spec (c_of c j) 0); cbn [andb]; symmetry;
    (apply Z.eqb_eq || apply Z.eqb_neq); nia.
Qed.

Lemma conv_out_bounds j : (j < n)%nat -> 0 <= out_of c j < out_count c.
Proof using Hruns. intros Hj. by destruct (conv_index_bounds c sized j Hj) as (_ & ? & _). Qed.

Lemma conv_dest_out j : dest_cell its j = conv_out_cell c (out_of c j).
Proof using Type. done. Qed.

Lemma conv_out_order i j : (j < i < n)%nat -> it_last (its i) = true -> it_last (its j) = true -> out_of c j < out_of c i.
Proof using Hruns.
  intros Hij. rewrite !last_inner, !Z.eqb_eq by lia. intros Hi Hj. destruct (index_split i ltac:(lia)) as [Ei _].
  destruct (index_split j ltac:(lia)) as [Ej _]. pose proof steps_pos. nia.
Qed.

Lemma conv_first : it_clr (its 0%nat) = true.
Proof using Type. cbn [conv_iter it_clr]. unfold r_of, s_of, c_of. by rewrite ?Zmod_0_l, ?Zdiv_0_l, ?Zmod_0_l, ?Zdiv_0_l. Qed.

(** The input cell of a step outside the padding. *)
Lemma in_index i : (i < n)%nat -> lr_pad (it_load (its i)) = false -> 0 <= (ih_of c i * W + iw_of c i) * C + c_of c i < in_size c.
Proof using Hruns.
  intros Hi Hpad. destruct (conv_index_bounds c sized i Hi) as ((Bc & _) & _). cbn [conv_iter it_load lr_pad] in Hpad.
  apply negb_false_iff, inside_true in Hpad as [Hh Hw]. unfold in_size. apply (digit_index _ _ C (H * W)); [by apply digit_index|done].
Qed.

Lemma conv_safe : conv_apart c -> safe n its.
Proof using Hruns. intros [Ha _] i j Hij Hl Hpad. rewrite conv_dest_out. apply Ha; [by apply in_index; [lia|]|apply conv_out_bounds; lia]. Qed.

(** The last step of an output. *)
Definition closing (x : Z) : nat := Z.to_nat (x * D + (D - 1)).

(** The steps of an output. *)
Lemma step_index x t : 0 <= x < out_count c -> 0 <= t < D ->
  let j := Z.to_nat (x * D + t) in
  (j < n)%nat /\ inner_of j = t /\ out_of c j = x /\ c_of c j = t mod C /\ s_of c j = (t / C) mod F /\ r_of c j = t / C / F.
Proof using Hruns.
  intros Hx Ht j. destruct (conv_sizes_pos c sized) as (? & ? & ? & ? & _). assert (Hz : Z.of_nat j = x * D + t) by (unfold j; nia).
  assert (Hj : (j < n)%nat) by (pose proof conv_iterations_size; pose proof (digit_index x t D (out_count c) Hx Ht); lia).
  destruct (index_split j Hj) as [Es Be]. assert (Ho : out_of c j = x) by nia. assert (He : inner_of j = t) by nia.
  destruct (conv_index_bounds c sized j Hj) as ((Bc & Bs & Br) & _). split; [done|split; [done|split; [done|]]].
  rewrite <- He. unfold inner_of. by rewrite !digit_div, !digit_mod by lia.
Qed.

Lemma conv_closing_index x : 0 <= x < out_count c -> (closing x < n)%nat /\ it_last (its (closing x)) = true /\ out_of c (closing x) = x.
Proof using Hruns.
  intros Hx. pose proof steps_pos. destruct (step_index x (D - 1) Hx ltac:(lia)) as (Hj & He & Ho & _).
  split; [done|split; [|done]]. rewrite last_inner by done. by apply Z.eqb_eq.
Qed.

Lemma conv_other q a : (q <= n)%nat -> (forall x, 0 <= x < out_count c -> conv_out_cell c x <> a) ->
  cell (act_mem (stored its (c_quant_shift c) (c_act_mode c) m0 q)) a = cell (act_mem m0) a.
Proof using Hruns. intros Hq Ha. apply stored_other. intros j Hj _. rewrite conv_dest_out. apply Ha, conv_out_bounds. lia. Qed.

(** The last output cell holds its old byte until the last step is through. *)
Lemma conv_last_late T : conv_apart c -> (T <= 5 * (n - 1) + 8)%nat ->
  cell (act_mem (mem_at n its (c_quant_shift c) (c_act_mode c) m0 T)) (conv_out_cell c (out_count c - 1)) =
  cell (act_mem m0) (conv_out_cell c (out_count c - 1)).
Proof using Hruns.
  intros [_ Hd] HT. apply mem_at_act. intros j Hj Hl Ht Heq. pose proof conv_iterations_size as Hn. pose proof steps_pos.
  assert (Hx : 0 <= out_count c - 1 < out_count c) by nia. destruct (conv_closing_index _ Hx) as (Hcl & Hcll & Hclo).
  assert (He : (Datatypes.S (closing (out_count c - 1)) = n)%nat) by (unfold closing; nia).
  apply (Hd (out_of c j) (out_count c - 1)); [|lia|by rewrite <- conv_dest_out].
  split; [by apply conv_out_bounds|]. rewrite <- Hclo. apply conv_out_order; [|done|done]. destruct (lr_pad _); lia.
Qed.

Section reference.
Context (act wt bias : list Z).
Hypothesis Hops : conv_operands c m0 act wt bias.

Abbreviation term := (conv_term act wt H W C R F (c_stride_h c) (c_stride_w c) (c_pad_h c) (c_pad_w c)).
Abbreviation total := (conv_sum act wt H W C R F (c_stride_h c) (c_stride_w c) (c_pad_h c) (c_pad_w c)).
Abbreviation golden := (ref_conv act wt bias H W C K R F (c_stride_h c) (c_stride_w c) (c_pad_h c) (c_pad_w c)
  (c_quant_shift c) (c_act_mode c)).

(** What one step multiplies. *)
Lemma step_product j : (j < n)%nat ->
  i8 (operand_a its m0 j) * i8 (operand_b its m0 j) =
  term (oh_of c j) (ow_of c j) (k_of c j) (r_of c j) (s_of c j) (c_of c j).
Proof using Hops Hruns.
  intros Hj. destruct Hops as ((_ & _ & _ & _ & Ha & Hw & _) & Hca & Hcw & _).
  destruct (conv_index_bounds c sized j Hj) as ((Bc & Bs & Br) & _ & Bk & _).
  unfold operand_a, operand_b, act_cell, wt_cell. destruct (lr_pad (it_load (its j))) eqn:Hpad.
  - cbn [conv_iter it_load lr_pad] in Hpad. apply negb_true_iff in Hpad. unfold conv_term, padded, ih_of, iw_of in *. by rewrite Hpad.
  - pose proof (in_index j Hj Hpad) as Hin. cbn [conv_iter it_load lr_pad lr_act lr_wt] in *.
    change (wrap (SRAM_ADDR_W + 1) (wrap ADDR_W (c_act_in_addr c + ?x))) with (conv_act_cell c x).
    change (wrap SRAM_ADDR_W (wrap ADDR_W (c_weight_addr c + ?x))) with (conv_wt_cell c x).
    rewrite Hca, Hcw by (done || by apply weight_index). rewrite !i8_u8 by by eapply at_i8.
    apply negb_false_iff in Hpad. unfold conv_term, padded, ih_of, iw_of in *. by rewrite Hpad.
Qed.

(** The reference splits an output number from the other end. *)
Lemma reference_digits x : 0 <= x < out_count c ->
  x / (OW * K) = x / K / OW /\ (x mod (OW * K)) / K = (x / K) mod OW.
Proof using Hruns.
  intros Hx. destruct (conv_sizes_pos c sized) as (? & ? & ? & ? & ? & ?). rewrite (Z.mul_comm OW), Z.div_div by lia. split; [done|].
  rewrite Z.rem_mul_r by lia. rewrite (Z.mul_comm K), Z.add_comm. apply digit_div. apply Z.mod_pos_bound. lia.
Qed.

Lemma conv_total x : 0 <= x < out_count c ->
  sum_after its m0 (Datatypes.S (closing x)) = total (x / (OW * K)) ((x mod (OW * K)) / K) (x mod K).
Proof using Hops Hruns.
  intros Hx. pose proof steps_pos as HD. destruct (conv_sizes_pos c sized) as (HC & HK & HR & HF & HOH & HOW).
  destruct (reference_digits x Hx) as [-> ->]. set (oh := x / K / OW). set (ow := (x / K) mod OW). set (k := x mod K).
  assert (Hterm : forall r s ch, Z.abs (term oh ow k r s ch) <= 16384)
    by (intros; apply (conv_term_bound act wt bias H W C K R F _ _ _ _ (c_quant_shift c)); apply Hops).
  assert (Hidx : forall t, 0 <= t < D -> (Z.to_nat (x * D) + Z.to_nat t)%nat = Z.to_nat (x * D + t)) by (intros; nia).
  replace (Datatypes.S (closing x)) with (Z.to_nat (x * D) + Z.to_nat D)%nat by (unfold closing; nia).
  rewrite (sum_dot its m0 (Z.to_nat (x * D)) (Z.to_nat D) (fun t => term oh ow k (t / C / F) ((t / C) mod F) (t mod C))).
  - rewrite Z2Nat.id by lia. unfold inner_steps.
    rewrite (Zsum_flat (fun u ch => term oh ow k (u / F) (u mod F) ch) (R * F) C) by nia.
    by rewrite (Zsum_flat (fun r s => Zsum C (fun ch => term oh ow k r s ch)) R F) by lia.
  - destruct (step_index x 0 Hx ltac:(lia)) as (Hj & He & _). rewrite Z.add_0_r in *. rewrite first_inner by done. by apply Z.eqb_eq.
  - intros t Ht. destruct (step_index x (Z.of_nat t) Hx ltac:(lia)) as (Hj & He & _). rewrite <- Hidx, Nat2Z.id in * by lia.
    rewrite first_inner by done. apply Z.eqb_neq. lia.
  - intros t Ht. destruct (step_index x (Z.of_nat t) Hx ltac:(lia)) as (Hj & He & Ho & Ec & Es & Er).
    rewrite <- Hidx, Nat2Z.id in * by lia. rewrite step_product by done. unfold oh_of, ow_of, k_of. by rewrite Ho, Ec, Es, Er.
  - done.
  - destruct Hops as ((_ & _ & _ & _ & _ & _ & _ & _ & _ & _ & _ & _ & Hb & _) & _). unfold inner_steps. nia.
  - lia.
Qed.

Lemma conv_reference : conv_apart c -> exists out, golden = Ok out /\
  conv_results c m0 (stored its (c_quant_shift c) (c_act_mode c) m0 n) out /\ i8_array out (out_count c).
Proof using Hops Hruns.
  intros [_ Hd]. pose proof Hops as (Hdef & _ & _ & Hcb). pose proof Hruns as (_ & _ & _ & _ & _ & _ & _ & Eh & Ew & _ & _ & Hact).
  destruct (conv_sizes_pos c sized) as (? & ? & ? & ? & ? & ?).
  eexists. split; [by apply (ref_conv_correct act wt bias)|]. rewrite <- Eh, <- Ew. fold (out_count c).
  split; [|apply spec_array; [unfold out_count; nia|intros i; apply clamp_fits]].
  split; [|split; [intros a Ha; by apply conv_other|apply stored_rest]].
  intros x Hx. destruct (conv_closing_index x Hx) as (Hlt & Hlast & Hout).
  rewrite <- Hout at 1. rewrite <- conv_dest_out, stored_at; [|done|done|].
  2:{ intros i Hi Hil. rewrite !conv_dest_out. apply Hd; [|apply conv_out_bounds; lia].
      split; [apply conv_out_bounds; lia|]. apply conv_out_order; [lia|done|done]. }
  unfold at_ at 1. rewrite (list_lookup_total_fmap (B := Z) _ (seqZ 0 (out_count c))) by (rewrite length_seqZ; lia).
  rewrite lookup_total_seqZ_lt, Z2Nat.id, Z.add_0_l by lia. unfold conv_spec.
  pose proof Hdef as (_ & _ & _ & _ & _ & _ & Hbias & _ & _ & _ & _ & _ & Hov & Hq).
  assert (Hk : 0 <= x mod K < K) by (apply Z.mod_pos_bound; lia).
  rewrite (out_byte_spec _ _ _ (total (x / (OW * K)) ((x mod (OW * K)) / K) (x mod K)) (bias_at bias (x mod K))).
  - unfold wrap, DATA_W. apply Z.mod_mod. lia.
  - by apply conv_total.
  - cbn [output_of o_bias]. unfold bias_cell. cbn [conv_iter it_bias]. unfold k_of. rewrite Hout. by apply Hcb.
  - unfold bias_at. case_bool_decide; [done|]. destruct Hbias as [->|Hbi]; [done|]. by eapply at_i8.
  - assert (Hs : Z.abs (total (x / (OW * K)) ((x mod (OW * K)) / K) (x mod K)) <= R * (F * (C * 16384))); [|lia].
    apply Zsum_bound; [lia|]. intros r Hr. apply Zsum_bound; [lia|]. intros s Hs. apply Zsum_bound; [lia|]. intros ch Hc.
    by eapply conv_term_bound.
  - done.
  - lia.
Qed.
End reference.
End data.

(** C23. The convolution backend is the reference model. With an int8 input,
    weights and a bias in the buffers, outputs on different cells that hold no
    input, and any padding and stride, a command that is left alone leaves in the
    output cells exactly the bytes that [ref_conv] of the testbench computes, every
    other cell of the three buffers as it was, and the backend at rest: [n]
    multiply-accumulate steps take five clocks each, whether they read the
    memories or the padding. *)
Theorem conv_matches_reference c m w host ins act wt bias :
  conv_runs c -> conv_apart c -> conv_operands c m act wt bias ->
  mac_at_rest w.1 -> contents w.2 = m -> no_write host -> undisturbed ins ->
  let n := conv_iterations c in
  let w' := bk_run (world_step w (Some c) host) ins in
  exists out,
    ref_conv act wt bias (c_in_h c) (c_in_w c) (c_in_c c) (c_out_k c) (c_filt_r c) (c_filt_s c)
      (c_stride_h c) (c_stride_w c) (c_pad_h c) (c_pad_w c) (c_quant_shift c) (c_act_mode c) = Ok out /\
    ((5 * n + 11 <= length ins)%nat -> conv_results c m (contents w'.2) out) /\
    ((5 * n + 13 <= length ins)%nat -> mac_at_rest w'.1).
Proof.
  intros Hc Hap Hops Hr Hm Hh Hins n w'. destruct (conv_reference c m Hc act wt bias Hops Hap) as (out & Hout & Hres & _).
  pose proof (conv_safe c Hc Hap) as Hs. pose (L := conv_front_laws c (sized c Hc)). exists out. split; [done|split]; intros HL.
  - unfold w'. rewrite (mac_memory (L := L) m) by (done || apply conv_first). change (lead (L := L)) with 5%nat.
    rewrite mem_at_end by (fold n; lia). done.
  - apply (mac_rests (L := L) m); try done. change (lead (L := L)) with 5%nat. fold n. lia.
Qed.

(** [done] of the convolution backend comes before the last output is stored.
    Its gate is that of [gemm_backend]: it does not see the step that is still in
    the loader. With more than one step per output, or one step in all, [done] is
    high in clock [5 * n + 2] after acceptance and never again, [busy] is low in
    the clock after it, and up to clock [5 * n + 8] the last output cell holds what
    was there before the command. *)
Theorem conv_done_early c m w host ins :
  conv_runs c -> conv_apart c -> 2 <= inner_steps c \/ out_count c = 1 ->
  mac_at_rest w.1 -> contents w.2 = m -> no_write host -> undisturbed ins ->
  let n := conv_iterations c in
  let L := length ins in
  let w' := bk_run (world_step w (Some c) host) ins in
  let last := conv_out_cell c (out_count c - 1) in
  mac_done w'.1.1 = (L =? 5 * n + 2)%nat /\
  (L = 5 * n + 3 -> mac_busy w'.1.1 = false)%nat /\
  ((L <= 5 * n + 8)%nat -> cell (act_mem (contents w'.2)) last = cell (act_mem m) last).
Proof.
  intros Hc Hap Hmany Hr Hm Hh Hins n L w' last. subst n. pose proof (conv_safe c Hc Hap) as Hs.
  pose proof (conv_iterations_size c Hc) as Hn. pose proof (steps_pos c Hc) as HD. pose (FL := conv_front_laws c (sized c Hc)).
  pose proof (n_pos (FrontLaws := FL)) as Hpos.
  assert (He : conv_iterations c = 1%nat \/ it_last (conv_iter c (conv_iterations c - 2)%nat) = false).
  { destruct (decide (conv_iterations c = 1%nat)) as [|Hne]; [by left|right].
    assert (HD2 : 2 <= inner_steps c) by (destruct Hmany as [|E]; [done|rewrite E in Hn; nia]).
    rewrite (last_inner c Hc) by lia. apply Z.eqb_neq. destruct (index_split c Hc (conv_iterations c - 2)%nat ltac:(lia)) as [Ei Be].
    intros E. rewrite E in Ei. assert (Z.of_nat (conv_iterations c - 2) + 1 = (out_of c (conv_iterations c - 2) + 1) * inner_steps c) by lia.
    assert (Hm1 : (out_count c - (out_of c (conv_iterations c - 2) + 1)) * inner_steps c = 1) by lia.
    apply Z.mul_eq_1 in Hm1. lia. }
  destruct (early_signals (L := FL) m (conv_first c) Hs w host ins He Hr Hm Hh Hins) as [Hd Hb].
  fold w' L in Hd, Hb. change (lead (L := FL)) with 5%nat in *. unfold last_trigger, last_issue in *.
  split; [rewrite Hd; f_equal; lia|split; intros HL; [apply Hb; destruct (lr_pad _); lia|]].
  unfold w'. rewrite (mac_memory (L := FL) m) by (done || apply conv_first). change (lead (L := FL)) with 5%nat.
  apply conv_last_late; [done|done|]. fold L. lia.
Qed.

(** ** Witnesses *)

(** A 2x2 window over a 2x2 input with one row and column of padding. *)
Definition ex_conv_cmd : conv_cmd_t := mk_conv_cmd 1 0 2048 0 100 2 2 1 1 2 2 1 1 1 1 3 3 0 0.
Definition ex_conv_mem : buffers :=
  mk_buffers (mk_bank (<[0 := 1]> (<[1 := 1]> (<[2 := 1]> (<[3 := 1]> ∅)))) 0 false)
    (mk_bank (<[0 := 1]> (<[1 := 2]> (<[2 := 3]> (<[3 := 4]> (<[2056 := 77]> ∅))))) 0 false) (mk_bank ∅ 0 false).
Definition ex_conv_rest : conv_world :=
  ((mac_reset, mk_router (mk_rport 0 false) (mk_rport 0 false) false 0 false), ex_conv_mem).

Lemma ex_conv_rests : mac_at_rest ex_conv_rest.1.
Proof. by repeat split. Qed.

Lemma ex_conv_runs : conv_runs ex_conv_cmd.
Proof. apply (bool_decide_unpack _). vm_compute. done. Qed.

Lemma ex_conv_apart : conv_apart ex_conv_cmd.
Proof.
  assert (H1 : Forall (fun x => Forall (fun y => conv_out_cell ex_conv_cmd y <> conv_act_cell ex_conv_cmd x) (seqZ 0 9)) (seqZ 0 4))
    by (apply (bool_decide_unpack _); vm_compute; done).
  assert (H2 : Forall (fun y => Forall (fun x => conv_out_cell ex_conv_cmd y <> conv_out_cell ex_conv_cmd x) (seqZ 0 y)) (seqZ 0 9))
    by (apply (bool_decide_unpack _); vm_compute; done).
  split; intros x y.
  - intros Hx Hy. exact (below _ 9 (below _ 4 H1 x Hx) y Hy).
  - intros Hxy Hy. exact (below _ y (below _ 9 H2 y ltac:(change (out_count ex_conv_cmd) with 9 in Hy; lia)) x Hxy).
Qed.

Lemma ex_conv_operands : conv_operands ex_conv_cmd (contents ex_conv_mem) [1; 2; 3; 4] [1; 1; 1; 1] [].
Proof.
  split; [apply (bool_decide_unpack _); vm_compute; done|].
  split; [|split]; apply below; apply (bool_decide_unpack _); vm_compute; done.
Qed.

Theorem conv_matches_reference_witness :
  ref_conv [1; 2; 3; 4] [1; 1; 1; 1] [] 2 2 1 1 2 2 1 1 1 1 0 0 = Ok [1; 3; 2; 4; 10; 6; 3; 7; 4] /\
  cell (act_mem (contents (bk_run (world_step ex_conv_rest (Some ex_conv_cmd) no_request) (idle_for 200)).2)) 2052 = 10.
Proof.
  destruct (conv_matches_reference ex_conv_cmd (contents ex_conv_mem) ex_conv_rest no_request (idle_for 200)
    [1; 2; 3; 4] [1; 1; 1; 1] [] ex_conv_runs ex_conv_apart ex_conv_operands ex_conv_rests eq_refl eq_refl
    (idle_undisturbed 200)) as (out & Hout & Hres & _).
  assert (E : ref_conv [1; 2; 3; 4] [1; 1; 1; 1] [] 2 2 1 1 2 2 1 1 1 1 0 0 = Ok [1; 3; 2; 4; 10; 6; 3; 7; 4]) by (vm_compute; done).
  split; [exact E|]. assert (Ho : Ok out = Ok [1; 3; 2; 4; 10; 6; 3; 7; 4]) by (rewrite <- Hout; exact E). injection Ho as Ho.
  destruct Hres as (Hc & _); [vm_compute; lia|]. rewrite Ho in Hc. exact (Hc 4 ltac:(vm_compute; split; congruence)).
Defined.

(** With [done] the byte at 2056 is still the old one, and [busy] falls. *)
Theorem conv_done_early_witness :
  let at_clock T := bk_run (world_step ex_conv_rest (Some ex_conv_cmd) no_request) (idle_for T) in
  mac_done (at_clock 182%nat).1.1 = true /\ mac_busy (at_clock 183%nat).1.1 = false /\
  cell (act_mem (contents (at_clock 188%nat).2)) 2056 = 77.
Proof.
  pose proof (fun T => conv_done_early ex_conv_cmd (contents ex_conv_mem) ex_conv_rest no_request (idle_for T)
    ex_conv_runs ex_conv_apart ltac:(left; vm_compute; congruence) ex_conv_rests eq_refl eq_refl (idle_undisturbed T)) as H.
  split; [|split].
  - destruct (H 182%nat) as (Hd & _). exact Hd.
  - destruct (H 183%nat) as (_ & Hb & _). apply Hb. vm_compute. reflexivity.
  - destruct (H 188%nat) as (_ & _ & Hm). apply Hm. vm_compute. lia.
Defined.
