(* ===== verification/Hw.v ===== *)
(** * The hardware control path, clock by clock

    The modules between the MMIO bus and the compute backends, one record and
    one clock-edge function per module: [npu_reg_block] (registers and command
    window), [npu_cmd_fetch], [npu_cmd_decode], [npu_queue] (over [Fifo]),
    [npu_scheduler], [npu_status], [npu_irq_ctrl] and [npu_perf_counters], wired as in [npu_shell]
    and [npu_core], with the DMA engine and the buffers of [Dma] and the
    testbench's external memory ([ExtMem]) at the external port. The backends
    take part through their handshake only: accept when idle, stay busy for a
    number of cycles that is a parameter, and pulse [done] in the last one;
    what they write into the activation buffer on the way is a parameter, too. *)

From S2P Require Import Prelude Regs Command Decode Prog Runtime Fifo ExtMem Mem Dma.

Open Scope Z_scope.

Definition CMD_QUEUE_DEPTH_LOG : Z := 2. (* CMD_QUEUE_DEPTH = 4 *)

Definition zero_cmd : conv_cmd_t := mk_conv_cmd 0 0 0 0 0 0 0 0 0 0 0 0 0 0 0 0 0 0 0.

(** ** npu_reg_block *)

Record reg_block := mk_regs {
  ctrl_reg : Z; irq_en_reg : Z; doorbell_r : bool; irq_clear_r : bool;
  dma_ext_addr_r : Z; dma_loc_addr_r : Z; dma_len_r : Z; dma_start_r : bool; dma_dir_r : bool;
  cmd_mem : list Z; fetch_rvalid_r : bool; fetch_rdata_r : Z }.

(** A write on the bus in this cycle: byte offset and 32-bit data. *)
Abbreviation bus := (option (Z * Z)).

Definition is_cmd_queue (addr : Z) : bool :=
  (rtl_region CMD_QUEUE <=? addr) && (addr <? rtl_region WEIGHT_BUF).

(** [4'((addr - CMD_QUEUE_BASE) >> 2)] *)
Definition cmd_index (addr : Z) : nat := Z.to_nat (wrap 4 ((addr - rtl_region CMD_QUEUE) ≫ 2)).

(** The register written by the bus, if any. *)
Definition written (b : bus) : option (reg * Z) :=
  '(addr, v) ← b; r ← reg_at addr; Some (r, v).

Definition wr_to (b : bus) (r : reg) (old : Z) (trunc : Z -> Z) : Z :=
  match written b with
  | Some (r', v) => if decide (r' = r) then trunc v else old
  | None => old
  end.

Definition wr_pulse (b : bus) (r : reg) (f : Z -> bool) : bool :=
  match written b with
  | Some (r', v) => if decide (r' = r) then f v else false
  | None => false
  end.

Definition regs_step (s : reg_block) (b : bus) (fetch_addr : Z) (fetch_req : bool) : reg_block :=
  mk_regs
    (wr_to b R_CTRL (ctrl_reg s) id)
    (wr_to b R_IRQ_ENABLE (irq_en_reg s) id)
    (wr_pulse b R_DOORBELL (fun _ => true))
    (wr_pulse b R_IRQ_CLEAR (fun _ => true))
    (wr_to b R_DMA_EXT_ADDR (dma_ext_addr_r s) id)
    (wr_to b R_DMA_LOC_ADDR (dma_loc_addr_r s) (wrap 20))
    (wr_to b R_DMA_LEN (dma_len_r s) (wrap 16))
    (wr_pulse b R_DMA_CTRL (fun v => Z.testbit v 0))
    (match written b with
     | Some (R_DMA_CTRL, v) => Z.testbit v 1
     | _ => dma_dir_r s
     end)
    (match b with
     | Some (addr, v) => if is_cmd_queue addr then <[cmd_index addr := v]> (cmd_mem s) else cmd_mem s
     | None => cmd_mem s
     end)
    fetch_req
    (if fetch_req then default 0 (cmd_mem s !! cmd_index fetch_addr) else fetch_rdata_r s).

(** ** npu_cmd_fetch *)

Inductive fetch_state := F_IDLE | F_READ | F_WAIT.

Record fetch := mk_fetch { f_state : fetch_state; word_cnt : Z }.

Definition fetch_busy (f : fetch) : bool := match f_state f with F_IDLE => false | _ => true end.
Definition cmd_rd_addr (f : fetch) : Z := rtl_region CMD_QUEUE + 4 * word_cnt f.
Definition cmd_rd_req (f : fetch) : bool := match f_state f with F_READ => true | _ => false end.
Definition desc_word_valid (f : fetch) (rvalid : bool) : bool :=
  match f_state f with F_WAIT => rvalid | _ => false end.
Definition desc_done (f : fetch) (rvalid : bool) : bool :=
  desc_word_valid f rvalid && (word_cnt f =? 15).

Definition fetch_step (f : fetch) (doorbell rvalid : bool) : fetch :=
  mk_fetch
    (match f_state f with
     | F_IDLE => if doorbell then F_READ else F_IDLE
     | F_READ => F_WAIT
     | F_WAIT => if rvalid then (if word_cnt f =? 15 then F_IDLE else F_READ) else F_WAIT
     end)
    (match f_state f with
     | F_IDLE => if doorbell then 0 else word_cnt f
     | F_READ => word_cnt f
     | F_WAIT => if rvalid then wrap 4 (word_cnt f + 1) else word_cnt f
     end).

(** ** npu_cmd_decode *)

Inductive decode_state := D_IDLE | D_CHECK | D_VALID.

Record decode := mk_decode { desc_regs : list Z; d_state : decode_state; cmd_r : conv_cmd_t; err_r : bool }.

Definition decode_busy (d : decode) : bool := match d_state d with D_IDLE => false | _ => true end.
Definition cmd_valid (d : decode) : bool :=
  match d_state d with D_VALID => negb (err_r d) | _ => false end.
Definition decode_err (d : decode) : bool :=
  match d_state d with D_VALID => err_r d | _ => false end.

Definition decode_step (d : decode) (word_valid done : bool) (idx word : Z) (cmd_ready : bool) : decode :=
  mk_decode
    (if word_valid then <[Z.to_nat idx := word]> (desc_regs d) else desc_regs d)
    (match d_state d with
     | D_IDLE => if done then D_CHECK else D_IDLE
     | D_CHECK => D_VALID
     | D_VALID => if cmd_ready || err_r d then D_IDLE else D_VALID
     end)
    (match d_state d with D_CHECK => decode_fields (desc_regs d) | _ => cmd_r d end)
    (match d_state d with
     | D_CHECK => negb (opcode_known (wrap 4 (dw (desc_regs d) 0)))
     | _ => err_r d
     end).

(** ** npu_scheduler *)

Inductive sched_state := S_IDLE | S_ISSUE | S_WAIT.

Record sched := mk_sched { s_state : sched_state; s_cmd : conv_cmd_t }.

Definition queue_ready (s : sched) : bool := match s_state s with S_IDLE => true | _ => false end.
Definition dispatch_valid (s : sched) : bool := match s_state s with S_ISSUE => true | _ => false end.

Definition sched_step (s : sched) (queue_cmd : conv_cmd_t) (queue_valid dispatch_ready done : bool) : sched :=
  mk_sched
    (match s_state s with
     | S_IDLE => if queue_valid then S_ISSUE else S_IDLE
     | S_ISSUE => if dispatch_ready then S_WAIT else S_ISSUE
     | S_WAIT => if done then S_IDLE else S_WAIT
     end)
    (match s_state s with
     | S_IDLE => if queue_valid then queue_cmd else s_cmd s
     | _ => s_cmd s
     end).

(** ** npu_perf_counters

    [build_defs.svh] defines [NPU_ENABLE_PERF_COUNTERS], so they are built. *)

Record perf := mk_perf { cnt_cycles : Z; cnt_active : Z; cnt_stall : Z }.

Definition counter (count : Z) (clr en : bool) : Z := if clr then 0 else if en then u32 (count + 1) else count.

Definition perf_step (p : perf) (clear active stall : bool) : perf :=
  mk_perf (counter (cnt_cycles p) clear true) (counter (cnt_active p) clear active) (counter (cnt_stall p) clear stall).

Definition perf_zero : perf := mk_perf 0 0 0.

(** ** The core, as the shell sees it

    What [npu_core] shows of its backends: [busy], [done] and [stall], whether the one a
    command is for is ready, and the write into the activation buffer; the
    shell gives it the scheduler's command with its [valid] and the buffers it
    reads. *)

Class Core (E : Type) := {
  be_busy : E -> bool;
  be_done : E -> bool;
  be_stall : E -> bool;
  be_ready : E -> conv_cmd_t -> bool;
  be_write : E -> conv_cmd_t -> option (Z * Z);
  be_step : E -> bool -> conv_cmd_t -> buffers -> E;
  be_reset : E -> E;
  be_zero : E }.

(** [backend_active] *)
Definition be_active {E} {C : Core E} (e : E) : bool := be_busy e && negb (be_stall e).

(** The contract of a core: idle until a command comes, then, if it can run the
    command, busy for a known number of clocks, [done] in the last of them. *)
Class CoreLaws {E} (C : Core E) := {
  cycles : conv_cmd_t -> nat;
  runnable : conv_cmd_t -> Prop;
  be_idle : E -> Prop;
  runs : conv_cmd_t -> nat -> E -> Prop;
  idle_view e : be_idle e ->
    be_busy e = false /\ be_done e = false /\ forall c, be_ready e c = true /\ be_write e c = None;
  idle_stays e c b : be_idle e -> be_idle (be_step e false c b);
  idle_starts e c b : be_idle e -> runnable c -> runs c (cycles c) (be_step e true c b);
  runs_view c n e : runs c n e -> be_busy e = true /\ be_done e = bool_decide (n = 0%nat);
  runs_step c n e c' b : runs c n e ->
    match n with O => be_idle (be_step e false c' b) | S m => runs c m (be_step e false c' b) end;
  reset_idle e : be_idle (be_reset e);
  zero_idle : be_idle be_zero }.

(** *** The core by its latency

    An instance that knows of a backend only how long it takes and what it
    writes. [None] is idle; [Some n] is busy with [n] cycles to go before the
    one that pulses [done]. *)
Definition engine := option nat.

Definition engine_busy (e : engine) : bool := match e with Some _ => true | None => false end.
Definition engine_done (e : engine) : bool := match e with Some O => true | _ => false end.

Definition engine_step (e : engine) (start : bool) (cycles : nat) : engine :=
  match e with
  | None => if start then Some cycles else None
  | Some O => None
  | Some (S n) => Some n
  end.

Section latency.
Context (backend_cycles : conv_cmd_t -> nat) (backend_writes : conv_cmd_t -> nat -> option (Z * Z)).

Definition latency : Core engine := {|
  be_busy := engine_busy; be_done := engine_done; be_stall _ := false;
  be_ready e _ := negb (engine_busy e);
  be_write e c := match e with Some n => backend_writes c n | None => None end;
  be_step e valid c _ := engine_step e valid (backend_cycles c);
  be_reset _ := None; be_zero := None |}.

#[export, program] Instance latency_laws : CoreLaws latency := {|
  cycles := backend_cycles; runnable _ := True;
  be_idle e := e = None; runs _ n e := e = Some n |}.
Next Obligation. by intros _ ->. Qed.
Next Obligation. by intros _ c b ->. Qed.
Next Obligation. by intros _ c b -> _. Qed.
Next Obligation. intros c n _ ->. by destruct n. Qed.
Next Obligation. intros c n _ c' b ->. by destruct n. Qed.
Next Obligation. done. Qed.
Next Obligation. done. Qed.
End latency.

(** ** The shell *)

Record hw (E : Type) := mk_hw {
  h_regs : reg_block; h_fetch : fetch; h_decode : decode; h_queue : fifo (A:=conv_cmd_t);
  h_sched : sched; h_backend : E; h_mem : memsys; h_ext : ext_mem; h_pending : bool; h_perf : perf }.
Arguments mk_hw {E}.
Arguments h_regs {E}.
Arguments h_fetch {E}.
Arguments h_decode {E}.
Arguments h_queue {E}.
Arguments h_sched {E}.
Arguments h_backend {E}.
Arguments h_mem {E}.
Arguments h_ext {E}.
Arguments h_pending {E}.
Arguments h_perf {E}.

Section shell.
Context {E : Type} {C : Core E}.

Definition soft_reset (h : hw E) : bool := Z.testbit (ctrl_reg (h_regs h)) 0.

(** The configuration outputs of the register block. *)
Definition dma_config (r : reg_block) : dma_cfg :=
  mk_cfg (dma_ext_addr_r r) (dma_loc_addr_r r) (dma_len_r r) (dma_start_r r) (dma_dir_r r).

(** The buffer window passthrough, for a write or a read on the bus. *)
Definition is_buf (addr : Z) : bool := rtl_region WEIGHT_BUF <=? addr.

Definition buf_passthrough (b : bus) (rd : option Z) : port :=
  match b, rd with
  | Some (addr, v), _ => mk_port addr v true (is_buf addr)
  | None, Some addr => mk_port addr 0 false (is_buf addr)
  | None, None => no_request
  end.

(** The write of the backend in this cycle. *)
Definition be_act_wr (h : hw E) : option (Z * Z) :=
  be_write (h_backend h) (s_cmd (h_sched h)).

(** One clock edge out of reset, with the write or the read on the bus in that
    cycle. *)
Definition hw_clock (h : hw E) (b : bus) (rd : option Z) : hw E :=
  let r := h_regs h in
  let f := h_fetch h in
  let d := h_decode h in
  let q := h_queue h in
  let s := h_sched h in
  let word_valid := desc_word_valid f (fetch_rvalid_r r) in
  let q_valid := Fifo.rd_valid q in
  let done := be_done (h_backend h) || dma_done (u_dma (h_mem h)) in
  let answer := update_ext_mem (h_ext h) (dma_ext (u_dma (h_mem h))) in
  mk_hw
    (regs_step r b (cmd_rd_addr f) (cmd_rd_req f))
    (fetch_step f (doorbell_r r) (fetch_rvalid_r r))
    (decode_step d word_valid (desc_done f (fetch_rvalid_r r)) (word_cnt f) (fetch_rdata_r r)
       (Fifo.wr_ready CMD_QUEUE_DEPTH_LOG q))
    (Fifo.fifo_step CMD_QUEUE_DEPTH_LOG q (cmd_r d) (cmd_valid d) (queue_ready s))
    (sched_step s (Fifo.rd_data zero_cmd CMD_QUEUE_DEPTH_LOG q) q_valid
       (be_ready (h_backend h) (s_cmd s)) (be_done (h_backend h)))
    (be_step (h_backend h) (dispatch_valid s) (s_cmd s) (u_bufs (h_mem h)))
    (mem_step (h_mem h) (dma_config r) (buf_passthrough b rd) (be_act_wr h) answer.2)
    answer.1
    (if irq_clear_r r then false
     else if done || decode_err d then true else h_pending h)
    (perf_step (h_perf h) (soft_reset h) (be_active (h_backend h)) (be_stall (h_backend h))).

Definition hw_step (h : hw E) (b : bus) : hw E := hw_clock h b None.

(** npu_status *)
Definition core_busy (h : hw E) : bool := be_busy (h_backend h) || dma_busy (u_dma (h_mem h)).
Definition core_idle (h : hw E) : bool :=
  negb (core_busy h) && Fifo.empty (h_queue h) &&
  negb (fetch_busy (h_fetch h) || decode_busy (h_decode h)).

Definition irq_out (h : hw E) : bool := h_pending h && Z.testbit (irq_en_reg (h_regs h)) 0.

(** [{NPU_VERSION_MAJOR, NPU_VERSION_MINOR, NUM_BACKENDS, ARRAY_ROWS, ARRAY_COLS,
    DTYPES_SUPPORTED}] *)
Definition FEATURE_ID : Z := 0 * 2 ^ 24 + 1 * 2 ^ 16 + 1 * 2 ^ 12 + 1 * 2 ^ 8 + 1 * 2 ^ 4 + 1.

(** Read data of a register access. *)
Definition reg_rdata (h : hw E) (addr : Z) : Z :=
  match reg_at addr with
  | Some R_CTRL => ctrl_reg (h_regs h)
  | Some R_STATUS =>
      b2z (core_idle h) + 2 * b2z (core_busy h) + 4 * b2z (Fifo.full CMD_QUEUE_DEPTH_LOG (h_queue h))
  | Some R_IRQ_STATUS => b2z (h_pending h)
  | Some R_IRQ_ENABLE => irq_en_reg (h_regs h)
  | Some R_FEATURE_ID => FEATURE_ID
  | Some R_PERF_CYCLES => cnt_cycles (h_perf h)
  | Some R_PERF_ACTIVE => cnt_active (h_perf h)
  | Some R_PERF_STALL => cnt_stall (h_perf h)
  | Some R_DMA_EXT_ADDR => dma_ext_addr_r (h_regs h)
  | Some R_DMA_LOC_ADDR => dma_loc_addr_r (h_regs h)
  | Some R_DMA_LEN => dma_len_r (h_regs h)
  | Some R_DMA_STATUS => b2z (dma_busy (u_dma (h_mem h)))
  | _ => 0
  end.

Fixpoint ticks (n : nat) (h : hw E) : hw E :=
  match n with O => h | S m => ticks m (hw_step h None) end.

(** ** The bus *)

(** A host whose accesses to the device at [base] take one cycle each, with
    [gap] idle cycles after every access. Register reads are combinational and
    always ready: the host takes the data in the cycle of the access or, when
    [late], after its clock edge as the testbench's [mmio_read] does. Reads of
    the buffer windows take longer and are left to [TbHw]. *)
Definition mmio_answer (base : Z) (gap : nat) (late : bool) (c : mmio) (h : hw E) : Z * hw E :=
  match c with
  | Load a =>
      let h' := hw_step h None in (reg_rdata (if late then h' else h) (a - base), ticks gap h')
  | Store a v => (0, ticks gap (hw_step h (Some (a - base, v))))
  end.

Definition hw_env (base : Z) (gap : nat) (late : bool) : Env mmio (hw E) := mmio_answer base gap late.
(** The state after reset. *)
Definition hw_reset : hw E :=
  mk_hw (mk_regs 0 0 false false 0 0 0 false false (replicate 16 0) false 0)
        (mk_fetch F_IDLE 0)
        (mk_decode (replicate 16 0) D_IDLE zero_cmd false)
        (Fifo.mk_fifo (replicate 4 zero_cmd) 0 0)
        (mk_sched S_IDLE zero_cmd) be_zero mem_zero (mk_ext_mem ∅ false 0) false perf_zero.
End shell.
