(* ===== verification/NpuCore.v ===== *)
(** * The core with its six backends

    [npu_core] behind the scheduler: dispatch to the backends, the selector of
    the memory ports, the six backends of [ConvBackend], [GemmBackend],
    [SoftmaxBackend], [VecBackend], [LnormBackend] and [PoolBackend] on the router
    of [BackendMem]. Around backends that keep the contract of [Backend] the core
    keeps the contract that [Hw] asks of it, so whatever holds of the shell holds
    around this core; the two that do not, for their commands, are followed clock
    by clock in [HwMac]. *)

From S2P Require Import Prelude Regs Command Decode Prog Runtime CArith Golden Fifo ExtMem Mem Dma BackendMem Backend ConvBlocks MacPath MacFront.
From S2P Require Import ConvBackend GemmBackend VecBackend PoolBackend RowBlocks SoftmaxBackend LnormBackend Hw.

Open Scope Z_scope.

(** ** npu_core *)

(** The codes [3'b000] to [3'b101] of [be_sel_r]. *)
Inductive slot := Conv | Gemm | Softmax | Vec | Lnorm | Pool.

#[export] Instance slot_eq : EqDecision slot := ltac:(solve_decision).

Record npu_core := mk_core {
  be_sel_r : slot; u_conv : conv_backend; u_gemm : gemm_backend; u_softmax : softmax_ctrl; u_vec : vec_ctrl;
  u_ln : lnorm_port; u_pool : pool_ctrl; u_router : router }.

(** Who gets a command. *)
Definition owner (c : conv_cmd_t) : slot :=
  match npu_dispatch c with
  | HwConv _ => Conv | HwGemm _ => Gemm | HwSoftmax _ => Softmax | HwVec _ => Vec | HwLnorm _ => Lnorm | HwPool _ => Pool
  end.

(** The command for each backend. *)
Definition conv_cmd_valid (valid : bool) (c : conv_cmd_t) : option conv_cmd_t :=
  if valid then match npu_dispatch c with HwConv v => Some v | _ => None end else None.

Definition gemm_cmd_valid (valid : bool) (c : conv_cmd_t) : option gemm_cmd_t :=
  if valid then match npu_dispatch c with HwGemm g => Some g | _ => None end else None.

Definition softmax_cmd_valid (valid : bool) (c : conv_cmd_t) : option softmax_cmd_t :=
  if valid then match npu_dispatch c with HwSoftmax s => Some s | _ => None end else None.

Definition vec_cmd_valid (valid : bool) (c : conv_cmd_t) : option vec_cmd_t :=
  if valid then match npu_dispatch c with HwVec v => Some v | _ => None end else None.

Definition lnorm_cmd_valid (valid : bool) (c : conv_cmd_t) : option lnorm_cmd_t :=
  if valid then match npu_dispatch c with HwLnorm l => Some l | _ => None end else None.

Definition pool_cmd_valid (valid : bool) (c : conv_cmd_t) : option pool_cmd_t :=
  if valid then match npu_dispatch c with HwPool p => Some p | _ => None end else None.

(** A backend that is not selected sees no answer. *)
Definition selected (sel : bool) (a : rd_answer) : rd_answer :=
  if sel then a else mk_rd_answer false false 0.

(** The memory port mux. *)
Definition core_request (e : npu_core) : be_request :=
  match be_sel_r e with
  | Gemm => bk_request (u_gemm e)
  | Softmax => bk_request (u_softmax e)
  | Vec => bk_request (u_vec e)
  | Lnorm => bk_request (u_ln e)
  | Pool => bk_request (u_pool e)
  | Conv => bk_request (u_conv e)
  end.

(** [sched_ready] *)
Definition core_ready (e : npu_core) (c : conv_cmd_t) : bool :=
  match npu_dispatch c with
  | HwGemm _ => bk_ready (u_gemm e)
  | HwSoftmax _ => bk_ready (u_softmax e)
  | HwVec _ => bk_ready (u_vec e)
  | HwLnorm _ => bk_ready (u_ln e)
  | HwPool _ => bk_ready (u_pool e)
  | HwConv _ => bk_ready (u_conv e)
  end.

(** A backend behind its port, selected or not. *)
Definition port_step {B K} {BK : Backend B K} (sel : bool) (s : B) (cmd : option K) (r : router) (q : be_request) : B :=
  bk_step s cmd (selected sel (be_act_rd r q)) (selected sel (be_wt r q)) (selected sel (be_bias r q))
    (sel && be_act_wr_gnt q).

Definition core_step (e : npu_core) (valid : bool) (c : conv_cmd_t) (b : buffers) : npu_core :=
  let q := core_request e in
  let r := u_router e in
  let sel s := bool_decide (be_sel_r e = s) in
  mk_core
    (if valid && core_ready e c then owner c else be_sel_r e)
    (port_step (sel Conv) (u_conv e) (conv_cmd_valid valid c) r q)
    (port_step (sel Gemm) (u_gemm e) (gemm_cmd_valid valid c) r q)
    (port_step (sel Softmax) (u_softmax e) (softmax_cmd_valid valid c) r q)
    (port_step (sel Vec) (u_vec e) (vec_cmd_valid valid c) r q)
    (port_step (sel Lnorm) (u_ln e) (lnorm_cmd_valid valid c) r q)
    (port_step (sel Pool) (u_pool e) (pool_cmd_valid valid c) r q)
    (router_step r b q).

Definition core_reset (e : npu_core) : npu_core :=
  mk_core Conv bk_reset bk_reset bk_reset bk_reset bk_reset bk_reset (router_reset (u_router e)).

Definition core_zero : npu_core :=
  mk_core Conv bk_reset bk_reset bk_reset bk_reset bk_reset bk_reset
    (mk_router (mk_rport 0 false) (mk_rport 0 false) false 0 false).

Definition core_busy_any (e : npu_core) : bool :=
  bk_busy (u_gemm e) || bk_busy (u_softmax e) || bk_busy (u_conv e) || bk_busy (u_vec e) || bk_busy (u_ln e) || bk_busy (u_pool e).

(** [be_busy & has_outstanding_request & ~be_act_rd_gnt] *)
Definition core_stall (e : npu_core) : bool :=
  let q := core_request e in core_busy_any e && be_act_rd_req q && negb (rd_gnt (be_act_rd (u_router e) q)).

#[export] Instance npu_core_core : Core npu_core := {|
  be_busy := core_busy_any;
  be_done e := bk_done (u_gemm e) || bk_done (u_softmax e) || bk_done (u_conv e) || bk_done (u_vec e) || bk_done (u_ln e) || bk_done (u_pool e);
  be_stall := core_stall;
  be_ready := core_ready;
  be_write e _ := be_act_write (core_request e);
  be_step := core_step; be_reset := core_reset; be_zero := core_zero |}.

(** ** Its backends, as a family *)

Definition slot_state (s : slot) : Type :=
  match s with
  | Conv => conv_backend | Gemm => gemm_backend | Softmax => softmax_ctrl | Vec => vec_ctrl | Lnorm => lnorm_port
  | Pool => pool_ctrl
  end.
Definition slot_cmd (s : slot) : Type :=
  match s with
  | Conv => conv_cmd_t | Gemm => gemm_cmd_t | Softmax => softmax_cmd_t | Vec => vec_cmd_t | Lnorm => lnorm_cmd_t
  | Pool => pool_cmd_t
  end.

#[export] Instance slot_backend (s : slot) : Backend (slot_state s) (slot_cmd s) :=
  match s with
  | Conv => mac_ports | Gemm => mac_ports | Softmax => softmax_backend | Vec => vec_backend | Lnorm => lnorm_backend
  | Pool => pool_backend
  end.

#[export] Instance slot_laws (s : slot) : BackendLaws (slot_backend s) :=
  match s with
  | Conv => mac_laws | Gemm => mac_laws | Softmax => softmax_backend_laws | Vec => vec_backend_laws
  | Lnorm => lnorm_backend_laws | Pool => pool_backend_laws
  end.

Definition in_slot (s : slot) (e : npu_core) : slot_state s :=
  match s with
  | Conv => u_conv e | Gemm => u_gemm e | Softmax => u_softmax e | Vec => u_vec e | Lnorm => u_ln e | Pool => u_pool e
  end.

(** A command, as its backend gets it. *)
Definition cmd_for (s : slot) (valid : bool) (c : conv_cmd_t) : option (slot_cmd s) :=
  match s with
  | Conv => conv_cmd_valid valid c | Gemm => gemm_cmd_valid valid c | Softmax => softmax_cmd_valid valid c
  | Vec => vec_cmd_valid valid c | Lnorm => lnorm_cmd_valid valid c | Pool => pool_cmd_valid valid c
  end.

Lemma cmd_for_owner c : exists k, cmd_for (owner c) true c = Some k.
Proof.
  unfold owner, cmd_for, conv_cmd_valid, gemm_cmd_valid, softmax_cmd_valid, vec_cmd_valid, lnorm_cmd_valid, pool_cmd_valid.
  destruct (npu_dispatch c); by eexists.
Qed.

Lemma cmd_for_other s c : s <> owner c -> cmd_for s true c = None.
Proof.
  unfold owner, cmd_for, conv_cmd_valid, gemm_cmd_valid, softmax_cmd_valid, vec_cmd_valid, lnorm_cmd_valid, pool_cmd_valid.
  by destruct s, (npu_dispatch c).
Qed.

Lemma cmd_for_none s c : cmd_for s false c = None.
Proof. by destruct s. Qed.

Lemma request_holder e : core_request e = bk_request (in_slot (be_sel_r e) e).
Proof. unfold core_request. by destruct (be_sel_r e). Qed.

Lemma slot_step s e valid c b :
  in_slot s (core_step e valid c b) =
  port_step (bool_decide (be_sel_r e = s)) (in_slot s e) (cmd_for s valid c) (u_router e) (core_request e).
Proof. by destruct s. Qed.

Lemma owner_ready e c : core_ready e c = bk_ready (in_slot (owner c) e).
Proof. unfold core_ready, owner. by destruct (npu_dispatch c). Qed.

Lemma holder_accepted e c b : core_ready e c = true -> be_sel_r (core_step e true c b) = owner c.
Proof. intros Hr. cbn [core_step be_sel_r]. by rewrite Hr. Qed.

(** ** One backend in there, the others at rest *)

Definition alone (s : slot) (e : npu_core) : Prop := forall s', s' <> s -> bk_rest (in_slot s' e).

Definition slot_side (s : slot) (e : npu_core) : slot_state s * router := (in_slot s e, u_router e).

(** At rest it does not matter who is selected. *)
Lemma slot_alone s e valid c b :
  alone s e -> be_sel_r e = s \/ bk_rest (in_slot s e) /\ bias_still (u_router e) ->
  slot_side s (core_step e valid c b) = side_step (slot_side s e) (cmd_for s valid c) b /\
  be_act_write (core_request e) = be_act_write (bk_request (in_slot s e)).
Proof.
  intros Ha Hs. unfold slot_side. rewrite slot_step, request_holder. unfold side_step. cbn [fst snd].
  destruct (decide (be_sel_r e = s)) as [Heq|Hne].
  - rewrite bool_decide_eq_true_2 by done. cbn [core_step u_router]. rewrite request_holder, Heq. done.
  - destruct Hs as [|[Hs Hb]]; [done|]. destruct (rest_view _ (Ha _ Hne)) as (_ & _ & _ & Hh), (rest_view _ Hs) as (_ & _ & _ & Hq).
    split; [|by rewrite (proj2 (proj2 (proj2 Hh))), (proj2 (proj2 (proj2 Hq)))].
    cbn [core_step u_router]. rewrite request_holder. f_equal; [|by apply router_step_nothing].
    rewrite bool_decide_eq_false_2 by done. by apply rest_deaf.
Qed.

Lemma slot_rests s e valid c b :
  bk_rest (in_slot s e) -> cmd_for s valid c = None -> bk_rest (in_slot s (core_step e valid c b)).
Proof. intros Hr Hc. rewrite slot_step, Hc. by apply rest_stays. Qed.

Lemma alone_step s e valid c b : alone s e -> (valid = true -> owner c = s) -> alone s (core_step e valid c b).
Proof.
  intros Ha Hv s' Hs'. apply slot_rests; [by apply Ha|]. destruct valid; [|apply cmd_for_none].
  apply cmd_for_other. by rewrite Hv.
Qed.

(** No bias is pending and none arrives. *)
Definition bias_idle (r : router) : Prop := bias_pending_r r = false /\ bias_still r.

Lemma core_bias_idle e valid c b :
  bias_pending_r (u_router e) = false -> be_bias_req (core_request e) = false -> bias_idle (u_router (core_step e valid c b)).
Proof. intros Hp Hq. split; [by apply router_no_pending; [|rewrite Hq]|by apply router_still]. Qed.

Lemma others_view s e :
  alone s e ->
  be_busy e = bk_busy (in_slot s e) /\ be_done e = bk_done (in_slot s e).
Proof.
  intros Ha. assert (Hv : forall s', s' <> s -> bk_busy (in_slot s' e) = false /\ bk_done (in_slot s' e) = false)
    by (intros s' Hs'; destruct (rest_view _ (Ha s' Hs')) as (? & ? & _); done).
  change (be_busy e) with (bk_busy (in_slot Gemm e) || bk_busy (in_slot Softmax e) || bk_busy (in_slot Conv e) ||
    bk_busy (in_slot Vec e) || bk_busy (in_slot Lnorm e) || bk_busy (in_slot Pool e)).
  change (be_done e) with (bk_done (in_slot Gemm e) || bk_done (in_slot Softmax e) || bk_done (in_slot Conv e) ||
    bk_done (in_slot Vec e) || bk_done (in_slot Lnorm e) || bk_done (in_slot Pool e)).
  clear Ha. destruct s; repeat match goal with
  | |- context [in_slot ?t e] => destruct (Hv t ltac:(discriminate)) as [-> ->]
  end; by rewrite ?orb_false_r.
Qed.

(** ** The contract *)

Definition core_idle_state (e : npu_core) : Prop := (forall s, bk_rest (in_slot s e)) /\ bias_idle (u_router e).

(** A command must be one that its backend ends. *)
Definition core_runnable (c : conv_cmd_t) : Prop := from_option bk_runnable True (cmd_for (owner c) true c).

Definition core_cycles (c : conv_cmd_t) : nat := from_option bk_cycles 0%nat (cmd_for (owner c) true c).

Definition core_runs (c : conv_cmd_t) (n : nat) (e : npu_core) : Prop :=
  alone (owner c) e /\ be_sel_r e = owner c /\
  exists k, cmd_for (owner c) true c = Some k /\ bk_runs k n (slot_side (owner c) e).

Lemma idle_alone s e : core_idle_state e -> alone s e.
Proof. intros [Hr _] s' _. apply Hr. Qed.

Lemma core_idle_view e :
  core_idle_state e ->
  be_busy e = false /\ be_done e = false /\ forall c, be_ready e c = true /\ be_write e c = None.
Proof.
  intros Hi. destruct (others_view Vec e (idle_alone Vec e Hi)) as [-> ->]. destruct Hi as [Hr _].
  destruct (rest_view _ (Hr Vec)) as (-> & -> & _). split_and!; [done..|]. intros c.
  cbn [be_ready be_write npu_core_core]. rewrite owner_ready, request_holder.
  by destruct (rest_view _ (Hr (owner c))) as (_ & _ & -> & _), (rest_view _ (Hr (be_sel_r e))) as (_ & _ & _ & _ & _ & _ & ->).
Qed.

Lemma core_idle_stays e c b : core_idle_state e -> core_idle_state (be_step e false c b).
Proof.
  intros [Hr [Hp _]]. split; [|apply core_bias_idle; [done|rewrite request_holder; by destruct (rest_view _ (Hr (be_sel_r e))) as (_ & _ & _ & _ & _ & -> & _)]].
  intros s. apply slot_rests; [apply Hr|apply cmd_for_none].
Qed.

Lemma core_starts e c b : core_idle_state e -> core_runnable c -> core_runs c (core_cycles c) (be_step e true c b).
Proof.
  intros Hi Hc. pose proof Hi as [Hr Hb]. destruct (cmd_for_owner c) as [k Hk].
  unfold core_runnable, core_cycles in *. rewrite Hk in *. cbn [from_option] in *.
  split_and!; [by apply alone_step; [by apply idle_alone|]| |].
  - apply holder_accepted. rewrite owner_ready. by destruct (rest_view _ (Hr (owner c))) as (_ & _ & -> & _).
  - exists k. split; [done|]. cbn [be_step npu_core_core].
    rewrite (proj1 (slot_alone _ e true c b (idle_alone _ e Hi) (or_intror (conj (Hr _) (proj2 Hb))))), Hk. by apply bk_starts; [apply Hr|apply Hb|].
Qed.

Lemma core_runs_view c n e : core_runs c n e -> be_busy e = true /\ be_done e = bool_decide (n = 0%nat).
Proof.
  intros (Ha & _ & k & _ & Hr). destruct (others_view _ e Ha) as [-> ->]. by apply (bk_runs_view k n) in Hr.
Qed.

Lemma core_runs_step c n e c' b :
  core_runs c n e ->
  match n with O => core_idle_state (be_step e false c' b) | S m => core_runs c m (be_step e false c' b) end.
Proof.
  intros (Ha & Hh & k & Hk & Hr). pose proof (runs_no_bias _ _ _ Hr) as Hq. apply (bk_runs_step k n _ None b) in Hr.
  pose proof (proj1 (slot_alone _ e false c' b Ha (or_introl Hh))) as Hs. rewrite cmd_for_none in Hs.
  assert (Ha' : alone (owner c) (core_step e false c' b)) by by apply alone_step.
  cbn [be_step npu_core_core]. rewrite <- Hs in Hr. destruct n as [|n].
  - destruct Hr as [Hr Hb]. split; [|split; [done|]].
    2: { cbn [core_step u_router]. apply router_still; [exact (proj1 Hq)|rewrite request_holder, Hh; exact (proj2 Hq)]. }
    intros s. destruct (decide (s = owner c)) as [->|Hne]; [done|by apply Ha'].
  - split_and!; [done|done|by exists k].
Qed.

Lemma core_reset_idle e : core_idle_state (core_reset e).
Proof. split; [by intros []|done]. Qed.

Lemma core_zero_idle : core_idle_state core_zero.
Proof. split; [by intros []|done]. Qed.

#[export] Instance npu_core_laws : CoreLaws npu_core_core := {|
  cycles := core_cycles; runnable := core_runnable; be_idle := core_idle_state; runs := core_runs;
  idle_view := core_idle_view; idle_stays := core_idle_stays; idle_starts := core_starts;
  runs_view := core_runs_view; runs_step := core_runs_step;
  reset_idle := core_reset_idle; zero_idle := core_zero_idle |}.
