(* ===== verification/HwPhases.v ===== *)
(** * The way of a command through the control path

    The phases a command goes through in the clocked hardware of [Hw], from an
    idle machine over the doorbell, the fetch of the sixteen words, decoding,
    queueing and issue to the backend's completion; one lemma per clock edge,
    and what the host can observe in each phase. *)

From S2P Require Import Prelude Regs Command Decode Prog Runtime Fifo ExtMem Mem Dma Hw.

Open Scope Z_scope.

Section phases.
Context {E : Type} {C : Core E} {L : CoreLaws C}.

Abbreviation step := hw_step.
Abbreviation tick := ticks.

(** ** Phases of a command *)

(** Nothing else is going on: no pulse register is set, the DMA engine and the
    backend are idle, and the queue holds [q]. *)
Definition others (ws : list Z) (q : list conv_cmd_t) (h : hw E) : Prop :=
  irq_clear_r (h_regs h) = false /\ dma_start_r (h_regs h) = false /\
  cmd_mem (h_regs h) = ws /\ dma_idle (u_dma (h_mem h)) /\
  Fifo.fifo_wf CMD_QUEUE_DEPTH_LOG (h_queue h) /\
  Fifo.contents zero_cmd CMD_QUEUE_DEPTH_LOG (h_queue h) = q /\
  length (desc_regs (h_decode h)) = 16%nat.

Definition fetch_is (st : fetch_state) (doorbell rvalid : bool) (h : hw E) : Prop :=
  f_state (h_fetch h) = st /\ doorbell_r (h_regs h) = doorbell /\ fetch_rvalid_r (h_regs h) = rvalid.

(** Idle everywhere, the command window holding [ws]. *)
Definition quiet (ws : list Z) (h : hw E) : Prop :=
  others ws [] h /\ fetch_is F_IDLE false false h /\
  d_state (h_decode h) = D_IDLE /\ s_state (h_sched h) = S_IDLE /\ be_idle (h_backend h).

(** The doorbell register is set. *)
Definition rung (ws : list Z) (h : hw E) : Prop :=
  others ws [] h /\ fetch_is F_IDLE true false h /\
  d_state (h_decode h) = D_IDLE /\ s_state (h_sched h) = S_IDLE /\ be_idle (h_backend h).

(** The first [i] words are in the descriptor registers and word [i] is asked
    for. The doorbell register may be anything. *)
Definition fetching (ws : list Z) (i : nat) (h : hw E) : Prop :=
  others ws [] h /\ f_state (h_fetch h) = F_READ /\ fetch_rvalid_r (h_regs h) = false /\
  word_cnt (h_fetch h) = Z.of_nat i /\ take i (desc_regs (h_decode h)) = take i ws /\
  d_state (h_decode h) = D_IDLE /\ s_state (h_sched h) = S_IDLE /\ be_idle (h_backend h).

(** A bus cycle that does not reach a pulse register. *)
Definition harmless (b : bus) : Prop :=
  match written b with Some ((R_DOORBELL | R_IRQ_CLEAR | R_DMA_CTRL), _) => False | _ => True end.

Definition writes_ctrl (b : bus) : bool :=
  match written b with Some (R_CTRL, _) => true | _ => false end.

Definition mem_after (ws : list Z) (b : bus) : list Z :=
  match b with
  | Some (addr, v) => if is_cmd_queue addr then <[cmd_index addr := v]> ws else ws
  | None => ws
  end.

(** A bus cycle that may ring the doorbell but touches no other pulse register. *)
Definition submitting (b : bus) : Prop := harmless b \/ exists v, b = Some (uapi_reg R_DOORBELL, v).

Lemma step_ctrl h b :
  ctrl_reg (h_regs (step h b)) = match written b with Some (R_CTRL, v) => v | _ => ctrl_reg (h_regs h) end.
Proof.
  simpl. unfold wr_to. destruct (written b) as [[r v]|]; [|done]. by destruct r.
Qed.

Lemma harmless_pulse b r f :
  harmless b -> r = R_DOORBELL \/ r = R_IRQ_CLEAR \/ r = R_DMA_CTRL -> wr_pulse b r f = false.
Proof.
  unfold harmless, wr_pulse. destruct (written b) as [[r' v]|]; [|done].
  intros Hb Hr. destruct (decide (r' = r)) as [->|]; [|done].
  by destruct Hr as [->|[->| ->]].
Qed.

Lemma harmless_none : harmless None.
Proof. done. Qed.

(** Every module but fetch, decode, scheduler and backend. *)
Lemma others_step ws q h b :
  others ws q h -> submitting b ->
  others (mem_after ws b)
    (Fifo.queue_step CMD_QUEUE_DEPTH_LOG q (cmd_r (h_decode h)) (cmd_valid (h_decode h))
       (queue_ready (h_sched h))) (step h b).
Proof.
  intros (Hic & Hds & Hmem & Hdma & Hwf & Hq & Hlen) Hb.
  assert (Hp : forall r f, r = R_IRQ_CLEAR \/ r = R_DMA_CTRL -> wr_pulse b r f = false).
  { intros r f Hr. destruct Hb as [Hb|[v ->]]; [apply harmless_pulse; tauto|].
    by destruct Hr as [-> | ->]. }
  destruct (Fifo.fifo_refines zero_cmd CMD_QUEUE_DEPTH_LOG ltac:(done) (h_queue h) (cmd_r (h_decode h))
    (cmd_valid (h_decode h)) (queue_ready (h_sched h)) Hwf) as [Hwf' Hq'].
  unfold others, step, hw_step, hw_clock. cbn [h_regs h_mem h_queue h_decode regs_step irq_clear_r dma_start_r cmd_mem
    decode_step desc_regs mem_step u_dma]. rewrite Hmem, Hq in *.
  split_and!; [apply Hp; tauto|apply Hp; tauto|by destruct b as [[? ?]|]|by apply dma_idle_step|done|done|].
  destruct (desc_word_valid _ _); [by rewrite length_insert|done].
Qed.

Lemma others_tick ws q h :
  others ws q h ->
  others ws (Fifo.queue_step CMD_QUEUE_DEPTH_LOG q (cmd_r (h_decode h)) (cmd_valid (h_decode h))
     (queue_ready (h_sched h))) (step h None).
Proof. intros Ho. apply (others_step ws q h None Ho). by left. Qed.

Lemma doorbell_quiet b : harmless b -> wr_pulse b R_DOORBELL (fun _ => true) = false.
Proof. intros. apply harmless_pulse; tauto. Qed.

(** Compute the fields named by the phases after one clock edge; [H...] are the
    equations on the fields before it. *)
Ltac clock :=
  unfold fetch_is, step, hw_step, hw_clock;
  cbn [h_regs h_fetch h_decode h_sched h_backend regs_step fetch_step decode_step sched_step
       doorbell_r fetch_rvalid_r fetch_rdata_r f_state word_cnt d_state desc_regs cmd_r err_r s_state s_cmd];
  unfold desc_done, desc_word_valid, cmd_rd_req, cmd_valid, queue_ready, dispatch_valid;
  repeat match goal with
  | H : f_state _ = _ |- _ => rewrite H; clear H
  | H : doorbell_r _ = _ |- _ => rewrite H; clear H
  | H : fetch_rvalid_r _ = _ |- _ => rewrite H; clear H
  | H : d_state _ = _ |- _ => rewrite H; clear H
  | H : s_state _ = _ |- _ => rewrite H; clear H
  | H : be_idle (h_backend ?h) |- _ =>
      let Hbusy := fresh "Hbusy" in let Hdone := fresh "Hdone" in let Hget := fresh "Hget" in
      pose proof (fun c b => idle_stays (h_backend h) c b H);
      destruct (idle_view (h_backend h) H) as (Hbusy & Hdone & Hget);
      rewrite ?Hbusy, ?Hdone, ?(fun c => proj1 (Hget c)); clear H Hbusy Hdone Hget
  | H : Fifo.rd_valid _ = _ |- _ => rewrite H; clear H
  end; cbn [andb orb negb].

Lemma others_rd_valid ws q h :
  others ws q h -> Fifo.rd_valid (h_queue h) = match q with [] => false | _ => true end.
Proof.
  intros (_ & _ & _ & _ & Hwf & Hq & _).
  by rewrite (Fifo.rd_valid_contents zero_cmd CMD_QUEUE_DEPTH_LOG), Hq.
Qed.

(** The other modules, when the decoder offers no command. *)
Lemma others_no_push ws q h b :
  others ws q h -> submitting b ->
  d_state (h_decode h) <> D_VALID ->
  others (mem_after ws b) (if queue_ready (h_sched h) then tail q else q) (step h b).
Proof.
  intros Ho Hb Hdec. pose proof (others_step ws q h b Ho Hb) as Ho'.
  assert (Hv : cmd_valid (h_decode h) = false) by (unfold cmd_valid; by destruct (d_state _)).
  rewrite Hv in Ho'. exact Ho'.
Qed.

Lemma quiet_step ws h b : quiet ws h -> harmless b -> quiet (mem_after ws b) (step h b).
Proof.
  intros (Ho & (Hf & Hd & Hr) & Hdec & Hs & Hbe) Hb.
  pose proof (others_no_push ws [] h b Ho (or_introl Hb) ltac:(congruence)) as Ho'.
  pose proof (others_rd_valid _ _ _ Ho) as Hv. cbv iota in Hv.
  split; [by destruct (queue_ready (h_sched h))|]. clock.
  split_and!; try done. by apply doorbell_quiet.
Qed.

Lemma quiet_ticks n ws h : quiet ws h -> quiet ws (tick n h).
Proof.
  revert h. induction n as [|n IH]; intros h Hq; [done|]. simpl. apply IH.
  by apply (quiet_step ws h None).
Qed.

(** The doorbell write. *)
Lemma quiet_ring ws h v : quiet ws h -> rung ws (step h (Some (uapi_reg R_DOORBELL, v))).
Proof.
  intros (Ho & (Hf & Hd & Hr) & Hdec & Hs & Hbe).
  pose proof (others_no_push ws [] h (Some (uapi_reg R_DOORBELL, v)) Ho
    ltac:(right; by exists v) ltac:(congruence)) as Ho'.
  pose proof (others_rd_valid _ _ _ Ho) as Hv. cbv iota in Hv.
  split; [by destruct (queue_ready (h_sched h))|]. by clock.
Qed.

Lemma rung_step ws h b : harmless b -> rung ws h -> fetching (mem_after ws b) 0 (step h b).
Proof.
  intros Hb (Ho & (Hf & Hd & Hr) & Hdec & Hs & Hbe).
  pose proof (others_no_push ws [] h b Ho (or_introl Hb) ltac:(congruence)) as Ho'.
  pose proof (others_rd_valid _ _ _ Ho) as Hv. cbv iota in Hv.
  split; [by destruct (queue_ready (h_sched h))|]. by clock.
Qed.

Lemma cmd_index_word i : (i < 16)%nat -> cmd_index (uapi_region CMD_QUEUE + 4 * Z.of_nat i) = i.
Proof.
  intros Hi. unfold cmd_index. change (rtl_region CMD_QUEUE) with (uapi_region CMD_QUEUE).
  replace (uapi_region CMD_QUEUE + 4 * Z.of_nat i - uapi_region CMD_QUEUE) with (Z.of_nat i * 2 ^ 2) by lia.
  rewrite Z.shiftr_div_pow2, Z.div_mul by done. rewrite wrap_small; [lia|].
  unfold fits. change (2 ^ 4) with 16. lia.
Qed.

Lemma take_store (regs ws : list Z) i w :
  take i regs = take i ws -> ws !! i = Some w -> (i < length regs)%nat ->
  take (S i) (<[i := w]> regs) = take (S i) ws.
Proof.
  intros Hpre Hw Hi. rewrite (take_S_r ws i w) by done.
  rewrite (take_S_r (<[i := w]> regs) i w) by (by apply list_lookup_insert_eq).
  by rewrite take_insert_ge, Hpre.
Qed.

(** The first of the two cycles of a word: the window has been read. *)
Definition waiting (ws : list Z) (i : nat) (h : hw E) : Prop :=
  others ws [] h /\ f_state (h_fetch h) = F_WAIT /\ fetch_rvalid_r (h_regs h) = true /\
  word_cnt (h_fetch h) = Z.of_nat i /\ fetch_rdata_r (h_regs h) = default 0 (ws !! i) /\
  take i (desc_regs (h_decode h)) = take i ws /\
  d_state (h_decode h) = D_IDLE /\ s_state (h_sched h) = S_IDLE /\ be_idle (h_backend h).

Lemma take_S_eq (l k : list Z) i : take (S i) l = take (S i) k -> take i l = take i k /\ l !! i = k !! i.
Proof.
  intros H. split.
  - apply (f_equal (take i)) in H. by rewrite !take_take, Nat.min_l in H by lia.
  - apply (f_equal (lookup i)) in H. by rewrite !lookup_take_lt in H by lia.
Qed.

(** The bus may write words of the window that have not been fetched yet. *)
Lemma fetching_step ws i h b :
  (i < 16)%nat -> submitting b -> take (S i) (mem_after ws b) = take (S i) ws ->
  fetching ws i h -> waiting (mem_after ws b) i (step h b).
Proof.
  intros Hi Hb [Ht Hl]%take_S_eq (Ho & Hf & Hr & Hcnt & Hpre & Hdec & Hs & Hbe).
  pose proof (others_no_push ws [] h b Ho Hb ltac:(congruence)) as Ho'.
  pose proof (others_rd_valid _ _ _ Ho) as Hv. cbv iota in Hv.
  split; [by destruct (queue_ready (h_sched h))|].
  assert (Hmem : cmd_mem (h_regs h) = ws) by apply Ho.
  rewrite Hl, Ht. clock. split_and!; try done.
  unfold cmd_rd_addr. rewrite Hcnt, Hmem.
  change (rtl_region CMD_QUEUE) with (uapi_region CMD_QUEUE). by rewrite (cmd_index_word i).
Qed.

(** All words received: the decoder looks at them in the next cycle. *)
Definition checking (ws : list Z) (h : hw E) : Prop :=
  others ws [] h /\ fetch_is F_IDLE false false h /\ desc_regs (h_decode h) = ws /\
  d_state (h_decode h) = D_CHECK /\ s_state (h_sched h) = S_IDLE /\ be_idle (h_backend h).

Lemma waiting_take ws i h :
  length ws = 16%nat -> (i < 16)%nat -> waiting ws i h ->
  take (S i) (<[i := fetch_rdata_r (h_regs h)]> (desc_regs (h_decode h))) = take (S i) ws.
Proof.
  intros Hws Hi (Ho & _ & _ & _ & Hdata & Hpre & _).
  assert (Hlen : length (desc_regs (h_decode h)) = 16%nat) by apply Ho.
  destruct (lookup_lt_is_Some_2 ws i ltac:(lia)) as [w Hw]. rewrite Hw in Hdata. simpl in Hdata.
  rewrite Hdata. apply (take_store _ ws i w Hpre Hw). lia.
Qed.

Lemma waiting_step ws i h b :
  length ws = 16%nat -> (i < 15)%nat -> submitting b ->
  take (S i) (mem_after ws b) = take (S i) ws ->
  waiting ws i h -> fetching (mem_after ws b) (S i) (step h b).
Proof.
  intros Hws Hi Hb Ht Hw. pose proof (waiting_take ws i h Hws ltac:(lia) Hw) as Htake.
  destruct Hw as (Ho & Hf & Hr & Hcnt & Hdata & Hpre & Hdec & Hs & Hbe).
  pose proof (others_no_push ws [] h b Ho Hb ltac:(congruence)) as Ho'.
  pose proof (others_rd_valid _ _ _ Ho) as Hv. cbv iota in Hv.
  split; [by destruct (queue_ready (h_sched h))|]. rewrite Ht. clock. rewrite Hcnt.
  rewrite (proj2 (Z.eqb_neq (Z.of_nat i) 15)) by lia. rewrite Nat2Z.id.
  split_and!; try done. rewrite wrap_small; [lia|]. unfold fits. change (2 ^ 4) with 16. lia.
Qed.

Lemma waiting_last ws h :
  length ws = 16%nat -> waiting ws 15 h -> checking ws (step h None).
Proof.
  intros Hws Hw. pose proof (waiting_take ws 15 h Hws ltac:(lia) Hw) as Htake.
  destruct Hw as (Ho & Hf & Hr & Hcnt & Hdata & Hpre & Hdec & Hs & Hbe).
  pose proof (others_no_push ws [] h None Ho (or_introl harmless_none) ltac:(congruence)) as Ho'.
  pose proof (others_rd_valid _ _ _ Ho) as Hv. cbv iota in Hv.
  assert (Hlen : length (desc_regs (h_decode h)) = 16%nat) by apply Ho.
  split; [by destruct (queue_ready (h_sched h))|]. clock. rewrite Hcnt.
  split_and!; try done. rewrite Nat2Z.id.
  rewrite <- (take_ge (<[15%nat := _]> _) 16) by (rewrite length_insert; lia).
  rewrite Htake. apply take_ge. lia.
Qed.

(** What the host and the backend see of a command on its way. *)
Definition uneventful (h : hw E) : Prop :=
  irq_clear_r (h_regs h) = false /\ dma_idle (u_dma (h_mem h)) /\ be_done (h_backend h) = false /\
  decode_err (h_decode h) = false.

Definition on_its_way (h : hw E) : Prop := uneventful h /\ be_idle (h_backend h) /\ core_idle h = false.

Lemma others_uneventful ws q h :
  others ws q h -> be_done (h_backend h) = false -> d_state (h_decode h) <> D_VALID -> uneventful h.
Proof.
  intros (Hic & _ & _ & Hdma & _) He Hd. split_and!; [done..|].
  unfold decode_err. by destruct (d_state _).
Qed.

Lemma pending_step h b : uneventful h -> h_pending (step h b) = h_pending h.
Proof.
  intros (Hic & [_ Hdone]%dma_idle_view & He & Hd). unfold step, hw_step, hw_clock. cbn [h_pending].
  by rewrite Hic, Hdone, He, Hd.
Qed.

Lemma core_idle_fetching ws i h : fetching ws i h -> on_its_way h.
Proof.
  intros (Ho & Hf & _ & _ & _ & Hd & _ & Hbe). split_and!; [|done|].
  { apply (others_uneventful _ _ _ Ho); [by apply (idle_view _ Hbe)|by rewrite Hd]. }
  unfold core_idle, fetch_busy. rewrite Hf. by rewrite andb_false_r.
Qed.

Lemma core_idle_waiting ws i h : waiting ws i h -> on_its_way h.
Proof.
  intros (Ho & Hf & _ & _ & _ & _ & Hd & _ & Hbe). split_and!; [|done|].
  { apply (others_uneventful _ _ _ Ho); [by apply (idle_view _ Hbe)|by rewrite Hd]. }
  unfold core_idle, fetch_busy. rewrite Hf. by rewrite andb_false_r.
Qed.

(** [P] holds in the next [n] cycles. *)
Definition during (n : nat) (P : hw E -> Prop) (h : hw E) : Prop := forall k, (k < n)%nat -> P (tick k h).

Lemma during_S n P h : P h -> during n P (step h None) -> during (S n) P h.
Proof. intros H0 Hn [|k] Hk; [done|]. apply Hn. lia. Qed.

Lemma during_O P h : during 0 P h.
Proof. intros k Hk. lia. Qed.

Lemma fetch_words ws i h :
  length ws = 16%nat -> (i < 16)%nat -> fetching ws i h ->
  checking ws (tick (2 * (16 - i)) h) /\ during (2 * (16 - i)) on_its_way h.
Proof.
  intros Hws. remember (16 - i)%nat as n eqn:Hn. revert i h Hn.
  induction n as [|n IH]; intros i h Hn Hi Hf; [lia|].
  replace (2 * S n)%nat with (S (S (2 * n))) by lia. cbn [ticks].
  pose proof (fetching_step ws i h None Hi (or_introl harmless_none) eq_refl Hf) as Hw. cbn [mem_after] in Hw.
  pose proof (core_idle_fetching _ _ _ Hf). pose proof (core_idle_waiting _ _ _ Hw).
  destruct (decide (i = 15%nat)) as [->|Hne].
  - replace n with 0%nat by lia. split; [by apply waiting_last|].
    do 2 (apply during_S; [done|]). apply during_O.
  - pose proof (waiting_step ws i _ None Hws ltac:(lia) (or_introl harmless_none) eq_refl Hw) as Hf'.
    destruct (IH (S i) _ ltac:(lia) ltac:(lia) Hf') as [Hc Hu]. split; [done|].
    by do 2 (apply during_S; [done|]).
Qed.

(** ** Decoding, queueing, issuing *)

(** The decoder has looked at the words. *)
Definition decoded (ws : list Z) (h : hw E) : Prop :=
  others ws [] h /\ fetch_is F_IDLE false false h /\ d_state (h_decode h) = D_VALID /\
  cmd_r (h_decode h) = decode_fields ws /\ err_r (h_decode h) = negb (opcode_known (wrap 4 (dw ws 0))) /\
  s_state (h_sched h) = S_IDLE /\ be_idle (h_backend h).

Definition queued (ws : list Z) (c : conv_cmd_t) (h : hw E) : Prop :=
  others ws [c] h /\ fetch_is F_IDLE false false h /\ d_state (h_decode h) = D_IDLE /\
  s_state (h_sched h) = S_IDLE /\ be_idle (h_backend h).

Definition issuing (ws : list Z) (c : conv_cmd_t) (h : hw E) : Prop :=
  others ws [] h /\ fetch_is F_IDLE false false h /\ d_state (h_decode h) = D_IDLE /\
  s_state (h_sched h) = S_ISSUE /\ s_cmd (h_sched h) = c /\ be_idle (h_backend h).

(** The backend works on the command, with [n] cycles to go. *)
Definition working (ws : list Z) (c : conv_cmd_t) (n : nat) (h : hw E) : Prop :=
  others ws [] h /\ fetch_is F_IDLE false false h /\ d_state (h_decode h) = D_IDLE /\
  s_state (h_sched h) = S_WAIT /\ runs c n (h_backend h).

Lemma checking_tick ws h : checking ws h -> decoded ws (step h None).
Proof.
  intros (Ho & (Hf & Hd & Hr) & Hregs & Hdec & Hs & Hbe).
  pose proof (others_no_push ws [] h None Ho (or_introl harmless_none) ltac:(congruence)) as Ho'.
  pose proof (others_rd_valid _ _ _ Ho) as Hv. cbv iota in Hv.
  split; [by destruct (queue_ready (h_sched h))|]. clock. rewrite Hregs. done.
Qed.

Lemma others_wr_ready ws q h :
  others ws q h -> Fifo.wr_ready CMD_QUEUE_DEPTH_LOG (h_queue h) = (Z.of_nat (length q) <? 4).
Proof.
  intros (_ & _ & _ & _ & Hwf & Hq & _).
  by rewrite (Fifo.wr_ready_contents zero_cmd CMD_QUEUE_DEPTH_LOG), Hq.
Qed.

Lemma others_rd_data ws c q h :
  others ws (c :: q) h -> Fifo.rd_data zero_cmd CMD_QUEUE_DEPTH_LOG (h_queue h) = c.
Proof.
  intros (_ & _ & _ & _ & Hwf & Hq & _).
  by rewrite (Fifo.rd_data_contents zero_cmd CMD_QUEUE_DEPTH_LOG), Hq.
Qed.

(** An accepted command enters the queue; a rejected one raises the interrupt. *)
Lemma decoded_tick ws h :
  decoded ws h ->
  if opcode_known (wrap 4 (dw ws 0)) then queued ws (decode_fields ws) (step h None)
  else quiet ws (step h None) /\ h_pending (step h None) = true.
Proof.
  intros (Ho & (Hf & Hd & Hr) & Hdec & Hcmd & Herr & Hs & Hbe).
  pose proof (others_tick ws [] h Ho) as Ho'.
  pose proof (others_rd_valid _ _ _ Ho) as Hv. cbv iota in Hv.
  pose proof (others_wr_ready _ _ _ Ho) as Hwr.
  assert (Hic : irq_clear_r (h_regs h) = false) by apply Ho.
  assert (Hcv : cmd_valid (h_decode h) = opcode_known (wrap 4 (dw ws 0))).
  { unfold cmd_valid. by rewrite Hdec, Herr, negb_involutive. }
  rewrite Hcv, Hcmd in Ho'. unfold queue_ready in Ho'. rewrite Hs in Ho'.
  destruct (opcode_known _); simpl in Herr.
  - split; [done|]. clock. rewrite Hwr. done.
  - split; [split; [done|]|].
    + clock. rewrite Hwr. done.
    + unfold step, hw_step, hw_clock. cbn [h_pending]. rewrite Hic. unfold decode_err. rewrite Hdec, Herr.
      by rewrite orb_true_r.
Qed.

Lemma queued_tick ws c h : queued ws c h -> issuing ws c (step h None).
Proof.
  intros (Ho & (Hf & Hd & Hr) & Hdec & Hs & Hbe).
  pose proof (others_no_push ws [c] h None Ho (or_introl harmless_none) ltac:(congruence)) as Ho'.
  pose proof (others_rd_valid _ _ _ Ho) as Hv. cbv iota in Hv.
  pose proof (others_rd_data _ _ _ _ Ho) as Hdata.
  unfold queue_ready in Ho'. rewrite Hs in Ho'. split; [done|]. clock. done.
Qed.

Lemma issuing_valid ws c h : issuing ws c h -> dispatch_valid (h_sched h) = true.
Proof. intros (_ & _ & _ & Hs & _). unfold dispatch_valid. by rewrite Hs. Qed.

Lemma issuing_tick ws c h : issuing ws c h -> runnable c -> working ws c (cycles c) (step h None).
Proof.
  intros (Ho & (Hf & Hd & Hr) & Hdec & Hs & <- & Hbe) Hrun.
  pose proof (others_no_push ws [] h None Ho (or_introl harmless_none) ltac:(congruence)) as Ho'.
  pose proof (fun b => idle_starts _ (s_cmd (h_sched h)) b Hbe Hrun).
  unfold queue_ready in Ho'. rewrite Hs in Ho'. split; [done|]. by clock.
Qed.

Lemma working_tick ws c n h :
  working ws c n h ->
  match n with
  | O => quiet ws (step h None) /\ h_pending (step h None) = true
  | S m => working ws c m (step h None)
  end.
Proof.
  intros (Ho & (Hf & Hd & Hr) & Hdec & Hs & Hbe).
  pose proof (others_no_push ws [] h None Ho (or_introl harmless_none) ltac:(congruence)) as Ho'.
  assert (Hic : irq_clear_r (h_regs h) = false) by apply Ho.
  destruct (runs_view _ _ _ Hbe) as [Hbusy Hdone].
  pose proof (fun c' b => runs_step _ _ _ c' b Hbe) as Hnext.
  unfold queue_ready in Ho'. rewrite Hs in Ho'. destruct n as [|m].
  - split; [split; [done|]|]; [clock; by rewrite Hdone|].
    unfold step, hw_step, hw_clock. cbn [h_pending]. by rewrite Hic, Hdone.
  - split; [done|]. clock. by rewrite Hdone.
Qed.

(** The backend has its command and is not done. *)
Definition occupied (ws : list Z) (h : hw E) : Prop :=
  others ws [] h /\ fetch_is F_IDLE false false h /\ d_state (h_decode h) = D_IDLE /\ s_state (h_sched h) = S_WAIT.

Lemma issuing_occupied ws c h : issuing ws c h -> occupied ws (step h None).
Proof.
  intros (Ho & (Hf & Hd & Hr) & Hdec & Hs & _ & Hbe).
  pose proof (others_no_push ws [] h None Ho (or_introl harmless_none) ltac:(congruence)) as Ho'.
  unfold queue_ready in Ho'. rewrite Hs in Ho'. split; [done|]. by clock.
Qed.

Lemma occupied_tick ws h : occupied ws h -> be_done (h_backend h) = false -> occupied ws (step h None).
Proof.
  intros (Ho & (Hf & Hd & Hr) & Hdec & Hs) Hdone.
  pose proof (others_no_push ws [] h None Ho (or_introl harmless_none) ltac:(congruence)) as Ho'.
  unfold queue_ready in Ho'. rewrite Hs in Ho'. split; [done|]. clock. by rewrite Hdone.
Qed.

(** Everything is quiet but perhaps the backend. *)
Definition at_ease (ws : list Z) (h : hw E) : Prop :=
  others ws [] h /\ fetch_is F_IDLE false false h /\ d_state (h_decode h) = D_IDLE /\ s_state (h_sched h) = S_IDLE.

Lemma occupied_done ws h :
  occupied ws h -> be_done (h_backend h) = true -> at_ease ws (step h None) /\ h_pending (step h None) = true.
Proof.
  intros (Ho & (Hf & Hd & Hr) & Hdec & Hs) Hdone.
  pose proof (others_no_push ws [] h None Ho (or_introl harmless_none) ltac:(congruence)) as Ho'.
  assert (Hic : irq_clear_r (h_regs h) = false) by apply Ho. unfold queue_ready in Ho'. rewrite Hs in Ho'.
  split; [split; [done|]; clock; by rewrite Hdone|]. unfold step, hw_step, hw_clock. cbn [h_pending]. by rewrite Hic, Hdone.
Qed.

Lemma at_ease_tick ws h : at_ease ws h -> at_ease ws (step h None).
Proof.
  intros (Ho & (Hf & Hd & Hr) & Hdec & Hs).
  pose proof (others_no_push ws [] h None Ho (or_introl harmless_none) ltac:(congruence)) as Ho'.
  pose proof (others_rd_valid _ _ _ Ho) as Hv. cbv iota in Hv.
  split; [by destruct (queue_ready (h_sched h))|]. by clock.
Qed.

Lemma at_ease_quiet ws h : at_ease ws h -> be_idle (h_backend h) -> quiet ws h.
Proof. by intros (Ho & Hf & Hd & Hs) Hb. Qed.

Lemma tick_add n m h : tick (n + m) h = tick m (tick n h).
Proof. revert h. induction n as [|n IH]; intros h; [done|]. simpl. apply IH. Qed.

Lemma tick_S_r n h : tick (S n) h = step (tick n h) None.
Proof. by rewrite <- Nat.add_1_r, tick_add. Qed.

Lemma working_ticks ws c n h :
  working ws c n h ->
  (forall k, (k <= n)%nat -> runs c (n - k) (h_backend (tick k h))) /\
  quiet ws (tick (S n) h) /\ h_pending (tick (S n) h) = true.
Proof.
  revert h. induction n as [|n IH]; intros h Hw; pose proof (working_tick _ _ _ _ Hw) as Hn.
  - split; [|exact Hn]. intros k Hk. replace k with 0%nat by lia. apply Hw.
  - cbv iota in Hn. destruct (IH _ Hn) as [Hk Hq]. split; [|exact Hq].
    intros [|k] Hle; [apply Hw|]. simpl. apply Hk. lia.
Qed.

(** ** The way of a command, cycle by cycle *)

Lemma during_app n m P h : during n P h -> during m P (tick n h) -> during (n + m) P h.
Proof.
  intros Hn Hm k Hk. destruct (decide (k < n)%nat) as [|Hge]; [by apply Hn|].
  replace k with (n + (k - n))%nat by lia. rewrite tick_add. apply Hm. lia.
Qed.

Lemma pending_ticks n h : during n uneventful h -> h_pending (tick n h) = h_pending h.
Proof.
  revert h. induction n as [|n IH]; intros h Hd; [done|]. simpl. rewrite IH.
  - apply pending_step. apply (Hd 0%nat). lia.
  - intros k Hk. apply (Hd (S k)). lia.
Qed.

Lemma core_idle_decoding ws q h :
  others ws q h -> (d_state (h_decode h) = D_CHECK \/ d_state (h_decode h) = D_VALID \/ q <> []) ->
  core_idle h = false.
Proof.
  intros Ho Hd. unfold core_idle. pose proof (others_rd_valid _ _ _ Ho) as Hv.
  unfold Fifo.rd_valid in Hv. destruct (Fifo.empty (h_queue h)); simpl in Hv.
  - unfold decode_busy. destruct Hd as [-> |[-> |Hq]]; [by rewrite orb_true_r, andb_false_r..|].
    by destruct q.
  - by rewrite andb_false_r.
Qed.

Lemma core_idle_quiet ws h :
  others ws [] h -> f_state (h_fetch h) = F_IDLE -> d_state (h_decode h) = D_IDLE ->
  core_idle h = negb (be_busy (h_backend h)).
Proof.
  intros Ho Hf Hd. unfold core_idle, core_busy, fetch_busy, decode_busy. rewrite Hf, Hd.
  pose proof (others_rd_valid _ _ _ Ho) as Hv. unfold Fifo.rd_valid in Hv.
  apply negb_false_iff in Hv. assert (Hdma : dma_idle (u_dma (h_mem h))) by apply Ho.
  rewrite Hv, (proj1 (dma_idle_view _ Hdma)).
  by rewrite orb_false_r, !andb_true_r.
Qed.

(** From the last word to the issue of the command, or to its rejection. *)
Lemma checking_run ws h :
  checking ws h ->
  if opcode_known (wrap 4 (dw ws 0))
  then issuing ws (decode_fields ws) (tick 3 h) /\ during 3 on_its_way h
  else quiet ws (tick 2 h) /\ h_pending (tick 2 h) = true /\
       forall k, (k < 2)%nat -> be_idle (h_backend (tick k h)).
Proof.
  intros Hc. pose proof (checking_tick _ _ Hc) as Hd. pose proof (decoded_tick _ _ Hd) as Hn.
  destruct Hc as (Ho0 & _ & _ & Hd0 & _ & Hb0). destruct Hd as (Ho1 & _ & Hd1 & _ & Herr & _ & Hb1).
  destruct (opcode_known _).
  - pose proof (queued_tick _ _ _ Hn) as Hi. split; [done|].
    destruct Hn as (Ho2 & _ & Hd2 & _ & Hb2).
    apply during_S; [|apply during_S; [|apply during_S; [|apply during_O]]].
    + split_and!; [|done|apply (core_idle_decoding _ _ _ Ho0); tauto].
      apply (others_uneventful _ _ _ Ho0); [by apply (idle_view _ Hb0)|by rewrite Hd0].
    + split_and!; [|done|apply (core_idle_decoding _ _ _ Ho1); tauto].
      destruct Ho1 as (Hic & _ & _ & Hdma & _). split_and!; [done|done|by apply (idle_view _ Hb1)|].
      unfold decode_err. by rewrite Hd1, Herr.
    + split_and!; [|done|apply (core_idle_decoding _ _ _ Ho2); right; by right].
      apply (others_uneventful _ _ _ Ho2); [by apply (idle_view _ Hb2)|by rewrite Hd2].
  - destruct Hn as [Hq Hp]. split_and!; [done|done|]. intros [|[|k]] Hk; [done|done|lia].
Qed.

(** The rest of the way of a command that is being fetched. *)
Lemma fetching_run ws i h :
  length ws = 16%nat -> (i < 16)%nat -> fetching ws i h ->
  let n := (2 * (16 - i))%nat in
  if opcode_known (wrap 4 (dw ws 0))
  then issuing ws (decode_fields ws) (tick (n + 3) h) /\ during (n + 3) on_its_way h
  else quiet ws (tick (n + 2) h) /\ h_pending (tick (n + 2) h) = true /\
       forall k, (k < n + 2)%nat -> be_idle (h_backend (tick k h)).
Proof.
  intros Hws Hi Hf n. destruct (fetch_words ws i h Hws Hi Hf) as [Hc Hd]. fold n in Hc, Hd.
  pose proof (checking_run _ _ Hc) as Hr. rewrite !tick_add. destruct (opcode_known _).
  - destruct Hr as [Hi' Hd']. split; [done|]. by apply during_app.
  - destruct Hr as (Hq & Hp & Hb). split_and!; [done|done|]. intros k Hk.
    destruct (decide (k < n)%nat) as [Hlt|Hge]; [by apply Hd|].
    replace k with (n + (k - n))%nat by lia. rewrite tick_add. apply Hb. lia.
Qed.

(** ** Filling the command window *)

(** The window while it is being filled. *)
Definition mix (k : nat) (new old : list Z) : list Z := take k new ++ drop k old.

Lemma mix_0 new old : mix 0 new old = old.
Proof. done. Qed.

Lemma mix_all new old n : length new = n -> length old = n -> mix n new old = new.
Proof. intros Hn Ho. unfold mix. by rewrite take_ge, drop_ge, app_nil_r by lia. Qed.

Lemma mix_S k new old w :
  length old = length new -> new !! k = Some w -> <[k := w]> (mix k new old) = mix (S k) new old.
Proof.
  intros Hlen Hw. pose proof (lookup_lt_Some _ _ _ Hw) as Hk. unfold mix.
  destruct (lookup_lt_is_Some_2 old k ltac:(lia)) as [w' Hw'].
  rewrite (take_S_r new k w Hw), <- app_assoc. rewrite (drop_S old w' k Hw').
  rewrite insert_app_r_alt by (rewrite length_take; lia).
  rewrite length_take, Nat.min_l, Nat.sub_diag by lia. done.
Qed.

Lemma length_mix k new old n : length new = n -> length old = n -> length (mix k new old) = n.
Proof. intros Hn Ho. unfold mix. rewrite length_app, length_take, length_drop. lia. Qed.

(** The bus cycle of the store of word [k]. *)
Definition window_bus (k : nat) (w : Z) : bus := Some (uapi_region CMD_QUEUE + 4 * Z.of_nat k, w).

Lemma window_bus_mem ws k w : (k < 16)%nat -> mem_after ws (window_bus k w) = <[k := w]> ws.
Proof.
  intros Hk. unfold mem_after, window_bus, is_cmd_queue. rewrite cmd_index_word by done.
  change (rtl_region CMD_QUEUE) with 0x1000. change (uapi_region CMD_QUEUE) with 0x1000.
  change (rtl_region WEIGHT_BUF) with 0x10000.
  destruct (Z.leb_spec 0x1000 (0x1000 + 4 * Z.of_nat k)); [|lia].
  destruct (Z.ltb_spec (0x1000 + 4 * Z.of_nat k) 0x10000); [done|lia].
Qed.

Lemma reg_at_window off : 0x1000 <= off -> reg_at off = None.
Proof.
  intros Hoff. unfold reg_at. destruct (list_find _ _) as [[i r]|] eqn:Hf; [|done].
  apply list_find_Some in Hf as (_ & Hr & _). exfalso. pose proof (uapi_reg_range r) as [Hb _].
  change (uapi_reg r) with (rtl_reg r) in Hb. lia.
Qed.

Lemma is_buf_window k : (k < 16)%nat -> is_buf (uapi_region CMD_QUEUE + 4 * Z.of_nat k) = false.
Proof.
  intros Hk. apply Z.leb_gt. change (uapi_region CMD_QUEUE) with 0x1000. change (rtl_region WEIGHT_BUF) with 0x10000. lia.
Qed.

Lemma window_bus_no_ctrl k w : writes_ctrl (window_bus k w) = false.
Proof.
  unfold writes_ctrl, written, window_bus. cbn [mbind option_bind].
  change (uapi_region CMD_QUEUE) with 0x1000. by rewrite reg_at_window by lia.
Qed.

Lemma window_bus_harmless k w : harmless (window_bus k w).
Proof.
  unfold harmless, written, window_bus. cbn [mbind option_bind].
  change (uapi_region CMD_QUEUE) with 0x1000. by rewrite reg_at_window by lia.
Qed.

Lemma desc_wf_length d : desc_wf d -> length (words d) = 16%nat.
Proof. intros [Hl _]. change LGNPU_CMD_WORDS with 16 in Hl. lia. Qed.

Lemma quiet_uneventful ws h : quiet ws h -> uneventful h.
Proof.
  intros (Ho & _ & Hd & _ & Hb). apply (others_uneventful _ _ _ Ho); [by apply (idle_view _ Hb)|by rewrite Hd].
Qed.

Lemma quiet_pending_ticks n ws h : quiet ws h -> h_pending (tick n h) = h_pending h.
Proof.
  intros Hq. apply pending_ticks. intros k _. by eapply quiet_uneventful, quiet_ticks.
Qed.

(** What follows the doorbell of an accepted command, and of another one. *)
Lemma rung_run ws h :
  length ws = 16%nat -> rung ws h ->
  if opcode_known (wrap 4 (dw ws 0))
  then issuing ws (decode_fields ws) (tick 36 h) /\ during 35 on_its_way (step h None)
  else quiet ws (tick 35 h) /\ h_pending (tick 35 h) = true /\
       forall k, (k < 35)%nat -> be_idle (h_backend (tick k h)).
Proof.
  intros Hws Hr. pose proof (rung_step ws h None harmless_none Hr) as Hf. cbn [mem_after] in Hf.
  pose proof (fetching_run ws 0 _ Hws ltac:(lia) Hf) as Hrun. cbv zeta in Hrun. simpl Nat.add in Hrun.
  destruct (opcode_known _).
  - by destruct Hrun.
  - destruct Hrun as (Hq & Hp & Hb). split_and!; [done|done|]. intros [|k] Hk; [apply Hr|].
    simpl. apply Hb. lia.
Qed.

Lemma decode_known ws c :
  npu_cmd_decode ws = Some c -> opcode_known (wrap 4 (dw ws 0)) = true /\ decode_fields ws = c.
Proof.
  unfold npu_cmd_decode. change (c_opcode (decode_fields ws)) with (wrap 4 (dw ws 0)).
  by destruct (opcode_known _) eqn:?; intros [= <-].
Qed.

(** ** Reads of STATUS *)

Lemma status_idle h : idle_ready (reg_rdata h (uapi_reg R_STATUS)) = core_idle h.
Proof.
  unfold reg_rdata. rewrite reg_at_uapi. unfold core_idle.
  by destruct (core_busy h), (Fifo.empty _), (fetch_busy _ || decode_busy _), (Fifo.full _ _).
Qed.

Lemma status_fits h : fits 32 (reg_rdata h (uapi_reg R_STATUS)).
Proof.
  unfold reg_rdata. rewrite reg_at_uapi. apply (bool_decide_unpack _).
  by destruct (core_idle h), (core_busy h), (Fifo.full _ _); vm_compute.
Qed.

(** The cycle in which an issued command waits for its backend. *)
Lemma issuing_idle ws c h : issuing ws c h -> core_idle h = true /\ uneventful h.
Proof.
  intros (Ho & (Hf & _) & Hd & _ & _ & Hb). split.
  - rewrite (core_idle_quiet _ _ Ho Hf Hd). by rewrite (proj1 (idle_view _ Hb)).
  - apply (others_uneventful _ _ _ Ho); [by apply (idle_view _ Hb)|by rewrite Hd].
Qed.

Lemma rung_idle ws h : rung ws h -> core_idle h = true /\ uneventful h.
Proof.
  intros (Ho & (Hf & _) & Hd & _ & Hb). split.
  - rewrite (core_idle_quiet _ _ Ho Hf Hd). by rewrite (proj1 (idle_view _ Hb)).
  - apply (others_uneventful _ _ _ Ho); [by apply (idle_view _ Hb)|by rewrite Hd].
Qed.

Lemma rung_timeline ws c h :
  length ws = 16%nat -> rung ws h -> npu_cmd_decode ws = Some c ->
  issuing ws c (tick 36 h) /\ during 37 uneventful h /\
  forall k, (k <= 36)%nat -> be_idle (h_backend (tick k h)) /\
    core_idle (tick k h) = bool_decide (k = 0%nat \/ k = 36%nat).
Proof.
  intros Hws Hr [Hk <-]%decode_known. pose proof (rung_run _ _ Hws Hr) as Hrun. rewrite Hk in Hrun.
  destruct Hrun as [Hi Hd]. destruct (rung_idle _ _ Hr) as [Hri Hru].
  destruct (issuing_idle _ _ _ Hi) as [Hii Hiu]. split_and!; [done| |].
  - apply during_S; [done|]. apply (during_app 35 1); [by intros k Hle; apply Hd|].
    by apply during_S; [|apply during_O].
  - intros k Hle. destruct (decide (k = 0%nat)) as [->|Hn0].
    { split; [apply Hr|done]. }
    destruct (decide (k = 36%nat)) as [->|Hn36].
    { split; [apply Hi|done]. }
    rewrite bool_decide_eq_false_2 by lia. destruct k as [|k]; [done|].
    destruct (Hd k ltac:(lia)) as (_ & Hb & Hc). done.
Qed.

(** A working backend is seen as busy until it is done. *)
Lemma working_busy ws c n h : working ws c n h -> core_idle h = false.
Proof.
  intros (Ho & (Hf & _) & Hd & _ & Hb). rewrite (core_idle_quiet _ _ Ho Hf Hd).
  by rewrite (proj1 (runs_view _ _ _ Hb)).
Qed.

Lemma quiet_idle ws h : quiet ws h -> core_idle h = true.
Proof.
  intros (Ho & (Hf & _) & Hd & _ & Hb). rewrite (core_idle_quiet _ _ Ho Hf Hd).
  by rewrite (proj1 (idle_view _ Hb)).
Qed.

Lemma working_view ws c n h j :
  working ws c n h -> (j <= S n)%nat ->
  core_idle (tick j h) = bool_decide (37 + j = 0 \/ 37 + j = 36 \/ 37 + j = 38 + n)%nat /\
  h_pending (tick j h) = h_pending h || bool_decide (37 + j = 38 + n)%nat.
Proof.
  revert h j. induction n as [|n IH]; intros h [|j] Hw Hj.
  1, 3: rewrite !bool_decide_eq_false_2, orb_false_r by lia; split; [|done]; by eapply working_busy.
  - replace j with 0%nat by lia. pose proof (working_tick _ _ _ _ Hw) as [Hq Hp].
    rewrite !bool_decide_eq_true_2, orb_true_r by lia. split; [|done]. by eapply quiet_idle.
  - pose proof (working_tick _ _ _ _ Hw) as Hn. cbv iota in Hn. cbn [ticks].
    destruct (IH _ j Hn ltac:(lia)) as [-> ->]. rewrite pending_step.
    + split; [apply bool_decide_ext; lia|]. f_equal. apply bool_decide_ext. lia.
    + destruct Hw as (Ho & _ & Hd & _ & Hb).
      apply (others_uneventful _ _ _ Ho); [by apply (runs_view _ _ _ Hb)|by rewrite Hd].
Qed.

(** ** A second command too early

    With one cycle per access, the second command's stores run ahead of the
    fetch of the first: in bus cycle [k] word [k] of the window is replaced
    while the fetch is at word [k / 2]. *)

Definition race (new old : list Z) (k : nat) (h : hw E) : Prop :=
  match k with
  | O => rung (mix 0 new old) h
  | S j => let ws := mix k new old in
           if Nat.even j then fetching ws (Nat.div2 j) h else waiting ws (Nat.div2 j) h
  end.

Lemma race_uneventful new old k h : race new old k h -> uneventful h.
Proof.
  destruct k as [|j]; simpl.
  - intros Hr. by eapply rung_idle.
  - destruct (Nat.even j); intros Hr; [by eapply core_idle_fetching|by eapply core_idle_waiting].
Qed.

Lemma window_take ws i k w :
  (k < 16)%nat -> (S i <= k)%nat -> take (S i) (mem_after ws (window_bus k w)) = take (S i) ws.
Proof. intros Hk Hi. rewrite window_bus_mem by done. by rewrite take_insert_ge. Qed.

Lemma race_step new old k w h :
  length old = 16%nat -> length new = 16%nat -> (k < 16)%nat -> new !! k = Some w ->
  race new old k h -> race new old (S k) (step h (window_bus k w)).
Proof.
  intros Hold Hnew Hk Hw Hr.
  assert (Hb : submitting (window_bus k w)) by (left; apply window_bus_harmless).
  unfold race. cbv iota zeta. rewrite <- (mix_S k new old w), <- window_bus_mem by (done || lia).
  destruct k as [|j]; [by apply rung_step; [apply window_bus_harmless|]|].
  cbv [race] in Hr. cbv zeta in Hr. pose proof (Nat.div2_odd j) as Hj.
  pose proof (Nat.negb_even j) as Hodd. rewrite Nat.even_succ, <- Hodd.
  destruct (Nat.even j) eqn:He; simpl negb in *; cbv iota in *; rewrite <- Hodd in Hj; simpl in Hj.
  - assert (Hd : Nat.div2 (S j) = Nat.div2 j).
    { replace j with (2 * Nat.div2 j)%nat at 1 by lia. apply Nat.div2_succ_double. }
    rewrite Hd. apply fetching_step; [lia|done| |done]. apply window_take; lia.
  - assert (Hd : Nat.div2 (S j) = S (Nat.div2 j)).
    { replace (S j) with (2 * S (Nat.div2 j))%nat at 1 by lia. apply Nat.div2_double. }
    rewrite Hd. apply waiting_step; [by apply length_mix|lia|done| |done]. apply window_take; lia.
Qed.
(** ** The buffers while nothing works on them *)

Abbreviation held h := (contents (u_bufs (h_mem h))).

Lemma idle_memory h b rd :
  be_idle (h_backend h) -> dma_idle (u_dma (h_mem h)) -> p_req (buf_passthrough b rd) = false ->
  held (hw_clock h b rd) = held h.
Proof.
  intros Hb Hd Hp. destruct (idle_view _ Hb) as (_ & _ & Hw). cbn [hw_clock h_mem mem_step u_bufs].
  unfold be_act_wr, buf_port. rewrite (proj2 (Hw _)), (proj1 (dma_idle_view _ Hd)). by apply idle_edge.
Qed.

Lemma idle_memory_ticks n h :
  (forall k, (k < n)%nat -> be_idle (h_backend (ticks k h)) /\ uneventful (ticks k h)) -> held (ticks n h) = held h.
Proof.
  revert h. induction n as [|n IH]; intros h Hn; [done|]. cbn [ticks]. rewrite IH.
  - destruct (Hn 0%nat ltac:(lia)) as (Hb & _ & Hd & _). by apply idle_memory.
  - intros k Hk. apply (Hn (S k)). lia.
Qed.

Lemma quiet_memory ws h b :
  quiet ws h -> (forall a v, b = Some (a, v) -> is_buf a = false) -> held (hw_step h b) = held h.
Proof.
  intros (Ho & _ & _ & _ & Hb) Ha. apply idle_memory; [done|apply Ho|]. destruct b as [[a v]|]; [|done].
  exact (Ha a v eq_refl).
Qed.

Lemma quiet_memory_ticks ws n h : quiet ws h -> held (ticks n h) = held h.
Proof.
  intros Hq. apply idle_memory_ticks. intros k _. pose proof (quiet_ticks k _ _ Hq) as Hk.
  split; [apply Hk|by eapply quiet_uneventful].
Qed.

(** Until the command is issued. *)
Lemma rung_memory ws c h :
  length ws = 16%nat -> rung ws h -> npu_cmd_decode ws = Some c -> held (ticks 36 h) = held h.
Proof.
  intros Hws Hr Hdec. destruct (rung_timeline _ _ _ Hws Hr Hdec) as (_ & Hu & Hb).
  apply idle_memory_ticks. intros k Hk. split; [apply Hb; lia|apply Hu; lia].
Qed.
End phases.
