(* ===== verification/HwSubmit.v ===== *)
(** * From the API call to the backend

    [npu_submit] of [Runtime] run on the clocked hardware of [Hw]: what a
    command goes through from the sixteen stores to its backend and its
    interrupt, and what two commands in a row and an early status read do. *)

From S2P Require Import Prelude Regs Command Decode Prog Runtime Fifo ExtMem Mem Dma Hw HwPhases.

Open Scope Z_scope.

Section submit.
Context {E : Type} {C : Core E} {L : CoreLaws C}.
Context (base : Z) (gap : nat) (late : bool).

#[local] Instance env : Env mmio (hw E) := hw_env base gap late.

Abbreviation step := hw_step.
Abbreviation tick := ticks.
Abbreviation held h := (contents (u_bufs (h_mem h))).

Lemma replay_store a v tr h :
  replay ((Store (base + a) v, 0) :: tr) h = replay tr (tick gap (step h (Some (a, v)))).
Proof. cbn -[ticks hw_step]. by replace (base + a - base) with a by lia. Qed.

(** An invariant carried along the sixteen stores. *)
Lemma replay_window (I : nat -> hw E -> Prop) ws h :
  length ws = 16%nat ->
  (forall k w h, (k < 16)%nat -> ws !! k = Some w -> I k h -> I (S k) (tick gap (step h (window_bus k w)))) ->
  I 0%nat h ->
  exists h', replay (window_stores base (uapi_region CMD_QUEUE) ws) h = Some h' /\ I 16%nat h'.
Proof.
  intros Hlen Hstep H0.
  assert (Hgen : forall n k h, (k + n = 16)%nat -> I k h ->
    exists h', replay (drop k (window_stores base (uapi_region CMD_QUEUE) ws)) h = Some h' /\ I 16%nat h').
  { induction n as [|n IH]; intros k h1 Hk HI.
    - exists h1. rewrite drop_ge by (unfold window_stores; rewrite length_imap; lia).
      by replace 16%nat with k by lia.
    - destruct (lookup_lt_is_Some_2 ws k ltac:(lia)) as [w Hw].
      rewrite (drop_S _ (Store (base + uapi_region CMD_QUEUE + 4 * Z.of_nat k) w, 0) k)
        by (unfold window_stores; by rewrite list_lookup_imap, Hw).
      rewrite <- Z.add_assoc, replay_store. apply IH; [lia|]. by apply Hstep; [lia| |]. }
  by apply (Hgen 16%nat 0%nat h).
Qed.

Lemma replay_wr r v h : replay [wr base r v] h = Some (tick gap (step h (Some (uapi_reg r, v)))).
Proof. apply (replay_store (uapi_reg r) v []). Qed.

(** Running [npu_submit] on idle hardware leaves the doorbell register set and
    the words in the window. Whatever survives a clock of an idle machine with a
    store that is not to CTRL survives it, [n] clocks being [16 * S gap + 1]. *)
Section survives.
Context (I : nat -> hw E -> Prop).
Hypothesis HI : forall n ws h b, quiet ws h -> writes_ctrl b = false -> I n h -> I (S n) (step h b).

Lemma survives_ticks m n ws h : quiet ws h -> I n h -> I (n + m) (tick m h).
Proof using HI.
  revert n h. induction m as [|m IH]; intros n h Hq Hn; [by rewrite Nat.add_0_r|].
  rewrite Nat.add_succ_r. apply (IH (S n)); [exact (quiet_step ws h None Hq harmless_none)|]. by apply (HI _ ws).
Qed.

Lemma submit_survives w0 h d :
  length w0 = 16%nat -> quiet w0 h -> desc_wf d -> I 0%nat h ->
  exists tr h1, run (npu_submit (Some (mk_dev (Some base))) (Some d)) h = (tr, Ok 0, tick gap h1) /\
    rung (words d) h1 /\ h_pending h1 = h_pending h /\ held h1 = held h /\ I (16 * S gap + 1)%nat h1.
Proof using HI.
  intros Hw0 Hq Hd H0. pose proof (desc_wf_length _ Hd) as Hlen.
  destruct (replay_window (fun k h' => quiet (mix k (words d) w0) h' /\ h_pending h' = h_pending h /\ held h' = held h /\ I (k * S gap)%nat h')
    (words d) h Hlen) as (h' & Hrep & Hq' & Hp' & Hm' & Hn').
  - intros k w h1 Hk Hw (Hq1 & Hp1 & Hm1 & Hn1).
    assert (Hq2 : quiet (mix (S k) (words d) w0) (step h1 (window_bus k w))).
    { rewrite <- (mix_S k _ _ w) by (done || lia). rewrite <- window_bus_mem by done.
      apply quiet_step; [done|apply window_bus_harmless]. }
    split_and!; [by apply quiet_ticks| | |].
    + rewrite (quiet_pending_ticks _ _ _ Hq2). rewrite pending_step; [done|]. by eapply quiet_uneventful.
    + rewrite (quiet_memory_ticks _ _ _ Hq2), <- Hm1. apply (quiet_memory _ _ _ Hq1).
      intros a v [= <- _]. by apply is_buf_window.
    + replace (S k * S gap)%nat with (S (k * S gap) + gap)%nat by lia. eapply survives_ticks; [done|].
      apply (HI _ _ _ _ Hq1); [|done]. apply window_bus_no_ctrl.
  - done.
  - rewrite (mix_all _ _ 16) in Hq' by done.
    eexists _, (step h' (Some (uapi_reg R_DOORBELL, 1))). split.
    + eapply exec_replay_run; [by apply submit_calls|]. rewrite replay_app, Hrep. apply replay_wr.
    + split_and!; [by apply quiet_ring|rewrite pending_step; [done|]; by eapply quiet_uneventful| |].
      * rewrite <- Hm'. apply (quiet_memory _ _ _ Hq'). by intros a v [= <- _].
      * rewrite Nat.add_1_r. by apply (HI _ _ _ _ Hq').
Qed.
End survives.

Lemma submit_run w0 h d :
  length w0 = 16%nat -> quiet w0 h -> desc_wf d ->
  exists tr h1, run (npu_submit (Some (mk_dev (Some base))) (Some d)) h = (tr, Ok 0, tick gap h1) /\
    rung (words d) h1 /\ h_pending h1 = h_pending h /\ held h1 = held h.
Proof.
  intros Hw0 Hq Hd. destruct (submit_survives (fun _ _ => True) ltac:(done) w0 h d Hw0 Hq Hd I) as (tr & h1 & H1 & H2 & H3 & H4 & _).
  by exists tr, h1.
Qed.

Lemma replay_rd r h :
  replay [rd base r (reg_rdata (if late then step h None else h) (uapi_reg r))] h =
  Some (tick gap (step h None)).
Proof.
  cbn -[ticks hw_step reg_rdata]. replace (base + uapi_reg r - base) with (uapi_reg r) by lia.
  by rewrite decide_True.
Qed.

(** The state whose register the [k]-th read of a row of reads shows, when the
    first access happens in [h]. *)
Definition sampled (h : hw E) (k : nat) : hw E := tick (k * S gap + if late then 1 else 0) h.

Definition reads (r : reg) (h : hw E) (l : list nat) : trace mmio :=
  (fun k => rd base r (reg_rdata (sampled h k) (uapi_reg r))) <$> l.

Lemma replay_reads r n h : replay (reads r h (seq 0 n)) h = Some (tick (n * S gap) h).
Proof.
  induction n as [|n IH]; [done|]. unfold reads in *.
  rewrite seq_S, fmap_app, replay_app, IH. cbn [fmap list_fmap mbind option_bind Nat.add].
  replace (sampled h n) with (if late then step (tick (n * S gap) h) None else tick (n * S gap) h).
  - rewrite replay_rd. f_equal. change (tick gap (step ?x None)) with (tick (S gap) x).
    rewrite <- tick_add. f_equal. lia.
  - unfold sampled. destruct late; [by rewrite Nat.add_1_r, tick_S_r|by rewrite Nat.add_0_r].
Qed.

(** Polling returns 0 at the first sample that is ready, and -1 after [t]
    samples that are not. *)
Section poll.
Context (r : reg) (ready : Z -> bool) (p : prog mmio Z) (t : Z).
Hypothesis Hp : forall tr o, exec p tr o <-> exists found,
  poll_trace ready (fun v => [rd base r v]) (fun v => [rd base r v]) t tr found /\ o = Ok (if found then 0 else -1).
Hypothesis Hfits : forall h, fits 32 (reg_rdata h (uapi_reg r)).

Abbreviation ready_at h k := (ready (reg_rdata (sampled h k) (uapi_reg r))).

Lemma missed n h :
  (forall k, (k < n)%nat -> ready_at h k = false) ->
  exists pre, Forall (fun v => fits 32 v /\ ready v = false) pre /\ length pre = n /\
    concat ((fun v => [rd base r v]) <$> pre) = reads r h (seq 0 n).
Proof using Hfits.
  intros Hbusy. exists ((fun k => reg_rdata (sampled h k) (uapi_reg r)) <$> seq 0 n). split_and!.
  - apply Forall_fmap, Forall_forall. intros k Hk%in_seq. split; [apply Hfits|]. apply Hbusy. lia.
  - by rewrite length_fmap, length_seq.
  - rewrite (concat_singletons (rd base r)). unfold reads. by rewrite <- list_fmap_compose.
Qed.

Lemma poll_run n h :
  Z.of_nat n < t -> (forall k, (k < n)%nat -> ready_at h k = false) -> ready_at h n = true ->
  exists tr, run p h = (tr, Ok 0, tick (S n * S gap) h).
Proof using Hp Hfits.
  intros Hn Hbusy Hready. exists (reads r h (seq 0 (S n))).
  eapply exec_replay_run; [|apply replay_reads]. apply Hp. exists true. split; [|done].
  destruct (missed n h Hbusy) as (pre & Hpre & Hlen & Hc). exists pre. split; [done|].
  exists (reg_rdata (sampled h n) (uapi_reg r)). split_and!; [by rewrite Hlen|apply Hfits|done|].
  rewrite Hc. unfold reads. by rewrite seq_S, fmap_app.
Qed.

Lemma poll_timeout h :
  0 <= t -> (forall k, Z.of_nat k < t -> ready_at h k = false) ->
  exists tr, run p h = (tr, Ok (-1), tick (Z.to_nat t * S gap) h).
Proof using Hp Hfits.
  intros Ht Hbusy. exists (reads r h (seq 0 (Z.to_nat t))).
  eapply exec_replay_run; [|apply replay_reads]. apply Hp. exists false. split; [|done].
  destruct (missed (Z.to_nat t) h) as (pre & Hpre & Hlen & Hc); [intros k Hk; apply Hbusy; lia|].
  exists pre. split_and!; [done|lia|done].
Qed.
End poll.

(** Without idle cycles. *)
Lemma poll_idle_run t n h :
  gap = 0%nat -> fits 32 t -> Z.of_nat n < t ->
  (forall k, (k < n)%nat -> core_idle (sampled h k) = false) -> core_idle (sampled h n) = true ->
  exists tr, run (npu_poll_idle (Some (mk_dev (Some base))) t) h = (tr, Ok 0, tick (S n) h).
Proof.
  intros Hgap Ht Hn Hbusy Hidle.
  destruct (poll_run R_STATUS idle_ready _ t (fun tr o => poll_reads_iff base R_STATUS idle_ready t tr o Ht)
    status_fits n h Hn) as [tr Hrun]; [intros k Hk; rewrite status_idle; by apply Hbusy|by rewrite status_idle|].
  exists tr. rewrite Hgap, Nat.mul_1_r in Hrun. exact Hrun.
Qed.

(** One [npu_submit] on idle hardware, however fast the host: it returns 0,
    and a command with a known opcode is issued to its backend exactly 36
    cycles after the doorbell with the fields of the descriptor, runs there for
    its number of cycles, and leaves the hardware idle with the interrupt
    pending; a command with an unknown opcode never reaches a backend and
    raises the interrupt after 35 cycles. *)
Theorem submit_executes w0 h d :
  length w0 = 16%nat -> quiet w0 h -> desc_wf d ->
  exists tr h1,
    run (npu_submit (Some (mk_dev (Some base))) (Some d)) h = (tr, Ok 0, tick gap h1) /\
    match npu_cmd_decode (words d) with
    | Some c =>
        let n := cycles c in
        (forall k, (k <= 36)%nat -> be_idle (h_backend (tick k h1))) /\
        dispatch_valid (h_sched (tick 36 h1)) = true /\ s_cmd (h_sched (tick 36 h1)) = c /\
        (runnable c ->
           (forall k, (k <= n)%nat -> runs c (n - k) (h_backend (tick (37 + k) h1))) /\
           quiet (words d) (tick (38 + n) h1) /\ h_pending (tick (38 + n) h1) = true)
    | None =>
        (forall k, (k <= 35)%nat -> be_idle (h_backend (tick k h1))) /\
        quiet (words d) (tick 35 h1) /\ h_pending (tick 35 h1) = true
    end.
Proof.
  intros Hw0 Hq Hd. pose proof (desc_wf_length _ Hd) as Hlen.
  destruct (submit_run w0 h d Hw0 Hq Hd) as (tr & h1 & Hrun & Hr & _).
  exists tr, h1. split; [done|]. destruct (npu_cmd_decode (words d)) as [c|] eqn:Hdec.
  - intros n. destruct (rung_timeline _ _ _ Hlen Hr Hdec) as (Hi & _ & Htl).
    split_and!; [intros k Hle; by apply Htl|by eapply issuing_valid|apply Hi|]. intros Hc.
    pose proof (issuing_tick _ _ _ Hi Hc) as Hw. rewrite <- tick_S_r in Hw.
    destruct (working_ticks _ _ _ _ Hw) as (Hk & Hq' & Hp). fold n in Hk, Hq', Hp.
    replace (38 + n)%nat with (37 + S n)%nat by lia.
    split_and!; [intros k Hle|..]; rewrite tick_add; [by apply Hk|done..].
  - pose proof (rung_run _ _ Hlen Hr) as Hrun'. unfold npu_cmd_decode in Hdec.
    change (c_opcode (decode_fields (words d))) with (wrap 4 (dw (words d) 0)) in Hdec.
    destruct (opcode_known _); [done|]. destruct Hrun' as (Hq' & Hp & Hb).
    split_and!; [|done|done]. intros k Hle.
    destruct (decide (k = 35%nat)) as [->|]; [apply Hq'|apply Hb; lia].
Qed.

(** The documented sequence "[npu_submit]; [npu_poll_idle]  /* wait for
    completion */" does not wait on a host that accesses the device in every
    cycle: STATUS is sampled in one of the two cycles in which it reads idle, so
    [npu_poll_idle] returns 0 before the backend has started; the command starts
    later. This holds for both read timings. *)
Theorem poll_idle_too_early w0 h d c t :
  gap = 0%nat -> length w0 = 16%nat -> quiet w0 h -> desc_wf d ->
  npu_cmd_decode (words d) = Some c -> runnable c -> fits 32 t -> 36 <= t ->
  let remaining := if late then 0%nat else 35%nat in
  exists tr h2,
    run (npu_submit (Some (mk_dev (Some base))) (Some d);;
         npu_poll_idle (Some (mk_dev (Some base))) t) h = (tr, Ok 0, h2) /\
    (forall k, (k <= remaining)%nat -> be_idle (h_backend (tick k h2))) /\
    runs c (cycles c) (h_backend (tick (S remaining) h2)).
Proof.
  intros Hgap Hw0 Hq Hd Hdec Hc Ht Hpos remaining. pose proof (desc_wf_length _ Hd) as Hlen.
  destruct (submit_run w0 h d Hw0 Hq Hd) as (tr1 & h1 & Hrun & Hr & _).
  rewrite Hgap in Hrun. cbn [ticks] in Hrun.
  destruct (rung_timeline _ _ _ Hlen Hr Hdec) as (Hi & _ & Htl).
  pose proof (issuing_tick _ _ _ Hi Hc) as Hw. rewrite <- tick_S_r in Hw.
  set (n := if late then 35%nat else 0%nat).
  assert (Hsum : (S n + remaining = 36)%nat) by (unfold n, remaining; by destruct late).
  destruct (poll_idle_run t n h1 Hgap Ht) as [tr2 Hpoll].
  - unfold n. destruct late; lia.
  - unfold sampled, n. intros k Hk. destruct late; [|lia]. rewrite Hgap, Nat.mul_1_r, Nat.add_1_r.
    destruct (Htl (S k) ltac:(lia)) as [_ ->]. apply bool_decide_eq_false_2. lia.
  - unfold sampled, n. rewrite Hgap, Nat.mul_1_r. destruct late; [by apply (issuing_idle _ _ _ Hi)|by eapply rung_idle].
  - exists (tr1 ++ tr2), (tick (S n) h1). split; [by rewrite run_bind, Hrun, Hpoll|].
    split; [|rewrite <- tick_add; replace (S n + S remaining)%nat with 37%nat by lia; apply Hw].
    intros k Hk. rewrite <- tick_add. apply Htl. lia.
Qed.

(** The second of two [npu_submit] in a row, on a host that needs one cycle per
    access. *)
Lemma race_run old h d :
  gap = 0%nat -> length old = 16%nat -> rung old h -> desc_wf d ->
  exists tr h2, run (npu_submit (Some (mk_dev (Some base))) (Some d)) h = (tr, Ok 0, h2) /\
    fetching (words d) 8 h2 /\ h_pending h2 = h_pending h.
Proof.
  intros Hgap Hold Hr Hd. pose proof (desc_wf_length _ Hd) as Hlen.
  destruct (replay_window (fun k h' => race (words d) old k h' /\ h_pending h' = h_pending h)
    (words d) h Hlen) as (h' & Hrep & Hr' & Hp').
  - intros k w h1 Hk Hw [Hr1 Hp1]. rewrite Hgap. cbn [ticks]. split; [by apply race_step|].
    rewrite pending_step; [done|]. by eapply race_uneventful.
  - done.
  - eexists _, _. split; [|split].
    + eapply exec_replay_run; [by apply submit_calls|]. rewrite replay_app, Hrep. apply replay_wr.
    + rewrite Hgap. cbn [ticks]. cbv [race] in Hr'. cbv zeta in Hr'.
      rewrite (mix_all _ _ 16) in Hr' by done.
      refine (waiting_step _ 7 _ _ Hlen _ _ _ Hr'); [lia|by right; eexists|done].
    + rewrite Hgap. cbn [ticks]. rewrite pending_step; [done|]. by eapply race_uneventful.
Qed.

(** Two [npu_submit] in a row on a host that needs one cycle per access lose
    the first command, although both return 0: the second call replaces the window while the first command is being fetched
    and its doorbell write is ignored, so only the second command reaches a
    backend, once, and one completion is signalled. *)
Theorem back_to_back_submit_drops_first w0 h d1 d2 c2 :
  gap = 0%nat -> length w0 = 16%nat -> quiet w0 h -> desc_wf d1 -> desc_wf d2 ->
  npu_cmd_decode (words d2) = Some c2 -> runnable c2 ->
  exists tr h2,
    run (npu_submit (Some (mk_dev (Some base))) (Some d1);;
         npu_submit (Some (mk_dev (Some base))) (Some d2)) h = (tr, Ok 0, h2) /\
    h_pending (tick 19 h2) = h_pending h /\
    (forall k, (k <= 19)%nat -> be_idle (h_backend (tick k h2))) /\
    s_cmd (h_sched (tick 19 h2)) = c2 /\ runs c2 (cycles c2) (h_backend (tick 20 h2)) /\
    quiet (words d2) (tick (21 + cycles c2) h2) /\
    h_pending (tick (21 + cycles c2) h2) = true.
Proof.
  intros Hgap Hw0 Hq Hd1 Hd2 Hdec Hc. pose proof (desc_wf_length _ Hd2) as Hlen.
  destruct (submit_run w0 h d1 Hw0 Hq Hd1) as (tr1 & h1 & Hrun1 & Hr & Hp1 & _).
  destruct (race_run _ h1 d2 Hgap (desc_wf_length _ Hd1) Hr Hd2) as (tr2 & h2 & Hrun2 & Hf & Hp2).
  rewrite Hgap in Hrun1. cbn [ticks] in Hrun1.
  exists (tr1 ++ tr2), h2. split; [by rewrite run_bind, Hrun1, Hrun2|].
  pose proof (fetching_run _ 8 _ Hlen ltac:(lia) Hf) as Hrun. cbv zeta in Hrun. simpl Nat.add in Hrun.
  destruct (decode_known _ _ Hdec) as [Hk <-]. rewrite Hk in Hrun. destruct Hrun as [Hi Hdur].
  pose proof (issuing_tick _ _ _ Hi Hc) as Hw. rewrite <- tick_S_r in Hw.
  destruct (working_ticks _ _ _ _ Hw) as (_ & Hq' & Hpe). rewrite <- tick_add in Hq', Hpe.
  replace (21 + _)%nat with (20 + S (cycles (decode_fields (words d2))))%nat by lia.
  split_and!; [| | | |done|done].
  - rewrite pending_ticks; [congruence|]. intros k Hk'. by apply Hdur.
  - intros k Hk'. destruct (decide (k = 19%nat)) as [->|]; [apply Hi|]. apply Hdur. lia.
  - apply Hi.
  - apply Hw.
Qed.
End submit.

(** ** Witnesses: the hardware after reset, a convolution, another command and an unknown opcode *)

Lemma quiet_reset {E} {C : Core E} {L : CoreLaws C} : quiet (replicate 16 0) hw_reset.
Proof. split_and!; try done. apply zero_idle. Qed.

Definition ex_latency (c : conv_cmd_t) : nat := 50.
(** Its results are left out. *)
Definition ex_writes (c : conv_cmd_t) (n : nat) : option (Z * Z) := None.
#[local] Instance ex_core : Core engine := latency ex_latency ex_writes.
#[local] Instance ex_laws : CoreLaws ex_core := latency_laws ex_latency ex_writes.
Definition ex_desc (op addr : Z) : npu_cmd_desc := mk_desc (op :: addr :: replicate 14 1).

Lemma ex_desc_wf : desc_wf (ex_desc 1 16) /\ desc_wf (ex_desc 2 32) /\ desc_wf (ex_desc 9 0).
Proof. split_and!; by apply (bool_decide_unpack _); vm_compute. Qed.

Definition ex_cmd (op addr : Z) : conv_cmd_t := decode_fields (words (ex_desc op addr)).

Lemma ex_decode :
  npu_cmd_decode (words (ex_desc 1 16)) = Some (ex_cmd 1 16) /\
  npu_cmd_decode (words (ex_desc 2 32)) = Some (ex_cmd 2 32).
Proof. split; by vm_compute. Qed.

Theorem submit_executes_witness :
  exists tr h1,
    run (H := hw_env 0x40000000 3 true)
      (npu_submit (Some (mk_dev (Some 0x40000000))) (Some (ex_desc 9 0))) hw_reset =
      (tr, Ok 0, ticks 3 h1) /\
    h_pending (ticks 35 h1) = true.
Proof.
  destruct (submit_executes (L := ex_laws) 0x40000000 3 true (replicate 16 0) hw_reset
    (ex_desc 9 0) eq_refl quiet_reset (proj2 (proj2 ex_desc_wf))) as (tr & h1 & Hrun & _ & _ & Hp).
  exists tr, h1. split; [exact Hrun|exact Hp].
Defined.

Theorem poll_idle_too_early_witness :
  exists h2, be_idle (h_backend h2) /\
    h_backend (ticks 1 h2) = Some 50%nat.
Proof.
  destruct (poll_idle_too_early (L := ex_laws) 0x40000000 0 true (replicate 16 0) hw_reset
    (ex_desc 1 16) (ex_cmd 1 16) 100000 eq_refl eq_refl quiet_reset (proj1 ex_desc_wf) (proj1 ex_decode) I
    ltac:(done) ltac:(done)) as (tr & h2 & _ & Hk & Hb).
  exists h2. split; [exact (Hk 0%nat (Nat.le_0_l _))|exact Hb].
Defined.

Theorem back_to_back_submit_drops_first_witness :
  exists h2, c_act_in_addr (s_cmd (h_sched (ticks 19 h2))) = 32 /\
    be_idle (h_backend h2).
Proof.
  destruct (back_to_back_submit_drops_first (L := ex_laws) 0x40000000 0 true (replicate 16 0)
    hw_reset (ex_desc 1 16) (ex_desc 2 32) (ex_cmd 2 32) eq_refl eq_refl quiet_reset (proj1 ex_desc_wf)
    (proj1 (proj2 ex_desc_wf)) (proj2 ex_decode) I) as (tr & h2 & _ & _ & Hk & Hc & _).
  exists h2. split; [by rewrite Hc|exact (Hk 0%nat (Nat.le_0_l _))].
Defined.
