(* ===== verification/HwDma.v ===== *)
(** * A DMA transfer in the shell

    The transfers of [Dma] inside the clocked hardware of [Hw] while the
    control path is idle: what every clock and every register access does to
    the memories, from the stores that program the engine to its rest. *)

From stdpp Require Import gmap.
From S2P Require Import Prelude Regs Prog Command Decode Runtime Fifo ExtMem Mem Dma Hw HwPhases.

Open Scope Z_scope.

Section hw_dma.
Context {E : Type} {C : Core E} {L : CoreLaws C}.

Abbreviation clock h b rd := (hw_clock h b rd).
Abbreviation step := hw_step.
Abbreviation tick := ticks.

(** ** The shell around a transfer *)

(** The control path is idle. *)
Definition calm (h : hw E) : Prop :=
  fetch_is F_IDLE false false h /\ d_state (h_decode h) = D_IDLE /\ s_state (h_sched h) = S_IDLE /\
  be_idle (h_backend h) /\ Fifo.empty (h_queue h) = true.

Lemma quiet_calm ws h : quiet ws h -> calm h /\ dma_idle (u_dma (h_mem h)) /\ dma_start_r (h_regs h) = false.
Proof.
  intros (Ho & Hf & Hd & Hs & Hb). split; [|split; apply Ho]. split_and!; [apply Hf..|done|done|done|].
  pose proof (others_rd_valid _ _ _ Ho) as Hv. by apply negb_false_iff in Hv.
Qed.

Definition memory (h : hw E) : world := (h_mem h, h_ext h).

(** No DOORBELL, no start. *)
Definition inert (b : bus) : Prop :=
  wr_pulse b R_DOORBELL (fun _ => true) = false /\ wr_pulse b R_DMA_CTRL (fun v => Z.testbit v 0) = false.

Lemma calm_clock h b rd :
  calm h -> wr_pulse b R_DOORBELL (fun _ => true) = false -> calm (clock h b rd).
Proof.
  intros ((Hf & Hd & Hr) & Hdec & Hs & Hb & He) Hbell. unfold calm, fetch_is, hw_clock.
  cbn [h_regs h_fetch h_decode h_sched h_backend h_queue regs_step fetch_step decode_step sched_step
       doorbell_r fetch_rvalid_r f_state d_state s_state].
  unfold desc_done, desc_word_valid, cmd_rd_req, cmd_valid, queue_ready, dispatch_valid, Fifo.rd_valid.
  rewrite Hf, Hdec, Hs, Hd, He, fifo_step_empty by done.
  split_and!; [done..|by apply idle_stays|done].
Qed.

Lemma calm_no_write h : calm h -> be_act_wr h = None.
Proof. intros (_ & _ & _ & Hb & _). by apply (idle_view _ Hb). Qed.

Lemma memory_clock h b rd :
  calm h ->
  memory (clock h b rd) = world_step (memory h) (mk_cycle (dma_config (h_regs h)) (buf_passthrough b rd) true true).
Proof.
  intros Hc. unfold memory, world_step, hw_clock. cbn -[mem_step update_ext_mem ext_device].
  rewrite calm_no_write, ext_device_prompt by done. by destruct (update_ext_mem _ _).
Qed.

Lemma calm_idle h : calm h -> core_idle h = negb (dma_busy (u_dma (h_mem h))).
Proof.
  intros ((Hf & _) & Hd & _ & Hb & He). unfold core_idle, core_busy, fetch_busy, decode_busy.
  rewrite Hf, Hd, (proj1 (idle_view _ Hb)), He. by rewrite !andb_true_r.
Qed.

(** Between transfers, with these memories. *)
Definition resting (M : sram * gmap Z Z) (h : hw E) : Prop :=
  calm h /\ at_rest (memory h) /\ memories (memory h) = M /\ dma_start_r (h_regs h) = false.

Lemma quiet_resting ws h : quiet ws h -> ext_rd_pending (h_ext h) = false -> resting (memories (memory h)) h.
Proof. intros Hq Hp. destruct (quiet_calm _ _ Hq) as (Hc & Hd & Hs). by split_and!. Qed.

Lemma start_clock h b rd :
  dma_start_r (h_regs (clock h b rd)) = wr_pulse b R_DMA_CTRL (fun v => Z.testbit v 0).
Proof. done. Qed.

Lemma at_rest_step w y :
  at_rest w -> c_start (y_cfg y) = false ->
  at_rest (world_step w y) /\ ext_memory (world_step w y).2 = ext_memory w.2 /\
  u_bufs (world_step w y).1 = buffers_step (u_bufs w.1) (y_host y) None.
Proof.
  intros ((Hr & Hw) & Hp) Hs. destruct w as [[[[st x] [wst wx]] bufs] m], y as [yc host g v]. cbn in *. subst st wst.
  unfold at_rest, dma_idle. clocked Hp Hs. by split_and!.
Qed.

(** A cycle that leaves the buffers alone, or reads them. *)
Lemma resting_clock M h b rd :
  resting M h -> wr_pulse b R_DOORBELL (fun _ => true) = false ->
  match b with Some (a, _) => is_buf a = false | None => True end ->
  let h' := clock h b rd in calm h' /\ at_rest (memory h') /\ memories (memory h') = M.
Proof.
  intros (Hc & Hr & HM & Hs) Hbell Hbuf h'. split; [by apply calm_clock|].
  unfold h'. rewrite memory_clock by done.
  destruct (at_rest_step _ (mk_cycle (dma_config (h_regs h)) (buf_passthrough b rd) true true) Hr Hs) as (Hr' & He & Hb).
  split; [done|]. unfold memories in *. rewrite He, Hb, <- HM. cbn [y_host]. f_equal. unfold buf_passthrough.
  destruct b as [[a v]|]; [by apply idle_edge|]. destruct rd as [a|]; [|by apply idle_edge].
  destruct (is_buf a); [by apply read_edge|by apply idle_edge].
Qed.

Lemma resting_inert M h b rd :
  resting M h -> inert b -> match b with Some (a, _) => is_buf a = false | None => True end ->
  resting M (clock h b rd).
Proof.
  intros Hr [Hbell Hstart] Hb. destruct (resting_clock M h b rd Hr Hbell Hb) as (H1 & H2 & H3).
  by split_and!.
Qed.

(** ** Register accesses *)

Lemma written_reg a r v : reg_at a = Some r -> written (Some (a, v)) = Some (r, v).
Proof. intros Ha. unfold written. cbn -[reg_at]. by rewrite Ha. Qed.

Lemma reg_at_below a r : reg_at a = Some r -> is_buf a = false.
Proof.
  unfold reg_at. intros Ha. destruct (list_find _ all_regs) as [[i r']|] eqn:Hf; [|done].
  apply list_find_Some in Hf as (_ & <- & _). by destruct r'.
Qed.

Lemma inert_write a r v : reg_at a = Some r -> r <> R_DOORBELL -> r <> R_DMA_CTRL -> inert (Some (a, v)).
Proof. intros Ha H1 H2. unfold inert, wr_pulse. rewrite (written_reg _ _ _ Ha). by rewrite !decide_False. Qed.

(** ** A transfer under way *)

Definition under_way (dir : bool) (c : dma_cfg) (w0 : world) (p : nat) (h : hw E) : Prop :=
  phase dir c w0 p (memory h) /\ calm h /\ dma_start_r (h_regs h) = false.

Lemma under_way_clock dir c w0 p h b rd :
  cfg_fits c -> windows_ok c -> under_way dir c w0 p h -> inert b -> p_req (buf_passthrough b rd) = false ->
  under_way dir c w0 (S p) (clock h b rd).
Proof.
  intros Hfit Hwin (Hp & Hc & Hs) [Hbell Hstart] Hreq. split_and!; [|by apply calm_clock|by rewrite start_clock].
  rewrite memory_clock by done.
  destruct (phase_step dir c w0 p (memory h) (mk_cycle (dma_config (h_regs h)) (buf_passthrough b rd) true true)
    Hfit Hwin) as (p' & Hp' & _ & Hpr); [by split|done|]. by rewrite <- Hpr by by left.
Qed.

Lemma inert_none : inert None.
Proof. done. Qed.

Lemma under_way_ticks dir c w0 p h k :
  cfg_fits c -> windows_ok c -> under_way dir c w0 p h -> under_way dir c w0 (p + k) (tick k h).
Proof.
  intros Hfit Hwin. revert p h. induction k as [|k IH]; intros p h Hu; [by rewrite Nat.add_0_r|].
  rewrite Nat.add_succ_r, <- Nat.add_succ_l. cbn [ticks]. apply IH. by apply under_way_clock.
Qed.

Lemma under_way_idle dir c w0 p h :
  under_way dir c w0 p h -> core_idle h = bool_decide (3 * elements (c_len c) <= p)%nat.
Proof.
  intros (Hp & Hc & _). rewrite calm_idle by done.
  change (h_mem h) with (memory h).1. rewrite (proj1 (phase_view _ _ _ _ _ Hp)).
  repeat case_bool_decide; lia || done.
Qed.

Lemma under_way_over dir c w0 p h :
  under_way dir c w0 p h -> (3 * elements (c_len c) < p)%nat ->
  resting (transferred dir c (memories w0) (elements (c_len c))) h.
Proof.
  intros (Hp & Hc & Hs) Hlt. destruct (phase_view _ _ _ _ _ Hp) as (_ & _ & Hm & Hr).
  split_and!; [done|by apply Hr|apply Hm; lia|done].
Qed.

(** ** The accesses that start it *)

Lemma config_write h a r v :
  reg_at a = Some r ->
  let c := dma_config (h_regs h) in
  dma_config (h_regs (step h (Some (a, v)))) =
  match r with
  | R_DMA_EXT_ADDR => mk_cfg v (c_loc c) (c_len c) false (c_dir c)
  | R_DMA_LOC_ADDR => mk_cfg (c_ext c) (wrap 20 v) (c_len c) false (c_dir c)
  | R_DMA_LEN => mk_cfg (c_ext c) (c_loc c) (wrap 16 v) false (c_dir c)
  | R_DMA_CTRL => mk_cfg (c_ext c) (c_loc c) (c_len c) (Z.testbit v 0) (Z.testbit v 1)
  | _ => mk_cfg (c_ext c) (c_loc c) (c_len c) false (c_dir c)
  end.
Proof.
  intros Ha. unfold dma_config, hw_step, hw_clock, regs_step, wr_to, wr_pulse.
  cbn [h_regs dma_ext_addr_r dma_loc_addr_r dma_len_r dma_start_r dma_dir_r].
  rewrite (written_reg _ _ _ Ha). by destruct r.
Qed.

Lemma resting_write M h a r v :
  resting M h -> reg_at a = Some r -> r <> R_DOORBELL -> r <> R_DMA_CTRL -> resting M (step h (Some (a, v))).
Proof.
  intros Hr Ha H1 H2. apply resting_inert; [done|by eapply inert_write|by eapply reg_at_below].
Qed.

(** The start pulse is up. *)
Lemma started h :
  calm h -> at_rest (memory h) -> c_start (dma_config (h_regs h)) = true -> cfg_fits (dma_config (h_regs h)) ->
  under_way (c_dir (dma_config (h_regs h))) (dma_config (h_regs h)) (memory h) 0 (step h None).
Proof.
  intros Hc Hr Hs Hfit. split_and!; [|by apply calm_clock|done].
  unfold hw_step. rewrite memory_clock by done.
  by apply (phase_start _ _ (mk_cycle (dma_config (h_regs h)) no_request true true)).
Qed.

Lemma resting_start M h a v :
  resting M h -> reg_at a = Some R_DMA_CTRL -> let h' := step h (Some (a, v)) in
  calm h' /\ at_rest (memory h') /\ memories (memory h') = M.
Proof.
  intros Hr Ha. apply resting_clock; [done| |by eapply reg_at_below].
  unfold wr_pulse. rewrite (written_reg _ _ _ Ha). by rewrite decide_False.
Qed.

(** ** The clocks after the start

    [h] is the state after the store to DMA_CTRL; [T] clocks later: *)

Lemma pending_clock h b rd :
  calm h ->
  h_pending (clock h b rd) =
  if irq_clear_r (h_regs h) then false else dma_done (u_dma (h_mem h)) || h_pending h.
Proof.
  intros (_ & Hd & _ & Hb & _). unfold hw_clock, decode_err. cbn [h_pending].
  rewrite (proj1 (proj2 (idle_view _ Hb))), Hd. cbn [orb].
  rewrite orb_false_r. destruct (irq_clear_r (h_regs h)); [done|]. by destruct (dma_done _).
Qed.

Lemma calm_ticks h k : calm h -> calm (tick k h).
Proof. revert h. induction k as [|k IH]; intros h Hc; [done|]. cbn [ticks]. by apply IH, calm_clock. Qed.

Lemma irq_clear_ticks h k : irq_clear_r (h_regs h) = false -> irq_clear_r (h_regs (tick k h)) = false.
Proof. revert h. induction k as [|k IH]; intros h Hc; [done|]. cbn [ticks]. by apply IH. Qed.

Lemma under_way_pending dir c w0 p h k :
  cfg_fits c -> windows_ok c -> under_way dir c w0 p h -> irq_clear_r (h_regs h) = false ->
  h_pending (tick k h) = h_pending h || bool_decide (p <= 3 * elements (c_len c) < p + k)%nat.
Proof.
  intros Hfit Hwin Hu Hi. induction k as [|k IH].
  { rewrite bool_decide_eq_false_2 by lia. by rewrite orb_false_r. }
  destruct (under_way_ticks dir c w0 p h k Hfit Hwin Hu) as (Hp & Hc & _).
  rewrite tick_S_r. unfold hw_step. rewrite pending_clock, irq_clear_ticks, IH by done.
  change (h_mem (tick k h)) with (memory (tick k h)).1. rewrite (proj1 (proj2 (phase_view _ _ _ _ _ Hp))).
  destruct (h_pending h); [by rewrite !orb_true_r|]. cbn [orb]. repeat case_bool_decide; done || lia.
Qed.

(** The store that acknowledges the interrupt wins over a completion in the
    same clock and changes nothing else. *)
Lemma under_way_ack dir c w0 p h a v :
  cfg_fits c -> windows_ok c -> under_way dir c w0 p h -> reg_at a = Some R_IRQ_CLEAR ->
  let h' := step (step h (Some (a, v))) None in under_way dir c w0 (S (S p)) h' /\ h_pending h' = false /\
  irq_clear_r (h_regs h') = false.
Proof.
  intros Hfit Hwin Hu Ha h'.
  assert (Hu1 : under_way dir c w0 (S p) (step h (Some (a, v)))).
  { apply under_way_clock; [done..|by eapply inert_write|by eapply reg_at_below]. }
  split_and!; [by apply under_way_clock| |done]. unfold h', hw_step at 1. rewrite pending_clock by apply Hu1.
  unfold hw_step, hw_clock. cbn [h_regs irq_clear_r regs_step]. unfold wr_pulse.
  rewrite (written_reg _ _ _ Ha). by rewrite decide_True.
Qed.

Definition launched (c : dma_cfg) (M : sram * gmap Z Z) (h : hw E) : Prop :=
  calm h /\ at_rest (memory h) /\ memories (memory h) = M /\ dma_config (h_regs h) = c /\
  cfg_fits c /\ c_start c = true /\ irq_clear_r (h_regs h) = false.

Section timeline.
Context (c : dma_cfg) (M : sram * gmap Z Z) (h : hw E).
Hypothesis Hl : launched c M h.

Abbreviation n := (elements (c_len c)).

Lemma launched_phase T : windows_ok c -> under_way (c_dir c) c (memory h) T (tick (S T) h).
Proof using Hl.
  intros Hwin. destruct Hl as (Hc & Hr & _ & <- & Hfit & Hs & _).
  apply (under_way_ticks _ _ _ 0 _ T); [done|done|]. by apply started.
Qed.

(** Two clocks are the cause of what follows: in the first one the engine does
    not show its business yet, and its last state is not busy any more. *)
Lemma launched_busy T :
  windows_ok c -> dma_busy (u_dma (h_mem (tick T h))) = bool_decide (1 <= T <= 3 * n)%nat.
Proof using Hl.
  intros Hwin. destruct T as [|T].
  - destruct Hl as (_ & Hr & _). by destruct (dma_idle_view (u_dma (h_mem h)) (proj1 Hr)).
  - destruct (launched_phase T Hwin) as (Hp & _). change (h_mem (tick (S T) h)) with (memory (tick (S T) h)).1.
    rewrite (proj1 (phase_view _ _ _ _ _ Hp)). apply bool_decide_ext. lia.
Qed.

Lemma launched_pending T :
  windows_ok c -> h_pending (tick T h) = h_pending h || bool_decide (S (3 * n) < T)%nat.
Proof using Hl.
  intros Hwin. destruct T as [|T]; [by rewrite orb_false_r|].
  assert (Hu := launched_phase 0 Hwin). destruct Hl as (Hc & Hr & _ & _ & Hfit & _ & Hi).
  change (tick (S T) h) with (tick T (tick 1 h)). rewrite (under_way_pending _ c _ 0) by done.
  f_equal; [|apply bool_decide_ext; lia]. cbn [ticks]. unfold hw_step. rewrite pending_clock, Hi by done.
  by rewrite (proj2 (dma_idle_view (u_dma (h_mem h)) (proj1 Hr)) : dma_done (u_dma (h_mem h)) = false).
Qed.

Lemma launched_early T : windows_ok c -> (T <= 3)%nat -> memories (memory (tick T h)) = M.
Proof using Hl.
  intros Hwin HT. destruct T as [|T]; [apply Hl|]. destruct (launched_phase T Hwin) as (Hp & _).
  rewrite (phase_early _ _ _ _ _ Hp) by lia. apply Hl.
Qed.

Lemma launched_over T :
  windows_ok c -> (S (3 * n) < T)%nat -> resting (transferred (c_dir c) c M n) (tick T h).
Proof using Hl.
  intros Hwin HT. destruct T as [|T]; [lia|]. assert (Hu := launched_phase T Hwin).
  destruct Hl as (_ & _ & <- & _). apply (under_way_over _ c (memory h) T); [done|lia].
Qed.

(** With a local address below the windows: busy for ever. *)
Definition stuck (i0 : nat) (g : hw E) : Prop :=
  before (c_dir c) c (memory h) i0 (memory g) /\ calm g /\ dma_start_r (h_regs g) = false.

Lemma stuck_clock i0 g b rd :
  (i0 < n)%nat -> ~ in_window (loc_at c i0) -> inert b -> stuck i0 g -> stuck i0 (clock g b rd).
Proof using Hl.
  intros Hi0 Hout [Hbell Hstart] (IHb & IHc & IHs). destruct Hl as (_ & _ & _ & _ & Hfit & _).
  split_and!; [|by apply calm_clock|by rewrite start_clock]. rewrite memory_clock by done. by apply before_step.
Qed.

Lemma stuck_view i0 g : stuck i0 g ->
  dma_busy (u_dma (h_mem g)) = true /\ core_idle g = false /\ (i0 = 0%nat -> memories (memory g) = M).
Proof using Hl.
  intros (Hb & Hc & _). destruct Hl as (_ & _ & <- & _). destruct (before_view _ _ _ _ _ Hb) as (Hbusy & _ & Hm).
  change (u_dma (memory g).1) with (u_dma (h_mem g)) in Hbusy. split_and!; [done|by rewrite calm_idle, Hbusy|exact Hm].
Qed.

Lemma launched_stuck i0 T :
  (i0 < n)%nat -> ~ in_window (loc_at c i0) -> stuck i0 (tick (S T) h).
Proof using Hl.
  intros Hi0 Hout. induction T as [|T IH]; [|rewrite tick_S_r; by apply stuck_clock].
  destruct Hl as (Hc & Hr & _ & Hcfg & Hfit & Hs & _). split_and!; [|by apply calm_clock|done].
  cbn [ticks]. unfold hw_step. rewrite memory_clock by done.
  rewrite <- Hcfg. by apply (start_before _ _ (mk_cycle (dma_config (h_regs h)) no_request true true));
    [done|rewrite <- Hcfg in Hs, Hfit].
Qed.
End timeline.

Lemma resting_ticks M h k : resting M h -> resting M (tick k h).
Proof.
  revert h. induction k as [|k IH]; intros h Hr; [done|]. cbn [ticks]. by apply IH, resting_inert.
Qed.

(** Programming the engine: four stores with idle cycles in between. *)
Section program.
Context (addr : reg -> Z) (gap : nat).
Hypothesis Haddr : forall r, reg_at (addr r) = Some r.

Definition reg_store (r : reg) (v : Z) (h : hw E) : hw E := tick gap (step h (Some (addr r, v))).

(** Without the idle cycles after the last one. *)
Definition programmed (ea la n ctl : Z) (h : hw E) : hw E :=
  step (reg_store R_DMA_LEN n (reg_store R_DMA_LOC_ADDR la (reg_store R_DMA_EXT_ADDR ea h))) (Some (addr R_DMA_CTRL, ctl)).

Lemma config_ticks h k :
  let c := dma_config (h_regs h) in
  exists s, dma_config (h_regs (tick k h)) = mk_cfg (c_ext c) (c_loc c) (c_len c) s (c_dir c).
Proof.
  revert h. induction k as [|k IH]; intros h c; [eexists; by unfold c, dma_config|].
  cbn [ticks]. destruct (IH (step h None)) as [s ->]. by eexists.
Qed.

Lemma config_store h r v :
  let c := dma_config (h_regs h) in
  exists s d, dma_config (h_regs (reg_store r v h)) =
  match r with
  | R_DMA_EXT_ADDR => mk_cfg v (c_loc c) (c_len c) s d
  | R_DMA_LOC_ADDR => mk_cfg (c_ext c) (wrap 20 v) (c_len c) s d
  | R_DMA_LEN => mk_cfg (c_ext c) (c_loc c) (wrap 16 v) s d
  | _ => mk_cfg (c_ext c) (c_loc c) (c_len c) s d
  end.
Proof using Haddr.
  intros c. unfold reg_store. destruct (config_ticks (step h (Some (addr r, v))) gap) as [s ->].
  rewrite (config_write h _ r v (Haddr r)). fold c. destruct r; by eexists _, _.
Qed.

Lemma resting_store M h r v :
  resting M h -> r <> R_DOORBELL -> r <> R_DMA_CTRL -> resting M (reg_store r v h).
Proof using Haddr. intros. apply resting_ticks. by eapply resting_write. Qed.

Lemma programmed_ready ea la n ctl M h :
  resting M h -> let h' := programmed ea la n ctl h in
  calm h' /\ at_rest (memory h') /\ memories (memory h') = M /\
  dma_config (h_regs h') = mk_cfg ea (wrap 20 la) (wrap 16 n) (Z.testbit ctl 0) (Z.testbit ctl 1).
Proof using Haddr.
  intros Hr h'. unfold h', programmed.
  destruct (config_store h R_DMA_EXT_ADDR ea) as (s1 & d1 & H1).
  set (h1 := reg_store R_DMA_EXT_ADDR ea h) in *.
  destruct (config_store h1 R_DMA_LOC_ADDR la) as (s2 & d2 & H2).
  set (h2 := reg_store R_DMA_LOC_ADDR la h1) in *.
  destruct (config_store h2 R_DMA_LEN n) as (s3 & d3 & H3).
  set (h3 := reg_store R_DMA_LEN n h2) in *.
  rewrite (config_write h3 _ _ ctl (Haddr R_DMA_CTRL)), H3, H2, H1. cbn [c_ext c_loc c_len c_dir].
  assert (Hr3 : resting M h3) by (by repeat apply resting_store).
  destruct (resting_start M h3 _ ctl Hr3 (Haddr R_DMA_CTRL)) as (? & ? & ?). by split_and!.
Qed.

Lemma programmed_launched ea la n ctl M h :
  resting M h -> fits 32 ea -> Z.testbit ctl 0 = true ->
  launched (mk_cfg ea (wrap 20 la) (wrap 16 n) true (Z.testbit ctl 1)) M (programmed ea la n ctl h).
Proof using Haddr.
  intros Hr Hea Hs. destruct (programmed_ready ea la n ctl M h Hr) as (Hc & Hrest & HM & Hcfg).
  rewrite Hs in Hcfg. split_and!; try done; [split_and!; [done|by apply fits_wrap..]|].
  unfold programmed, hw_step, hw_clock. cbn [h_regs irq_clear_r regs_step]. unfold wr_pulse.
  by rewrite (written_reg _ R_DMA_CTRL).
Qed.
End program.

Lemma window_no_reg a : in_window a -> reg_at a = None.
Proof.
  unfold in_window. cbn [rtl_region]. intros Ha. unfold reg_at.
  destruct (list_find _ all_regs) as [[i r]|] eqn:Hf; [|done].
  apply list_find_Some in Hf as (_ & <- & _). by destruct r.
Qed.

Lemma inert_window a v : in_window a -> inert (Some (a, v)).
Proof. intros Ha. unfold inert, wr_pulse, written. cbn -[reg_at]. by rewrite window_no_reg. Qed.

Lemma is_buf_in a : in_window a -> is_buf a = true.
Proof. apply Z.leb_le. Qed.

(** With one access per clock. *)
Lemma programmed_0 addr ea la n ctl h :
  programmed addr 0 ea la n ctl h =
  step (step (step (step h (Some (addr R_DMA_EXT_ADDR, ea))) (Some (addr R_DMA_LOC_ADDR, la)))
    (Some (addr R_DMA_LEN, n))) (Some (addr R_DMA_CTRL, ctl)).
Proof. done. Qed.
End hw_dma.

