(* ===== verification/HwBackend.v ===== *)
(** * A backend on the whole hardware

    The shell of [Hw] around the core of [NpuCore]: the backend that owns the
    command at hand, on the buffers, is the backend of [Backend] on its own. So
    what it does to the buffers is what happens to the machine. *)

From S2P Require Import Prelude Regs Command Decode Prog Runtime Fifo ExtMem Mem Dma.
From S2P Require Import BackendMem Backend Hw HwPhases HwSubmit HwDma NpuCore.

Open Scope Z_scope.

Abbreviation chip := (hw npu_core).
Abbreviation held h := (contents (u_bufs (h_mem h))).

Definition slot_of (s : slot) (h : chip) : slot_state s * router * buffers := (slot_side s (h_backend h), u_bufs (h_mem h)).

Lemma slot_clock s h b rd :
  alone s (h_backend h) -> be_sel_r (h_backend h) = s \/ bk_rest (in_slot s (h_backend h)) /\ bias_still (u_router (h_backend h)) ->
  slot_of s (hw_clock h b rd) =
  world_step (slot_of s h) (cmd_for s (dispatch_valid (h_sched h)) (s_cmd (h_sched h)))
    (buf_port (h_mem h) (buf_passthrough b rd)).
Proof using Type.
  intros Ha Hs. unfold slot_of, world_step. cbn [fst snd].
  destruct (slot_alone s (h_backend h) (dispatch_valid (h_sched h)) (s_cmd (h_sched h)) (u_bufs (h_mem h)) Ha Hs) as [Hside Hw].
  cbn -[core_step buffers_step buf_port side_step slot_side]. rewrite Hside. f_equal. f_equal. exact Hw.
Qed.

(** The shell waits for the backend in [s]. *)
Definition engaged (ws : list Z) (s : slot) (h : chip) : Prop :=
  occupied ws h /\ be_sel_r (h_backend h) = s /\ alone s (h_backend h).

Lemma engaged_done ws s h : engaged ws s h -> be_done (h_backend h) = bk_done (in_slot s (h_backend h)).
Proof using Type. intros (_ & _ & Ha). by apply others_view. Qed.

(** A clock of it: nothing is offered, and the host asks for nothing. *)
Lemma engaged_clock ws s h : engaged ws s h -> slot_of s (hw_step h None) = world_step (slot_of s h) None no_request.
Proof using Type.
  intros ((Ho & _ & _ & Hs) & Hh & Ha). unfold hw_step. rewrite slot_clock by (done || by left).
  unfold dispatch_valid, buf_port. by rewrite Hs, cmd_for_none, (proj1 (dma_idle_view _ ltac:(apply Ho))).
Qed.

Lemma engaged_tick ws s h :
  engaged ws s h -> bk_done (in_slot s (h_backend h)) = false -> engaged ws s (hw_step h None).
Proof using Type.
  intros He Hd. pose proof (engaged_done _ _ _ He) as Hd'. rewrite Hd in Hd'. destruct He as (Hocc & Hh & Ha).
  assert (Hs : s_state (h_sched h) = S_WAIT) by apply Hocc.
  split_and!; [by apply occupied_tick|..]; cbn [hw_step hw_clock h_backend be_step npu_core_core];
    unfold dispatch_valid; rewrite Hs; [done|by apply alone_step].
Qed.

Definition clocks {K} (T : nat) : list (option K * port) := replicate T (None, no_request).

Lemma clocks_S {K} T : clocks (K := K) (S T) = clocks T ++ [(None, no_request)].
Proof using Type. apply replicate_S_end. Qed.

Lemma clocks_read {K} T : only_reads (clocks (K := K) T).
Proof using Type. by apply Forall_replicate. Qed.

Lemma clocks_run {B K} {BK : Backend B K} (w : B * router * buffers) T :
  bk_run w (clocks (S T)) = world_step (bk_run w (clocks T)) None no_request.
Proof using Type. by rewrite clocks_S, bk_run_snoc. Qed.

Lemma clocks_length {K} T : length (clocks (K := K) T) = T.
Proof using Type. apply length_replicate. Qed.

Lemma engaged_ticks ws s T h :
  engaged ws s h -> (forall i, (i < T)%nat -> bk_done (bk_run (slot_of s h) (clocks i)).1.1 = false) ->
  engaged ws s (ticks T h) /\ slot_of s (ticks T h) = bk_run (slot_of s h) (clocks T).
Proof using Type.
  intros He. induction T as [|T IH]; intros Hd; [done|]. destruct IH as [He' Hs]; [intros i Hi; apply Hd; lia|].
  rewrite tick_S_r, clocks_run, <- Hs. split; [|by rewrite (engaged_clock ws)].
  apply engaged_tick; [done|]. specialize (Hd T ltac:(lia)). by rewrite <- Hs in Hd.
Qed.

(** What the host sees of it. *)
Lemma engaged_uneventful ws s h :
  engaged ws s h -> bk_done (in_slot s (h_backend h)) = false -> uneventful h.
Proof.
  intros He Hd. pose proof (engaged_done _ _ _ He) as Hd'. rewrite Hd in Hd'. destruct He as ((Ho & _ & Hds & _) & _).
  apply (others_uneventful ws [] h Ho); [done|by rewrite Hds].
Qed.

Lemma engaged_idle ws s h : engaged ws s h -> core_idle h = negb (bk_busy (in_slot s (h_backend h))).
Proof.
  intros ((Ho & (Hfs & _) & Hds & _) & _ & Ha). rewrite (core_idle_quiet ws h) by done. by rewrite (proj1 (others_view s _ Ha)).
Qed.

Lemma engaged_view ws s h :
  engaged ws s h -> bk_done (in_slot s (h_backend h)) = false -> bk_busy (in_slot s (h_backend h)) = true ->
  core_idle h = false /\ uneventful h.
Proof. intros He Hd Hb. split; [by rewrite (engaged_idle ws s h He), Hb|by apply (engaged_uneventful ws s)]. Qed.

(** ** After [done]

    The scheduler is idle again, whatever the backend still does. *)
Definition trailing (ws : list Z) (s : slot) (h : chip) : Prop :=
  at_ease ws h /\ be_sel_r (h_backend h) = s /\ alone s (h_backend h).

Lemma engaged_ends ws s h :
  engaged ws s h -> bk_done (in_slot s (h_backend h)) = true ->
  trailing ws s (hw_step h None) /\ h_pending (hw_step h None) = true.
Proof.
  intros He Hd. rewrite <- (engaged_done _ _ _ He) in Hd. destruct He as (Ho & Hh & Ha).
  destruct (occupied_done ws h Ho Hd) as [Hease Hp]. assert (Hs : s_state (h_sched h) = S_WAIT) by apply Ho.
  split; [|done]. split_and!; [done|..]; cbn [hw_step hw_clock h_backend be_step npu_core_core];
    unfold dispatch_valid; rewrite Hs; [done|by apply alone_step].
Qed.

Lemma trailing_clock ws s h : trailing ws s h -> slot_of s (hw_step h None) = world_step (slot_of s h) None no_request.
Proof.
  intros ((Ho & _ & _ & Hs) & Hh & Ha). unfold hw_step. rewrite slot_clock by (done || by left).
  unfold dispatch_valid, buf_port. by rewrite Hs, cmd_for_none, (proj1 (dma_idle_view _ ltac:(apply Ho))).
Qed.

Lemma trailing_tick ws s h : trailing ws s h -> trailing ws s (hw_step h None).
Proof.
  intros (He & Hh & Ha). assert (Hs : s_state (h_sched h) = S_IDLE) by apply He.
  split_and!; [by apply at_ease_tick|..]; cbn [hw_step hw_clock h_backend be_step npu_core_core];
    unfold dispatch_valid; rewrite Hs; [done|by apply alone_step].
Qed.

Lemma trailing_uneventful ws s h : trailing ws s h -> bk_done (in_slot s (h_backend h)) = false -> uneventful h.
Proof.
  intros ((Ho & _ & Hds & _) & _ & Ha) Hd. apply (others_uneventful ws [] h Ho); [|by rewrite Hds].
  by rewrite (proj2 (others_view s _ Ha)).
Qed.

Lemma trailing_idle ws s h : trailing ws s h -> core_idle h = negb (bk_busy (in_slot s (h_backend h))).
Proof.
  intros ((Ho & (Hfs & _) & Hds & _) & _ & Ha). rewrite (core_idle_quiet ws h) by done. by rewrite (proj1 (others_view s _ Ha)).
Qed.

(** ** A command *)

Section command.
Context (ws : list Z) (c : conv_cmd_t) (s : slot) (k : slot_cmd s) (m : sram).
Hypothesis Hown : owner c = s.
Hypothesis Hk : cmd_for s true c = Some k.

(** The clock in which it is handed over. *)
Lemma slot_issued h :
  issuing ws c h -> held h = m ->
  engaged ws s (hw_step h None) /\ slot_of s (hw_step h None) = world_step (slot_of s h) (Some k) no_request /\
  at_rest (slot_of s h).1 /\ contents (slot_of s h).2 = m.
Proof using Hown Hk.
  intros Hi Hm. pose proof (issuing_occupied _ _ _ Hi) as Hocc.
  destruct Hi as (Ho & _ & _ & Hs & Hc & Hidle). assert (Ha : alone s (h_backend h)) by by apply idle_alone.
  destruct Hidle as [Hr Hb]. assert (Hready : core_ready (h_backend h) c = true).
  { rewrite owner_ready. by destruct (rest_view _ (Hr (owner c))) as (_ & _ & -> & _). }
  split; [|split; [|split; [split; [apply Hr|apply Hb]|done]]].
  - split_and!; [done|..]; cbn [hw_step hw_clock h_backend be_step npu_core_core]; unfold dispatch_valid; rewrite Hs, Hc.
    + by rewrite holder_accepted.
    + by apply alone_step.
  - unfold hw_step. rewrite slot_clock by (done || (right; split; [apply Hr|apply Hb])).
    unfold dispatch_valid, buf_port. by rewrite Hs, Hc, Hk, (proj1 (dma_idle_view _ ltac:(apply Ho))).
Qed.

(** A command that its backend never ends is never over for the machine. *)
Lemma slot_hangs h T :
  issuing ws c h -> held h = m ->
  (forall w i, at_rest w.1 -> contents w.2 = m ->
    bk_done (bk_run (world_step w (Some k) no_request) (clocks i)).1.1 = false /\
    bk_busy (bk_run (world_step w (Some k) no_request) (clocks i)).1.1 = true) ->
  let h' := ticks (S T) h in
  core_idle h' = false /\ uneventful h' /\
  slot_of s h' = bk_run (world_step (slot_of s h) (Some k) no_request) (clocks T).
Proof using Hown Hk.
  intros Hi Hm Hend. destruct (slot_issued h Hi Hm) as (He & Hs & Hr & Hm').
  destruct (engaged_ticks ws s T _ He) as [He' Hs']; [intros i _; rewrite Hs; by apply Hend|]. rewrite Hs in Hs'.
  cbv zeta. change (ticks (S T) h) with (ticks T (hw_step h None)). rewrite Hs'.
  destruct (Hend (slot_of s h) T Hr Hm') as [Hd Hb]. rewrite <- Hs' in Hd, Hb.
  by destruct (engaged_view ws s _ He' Hd Hb) as [Hci Hu].
Qed.

(** A command whose backend is [done] once, in clock [D], and at rest in clock
    [N]: the interrupt comes with [done], the machine is quiet when the backend
    is at rest, and what the host reads as idle is the backend's [busy]. *)
Lemma slot_passes h D N :
  issuing ws c h -> held h = m -> (D < N)%nat ->
  (forall w i, at_rest w.1 -> contents w.2 = m -> (i <= N)%nat ->
    bk_done (bk_run (world_step w (Some k) no_request) (clocks i)).1.1 = (i =? D)%nat) ->
  (forall w, at_rest w.1 -> contents w.2 = m ->
    let w' := bk_run (world_step w (Some k) no_request) (clocks N) in bk_rest w'.1.1 /\ bias_idle w'.1.2) ->
  let W i := bk_run (world_step (slot_of s h) (Some k) no_request) (clocks i) in
  (forall i, (i <= N)%nat ->
     slot_of s (ticks (S i) h) = W i /\ core_idle (ticks (S i) h) = negb (bk_busy (W i).1.1) /\
     h_pending (ticks (S i) h) = h_pending h || (D <? i)%nat) /\
  quiet ws (ticks (S N) h).
Proof using Hown Hk.
  intros Hi Hm HDN Hd Hend W. destruct (slot_issued h Hi Hm) as (He & Hs & Hr & Hm').
  pose proof (pending_step h None (proj2 (issuing_idle _ _ _ Hi))) as Hp0.
  assert (Hdw : forall i, (i <= N)%nat -> bk_done (W i).1.1 = (i =? D)%nat) by (intros i Hle; by apply Hd).
  specialize (Hend (slot_of s h) Hr Hm'). fold (W N) in Hend. clear Hd.
  set (h1 := hw_step h None) in *. assert (HW0 : slot_of s h1 = W 0%nat) by done.
  assert (HWS : forall i, W (S i) = world_step (W i) None no_request) by (intros i; apply clocks_run).
  change (ticks (S N) h) with (ticks N h1). clearbody W.
  assert (Hrun : forall i, (i <= N)%nat ->
    (if (i <=? D)%nat then engaged ws s (ticks i h1) else trailing ws s (ticks i h1)) /\ slot_of s (ticks i h1) = W i /\
    h_pending (ticks i h1) = h_pending h || (D <? i)%nat).
  { induction i as [|i IH]; intros Hle; [by rewrite orb_false_r, <- Hp0|]. destruct (IH ltac:(lia)) as (Hst & Hw & Hp).
    pose proof (Hdw i ltac:(lia)) as Hdi. rewrite <- Hw in Hdi. change (bk_done (slot_of s (ticks i h1)).1.1) with
      (bk_done (in_slot s (h_backend (ticks i h1)))) in Hdi. rewrite tick_S_r, HWS, <- Hw.
    destruct (Nat.leb_spec i D) as [HiD|HiD].
    - rewrite (proj2 (Nat.ltb_ge D i)), orb_false_r in Hp by lia. destruct (Nat.eqb_spec i D) as [->|Hne].
      + destruct (engaged_ends ws s _ Hst Hdi) as [Ht Hp']. rewrite (proj2 (Nat.leb_gt _ _)), (proj2 (Nat.ltb_lt _ _)) by lia.
        rewrite orb_true_r. split_and!; [done|by apply (engaged_clock ws)|done].
      + rewrite (proj2 (Nat.leb_le _ _)), (proj2 (Nat.ltb_ge _ _)), orb_false_r by lia.
        split_and!; [by apply engaged_tick|by apply (engaged_clock ws)|]. rewrite pending_step; [done|].
        by apply (engaged_uneventful ws s).
    - rewrite (proj2 (Nat.eqb_neq _ _)) in Hdi by lia.
      rewrite (proj2 (Nat.leb_gt _ _)), (proj2 (Nat.ltb_lt _ _)) by lia. rewrite (proj2 (Nat.ltb_lt _ _)) in Hp by lia.
      split_and!; [by apply trailing_tick|by apply (trailing_clock ws)|]. rewrite pending_step; [done|].
      by apply (trailing_uneventful ws s). }
  split.
  - intros i Hle. destruct (Hrun i Hle) as (Hst & Hw & Hp). split_and!; [done| |done]. rewrite <- Hw.
    destruct (i <=? D)%nat; [by apply (engaged_idle ws)|by apply (trailing_idle ws)].
  - destruct (Hrun N (le_n _)) as (Hst & Hw & _). rewrite (proj2 (Nat.leb_gt _ _)) in Hst by lia.
    destruct Hst as (Hease & _ & Ha). apply at_ease_quiet; [done|]. rewrite <- Hw in Hend. destruct Hend as [Hrest Hbias].
    split; [|exact Hbias]. intros s'. destruct (decide (s' = s)) as [->|Hne]; [exact Hrest|by apply Ha].
Qed.

(** A command that runs: its effect is there when the machine is quiet again. *)
Lemma slot_executes (EL : BackendEffect (slot_laws s)) h :
  bk_runnable k -> issuing ws c h -> held h = m ->
  let T := (bk_cycles k + 2)%nat in
  quiet ws (ticks T h) /\ h_pending (ticks T h) = true /\ held (ticks T h) = bk_effect k m.
Proof using Hown Hk.
  intros Hrun Hi Hm T. assert (Hrun' : runnable c) by (cbn; unfold core_runnable; subst s; by rewrite Hk).
  assert (Hcyc : cycles c = bk_cycles k) by (cbn; unfold core_cycles; subst s; by rewrite Hk).
  pose proof (issuing_tick _ _ _ Hi Hrun') as Hw. rewrite Hcyc in Hw.
  destruct (working_ticks _ _ _ _ Hw) as (_ & Hq & Hp). unfold T.
  replace (bk_cycles k + 2)%nat with (1 + S (bk_cycles k))%nat by lia. rewrite tick_add. split_and!; [done..|].
  change (ticks 1 h) with (hw_step h None). destruct (slot_issued h Hi Hm) as (He & Hs & Hr & Hm').
  destruct (engaged_ticks ws s (bk_cycles k) _ He) as [He' Hs'].
  { intros i Hl. rewrite Hs. destruct (command_view k (slot_of s h) no_request (clocks i) Hr Hrun) as [_ ->];
      rewrite clocks_length; [lia|]. apply bool_decide_eq_false_2. lia. }
  rewrite tick_S_r. change (contents (slot_of s (hw_step (ticks (bk_cycles k) (hw_step h None)) None)).2 = bk_effect k m).
  rewrite (engaged_clock ws) by done. rewrite Hs', Hs.
  rewrite <- clocks_run.
  apply effect_law; try done; [apply clocks_read|by rewrite clocks_length].
Qed.
End command.

(** A quiet machine stays as it is. *)
Lemma quiet_stays ws n T k (h : chip) :
  quiet ws (ticks T (ticks n h)) /\ h_pending (ticks T (ticks n h)) = true -> (n + T <= k)%nat ->
  quiet ws (ticks k h) /\ h_pending (ticks k h) = true /\ held (ticks k h) = held (ticks T (ticks n h)).
Proof.
  rewrite <- tick_add. intros [Hq Hp] Hk. replace k with (n + T + (k - (n + T)))%nat by lia. rewrite (tick_add (n + T)).
  split_and!; [by apply quiet_ticks|by rewrite (quiet_pending_ticks _ _ _ Hq)|by apply (quiet_memory_ticks ws)].
Qed.

(** Nor does a machine that hangs change its mind. *)
Lemma hangs_for n k (h : chip) :
  (forall T, core_idle (ticks (S T) (ticks n h)) = false /\ uneventful (ticks (S T) (ticks n h))) -> (S n <= k)%nat ->
  core_idle (ticks k h) = false /\ h_pending (ticks k h) = h_pending (ticks (S n) h).
Proof.
  intros Hh Hk. assert (Hview : forall T, core_idle (ticks (S n + T) h) = false /\ uneventful (ticks (S n + T) h)).
  { intros T. replace (S n + T)%nat with (n + S T)%nat by lia. rewrite tick_add. apply Hh. }
  replace k with (S n + (k - S n))%nat by lia. split; [apply Hview|]. rewrite tick_add. apply pending_ticks.
  intros j _. rewrite <- tick_add. apply Hview.
Qed.

(** ** The library *)

Section library.
Context (base : Z) (gap : nat) (late : bool).

#[local] Instance env : Env mmio chip := hw_env base gap late.

(** From the parameters to the doorbell. *)
Lemma params_rung w0 (h : chip) d0 p :
  length w0 = 16%nat -> quiet w0 h -> params_wf p ->
  exists d tr h1 c,
    build_cmd (Some d0) p = (0, Some d) /\
    run (npu_submit (Some (mk_dev (Some base))) (Some d)) h = (tr, Ok 0, ticks gap h1) /\
    npu_dispatch c = requested p /\ npu_cmd_decode (words d) = Some c /\ length (words d) = 16%nat /\
    rung (words d) h1 /\ h_pending h1 = h_pending h /\ held h1 = held h.
Proof using Type.
  intros Hw0 Hq Hwf. pose proof (decode_layout p Hwf) as Hdec.
  set (d := mk_desc (desc_layout p)).
  assert (Hd : desc_wf d) by (split; [cbn; by rewrite length_desc_layout|by apply (desc_layout_fits p)]).
  destruct (submit_run base gap late w0 h d Hw0 Hq Hd) as (tr & h1 & Hrun & Hr & Hp & Hm).
  apply fmap_Some in Hdec as (c & Hdec & Hreq).
  exists d, tr, h1, c. split_and!; [apply (build_cmd_layout d0 p)|done..|exact (desc_wf_length _ Hd)|done|done|done].
Qed.

(** From there to the issue of the command. *)
Lemma params_submitted w0 (h : chip) d0 p :
  length w0 = 16%nat -> quiet w0 h -> params_wf p ->
  exists d tr h1 c,
    build_cmd (Some d0) p = (0, Some d) /\
    run (npu_submit (Some (mk_dev (Some base))) (Some d)) h = (tr, Ok 0, ticks gap h1) /\
    npu_dispatch c = requested p /\
    issuing (words d) c (ticks 36 h1) /\ held (ticks 36 h1) = held h /\ h_pending (ticks 37 h1) = h_pending h.
Proof using Type.
  intros Hw0 Hq Hwf. destruct (params_rung w0 h d0 p Hw0 Hq Hwf) as (d & tr & h1 & c & Hb & Hrun & Hreq & Hdec & Hlen & Hr & Hp & Hm).
  exists d, tr, h1, c. split_and!; [done..| | |].
  - by apply (rung_timeline _ c _ Hlen Hr Hdec).
  - rewrite <- Hm. by apply (rung_memory _ _ _ Hlen Hr Hdec).
  - rewrite <- Hp. apply pending_ticks. intros k Hk. apply (rung_timeline _ c _ Hlen Hr Hdec). lia.
Qed.

(** Parameters of a command for the backend in [s]. *)
Section parameters.
Context (w0 : list Z) (h : chip) (d0 : npu_cmd_desc) (p : npu_params) (s : slot) (k : slot_cmd s).
Hypothesis Hw0 : length w0 = 16%nat.
Hypothesis Hq : quiet w0 h.
Hypothesis Hwf : params_wf p.
Hypothesis Hown : forall c, npu_dispatch c = requested p -> owner c = s /\ cmd_for s true c = Some k.

(** To the effect of the command, and for ever. *)
Lemma params_executed (EL : BackendEffect (slot_laws s)) :
  bk_runnable k ->
  exists d tr h1,
    build_cmd (Some d0) p = (0, Some d) /\
    run (npu_submit (Some (mk_dev (Some base))) (Some d)) h = (tr, Ok 0, ticks gap h1) /\
    forall j, (38 + bk_cycles k <= j)%nat ->
      quiet (words d) (ticks j h1) /\ h_pending (ticks j h1) = true /\ held (ticks j h1) = bk_effect k (held h).
Proof using Hw0 Hq Hwf Hown.
  intros Hrun. destruct (params_submitted w0 h d0 p Hw0 Hq Hwf) as (d & tr & h1 & c & Hb & Hsub & Hc & Hi & Hm & _).
  exists d, tr, h1. split_and!; [done..|]. intros j Hj. destruct (Hown c Hc) as [Ho Hk].
  destruct (slot_executes (words d) c s k _ Ho Hk EL _ Hrun Hi Hm) as (Hq' & Hp & <-).
  apply (quiet_stays (words d) 36 (bk_cycles k + 2)); [done|lia].
Qed.

(** A command that its backend never ends: the machine stays busy, and silent. *)
Lemma params_hang :
  (forall (w : slot_state s * router * buffers) i, at_rest w.1 -> contents w.2 = held h ->
    bk_done (bk_run (world_step w (Some k) no_request) (clocks i)).1.1 = false /\
    bk_busy (bk_run (world_step w (Some k) no_request) (clocks i)).1.1 = true) ->
  exists d tr h1,
    build_cmd (Some d0) p = (0, Some d) /\
    run (npu_submit (Some (mk_dev (Some base))) (Some d)) h = (tr, Ok 0, ticks gap h1) /\
    forall j, (37 <= j)%nat -> core_idle (ticks j h1) = false /\ h_pending (ticks j h1) = h_pending h.
Proof using Hw0 Hq Hwf Hown.
  intros Hend. destruct (params_submitted w0 h d0 p Hw0 Hq Hwf) as (d & tr & h1 & c & Hb & Hsub & Hc & Hi & Hm & Hp).
  exists d, tr, h1. split_and!; [done..|]. intros j Hj. rewrite <- Hp. destruct (Hown c Hc) as [Ho Hk].
  apply (hangs_for 36 j h1); [|lia]. intros T.
  by destruct (slot_hangs (words d) c s k _ Ho Hk _ T Hi Hm Hend) as (Hci & Hu & _).
Qed.
End parameters.
End library.

(** After reset, with these buffers. *)
Definition ex_machine (b : buffers) : chip :=
  let h := hw_reset in
  mk_hw (h_regs h) (h_fetch h) (h_decode h) (h_queue h) (h_sched h) (h_backend h)
    (mk_memsys (u_dma (h_mem h)) b) (h_ext h) (h_pending h) (h_perf h).

Lemma ex_quiet b : quiet (replicate 16 0) (ex_machine b).
Proof. exact quiet_reset. Qed.
