(* ===== verification/HwVec.v ===== *)
(** * Vector commands on the whole hardware

    The shell of [Hw] around the core of [NpuCore]: a vector command submitted
    by the library, from its parameters to the bytes in the buffers. *)

From stdpp Require Import gmap.
From S2P Require Import Prelude Regs Command Decode Prog Runtime CArith Golden Fifo ExtMem Mem Dma.
From S2P Require Import BackendMem Backend VecBackend Hw HwPhases HwSubmit HwDma NpuCore HwBackend.

Open Scope Z_scope.

(** The command of well-typed parameters. *)
Definition vec_requested (p : npu_vec_params) : vec_cmd_t :=
  mk_vec_cmd (vc_a_addr p) (vc_out_addr p) (vc_b_addr p) (vc_length p)
    (wrap 1 (vc_vec_op p)) (wrap 5 (vc_quant_shift p)) (wrap 2 (vc_act_mode p)).

Lemma vec_requested_fits p : vec_wf p -> vec_cmd_fits (vec_requested p).
Proof using Type. intros [H16 _]. rewrite !Forall_cons_iff in H16. by destruct H16 as (? & ? & ? & ? & _). Qed.

Lemma vec_owner c v : npu_dispatch c = HwVec v -> owner c = Vec /\ cmd_for Vec true c = Some v.
Proof using Type. intros Hv. unfold owner, cmd_for, vec_cmd_valid. by rewrite Hv. Qed.

(** The command [c] is [v] for the vector backend. *)
Section command.
Context (ws : list Z) (c : conv_cmd_t) (v : vec_cmd_t) (m : sram).
Hypothesis Hv : npu_dispatch c = HwVec v.
Hypothesis Hfit : vec_cmd_fits v.

(** From the issue on, for a vector that has no length. *)
Lemma vec_hangs h T :
  v_length v = 0 -> issuing ws c h -> held h = m ->
  core_idle (ticks (S T) h) = false /\ uneventful (ticks (S T) h) /\
  act_mem (held (ticks (S T) h)) = computed v (wt_mem m) (act_mem m) ((T - 1) / 3).
Proof using All.
  intros Hlen Hi Hm. destruct (vec_owner c v Hv) as [Ho Hk].
  assert (Hend : forall (w : vec_world) i, at_rest w.1 -> contents w.2 = m ->
    let w' := bk_run (world_step w (Some v) no_request) (clocks i) in
    vec_busy w'.1.1 = true /\ vec_done w'.1.1 = false /\
    act_mem (contents w'.2) = computed v (wt_mem m) (act_mem m) ((i - 1) / 3)).
  { intros w i [Hr Hb] Hw. apply endless_stage; [done..|].
    pose proof (vec_run_stage v m w no_request (clocks i) Hfit Hr Hb Hw eq_refl (clocks_read i) (or_introl Hlen)) as Hs.
    by rewrite clocks_length in Hs. }
  destruct (slot_hangs ws c Vec v m Ho Hk h T Hi Hm) as (Hci & Hu & Hs).
  { intros w i Hr Hw. by destruct (Hend w i Hr Hw) as (Hb & Hd & _). }
  split_and!; [done..|]. destruct (slot_issued ws c Vec v m Ho Hk h Hi Hm) as (_ & _ & Hr & Hm').
  change (held (ticks (S T) h)) with (contents (slot_of Vec (ticks (S T) h)).2). rewrite Hs. by apply Hend.
Qed.
End command.

(** ** The library *)

Section library.
Context (base : Z) (gap : nat) (late : bool).

#[local] Instance env : Env mmio chip := hw_env base gap late.

(** C9. From the API to the bytes. On the whole hardware, with the vector
    backend behind the shell, building a vector command and submitting it to
    an idle machine computes what the reference model of the testbench says.
    With the operand vectors in the buffers, and no output byte that is an
    operand still to be read or another output, 39 clocks and three per element
    after the doorbell the machine is idle again with its interrupt pending,
    the output bytes are those of [ref_vec] for the requested operation, shift
    and activation, and no other byte of the three buffers has changed; and so
    it stays. *)
Theorem library_vec_computes w0 h d0 p xs ys :
  length w0 = 16%nat -> quiet w0 h -> vec_wf p -> 1 <= vc_length p ->
  vec_operands (vec_requested p) (held h) xs ys ->
  exists d tr h1 out,
    npu_cmd_build_vec (Some d0) (Some p) = (0, Some d) /\
    run (npu_submit (Some (mk_dev (Some base))) (Some d)) h = (tr, Ok 0, ticks gap h1) /\
    ref_vec xs ys (vc_length p) (wrap 1 (vc_vec_op p)) (wrap 5 (vc_quant_shift p)) (wrap 2 (vc_act_mode p)) = Ok out /\
    forall k, (39 + 3 * Z.to_nat (vc_length p) <= k)%nat ->
      quiet (words d) (ticks k h1) /\ h_pending (ticks k h1) = true /\
      vec_results (vec_requested p) (held h) (held (ticks k h1)) out.
Proof using Type.
  intros Hw0 Hq Hwf Hlen Hops. pose proof (vec_requested_fits p Hwf) as Hfit.
  destruct (params_executed base gap late w0 h d0 (PVec p) Vec (vec_requested p) Hw0 Hq Hwf (fun c => vec_owner c _)
    vec_backend_effect (conj Hfit Hlen)) as (d & tr & h1 & Hb & Hrun & Hend).
  assert (Hqs : 0 <= v_quant_shift (vec_requested p) < 32) by exact (fits_wrap 5 (vc_quant_shift p) ltac:(done)).
  destruct (vec_reference _ _ xs ys Hfit Hqs Hops) as (out & Hout & _ & Hres).
  exists d, tr, h1, out. split_and!; [done..|]. intros k Hk.
  by destruct (Hend k ltac:(cbn; lia)) as (Hqk & Hpk & ->).
Qed.

(** C13. A vector command of length zero, which [npu_cmd_build_vec] builds and
    [npu_submit] accepts with 0, hangs the hardware: from its issue on the
    machine is busy in every later clock, the interrupt is never raised, and
    every third clock stores another byte in the activation buffer. *)
Theorem library_vec_zero_hangs w0 h d0 p :
  length w0 = 16%nat -> quiet w0 h -> vec_wf p -> vc_length p = 0 ->
  exists d tr h1,
    npu_cmd_build_vec (Some d0) (Some p) = (0, Some d) /\
    run (npu_submit (Some (mk_dev (Some base))) (Some d)) h = (tr, Ok 0, ticks gap h1) /\
    forall k, (37 <= k)%nat ->
      core_idle (ticks k h1) = false /\ h_pending (ticks k h1) = h_pending h /\
      act_mem (held (ticks k h1)) = computed (vec_requested p) (wt_mem (held h)) (act_mem (held h)) ((k - 38) / 3).
Proof using Type.
  intros Hw0 Hq Hwf Hlen. pose proof (vec_requested_fits p Hwf) as Hfit. set (v := vec_requested p) in *.
  destruct (params_submitted base gap late w0 h d0 (PVec p) Hw0 Hq Hwf) as (d & tr & h1 & c & Hb & Hrun & Hc & Hi & Hm & Hp).
  exists d, tr, h1. split_and!; [done..|]. intros k Hk.
  assert (Hh := fun T => vec_hangs (words d) c v (held h) Hc Hfit (ticks 36 h1) T Hlen Hi Hm).
  destruct (hangs_for 36 k h1) as [Hci Hpk]; [intros T; by destruct (Hh T) as (? & ? & _)|lia|].
  rewrite Hpk, Hp. split_and!; [done..|]. replace k with (36 + S (k - 37))%nat by lia. rewrite tick_add.
  destruct (Hh (k - 37)%nat) as (_ & _ & ->). by replace (36 + S (k - 37) - 38)%nat with (k - 37 - 1)%nat by lia.
Qed.
End library.

(** ** Witnesses: the vectors of [VecBackend] in the buffers of the machine *)

Definition ex_chip : chip := ex_machine ex_vec_mem.

(** [100; -100] times [7; -3], shifted by 2, with ReLU. *)
Definition ex_vec : npu_vec_params := mk_vec 0 2048 0 2 1 2 1.

Theorem library_vec_computes_witness :
  exists h1 out, ref_vec [100; -100] [7; -3] 2 1 2 1 = Ok out /\
    quiet (desc_layout (PVec ex_vec)) (ticks 45 h1) /\
    cell (act_mem (contents (u_bufs (h_mem (ticks 45 h1))))) 2049 = u8 (at_ out 1).
Proof.
  destruct (library_vec_computes 0x40000000 3 true (replicate 16 0) ex_chip
    (mk_desc []) ex_vec [100; -100] [7; -3]) as (d & tr & h1 & out & Hb & _ & Hout & Hk);
    [done|by apply ex_quiet|by apply (bool_decide_unpack _); vm_compute|done|by apply ex_operands|].
  exists h1, out. split; [exact Hout|]. destruct (Hk 45%nat (le_n _)) as (Hq & _ & Hc & _).
  injection Hb as <-. split; [exact Hq|exact (Hc 1%nat ltac:(cbn; lia))].
Defined.

Theorem library_vec_zero_hangs_witness :
  exists h1 : hw npu_core, core_idle (ticks 1000 h1) = false /\ h_pending (ticks 1000 h1) = false.
Proof.
  destruct (library_vec_zero_hangs 0x40000000 3 true (replicate 16 0) ex_chip
    (mk_desc []) (mk_vec 0 2048 0 0 0 0 0)) as (d & tr & h1 & _ & _ & Hk);
    [done|by apply ex_quiet|by apply (bool_decide_unpack _); vm_compute|done|].
  exists h1. destruct (Hk 1000%nat ltac:(apply (bool_decide_unpack _); by vm_compute)) as (Hi & Hp & _).
  split; [exact Hi|exact Hp].
Defined.
