(* ===== verification/Perf.v ===== *)
(** * The performance counters

    [npu_perf_counters] as [Hw] clocks it: what it counts while a command goes
    through the machine, and what the library reads from it. And that it is an
    observer: nothing else depends on it. *)

From S2P Require Import Prelude Regs Command Decode Prog Runtime Fifo ExtMem Mem Dma BackendMem Backend Hw HwPhases HwSubmit NpuCore HwBackend HwVec VecBackend.

Open Scope Z_scope.

(** ** One clock *)

Definition perf_wf (p : perf) : Prop := fits 32 (cnt_cycles p) /\ fits 32 (cnt_active p) /\ fits 32 (cnt_stall p).

(** [n] clocks, [b] of them busy, none stalled. *)
Definition counts (n b : nat) (p p' : perf) : Prop :=
  p' = mk_perf (u32 (cnt_cycles p + Z.of_nat n)) (u32 (cnt_active p + Z.of_nat b)) (cnt_stall p).

Lemma counts_none p : perf_wf p -> counts 0 0 p p.
Proof. intros (Hc & Ha & _). unfold counts. rewrite !Z.add_0_r, !wrap_small by done. by destruct p. Qed.

Lemma counts_trans n b n' b' p q r : counts n b p q -> counts n' b' q r -> counts (n + n') (b + b') p r.
Proof.
  intros -> ->. unfold counts, wrap. cbn [cnt_cycles cnt_active cnt_stall]. rewrite !Zplus_mod_idemp_l. f_equal; f_equal; lia.
Qed.

Section perf.
Context {E : Type} {C : Core E}.

Lemma counts_step (h : hw E) b :
  perf_wf (h_perf h) -> soft_reset h = false -> be_stall (h_backend h) = false ->
  counts 1 (if be_busy (h_backend h) then 1 else 0)%nat (h_perf h) (h_perf (hw_step h b)).
Proof.
  intros (Hc & Ha & Hs) Hr Hb. unfold hw_step, hw_clock, perf_step, counter, counts, be_active. cbn [h_perf].
  rewrite Hr, Hb, andb_true_r. destruct (be_busy _); [done|]. by rewrite Z.add_0_r, (wrap_small 32 (cnt_active _)).
Qed.

Lemma counter_fits x clr en : fits 32 x -> fits 32 (counter x clr en).
Proof. intros Hx. unfold counter. destruct clr; [done|]. destruct en; [by apply fits_wrap|done]. Qed.

Lemma perf_wf_step (h : hw E) b : perf_wf (h_perf h) -> perf_wf (h_perf (hw_step h b)).
Proof. intros (Hc & Ha & Hs). split_and!; by apply counter_fits. Qed.

Lemma soft_reset_step (h : hw E) b : writes_ctrl b = false -> soft_reset (hw_step h b) = soft_reset h.
Proof.
  intros Hb. unfold soft_reset. rewrite step_ctrl. unfold writes_ctrl in Hb. destruct (written b) as [[[] v]|]; done.
Qed.

(** ** A machine without them

    The state but for the counters, which decides what it does. *)
Definition unmetered (h : hw E) : hw E :=
  mk_hw (h_regs h) (h_fetch h) (h_decode h) (h_queue h) (h_sched h) (h_backend h) (h_mem h) (h_ext h) (h_pending h) perf_zero.

Lemma unmetered_step (h : hw E) b : unmetered (hw_step h b) = unmetered (hw_step (unmetered h) b).
Proof. done. Qed.

(** It stays as it is if a clock does not change it. *)
Lemma unmetered_still (h : hw E) n : unmetered (hw_step h None) = unmetered h -> unmetered (ticks n h) = unmetered h.
Proof.
  intros Hs. assert (Hall : forall h', unmetered h' = unmetered h -> unmetered (ticks n h') = unmetered h); [|by apply Hall].
  induction n as [|n IH]; intros h' Hh'; [done|]. cbn [ticks]. apply IH. by rewrite unmetered_step, Hh', <- unmetered_step.
Qed.

(** ** A command *)

Context {L : CoreLaws C} (base : Z) (gap : nat) (late : bool).
Hypothesis never_stalls : forall e : E, be_stall e = false.

#[local] Instance perf_env : Env mmio (hw E) := hw_env base gap late.

Abbreviation dev := (Some (mk_dev (Some base))).

(** The counters after [n] clocks, [b] of them busy, from [p]. *)
Definition metered (p : perf) (n b : nat) (h : hw E) : Prop := soft_reset h = false /\ perf_wf (h_perf h) /\ counts n b p (h_perf h).

Lemma metered_step p n b h w : writes_ctrl w = false ->
  metered p n b h -> metered p (S n) (b + if be_busy (h_backend h) then 1 else 0) (hw_step h w).
Proof using never_stalls.
  intros Hw (Hr & Hf & Hc). split_and!; [by rewrite soft_reset_step|by apply perf_wf_step|].
  rewrite <- Nat.add_1_r. eapply counts_trans; [exact Hc|]. by apply counts_step.
Qed.

Lemma metered_ticks p n b h k busy :
  metered p n b h -> (forall j, (j < k)%nat -> be_busy (h_backend (ticks j h)) = busy) ->
  metered p (n + k) (b + if busy then k else 0) (ticks k h).
Proof using never_stalls.
  revert n b h. induction k as [|k IH]; intros n b h Hm Hb.
  - rewrite Nat.add_0_r. by replace (b + _)%nat with b by (destruct busy; lia).
  - pose proof (metered_step p n b h None eq_refl Hm) as Hs. pose proof (Hb 0%nat ltac:(lia)) as Hb0. cbn [ticks] in Hb0. rewrite Hb0 in Hs.
    replace (n + S k)%nat with (S n + k)%nat by lia. replace (b + _)%nat with (b + (if busy then 1 else 0) + if busy then k else 0)%nat by (destruct busy; lia).
    apply IH; [done|]. intros j Hj. exact (Hb (S j) ltac:(lia)).
Qed.

(** What they hold after a command: [16 * S gap + 1] clocks for the stores,
    and one busy clock more than the command has cycles. *)
Lemma command_metered w0 h d c :
  length w0 = 16%nat -> quiet w0 h -> desc_wf d -> npu_cmd_decode (words d) = Some c -> runnable c ->
  soft_reset h = false -> perf_wf (h_perf h) ->
  exists tr h1, run (npu_submit dev (Some d)) h = (tr, Ok 0, ticks gap h1) /\
    forall k, (38 + cycles c <= k)%nat ->
      quiet (words d) (ticks k h1) /\ metered (h_perf h) (16 * S gap + 1 + k) (S (cycles c)) (ticks k h1).
Proof using never_stalls.
  intros Hw0 Hq Hd Hdec Hc Hr Hf. pose proof (desc_wf_length _ Hd) as Hlen.
  destruct (submit_survives base gap late (fun n => metered (h_perf h) n 0)) with (w0 := w0) (h := h) (d := d) as (tr & h1 & Hrun & Hrung & _ & _ & Hm); try done.
  { intros n ws g b Hg Hb Hn. pose proof (metered_step _ _ _ _ _ Hb Hn) as Hs. by rewrite (proj1 (idle_view _ (proj2 (proj2 (proj2 (proj2 Hg)))))) in Hs. }
  { split_and!; [done|done|by apply counts_none]. }
  exists tr, h1. split; [done|]. intros k Hk.
  destruct (rung_timeline _ c _ Hlen Hrung Hdec) as (Hi & _ & Htl).
  pose proof (issuing_tick _ _ _ Hi Hc) as Hw. rewrite <- tick_S_r in Hw.
  pose proof (metered_ticks _ _ _ h1 37 false Hm) as Hm37. rewrite Nat.add_0_r in Hm37.
  specialize (Hm37 ltac:(intros j Hj; by apply (idle_view _ (proj1 (Htl j ltac:(lia)))))).
  destruct (working_ticks _ _ _ _ Hw) as (Hbusy & Hq' & _).
  pose proof (metered_ticks _ _ _ (ticks 37 h1) (S (cycles c)) true Hm37) as Hm38. rewrite <- tick_add in Hm38, Hq'.
  specialize (Hm38 ltac:(intros j Hj; by apply (runs_view _ _ _ (Hbusy j ltac:(lia))))).
  replace k with (37 + S (cycles c) + (k - (38 + cycles c)))%nat by lia. rewrite tick_add.
  pose proof (metered_ticks _ _ _ _ (k - (38 + cycles c)) false Hm38) as Hmk.
  split; [by apply quiet_ticks|]. rewrite Nat.add_0_r in Hmk. rewrite (Nat.add_assoc (16 * S gap + 1)), (Nat.add_assoc (16 * S gap + 1)). apply Hmk.
  intros j _. by apply (idle_view _ (proj2 (proj2 (proj2 (proj2 (quiet_ticks j _ _ Hq')))))).
Qed.

(** ** What the library reads *)

Definition reads_as (p : prog mmio Z) (h : hw E) (v : Z) : Prop := exists tr h', run p h = (tr, Ok v, h').

Lemma counter_read r p h :
  loads_one base p r id -> fits 32 (reg_rdata (if late then hw_step h None else h) (uapi_reg r)) ->
  reads_as p h (reg_rdata (if late then hw_step h None else h) (uapi_reg r)).
Proof using Type.
  intros Hp Hv. eexists _, _. eapply exec_replay_run; [apply Hp; by eexists|]. apply replay_rd.
Qed.

(** In a machine at rest the counters of busy and stalled clocks stand still. *)
Lemma counters_read ws p n b h :
  quiet ws h -> metered p n b h ->
  reads_as (npu_perf_read_cycles dev) h (u32 (cnt_cycles p + Z.of_nat (n + if late then 1 else 0))) /\
  reads_as (npu_perf_read_active dev) h (u32 (cnt_active p + Z.of_nat b)) /\ reads_as (npu_perf_read_stall dev) h (cnt_stall p).
Proof using never_stalls.
  intros Hq Hm. assert (Hl : metered p (n + if late then 1 else 0) b (if late then hw_step h None else h)).
  { destruct late; [|by rewrite Nat.add_0_r]. pose proof (metered_step p n b h None eq_refl Hm) as Hs.
    by rewrite (proj1 (idle_view _ (proj2 (proj2 (proj2 (proj2 Hq)))))), Nat.add_0_r, Nat.add_1_r in *. }
  destruct Hl as (_ & Hf & Hc). unfold counts in Hc.
  assert (Hr : forall r v q, loads_one base q r id -> reg_rdata (if late then hw_step h None else h) (uapi_reg r) = v -> fits 32 v -> reads_as q h v)
    by (intros r v q Hq1 <- Hv; by apply counter_read).
  destruct (register_operations base) as (_ & _ & _ & _ & _ & _ & H1 & H2 & H3).
  split; [|split].
  - apply (Hr _ _ _ H1); [|by apply fits_wrap]. unfold reg_rdata. by rewrite reg_at_uapi, Hc.
  - apply (Hr _ _ _ H2); [|by apply fits_wrap]. unfold reg_rdata. by rewrite reg_at_uapi, Hc.
  - apply (Hr _ _ _ H3); [unfold reg_rdata; by rewrite reg_at_uapi, Hc|]. rewrite Hc in Hf. apply Hf.
Qed.
End perf.

(** ** On the six backends

    An activation read is granted in the clock of its request, so nothing ever
    counts as a stall. *)
Lemma core_never_stalls (e : npu_core) : be_stall e = false.
Proof.
  cbn [be_stall npu_core_core]. unfold core_stall. cbn [be_act_rd rd_gnt].
  destruct (be_act_rd_req _), (core_busy_any e); done.
Qed.

(** PERF_STALL reads zero, whatever the host does. *)
Lemma stall_stays_zero (h : chip) bs : cnt_stall (h_perf h) = 0 -> cnt_stall (h_perf (fold_left hw_step bs h)) = 0.
Proof.
  revert h. induction bs as [|b bs IH]; intros h Hs; [done|]. cbn [fold_left]. apply IH.
  unfold hw_step, hw_clock, perf_step, counter. cbn [h_perf cnt_stall]. rewrite core_never_stalls, Hs. by destruct (soft_reset h).
Qed.

Section profile.
Context (base : Z) (gap : nat) (late : bool).

#[local] Instance profile_env : Env mmio chip := hw_env base gap late.

Abbreviation dev := (Some (mk_dev (Some base))).

(** C36. What the library profiles. A command that its backend ends, built and
    submitted on an idle machine that is not in reset: whenever it is complete,
    [npu_perf_read_active] returns the count from before and one more than the
    cycles of the backend, modulo [2^32]; [npu_perf_read_cycles] the count from
    before and the clocks of the submission and since; [npu_perf_read_stall] the
    count from before, which never changes on this hardware. *)
Theorem library_profiles w0 (h : chip) d0 p s (k : slot_cmd s) :
  length w0 = 16%nat -> quiet w0 h -> params_wf p -> soft_reset h = false -> perf_wf (h_perf h) ->
  (forall c, npu_dispatch c = requested p -> owner c = s /\ cmd_for s true c = Some k) -> bk_runnable k ->
  exists d tr h1,
    build_cmd (Some d0) p = (0, Some d) /\
    run (npu_submit dev (Some d)) h = (tr, Ok 0, ticks gap h1) /\
    forall j, (38 + bk_cycles k <= j)%nat ->
      let since := (16 * S gap + 1 + j + if late then 1 else 0)%nat in
      reads_as base gap late (npu_perf_read_active dev) (ticks j h1) (u32 (cnt_active (h_perf h) + Z.of_nat (S (bk_cycles k)))) /\
      reads_as base gap late (npu_perf_read_cycles dev) (ticks j h1) (u32 (cnt_cycles (h_perf h) + Z.of_nat since)) /\
      reads_as base gap late (npu_perf_read_stall dev) (ticks j h1) (cnt_stall (h_perf h)).
Proof using Type.
  intros Hw0 Hq Hwf Hr Hf Hown Hrun. pose proof (decode_layout p Hwf) as Hdec. apply fmap_Some in Hdec as (c & Hdec & Hreq).
  set (d := mk_desc (desc_layout p)).
  assert (Hd : desc_wf d) by (split; [cbn; by rewrite length_desc_layout|by apply (desc_layout_fits p)]).
  destruct (Hown c (eq_sym Hreq)) as [Ho Hk].
  assert (Hrun' : runnable c) by (cbn; unfold core_runnable; subst s; by rewrite Hk).
  assert (Hcyc : cycles c = bk_cycles k) by (cbn; unfold core_cycles; subst s; by rewrite Hk).
  destruct (command_metered base gap late core_never_stalls w0 h d c Hw0 Hq Hd Hdec Hrun' Hr Hf) as (tr & h1 & Hsub & Hend).
  exists d, tr, h1. split; [apply (build_cmd_layout d0 p)|]. split; [done|]. rewrite Hcyc in Hend. intros j Hj since.
  destruct (Hend j Hj) as [Hqj Hm]. destruct (counters_read base gap late core_never_stalls _ _ _ _ _ Hqj Hm) as (H1 & H2 & H3). done.
Qed.
End profile.

(** ** Witness: a vector of two elements is busy for eight clocks *)

Theorem library_profiles_witness :
  exists h1 : chip, reads_as 0x40000000 3 true (npu_perf_read_active (Some (mk_dev (Some 0x40000000)))) (ticks 45 h1) 8.
Proof.
  destruct (library_profiles 0x40000000 3 true (replicate 16 0) (ex_machine (mk_buffers (mk_bank ∅ 0 false) (mk_bank ∅ 0 false) (mk_bank ∅ 0 false)))
    (mk_desc []) (PVec (mk_vec 0 2048 0 2 0 0 0)) Vec (vec_requested (mk_vec 0 2048 0 2 0 0 0))) as (d & tr & h1 & _ & _ & Hk);
    [done|by apply ex_quiet|by apply (bool_decide_unpack _); vm_compute|done|by split_and!|intros c; apply vec_owner|done|].
  exists h1. exact (proj1 (Hk 45%nat (le_n _))).
Defined.
