(* ===== verification/HwPool.v ===== *)
(** * Pooling commands on the whole hardware

    The shell of [Hw] around the core of [NpuCore]: a pooling command submitted
    by the library, from its parameters to the bytes in the buffers. *)

From stdpp Require Import gmap.
From S2P Require Import Prelude Regs Command Decode Prog Runtime CArith Golden GoldenRows Fifo ExtMem Mem Dma.
From S2P Require Import BackendMem Backend PoolBackend PoolData Hw HwPhases HwSubmit HwDma NpuCore HwBackend.

Open Scope Z_scope.

(** The command of well-typed parameters, its output sizes given or derived. *)
Definition pool_requested (p : npu_pool_params) : pool_cmd_t :=
  mk_pool_cmd (pl_in_addr p) (pl_out_addr p) (pl_in_h p) (pl_in_w p) (pl_in_c p) (pl_pool_r p) (pl_pool_s p)
    (pl_stride_h p) (pl_stride_w p) (pl_pad_h p) (pl_pad_w p)
    (derive_out_dim (pl_in_h p) (pl_pad_h p) (pl_pool_r p) (pl_stride_h p) (pl_out_h p))
    (derive_out_dim (pl_in_w p) (pl_pad_w p) (pl_pool_s p) (pl_stride_w p) (pl_out_w p))
    (wrap 1 (pl_pool_mode p)).

(** Nothing is empty. *)
Lemma pool_requested_ok p :
  pool_wf p -> 1 <= pl_in_c p -> 1 <= pl_pool_r p -> 1 <= pl_pool_s p ->
  p_out_h (pool_requested p) <> 0 -> p_out_w (pool_requested p) <> 0 -> pool_cmd_ok (pool_requested p).
Proof using Type.
  intros [H16 _] Hc Hr Hs. rewrite !Forall_cons_iff in H16.
  destruct H16 as (Hia & Hoa & Hih & Hiw & Hic & Hpr & Hps & Hsh & Hsw & Hph & Hpw & Hoh & How & _).
  pose proof (derive_out_dim_fits (pl_in_h p) (pl_pad_h p) (pl_pool_r p) (pl_stride_h p) _ Hoh) as Hh.
  pose proof (derive_out_dim_fits (pl_in_w p) (pl_pad_w p) (pl_pool_s p) (pl_stride_w p) _ How) as Hw.
  intros Hnh Hnw. unfold pool_cmd_ok. cbn in *. rewrite !fits16_iff in *. lia.
Qed.

Lemma pool_owner c v : npu_dispatch c = HwPool v -> owner c = Pool /\ cmd_for Pool true c = Some v.
Proof using Type. intros Hv. unfold owner, cmd_for, pool_cmd_valid. by rewrite Hv. Qed.

(** It never ends without an output. *)
Lemma pool_never (v : pool_cmd_t) (w : slot_state Pool * router * buffers) i :
  pool_empty v -> at_rest w.1 ->
  bk_done (bk_run (world_step w (Some v) no_request) (clocks i)).1.1 = false /\
  bk_busy (bk_run (world_step w (Some v) no_request) (clocks i)).1.1 = true.
Proof using Type.
  intros He [Hr _]. destruct (pool_endless v w no_request (clocks i) He Hr) as (_ & Hni & Hnd & _).
  cbn. unfold pool_done, pool_busy. by destruct (p_state _).
Qed.

(** ** The library *)

Section library.
Context (base : Z) (gap : nat) (late : bool).

#[local] Instance env : Env mmio chip := hw_env base gap late.

(** C10. From the API to the bytes, for pooling. On the whole hardware, with the
    pooling backend behind the shell, building a pooling command and submitting
    it to an idle machine computes what the reference model of the testbench
    says, maximum or average, with the output sizes given or derived. With the
    input in the activation buffer and the output apart from it, the machine is
    idle again with its interrupt pending 38 clocks and those of the backend
    after the doorbell, the output bytes are those of [ref_pool], and no other
    byte of the three buffers has changed; and so it stays. *)
Theorem library_pool_computes w0 h d0 p input :
  length w0 = 16%nat -> quiet w0 h -> pool_wf p -> pool_cmd_ok (pool_requested p) ->
  pool_operands (pool_requested p) (held h) input ->
  exists d tr h1 out,
    npu_cmd_build_pool (Some d0) (Some p) = (0, Some d) /\
    run (npu_submit (Some (mk_dev (Some base))) (Some d)) h = (tr, Ok 0, ticks gap h1) /\
    ref_pool input (pl_in_h p) (pl_in_w p) (pl_in_c p) (pl_pool_r p) (pl_pool_s p) (pl_stride_h p) (pl_stride_w p)
      (pl_pad_h p) (pl_pad_w p) (wrap 1 (pl_pool_mode p)) = Ok out /\
    forall k, (38 + pool_clocks (pool_requested p) <= k)%nat ->
      quiet (words d) (ticks k h1) /\ h_pending (ticks k h1) = true /\
      pool_results (pool_requested p) (held h) (held (ticks k h1)) out.
Proof using Type.
  intros Hw0 Hq Hwf Hok Hops.
  destruct (params_executed base gap late w0 h d0 (PPool p) Pool (pool_requested p) Hw0 Hq Hwf (fun c => pool_owner c _)
    pool_backend_effect Hok) as (d & tr & h1 & Hb & Hrun & Hend).
  destruct (pool_reference _ _ input Hok Hops) as (out & Hout & _ & _ & Hres).
  exists d, tr, h1, out. split_and!; [done..|]. intros k Hk. by destruct (Hend k Hk) as (Hqk & Hpk & ->).
Qed.

(** A pooling command without an output, for instance with stride zero and
    no output size, which [npu_cmd_build_pool] builds and [npu_submit] accepts
    with 0, hangs the hardware: from its issue on the machine is busy in every
    later clock and the interrupt is never raised. *)
Theorem library_pool_empty_hangs w0 h d0 p :
  length w0 = 16%nat -> quiet w0 h -> pool_wf p -> pool_empty (pool_requested p) ->
  exists d tr h1,
    npu_cmd_build_pool (Some d0) (Some p) = (0, Some d) /\
    run (npu_submit (Some (mk_dev (Some base))) (Some d)) h = (tr, Ok 0, ticks gap h1) /\
    forall k, (37 <= k)%nat -> core_idle (ticks k h1) = false /\ h_pending (ticks k h1) = h_pending h.
Proof using Type.
  intros Hw0 Hq Hwf He. apply (params_hang base gap late w0 h d0 (PPool p) Pool (pool_requested p)); [done..| |].
  - intros c. apply pool_owner.
  - intros w i Hr _. by apply pool_never.
Qed.
End library.

(** ** Witnesses: the input of [PoolData] in the buffers of the machine *)

(** The average of [1; 2; -3; -8], its output size derived. *)
Definition ex_pool : npu_pool_params := mk_pool 0 100 2 2 1 2 2 1 1 0 0 0 0 1.

Theorem library_pool_computes_witness :
  exists h1 out, ref_pool [1; 2; -3; -8] 2 2 1 2 2 1 1 0 0 1 = Ok out /\
    quiet (desc_layout (PPool ex_pool)) (ticks 84 h1) /\
    cell (act_mem (contents (u_bufs (h_mem (ticks 84 h1))))) 100 = u8 (at_ out 0).
Proof.
  destruct (library_pool_computes 0x40000000 3 true (replicate 16 0) (ex_machine ex_pool_mem)
    (mk_desc []) ex_pool [1; 2; -3; -8]) as (d & tr & h1 & out & Hb & _ & Hout & Hk);
    [done|by apply ex_quiet|by apply (bool_decide_unpack _); vm_compute|by apply ex_pool_ok|by apply ex_pool_operands|].
  exists h1, out. split; [exact Hout|]. destruct (Hk 84%nat (le_n _)) as (Hq & _ & Hc & _).
  injection Hb as <-. split; [exact Hq|exact (Hc 0%nat (le_n _))].
Defined.

Theorem library_pool_empty_hangs_witness :
  exists h1 : chip, core_idle (ticks 1000 h1) = false /\ h_pending (ticks 1000 h1) = false.
Proof.
  destruct (library_pool_empty_hangs 0x40000000 3 true (replicate 16 0) (ex_machine ex_pool_mem)
    (mk_desc []) (mk_pool 0 100 2 2 1 2 2 0 1 0 0 0 0 1)) as (d & tr & h1 & _ & _ & Hk);
    [done|by apply ex_quiet|by apply (bool_decide_unpack _); vm_compute|by left|].
  exists h1. destruct (Hk 1000%nat ltac:(apply (bool_decide_unpack _); by vm_compute)) as (Hi & Hp).
  split; [exact Hi|exact Hp].
Defined.
