(* ===== verification/HwRows.v ===== *)
(** * Softmax and layer normalisation commands on the whole hardware

    The shell of [Hw] around the core of [NpuCore]: a softmax or a layer
    normalisation command submitted by the library, from its parameters to the
    bytes in the buffers. *)

From stdpp Require Import gmap.
From S2P Require Import Prelude Regs Command Decode Prog Runtime CArith Golden GoldenRows Fifo ExtMem Mem Dma BackendMem Backend.
From S2P Require Import RowBlocks SoftmaxBackend SoftmaxData LnormBackend LnormData Hw HwPhases HwSubmit HwDma NpuCore HwBackend.

Open Scope Z_scope.

(** ** The commands *)

Definition softmax_requested (p : npu_softmax_params) : softmax_cmd_t :=
  mk_softmax_cmd (sm_in_addr p) (sm_out_addr p) (sm_num_rows p) (sm_row_len p).

Definition lnorm_requested (p : npu_lnorm_params) : lnorm_cmd_t :=
  mk_lnorm_cmd (ln_in_addr p) (ln_out_addr p) (ln_num_rows p) (ln_row_len p) (wrap 5 (ln_norm_shift p)).

Lemma softmax_requested_ok p :
  softmax_wf p -> 1 <= sm_num_rows p -> 1 <= sm_row_len p -> softmax_cmd_ok (softmax_requested p).
Proof using Type.
  unfold softmax_wf. rewrite !Forall_cons_iff. intros (Hi & Ho & HM & HN & _) ? ?. split; [done|].
  rewrite fits16_iff in HM, HN. cbn. lia.
Qed.

Lemma lnorm_requested_ok p :
  lnorm_wf p -> 1 <= ln_num_rows p -> 1 <= ln_row_len p -> lnorm_cmd_ok (lnorm_requested p).
Proof using Type.
  intros [H _]. rewrite !Forall_cons_iff in H. destruct H as (Hi & Ho & HM & HN & _). intros. split; [done|].
  rewrite fits16_iff in HM, HN. pose proof (fits_wrap 5 (ln_norm_shift p) ltac:(done)) as Hs. unfold fits in Hs. cbn in *. lia.
Qed.

Lemma softmax_owner c v : npu_dispatch c = HwSoftmax v -> owner c = Softmax /\ cmd_for Softmax true c = Some v.
Proof using Type. intros Hv. unfold owner, cmd_for, softmax_cmd_valid. by rewrite Hv. Qed.

Lemma lnorm_owner c v : npu_dispatch c = HwLnorm v -> owner c = Lnorm /\ cmd_for Lnorm true c = Some v.
Proof using Type. intros Hv. unfold owner, cmd_for, lnorm_cmd_valid. by rewrite Hv. Qed.

(** What [lnorm_port] keeps is what the dispatcher drives from the scheduler's
    register, in the clock in which [lnorm_ctrl] reads its addresses there. *)
Lemma lnorm_bus_held (h : chip) b rd :
  ln_state (u_lnorm (u_ln (h_backend (hw_clock h b rd)))) = LN_LOAD_CFG ->
  port_cmd (u_ln (h_backend (hw_clock h b rd))) = conv_to_lnorm_cmd (s_cmd (h_sched (hw_clock h b rd))).
Proof using Type.
  assert (Hs : dispatch_valid (h_sched h) = true -> s_cmd (h_sched (hw_clock h b rd)) = s_cmd (h_sched h))
    by (cbn -[sched_step core_step]; unfold dispatch_valid, sched_step; by destruct (s_state (h_sched h))).
  unfold hw_clock at 1 2. cbn [h_backend be_step npu_core_core core_step u_ln]. unfold port_step. cbn [bk_step lnorm_backend lnorm_port_step u_lnorm port_cmd].
  unfold lnorm_cmd_valid. destruct (dispatch_valid (h_sched h)); [specialize (Hs eq_refl); rewrite Hs|].
  - assert (Hd : forall l, npu_dispatch (s_cmd (h_sched h)) = HwLnorm l -> l = conv_to_lnorm_cmd (s_cmd (h_sched h)))
      by (intros l; unfold npu_dispatch; repeat case_match; congruence).
    unfold lnorm_bus, lnorm_cmd_ready. cbn [ln_state lnorm_step]. unfold lnorm_next.
    destruct (npu_dispatch _) eqn:Hn; destruct (ln_state (u_lnorm (u_ln (h_backend h)))); cbn; repeat case_match; try done.
    intros _. by apply Hd.
  - cbn [ln_state lnorm_step]. unfold lnorm_next. repeat case_match; done.
Qed.

(** ** Commands that never end *)

Lemma softmax_never (v : softmax_cmd_t) (w : slot_state Softmax * router * buffers) i :
  softmax_empty v -> at_rest w.1 ->
  bk_done (bk_run (world_step w (Some v) no_request) (clocks i)).1.1 = false /\
  bk_busy (bk_run (world_step w (Some v) no_request) (clocks i)).1.1 = true.
Proof using Type.
  intros He [Hr _]. destruct (softmax_endless v w no_request (clocks i) He Hr) as (_ & Hni & Hnd & _).
  cbn. unfold softmax_done, softmax_busy. by destruct (sm_state _).
Qed.

Lemma lnorm_never (v : lnorm_cmd_t) (w : slot_state Lnorm * router * buffers) i :
  lnorm_empty v -> at_rest w.1 ->
  bk_done (bk_run (world_step w (Some v) no_request) (clocks i)).1.1 = false /\
  bk_busy (bk_run (world_step w (Some v) no_request) (clocks i)).1.1 = true.
Proof using Type.
  intros He [Hr _]. destruct (lnorm_endless v w no_request (clocks i) He Hr) as (_ & Hni & Hnd & _).
  cbn. unfold lnorm_done, lnorm_busy. by destruct (ln_state _).
Qed.

(** ** The library *)

Section library.
Context (base : Z) (gap : nat) (late : bool).

#[local] Instance env : Env mmio chip := hw_env base gap late.

(** C7. From the API to the bytes, for softmax. On the whole hardware,
    building a softmax command and submitting it to an idle machine computes
    what the reference model of the testbench says. With the rows in the
    activation buffer and no output byte that is a later input byte or another
    output byte, the machine is idle again with its interrupt pending 39 clocks,
    three for each row and 29 for each element after the doorbell, the output
    bytes are those of [ref_softmax], and no other byte of the three buffers has
    changed; and so it stays. *)
Theorem library_softmax_computes w0 h d0 p input :
  length w0 = 16%nat -> quiet w0 h -> softmax_wf p -> 1 <= sm_num_rows p -> 1 <= sm_row_len p ->
  rows_operands (sm_in_addr p) (sm_out_addr p) (sm_num_rows p) (sm_row_len p) (held h) input ->
  exists d tr h1 out,
    npu_cmd_build_softmax (Some d0) (Some p) = (0, Some d) /\
    run (npu_submit (Some (mk_dev (Some base))) (Some d)) h = (tr, Ok 0, ticks gap h1) /\
    ref_softmax input (sm_num_rows p) (sm_row_len p) = Ok out /\
    forall k, (38 + softmax_clocks (softmax_requested p) <= k)%nat ->
      quiet (words d) (ticks k h1) /\ h_pending (ticks k h1) = true /\
      rows_results (sm_out_addr p) (held h) (held (ticks k h1)) out.
Proof using Type.
  intros Hw0 Hq Hwf HM HN Hops. pose proof (softmax_requested_ok p Hwf HM HN) as Hok.
  destruct (params_executed base gap late w0 h d0 (PSoftmax p) Softmax (softmax_requested p) Hw0 Hq Hwf (fun c => softmax_owner c _)
    softmax_backend_effect Hok) as (d & tr & h1 & Hb & Hrun & Hend).
  destruct (softmax_reference (softmax_requested p) _ input Hok Hops) as (out & Hout & Hres & _).
  exists d, tr, h1, out. split_and!; [done..|]. intros k Hk. by destruct (Hend k Hk) as (Hqk & Hpk & ->).
Qed.

(** C8. From the API to the bytes, for layer normalisation. On the whole
    hardware, building a layer normalisation command and submitting it to an
    idle machine computes what the reference model of the testbench says, with
    the five bits of the shift that the command keeps. With the rows in the
    activation buffer and no output byte that is a later input byte or another
    output byte, the machine is idle again with its interrupt pending 39 clocks,
    80 for each row and 39 for each element after the doorbell, the output
    bytes are those of [ref_lnorm], and no other byte of the three buffers has
    changed; and so it stays. *)
Theorem library_lnorm_computes w0 h d0 p input :
  length w0 = 16%nat -> quiet w0 h -> lnorm_wf p -> 1 <= ln_num_rows p -> 1 <= ln_row_len p ->
  rows_operands (ln_in_addr p) (ln_out_addr p) (ln_num_rows p) (ln_row_len p) (held h) input ->
  exists d tr h1 out,
    npu_cmd_build_lnorm (Some d0) (Some p) = (0, Some d) /\
    run (npu_submit (Some (mk_dev (Some base))) (Some d)) h = (tr, Ok 0, ticks gap h1) /\
    ref_lnorm input (ln_num_rows p) (ln_row_len p) (wrap 5 (ln_norm_shift p)) = Ok out /\
    forall k, (38 + lnorm_clocks (lnorm_requested p) <= k)%nat ->
      quiet (words d) (ticks k h1) /\ h_pending (ticks k h1) = true /\
      rows_results (ln_out_addr p) (held h) (held (ticks k h1)) out.
Proof using Type.
  intros Hw0 Hq Hwf HM HN Hops. pose proof (lnorm_requested_ok p Hwf HM HN) as Hok.
  destruct (params_executed base gap late w0 h d0 (PLnorm p) Lnorm (lnorm_requested p) Hw0 Hq Hwf (fun c => lnorm_owner c _)
    lnorm_backend_effect Hok) as (d & tr & h1 & Hb & Hrun & Hend).
  destruct (lnorm_reference (lnorm_requested p) _ input Hok Hops) as (out & Hout & Hres & _).
  exists d, tr, h1, out. split_and!; [done..|]. intros k Hk. by destruct (Hend k Hk) as (Hqk & Hpk & ->).
Qed.

(** A softmax or a layer normalisation of no rows or of empty rows, which the
    builders build and [npu_submit] accepts with 0, hangs the hardware. *)
Theorem library_softmax_empty_hangs w0 h d0 p :
  length w0 = 16%nat -> quiet w0 h -> softmax_wf p -> sm_num_rows p = 0 \/ sm_row_len p = 0 ->
  exists d tr h1,
    npu_cmd_build_softmax (Some d0) (Some p) = (0, Some d) /\
    run (npu_submit (Some (mk_dev (Some base))) (Some d)) h = (tr, Ok 0, ticks gap h1) /\
    forall k, (37 <= k)%nat -> core_idle (ticks k h1) = false /\ h_pending (ticks k h1) = h_pending h.
Proof using Type.
  intros Hw0 Hq Hwf He. apply (params_hang base gap late w0 h d0 (PSoftmax p) Softmax (softmax_requested p)); [done..| |].
  - intros c. apply softmax_owner.
  - intros w i Hr _. by apply softmax_never.
Qed.

Theorem library_lnorm_empty_hangs w0 h d0 p :
  length w0 = 16%nat -> quiet w0 h -> lnorm_wf p -> ln_num_rows p = 0 \/ ln_row_len p = 0 ->
  exists d tr h1,
    npu_cmd_build_lnorm (Some d0) (Some p) = (0, Some d) /\
    run (npu_submit (Some (mk_dev (Some base))) (Some d)) h = (tr, Ok 0, ticks gap h1) /\
    forall k, (37 <= k)%nat -> core_idle (ticks k h1) = false /\ h_pending (ticks k h1) = h_pending h.
Proof using Type.
  intros Hw0 Hq Hwf He. apply (params_hang base gap late w0 h d0 (PLnorm p) Lnorm (lnorm_requested p)); [done..| |].
  - intros c. apply lnorm_owner.
  - intros w i Hr _. by apply lnorm_never.
Qed.
End library.

(** ** Witnesses: the rows of [SoftmaxData] and [LnormData], in place *)

Theorem library_softmax_computes_witness :
  exists h1 out, ref_softmax [1; 2; 3; 100] 1 4 = Ok out /\
    quiet (desc_layout (PSoftmax (mk_softmax 0 0 1 4))) (ticks 158 h1) /\
    rows_results 0 (contents ex_softmax_mem) (held (ticks 158 h1)) out.
Proof.
  destruct (library_softmax_computes 0x40000000 3 true (replicate 16 0) (ex_machine ex_softmax_mem)
    (mk_desc []) (mk_softmax 0 0 1 4) [1; 2; 3; 100]) as (d & tr & h1 & out & Hb & _ & Hout & Hk);
    [done|by apply ex_quiet|by apply (bool_decide_unpack _); vm_compute|done|done|by apply ex_softmax_operands|].
  exists h1, out. split; [exact Hout|]. destruct (Hk 158%nat (le_n _)) as (Hq & _ & Hr).
  injection Hb as <-. split; [exact Hq|exact Hr].
Defined.

Theorem library_lnorm_computes_witness :
  exists h1 out, ref_lnorm [1; 2; 3; 10] 1 4 4 = Ok out /\
    quiet (desc_layout (PLnorm (mk_lnorm 0 0 1 4 4))) (ticks 275 h1) /\
    rows_results 0 (contents ex_lnorm_mem) (held (ticks 275 h1)) out.
Proof.
  destruct (library_lnorm_computes 0x40000000 3 true (replicate 16 0) (ex_machine ex_lnorm_mem)
    (mk_desc []) (mk_lnorm 0 0 1 4 4) [1; 2; 3; 10]) as (d & tr & h1 & out & Hb & _ & Hout & Hk);
    [done|by apply ex_quiet|by apply (bool_decide_unpack _); vm_compute|done|done|by apply ex_lnorm_operands|].
  exists h1, out. split; [exact Hout|]. destruct (Hk 275%nat (le_n _)) as (Hq & _ & Hr).
  injection Hb as <-. split; [exact Hq|exact Hr].
Defined.

Theorem library_softmax_empty_hangs_witness :
  exists h1 : chip, core_idle (ticks 1000 h1) = false /\ h_pending (ticks 1000 h1) = false.
Proof.
  destruct (library_softmax_empty_hangs 0x40000000 3 true (replicate 16 0) (ex_machine ex_softmax_mem)
    (mk_desc []) (mk_softmax 0 0 0 4)) as (d & tr & h1 & _ & _ & Hk);
    [done|by apply ex_quiet|by apply (bool_decide_unpack _); vm_compute|by left|].
  exists h1. destruct (Hk 1000%nat ltac:(apply (bool_decide_unpack _); by vm_compute)) as (Hi & Hp).
  split; [exact Hi|exact Hp].
Defined.
