(* ===== verification/HwMac.v ===== *)
(** * Convolutions and matrix products on the whole hardware

    The shell of [Hw] around the core of [NpuCore]: a command of one of the two
    matrix backends submitted by the library, from its parameters to the bytes in
    the buffers. These backends are [done] before they have stored everything;
    the machine that has taken the [done] for the end is followed on until they
    are at rest. *)

From stdpp Require Import gmap.
From S2P Require Import Prelude Regs Command Decode Prog Runtime CArith Golden GoldenRows Fifo ExtMem Mem Dma BackendMem Backend.
From S2P Require Import ConvBlocks MacPath MacFront GemmBackend GemmData ConvBackend ConvData Hw HwPhases HwSubmit HwDma NpuCore HwBackend.

Open Scope Z_scope.

(** ** The commands *)

Definition gemm_requested (p : npu_gemm_params) : gemm_cmd_t :=
  mk_gemm_cmd (gm_a_addr p) (gm_c_addr p) (gm_b_addr p) (gm_bias_addr p) (gm_M p) (gm_N p) (gm_K p)
    (wrap 5 (gm_quant_shift p)) (wrap 2 (gm_act_mode p)).

Definition conv_requested (p : npu_conv_params) : conv_cmd_t :=
  mk_conv_cmd (opcode_val LGNPU_OP_CONV)
    (cv_act_in_addr p) (cv_act_out_addr p) (cv_weight_addr p) (cv_bias_addr p)
    (cv_in_h p) (cv_in_w p) (cv_in_c p) (cv_out_k p) (cv_filt_r p) (cv_filt_s p)
    (cv_stride_h p) (cv_stride_w p) (cv_pad_h p) (cv_pad_w p)
    (derive_out_dim (cv_in_h p) (cv_pad_h p) (cv_filt_r p) (cv_stride_h p) (cv_out_h p))
    (derive_out_dim (cv_in_w p) (cv_pad_w p) (cv_filt_s p) (cv_stride_w p) (cv_out_w p))
    (wrap 5 (cv_quant_shift p)) (wrap 2 (cv_act_mode p)).

Lemma gemm_owner c v : npu_dispatch c = HwGemm v -> owner c = Gemm /\ cmd_for Gemm true c = Some v.
Proof. intros Hv. unfold owner, cmd_for, gemm_cmd_valid. by rewrite Hv. Qed.

Lemma conv_owner c v : npu_dispatch c = HwConv v -> owner c = Conv /\ cmd_for Conv true c = Some v.
Proof. intros Hv. unfold owner, cmd_for, conv_cmd_valid. by rewrite Hv. Qed.

Lemma clocks_undisturbed {K} T : undisturbed (clocks (K := K) T).
Proof. by apply Forall_replicate. Qed.

(** ** From parameters to the end of a command

    What a backend must show that is busy up to clock [D], in which it is [done],
    and at rest in clock [N], from the buffers [m]; and what comes of it. *)

Section passing.
Context (s : slot) (k : slot_cmd s) (m : sram) (D N : nat).

Abbreviation world := (slot_state s * router * buffers)%type.
Abbreviation run_of w i := (bk_run (world_step (w : world) (Some k) no_request) (clocks i)).

Definition passes : Prop :=
  (D < N)%nat /\
  (forall w i, at_rest w.1 -> contents w.2 = m -> (i <= N)%nat -> bk_done (run_of w i).1.1 = (i =? D)%nat) /\
  (forall w, at_rest w.1 -> contents w.2 = m -> bk_rest (run_of w N).1.1 /\ bias_idle (run_of w N).1.2) /\
  (forall w i, at_rest w.1 -> contents w.2 = m -> (i <= D)%nat -> bk_busy (run_of w i).1.1 = true).

Context (base : Z) (gap : nat) (late : bool).

#[local] Instance passing_env : Env mmio chip := hw_env base gap late.

(** From the issue of the command. *)
Lemma issued_pass ws c (h0 : chip) :
  issuing ws c h0 -> owner c = s -> cmd_for s true c = Some k -> held h0 = m -> passes ->
  let w := slot_of s h0 in
  at_rest w.1 /\ contents w.2 = m /\
  (forall i, (i <= N)%nat ->
     held (ticks (S i) h0) = contents (run_of w i).2 /\
     core_idle (ticks (S i) h0) = negb (bk_busy (run_of w i).1.1) /\
     h_pending (ticks (S i) h0) = h_pending h0 || (D <? i)%nat) /\
  (forall j, (S D < j)%nat -> h_pending (ticks j h0) = true) /\
  forall j, (S N <= j)%nat ->
    quiet ws (ticks j h0) /\ h_pending (ticks j h0) = true /\ held (ticks j h0) = contents (run_of w N).2.
Proof using Type.
  intros Hi Ho Hk Hm (HDN & Hd & Hend & _) w.
  destruct (slot_issued ws c s k m Ho Hk _ Hi Hm) as (_ & _ & Hr & Hmw). fold w in Hr, Hmw.
  destruct (slot_passes ws c s k m Ho Hk _ D N Hi Hm HDN Hd Hend) as [Hrun Hquiet]. fold w in Hrun.
  assert (Hview : forall i, (i <= N)%nat -> held (ticks (S i) h0) = contents (run_of w i).2).
  { intros i Hle. destruct (Hrun i Hle) as (Hs & _). by rewrite <- Hs. }
  assert (HpN : h_pending (ticks (S N) h0) = true).
  { destruct (Hrun N (le_n _)) as (_ & _ & ->). rewrite (proj2 (Nat.ltb_lt D N)) by done. apply orb_true_r. }
  assert (Hlater : forall j, (S N <= j)%nat ->
    quiet ws (ticks j h0) /\ h_pending (ticks j h0) = true /\ held (ticks j h0) = contents (run_of w N).2).
  { intros j Hj. destruct (quiet_stays ws 0 (S N) j h0 (conj Hquiet HpN) Hj) as (Hqj & Hpj & ->). split_and!; [done..|by apply Hview]. }
  split_and!; [done..| | |done].
  - intros i Hle. destruct (Hrun i Hle) as (_ & Hci & Hpi). split_and!; [by apply Hview|done|done].
  - intros j Hj. destruct (decide (S N <= j)%nat) as [Hle|Hgt]; [by apply Hlater|].
    replace j with (S (j - 1)) by lia. destruct (Hrun (j - 1)%nat ltac:(lia)) as (_ & _ & ->).
    rewrite (proj2 (Nat.ltb_lt _ _)) by lia. apply orb_true_r.
Qed.

(** The command that is issued 36 clocks after the doorbell, and from there. *)
Lemma params_pass w0 (h : chip) d0 p :
  length w0 = 16%nat -> quiet w0 h -> params_wf p ->
  (forall c, npu_dispatch c = requested p -> owner c = s /\ cmd_for s true c = Some k) ->
  held h = m -> passes ->
  exists d tr h1 w,
    build_cmd (Some d0) p = (0, Some d) /\
    run (npu_submit (Some (mk_dev (Some base))) (Some d)) h = (tr, Ok 0, ticks gap h1) /\
    at_rest w.1 /\ contents w.2 = m /\
    (forall i, (i <= N)%nat ->
       held (ticks (37 + i) h1) = contents (run_of w i).2 /\
       core_idle (ticks (37 + i) h1) = negb (bk_busy (run_of w i).1.1) /\
       h_pending (ticks (37 + i) h1) = h_pending h || (D <? i)%nat) /\
    (forall j, (38 + D <= j)%nat -> h_pending (ticks j h1) = true) /\
    forall j, (37 + N <= j)%nat ->
      quiet (words d) (ticks j h1) /\ h_pending (ticks j h1) = true /\ held (ticks j h1) = contents (run_of w N).2.
Proof.
  intros Hw0 Hq Hwf Hown Hm0 Hpass.
  destruct (params_submitted base gap late w0 h d0 p Hw0 Hq Hwf) as (d & tr & h1 & c & Hb & Hsub & Hc & Hi & Hm & Hp).
  rewrite Hm0 in Hm. destruct (Hown c Hc) as [Ho Hk].
  destruct (issued_pass (words d) c _ Hi Ho Hk Hm Hpass) as (Hr & Hmw & Hrun & Hpend & Hend).
  assert (Hp36 : h_pending (ticks 36 h1) = h_pending h).
  { rewrite <- Hp. replace 37%nat with (36 + 1)%nat by lia. rewrite tick_add. symmetry.
    exact (pending_step _ None (proj2 (issuing_idle _ _ _ Hi))). }
  assert (Hadd : forall j, (36 <= j)%nat -> ticks j h1 = ticks (j - 36) (ticks 36 h1)) by (intros j Hj; rewrite <- tick_add; f_equal; lia).
  exists d, tr, h1, (slot_of s (ticks 36 h1)). split_and!; [done..| | |].
  - intros i Hle. rewrite (Hadd (37 + i)%nat) by lia. replace (37 + i - 36)%nat with (S i) by lia. rewrite <- Hp36. by apply Hrun.
  - intros j Hj. rewrite (Hadd j) by lia. apply Hpend. lia.
  - intros j Hj. rewrite (Hadd j) by lia. apply Hend. lia.
Qed.
End passing.

(** ** The two backends pass *)

Section front.
Context {G A I C : Type} {F : MacFront G A I C} {c : C} {n : nat} {its : nat -> iteration} {L : FrontLaws F c n its}.
Context (m : sram).
Hypothesis Hfirst : it_clr (its 0%nat) = true.
Hypothesis Hsafe : safe n its.

Abbreviation after w i := (bk_run (world_step w (Some c) no_request) (clocks i)).

(** [done] comes once, rest comes for good. *)
Lemma front_passes :
  exists D, (last_issue (n := n) + lead (L := L) <= D <= 5 * n + 7 + lead (L := L))%nat /\
    (forall (w : mac_backend G A I * router * buffers) i, mac_at_rest w.1 -> contents w.2 = m -> mac_done (after w i).1.1 = (i =? D)%nat) /\
    (forall (w : mac_backend G A I * router * buffers) i, mac_at_rest w.1 -> contents w.2 = m -> (5 * n + 9 + lead (L := L) <= i)%nat ->
       mac_rest (after w i).1.1 /\ bias_idle (after w i).1.2) /\
    (forall (w : mac_backend G A I * router * buffers) i, mac_at_rest w.1 -> contents w.2 = m -> (i <= D)%nat -> mac_busy (after w i).1.1 = true).
Proof using All.
  destruct (done_once (L := L) m) as (D & HD & Hdone & Hbusy). exists (D + lead (L := L))%nat. split_and!; [lia|lia|..].
  - intros w i Hr Hm. destruct (mac_signals (L := L) m Hfirst Hsafe w no_request (clocks i) Hr Hm eq_refl (clocks_undisturbed i)) as [-> _].
    rewrite clocks_length, Hdone. apply eq_true_iff_eq. rewrite andb_true_iff, Nat.leb_le, !Nat.eqb_eq. unfold last_issue in *. lia.
  - intros w i Hr Hm Hi.
    destruct (mac_settles (L := L) m Hfirst Hsafe w no_request (clocks i) Hr Hm eq_refl (clocks_undisturbed i)) as [[Hrest Hb] Hs];
      [by rewrite clocks_length|]. done.
  - intros w i Hr Hm Hi. destruct (mac_signals (L := L) m Hfirst Hsafe w no_request (clocks i) Hr Hm eq_refl (clocks_undisturbed i)) as [_ ->].
    rewrite clocks_length. specialize (Hbusy (i - lead (L := L))%nat ltac:(lia)). apply orb_true_iff. left.
    destruct (Nat.leb_spec i (last_issue (n := n) + lead (L := L))); [done|].
    rewrite (proj2 (Nat.leb_gt _ _)) in Hbusy by lia. exact Hbusy.
Qed.
End front.

Lemma gemm_passes g m :
  gemm_runs g -> gemm_apart g ->
  exists D, passes Gemm g m D (5 * iterations g + 12) /\ (D <= 5 * iterations g + 10)%nat.
Proof.
  intros Hg Hap. destruct (front_passes (L := gemm_laws g Hg) m (gemm_first g) (gemm_safe g Hg Hap)) as (D & HD & Hd & Hend & Hbusy).
  change (lead (L := gemm_laws g Hg)) with 3%nat in *. exists D. split; [|lia]. split_and!; [lia|..].
  - intros w i Hr Hm _. by apply Hd.
  - intros w Hr Hm. apply Hend; [done|done|lia].
  - exact Hbusy.
Qed.

Lemma conv_passes v m :
  conv_runs v -> conv_apart v ->
  exists D, passes Conv v m D (5 * conv_iterations v + 14) /\ (D <= 5 * conv_iterations v + 12)%nat.
Proof.
  intros Hv Hap. destruct (front_passes (L := conv_front_laws v (sized v Hv)) m (conv_first v) (conv_safe v Hv Hap)) as (D & HD & Hd & Hend & Hbusy).
  change (lead (L := conv_front_laws v (sized v Hv))) with 5%nat in *. exists D. split; [|lia]. split_and!; [lia|..].
  - intros w i Hr Hm _. by apply Hd.
  - intros w Hr Hm. apply Hend; [done|done|lia].
  - exact Hbusy.
Qed.

(** What is in the buffers then. *)
Lemma gemm_memory g m (w : slot_state Gemm * router * buffers) i :
  gemm_runs g -> gemm_apart g -> mac_at_rest w.1 -> contents w.2 = m -> (5 * iterations g + 9 <= i)%nat ->
  contents (bk_run (world_step w (Some g) no_request) (clocks i)).2 =
  stored (gemm_iter g) (g_quant_shift g) (g_act_mode g) m (iterations g).
Proof.
  intros Hg Hap Hr Hm Hi. pose (L := gemm_laws g Hg).
  etransitivity; [apply (mac_memory (L := L) m (gemm_first g) (gemm_safe g Hg Hap) w no_request (clocks i) Hr Hm eq_refl (clocks_undisturbed i))|].
  change (lead (L := L)) with 3%nat. rewrite clocks_length. apply mem_at_end. lia.
Qed.

Lemma conv_memory v m (w : slot_state Conv * router * buffers) i :
  conv_runs v -> conv_apart v -> mac_at_rest w.1 -> contents w.2 = m -> (5 * conv_iterations v + 11 <= i)%nat ->
  contents (bk_run (world_step w (Some v) no_request) (clocks i)).2 =
  stored (conv_iter v) (c_quant_shift v) (c_act_mode v) m (conv_iterations v).
Proof.
  intros Hv Hap Hr Hm Hi. pose (L := conv_front_laws v (sized v Hv)).
  etransitivity; [apply (mac_memory (L := L) m (conv_first v) (conv_safe v Hv Hap) w no_request (clocks i) Hr Hm eq_refl (clocks_undisturbed i))|].
  change (lead (L := L)) with 5%nat. rewrite clocks_length. apply mem_at_end. lia.
Qed.

(** ** The library *)

Section library.
Context (base : Z) (gap : nat) (late : bool).

#[local] Instance env : Env mmio chip := hw_env base gap late.

(** C6. From the API to the bytes, for matrix products. On the whole hardware,
    with all six backends in the core, building a matrix command and submitting
    it to an idle machine computes what the reference model of the testbench
    says. With int8 matrices and a bias in the buffers, and outputs on different
    cells that are no operands, [49 + 5 * n] clocks after the doorbell, [n] being
    the number of multiplications, the machine is idle with its interrupt
    pending, the output bytes are those of [ref_gemm] for the requested shift and
    activation, and no other byte of the three buffers has changed; and so it
    stays. *)
Theorem library_gemm_computes w0 h d0 p a b bias :
  let g := gemm_requested p in
  length w0 = 16%nat -> quiet w0 h -> gemm_wf p -> gemm_runs g -> gemm_apart g -> gemm_operands g (held h) a b bias ->
  exists d tr h1 out,
    npu_cmd_build_gemm (Some d0) (Some p) = (0, Some d) /\
    run (npu_submit (Some (mk_dev (Some base))) (Some d)) h = (tr, Ok 0, ticks gap h1) /\
    ref_gemm a b bias (gm_M p) (gm_N p) (gm_K p) (wrap 5 (gm_quant_shift p)) (wrap 2 (gm_act_mode p)) = Ok out /\
    forall k, (49 + 5 * iterations g <= k)%nat ->
      quiet (words d) (ticks k h1) /\ h_pending (ticks k h1) = true /\ gemm_results g (held h) (held (ticks k h1)) out.
Proof.
  intros g Hw0 Hq Hwf Hg Hap Hops. destruct (gemm_reference g (held h) Hg Hap a b bias Hops) as (out & Hout & Hres & _).
  destruct (gemm_passes g (held h) Hg Hap) as (D & Hpass & _).
  destruct (params_pass Gemm g (held h) D (5 * iterations g + 12) base gap late w0 h d0 (PGemm p) Hw0 Hq Hwf
    (fun c => gemm_owner c g) eq_refl Hpass) as (d & tr & h1 & w & Hb & Hrun & Hr & Hm & _ & _ & Hend).
  exists d, tr, h1, out. split_and!; [done..|]. intros k Hk. destruct (Hend k ltac:(lia)) as (Hqk & Hpk & ->).
  split_and!; [done..|]. rewrite (gemm_memory g (held h)) by (done || lia). exact Hres.
Qed.

(** C5. From the API to the bytes, for convolutions. The same for any padding,
    stride and output sizes given or derived: with an int8 input, weights and a
    bias in the buffers, and outputs on different cells that hold no input,
    [51 + 5 * n] clocks after the doorbell the machine is idle with its interrupt
    pending, the output bytes are those of [ref_conv], and no other byte of the
    three buffers has changed; and so it stays. *)
Theorem library_conv_computes w0 h d0 p act wt bias :
  let v := conv_requested p in
  length w0 = 16%nat -> quiet w0 h -> conv_wf p -> conv_runs v -> conv_apart v -> conv_operands v (held h) act wt bias ->
  exists d tr h1 out,
    npu_cmd_build_conv (Some d0) (Some p) = (0, Some d) /\
    run (npu_submit (Some (mk_dev (Some base))) (Some d)) h = (tr, Ok 0, ticks gap h1) /\
    ref_conv act wt bias (cv_in_h p) (cv_in_w p) (cv_in_c p) (cv_out_k p) (cv_filt_r p) (cv_filt_s p)
      (cv_stride_h p) (cv_stride_w p) (cv_pad_h p) (cv_pad_w p) (wrap 5 (cv_quant_shift p)) (wrap 2 (cv_act_mode p)) = Ok out /\
    forall k, (51 + 5 * conv_iterations v <= k)%nat ->
      quiet (words d) (ticks k h1) /\ h_pending (ticks k h1) = true /\ conv_results v (held h) (held (ticks k h1)) out.
Proof.
  intros v Hw0 Hq Hwf Hv Hap Hops. destruct (conv_reference v (held h) Hv act wt bias Hops Hap) as (out & Hout & Hres & _).
  destruct (conv_passes v (held h) Hv Hap) as (D & Hpass & _).
  destruct (params_pass Conv v (held h) D (5 * conv_iterations v + 14) base gap late w0 h d0 (PConv p) Hw0 Hq Hwf
    (fun c => conv_owner c v) eq_refl Hpass) as (d & tr & h1 & w & Hb & Hrun & Hr & Hm & _ & _ & Hend).
  exists d, tr, h1, out. split_and!; [done..|]. intros k Hk. destruct (Hend k ltac:(lia)) as (Hqk & Hpk & ->).
  split_and!; [done..|]. rewrite (conv_memory v (held h)) by (done || lia). exact Hres.
Qed.


(** C12. The interrupt of a convolution comes before its result. With several steps per output, or one
    step in all, the interrupt is pending from clock [40 + 5 * n] after the
    doorbell on, in that clock the status register says idle, and up to clock
    [45 + 5 * n] the last output cell holds what was there before the command. *)
Theorem library_conv_interrupts_early w0 h d0 p :
  let v := conv_requested p in
  let n := conv_iterations v in
  let last := conv_out_cell v (out_count v - 1) in
  length w0 = 16%nat -> quiet w0 h -> conv_wf p -> conv_runs v -> conv_apart v -> 2 <= inner_steps v \/ out_count v = 1 ->
  exists d tr h1,
    npu_cmd_build_conv (Some d0) (Some p) = (0, Some d) /\
    run (npu_submit (Some (mk_dev (Some base))) (Some d)) h = (tr, Ok 0, ticks gap h1) /\
    (forall k, (40 + 5 * n <= k)%nat -> h_pending (ticks k h1) = true) /\
    core_idle (ticks (40 + 5 * n) h1) = true /\
    (forall k, (37 <= k <= 45 + 5 * n)%nat -> cell (act_mem (held (ticks k h1))) last = cell (act_mem (held h)) last).
Proof.
  intros v n last Hw0 Hq Hwf Hv Hap Hmany. destruct (conv_passes v (held h) Hv Hap) as (D & Hpass & HD). fold n in Hpass, HD.
  destruct (params_pass Conv v (held h) D (5 * n + 14) base gap late w0 h d0 (PConv p) Hw0 Hq Hwf
    (fun c => conv_owner c v) eq_refl Hpass) as (d & tr & h1 & w & Hb & Hrun & Hr & Hm & Hview & Hp & _).
  assert (He := fun i => conv_done_early v (held h) w no_request (clocks i) Hv Hap Hmany Hr Hm eq_refl (clocks_undisturbed i)).
  cbv zeta in He. fold n last in He.
  assert (HDn : D = (5 * n + 2)%nat).
  { destruct Hpass as (_ & Hd & _). specialize (Hd w D Hr Hm ltac:(lia)). rewrite Nat.eqb_refl in Hd.
    destruct (He D) as (Hd' & _). rewrite clocks_length in Hd'. apply Nat.eqb_eq. etransitivity; [symmetry; exact Hd'|exact Hd]. }
  exists d, tr, h1. split_and!; [done|done|..].
  - intros k Hk. apply Hp. lia.
  - destruct (Hview (5 * n + 3)%nat ltac:(lia)) as (_ & Hci & _). replace (37 + (5 * n + 3))%nat with (40 + 5 * n)%nat in Hci by lia.
    destruct (He (5 * n + 3)%nat) as (_ & Hbusy & _). rewrite clocks_length in Hbusy. rewrite Hci. by apply negb_true_iff, Hbusy.
  - intros k Hk. destruct (Hview (k - 37)%nat ltac:(lia)) as (Hmem & _). replace (37 + (k - 37))%nat with k in Hmem by lia. rewrite Hmem.
    destruct (He (k - 37)%nat) as (_ & _ & Hlast). apply Hlast. rewrite clocks_length. lia.
Qed.
End library.

(** ** Witnesses: the operands of [GemmData] and [ConvData] *)

Definition ex_gemm : npu_gemm_params := mk_gemm 0 2048 0 100 2 2 2 1 1.
Definition ex_conv : npu_conv_params := mk_conv 0 2048 0 100 2 2 1 1 2 2 1 1 1 1 0 0 0 0.

Lemma ex_conv_requested : conv_requested ex_conv = ex_conv_cmd.
Proof. done. Qed.

Theorem library_gemm_computes_witness :
  exists h1 out, ref_gemm [1; 2; 3; -4] [5; 6; 7; 8] [1; -1] 2 2 2 1 1 = Ok out /\
    quiet (desc_layout (PGemm ex_gemm)) (ticks 89 h1) /\
    gemm_results ex_gemm_cmd (contents ex_gemm_mem) (held (ticks 89 h1)) out.
Proof.
  destruct (library_gemm_computes 0x40000000 3 true (replicate 16 0) (ex_machine ex_gemm_mem)
    (mk_desc []) ex_gemm [1; 2; 3; -4] [5; 6; 7; 8] [1; -1]) as (d & tr & h1 & out & Hb & _ & Hout & Hk);
    [done|by apply ex_quiet|by apply (bool_decide_unpack _); vm_compute|exact ex_gemm_runs|exact ex_gemm_apart|exact ex_gemm_operands|].
  exists h1, out. split; [exact Hout|]. destruct (Hk 89%nat (le_n _)) as (Hq & _ & Hr).
  injection Hb as <-. split; [exact Hq|exact Hr].
Defined.

Theorem library_conv_computes_witness :
  exists h1 out, ref_conv [1; 2; 3; 4] [1; 1; 1; 1] [] 2 2 1 1 2 2 1 1 1 1 0 0 = Ok out /\
    quiet (desc_layout (PConv ex_conv)) (ticks 231 h1) /\
    conv_results ex_conv_cmd (contents ex_conv_mem) (held (ticks 231 h1)) out.
Proof.
  destruct (library_conv_computes 0x40000000 3 true (replicate 16 0) (ex_machine ex_conv_mem)
    (mk_desc []) ex_conv [1; 2; 3; 4] [1; 1; 1; 1] []) as (d & tr & h1 & out & Hb & _ & Hout & Hk);
    [done|by apply ex_quiet|by apply (bool_decide_unpack _); vm_compute|
     rewrite ex_conv_requested; first [exact ex_conv_runs|exact ex_conv_apart|exact ex_conv_operands]..|].
  rewrite ex_conv_requested in Hk. exists h1, out. split; [exact Hout|].
  destruct (Hk 231%nat ltac:(apply (bool_decide_unpack _); by vm_compute)) as (Hq & _ & Hr).
  injection Hb as <-. split; [exact Hq|exact Hr].
Defined.


Theorem library_conv_interrupts_early_witness :
  exists h1 : chip, h_pending (ticks 220 h1) = true /\ core_idle (ticks 220 h1) = true /\
    cell (act_mem (held (ticks 225 h1))) 2056 = 77.
Proof.
  destruct (library_conv_interrupts_early 0x40000000 3 true (replicate 16 0) (ex_machine ex_conv_mem)
    (mk_desc []) ex_conv) as (d & tr & h1 & _ & _ & Hp & Hi & Hc);
    [done|by apply ex_quiet|by apply (bool_decide_unpack _); vm_compute|
     rewrite ex_conv_requested; first [exact ex_conv_runs|exact ex_conv_apart|left; by vm_compute]..|].
  exists h1. split; [exact (Hp 220%nat (le_n _))|]. split; [exact Hi|].
  exact (Hc 225%nat ltac:(apply (bool_decide_unpack _); by vm_compute)).
Defined.
