(* ===== verification/HwCommand.v ===== *)
(** * A command of any kind on the whole hardware

    What the six operators have in common: a command built and submitted by the
    library reaches its backend, and ends; what the host can see of it on the
    way. The backends that keep the contract of [Backend] and the two matrix
    backends, which are [done] before they are at rest ([HwMac.passes]), are put
    under one notion here. *)

From S2P Require Import Prelude Regs Command Decode Prog Runtime Fifo ExtMem Mem Dma BackendMem Backend MacFront.
From S2P Require Import GemmBackend GemmData ConvBackend ConvData PoolBackend SoftmaxBackend LnormBackend VecBackend.
From S2P Require Import Hw HwPhases HwSubmit HwDma NpuCore HwBackend HwVec HwPool HwRows HwMac.

Open Scope Z_scope.

(** ** Commands that end *)

(** A backend that keeps the contract passes. *)
Lemma contract_passes s (k : slot_cmd s) m : bk_runnable k -> passes s k m (bk_cycles k) (S (bk_cycles k)).
Proof.
  intros Hrun.
  assert (Hview : forall (w : slot_state s * router * buffers) i, at_rest w.1 -> (i <= bk_cycles k)%nat ->
    let w' := bk_run (world_step w (Some k) no_request) (clocks i) in
    bk_busy w'.1.1 = true /\ bk_done w'.1.1 = (i =? bk_cycles k)%nat).
  { intros w i Hr Hi. destruct (command_view k w no_request (clocks i) Hr Hrun) as [Hb Hd]; rewrite ?clocks_length; [done|].
    rewrite clocks_length in Hd. cbv zeta. split; [exact Hb|]. rewrite Hd. by destruct (Nat.eqb_spec i (bk_cycles k)); case_bool_decide. }
  assert (Hends : forall w : slot_state s * router * buffers, at_rest w.1 ->
    at_rest (bk_run (world_step w (Some k) no_request) (clocks (S (bk_cycles k)))).1).
  { intros w Hr. apply command_ends; [done|done|apply clocks_length]. }
  split_and!; [lia|..].
  - intros w i Hr _ Hi. destruct (decide (i = S (bk_cycles k))) as [->|Hne]; [|apply Hview; [done|lia]].
    destruct (Hends w Hr) as [Hrest _]. rewrite (proj2 (Nat.eqb_neq _ _)) by lia. by apply (rest_view _ Hrest).
  - intros w Hr _. destruct (Hends w Hr) as [Hrest Hb]. split; [exact Hrest|]. split; [exact Hb|].
    pose proof (command_runs k w no_request (clocks (bk_cycles k)) Hr Hrun) as Hlast. rewrite clocks_length in Hlast.
    destruct (runs_no_bias _ _ _ (Hlast (le_n _))) as [Hnb Hreq]. rewrite clocks_run. by apply router_still.
  - intros w i Hr _ Hi. by apply Hview.
Qed.

(** What a command must be for its backend to end it. *)
Definition completes (p : npu_params) : Prop :=
  match p with
  | PConv p => conv_runs (conv_requested p) /\ conv_apart (conv_requested p)
  | PGemm p => gemm_runs (gemm_requested p) /\ gemm_apart (gemm_requested p)
  | PSoftmax p => 1 <= sm_num_rows p /\ 1 <= sm_row_len p
  | PVec p => 1 <= vc_length p
  | PLnorm p => 1 <= ln_num_rows p /\ 1 <= ln_row_len p
  | PPool p => pool_cmd_ok (pool_requested p)
  end.

(** The clocks from its acceptance until its backend is at rest. *)
Definition rest_clock (p : npu_params) : nat :=
  match p with
  | PConv p => 5 * conv_iterations (conv_requested p) + 14
  | PGemm p => 5 * iterations (gemm_requested p) + 12
  | PSoftmax p => S (softmax_clocks (softmax_requested p))
  | PVec p => 3 * Z.to_nat (vc_length p) + 2
  | PLnorm p => S (lnorm_clocks (lnorm_requested p))
  | PPool p => S (pool_clocks (pool_requested p))
  end.

(** The clock of [done] is the last but for the two matrix backends. *)
Definition ends_with_done (p : npu_params) : bool := match p with PConv _ | PGemm _ => false | _ => true end.

Definition served (p : npu_params) (m : sram) (s : slot) (k : slot_cmd s) (D : nat) : Prop :=
  (forall c, npu_dispatch c = requested p -> owner c = s /\ cmd_for s true c = Some k) /\
  passes s k m D (rest_clock p) /\ (ends_with_done p = true -> rest_clock p = S D).

Lemma completes_served p m : params_wf p -> completes p -> exists s k D, served p m s k D.
Proof.
  unfold served. destruct p as [p|p|p|p|p|p]; cbn -[Nat.mul]; intros Hwf Hp.
  - destruct Hp as [Hv Hap]. destruct (conv_passes _ m Hv Hap) as (D & Hpass & _).
    exists Conv, (conv_requested p), D. split_and!; [intros c; apply conv_owner|done|done].
  - destruct Hp as [Hg Hap]. destruct (gemm_passes _ m Hg Hap) as (D & Hpass & _).
    exists Gemm, (gemm_requested p), D. split_and!; [intros c; apply gemm_owner|done|done].
  - exists Softmax, (softmax_requested p), (softmax_clocks (softmax_requested p)).
    split_and!; [intros c; apply softmax_owner|apply (contract_passes Softmax); destruct Hp; by apply softmax_requested_ok|done].
  - exists Vec, (vec_requested p), (3 * Z.to_nat (vc_length p) + 1)%nat.
    split_and!; [intros c; apply vec_owner| |lia]. replace (3 * Z.to_nat (vc_length p) + 2)%nat with (S (3 * Z.to_nat (vc_length p) + 1)) by lia.
    apply (contract_passes Vec). split; [by apply vec_requested_fits|done].
  - exists Lnorm, (lnorm_requested p), (lnorm_clocks (lnorm_requested p)).
    split_and!; [intros c; apply lnorm_owner|apply (contract_passes Lnorm); destruct Hp; by apply lnorm_requested_ok|done].
  - exists Pool, (pool_requested p), (pool_clocks (pool_requested p)).
    split_and!; [intros c; apply pool_owner|by apply (contract_passes Pool)|done].
Qed.

(** ** The library *)

Section library.
Context (base : Z) (gap : nat) (late : bool).

#[local] Instance env : Env mmio chip := hw_env base gap late.

(** C4. From the API to the backend, for all six operators. On the whole
    hardware, with all backends in the core, building a descriptor from
    well-typed parameters and submitting it to an idle machine, however fast the
    host, leaves all backends idle for 36 clocks after the doorbell and then offers
    exactly the requested command, with every field, to a core that is ready; in
    the next clock its backend has the memory ports. If the command is one that
    its backend ends ([completes]: nothing is empty, and for the matrix backends
    the outputs lie apart), the machine is idle with its interrupt pending by
    clock [37 + rest_clock p], and stays so. *)
Theorem request_reaches_backend w0 h d0 p :
  length w0 = 16%nat -> quiet w0 h -> params_wf p ->
  exists d tr h1,
    build_cmd (Some d0) p = (0, Some d) /\
    run (npu_submit (Some (mk_dev (Some base))) (Some d)) h = (tr, Ok 0, ticks gap h1) /\
    (forall k, (k <= 36)%nat -> be_idle (h_backend (ticks k h1))) /\
    let h' := ticks 36 h1 in let c := s_cmd (h_sched h') in
    dispatch_valid (h_sched h') = true /\ npu_dispatch c = requested p /\ be_ready (h_backend h') c = true /\
    be_sel_r (h_backend (ticks 37 h1)) = owner c /\
    (completes p -> forall k, (37 + rest_clock p <= k)%nat -> quiet (words d) (ticks k h1) /\ h_pending (ticks k h1) = true).
Proof using Type.
  intros Hw0 Hq Hwf.
  destruct (params_rung base gap late w0 h d0 p Hw0 Hq Hwf) as (d & tr & h1 & c & Hb & Hrun & Hreq & Hdec & Hlen & Hr & _ & Hm).
  destruct (rung_timeline _ c _ Hlen Hr Hdec) as (Hi & _ & Htl).
  pose proof (rung_memory _ _ _ Hlen Hr Hdec) as Hm36. rewrite Hm in Hm36.
  assert (Hc : s_cmd (h_sched (ticks 36 h1)) = c) by apply Hi. destruct (cmd_for_owner c) as [k Hk].
  destruct (slot_issued (words d) c (owner c) k (held h) eq_refl Hk _ Hi Hm36) as ((_ & Hsel & _) & _).
  exists d, tr, h1. cbv zeta. rewrite Hc. split_and!; [done|done|intros j Hj; by apply Htl|by eapply issuing_valid|done| | |].
  - by apply (idle_view _ (proj1 (Htl 36%nat (le_n _)))).
  - rewrite <- Hsel. by rewrite tick_S_r.
  - intros Hp j Hj. destruct (completes_served p (held h) Hwf Hp) as (s & k' & D & Hown & Hpass & _). destruct (Hown c Hreq) as [Ho Hk'].
    destruct (issued_pass s k' (held h) D (rest_clock p) (words d) c _ Hi Ho Hk' Hm36 Hpass) as (_ & _ & _ & _ & Hend).
    replace j with (36 + (j - 36))%nat by lia. rewrite tick_add. split; apply Hend; lia.
Qed.

End library.

(** ** Witnesses: the convolution of [HwMac] *)

Lemma ex_conv_completes : params_wf (PConv ex_conv) /\ completes (PConv ex_conv).
Proof.
  split; [by apply (bool_decide_unpack _); vm_compute|]. cbn [completes]. rewrite ex_conv_requested.
  split; [exact ex_conv_runs|exact ex_conv_apart].
Qed.

Theorem request_reaches_backend_witness :
  exists d (h1 : chip), build_cmd (Some (mk_desc [])) (PConv ex_conv) = (0, Some d) /\
    be_sel_r (h_backend (ticks 37 h1)) = owner (s_cmd (h_sched (ticks 36 h1))) /\
    h_pending (ticks (37 + rest_clock (PConv ex_conv)) h1) = true.
Proof.
  destruct (request_reaches_backend 0x40000000 3 true (replicate 16 0) (ex_machine ex_conv_mem) (mk_desc []) (PConv ex_conv)
    eq_refl (ex_quiet _) (proj1 ex_conv_completes)) as (d & tr & h1 & Hb & _ & _ & _ & _ & _ & Hs & Hend).
  exists d, h1. split; [exact Hb|]. split; [exact Hs|]. exact (proj2 (Hend (proj2 ex_conv_completes) _ (le_n _))).
Defined.

