(* ===== verification/HwQueue.v ===== *)
(** * A command queued behind a matrix product

    What comes of [GemmData.gemm_done_early] when the queue is used as a queue:
    the scheduler hands the next command over two clocks after [done], while the
    last output of the product is still on its way. Two runs of the machine of
    [NpuCore] with the library on its bus. *)

From stdpp Require Import gmap.
From S2P Require Import Prelude Regs Command Decode Prog Runtime CArith Golden GoldenRows Fifo ExtMem Mem Dma BackendMem Backend.
From S2P Require Import GemmBackend Hw HwPhases HwSubmit HwDma NpuCore HwBackend Perf.

Open Scope Z_scope.

(** The weights are ones, the activations 2 and 3. *)
Definition queue_mem : buffers :=
  mk_buffers (mk_bank (<[0 := 1]> (<[1 := 1]> ∅)) 0 false) (mk_bank (<[0 := 2]> (<[1 := 3]> ∅)) 0 false) (mk_bank ∅ 0 false).

(** The product of 40 elements each, of which two are not zero, into 2048. *)
Definition queue_gemm (shift : Z) : npu_params := PGemm (mk_gemm 0 2048 0 100 1 1 40 shift 0).

Definition queue_submit (p : npu_params) (h : chip) : trace mmio * res Z * chip :=
  run (H := hw_env 0x40000000 3 true) (npu_submit (Some (mk_dev (Some 0x40000000))) (Some (mk_desc (desc_layout p)))) h.

(** A machine that only counts clocks stays as it is, but for the counters. *)
Lemma ticks_settled N (h : chip) :
  unmetered (hw_step (ticks N h) None) = unmetered (ticks N h) ->
  forall k, core_idle (ticks (N + k) h) = core_idle (ticks N h) /\ h_pending (ticks (N + k) h) = h_pending (ticks N h) /\
    held (ticks (N + k) h) = held (ticks N h).
Proof.
  intros Hs k. rewrite tick_add. pose proof (unmetered_still _ k Hs) as Hu.
  assert (Hview : forall g g' : chip, unmetered g = unmetered g' -> core_idle g = core_idle g' /\ h_pending g = h_pending g' /\ held g = held g');
    [|by apply Hview].
  intros g g' Hg. change (core_idle (unmetered g) = core_idle (unmetered g') /\ h_pending (unmetered g) = h_pending (unmetered g') /\
    held (unmetered g) = held (unmetered g')). by rewrite Hg.
Qed.

(** What the product is, by the reference model of the testbench. *)
Definition queue_ref (shift : Z) : res (list Z) :=
  ref_gemm (2 :: 3 :: replicate 38 0) (1 :: 1 :: replicate 38 0) [] 1 1 40 shift 0.

Definition queue_vec : npu_params := PVec (mk_vec 0 3000 0 1 0 0 0).
Definition queue_gemm_next : npu_params := PGemm (mk_gemm 0 2050 0 100 1 1 3 3 0).

(** A queued command of another kind strands a matrix product. A product
    whose only output should be 5 and a vector sum are submitted one after the
    other, the second while the first is computed; [npu_submit] accepts both with
    0. The memory ports are turned over to the vector backend two clocks after
    [done] of the product: the sum is stored, the product never is, and from clock
    250 on the machine is busy, with its interrupt pending. *)
Example queued_vec_strands_gemm :
  let first := queue_submit (queue_gemm 0) (ex_machine queue_mem) in
  let second := queue_submit queue_vec first.2 in
  first.1.2 = Ok 0 /\ second.1.2 = Ok 0 /\ queue_ref 0 = Ok [5] /\
  forall k,
    let h := ticks (250 + k) second.2 in
    core_idle h = false /\ h_pending h = true /\ cell (act_mem (held h)) 3000 = 3 /\ cell (act_mem (held h)) 2048 = 0.
Proof.
  cbv zeta. split; [by vm_compute|]. split; [by vm_compute|]. split; [by vm_compute|]. intros k.
  destruct (ticks_settled 250 (queue_submit queue_vec (queue_submit (queue_gemm 0) (ex_machine queue_mem)).2).2 ltac:(by vm_compute) k)
    as (-> & -> & ->). split; [by vm_compute|]. split; [by vm_compute|]. split; by vm_compute.
Qed.

(** A queued product changes the result of the one before. Of two products
    submitted one after the other the first asks for a shift by 1, the second for
    one by 3. The last output of the first is quantised when the second is already
    the command of the backend: it is stored with its shift, as 0 instead of 2. *)
Example queued_gemm_takes_next_shift :
  let first := queue_submit (queue_gemm 1) (ex_machine queue_mem) in
  let second := queue_submit queue_gemm_next first.2 in
  first.1.2 = Ok 0 /\ second.1.2 = Ok 0 /\ queue_ref 1 = Ok [2] /\
  forall k,
    let h := ticks (250 + k) second.2 in
    core_idle h = true /\ h_pending h = true /\ cell (act_mem (held h)) 2048 = 0.
Proof.
  cbv zeta. split; [by vm_compute|]. split; [by vm_compute|]. split; [by vm_compute|]. intros k.
  destruct (ticks_settled 250 (queue_submit queue_gemm_next (queue_submit (queue_gemm 1) (ex_machine queue_mem)).2).2 ltac:(by vm_compute) k)
    as (-> & -> & ->). split; [by vm_compute|]. split; by vm_compute.
Qed.
