(* ===== verification/DmaSubmit.v ===== *)
(** * DMA transfers started by the C code

    [npu_dma_start] and [npu_dma_poll] of the library and [lgnpu_dma_transfer]
    of the driver run on the clocked hardware of [Hw], register block, engine
    and memories included. *)

From stdpp Require Import gmap strings.
From S2P Require Import Prelude Regs Prog Command Decode Runtime Driver Fifo ExtMem Mem Dma.
From S2P Require Import Hw HwPhases HwSubmit HwDma.

Open Scope Z_scope.

Section dma_submit.
Context {E : Type} {C : Core E} {L : CoreLaws C}.
Context (base : Z) (gap : nat) (late : bool).

Abbreviation step := hw_step.
Abbreviation tick := ticks.
Abbreviation bus_env := (hw_env base gap late).
Abbreviation sample := (sampled gap late).
Abbreviation programs addr := (programmed addr gap).

Lemma dma_status h : dma_ready (reg_rdata h (uapi_reg R_DMA_STATUS)) = negb (dma_busy (u_dma (h_mem h))).
Proof. unfold reg_rdata. rewrite reg_at_uapi. by destruct (dma_busy _). Qed.

Lemma dma_status_fits h : fits 32 (reg_rdata h (uapi_reg R_DMA_STATUS)).
Proof. unfold reg_rdata. rewrite reg_at_uapi. apply (bool_decide_unpack _). by destruct (dma_busy _); vm_compute. Qed.

(** The state a read shows, counted from the state [h] after the store to
    DMA_CTRL when the reads begin [gap] clocks later. *)
Lemma sample_at h k : sample (tick gap h) k = tick (gap + k * S gap + (if late then 1 else 0)) h.
Proof. unfold sampled. rewrite <- tick_add. f_equal. lia. Qed.

(** ** The library *)

Section library.
#[local] Instance library_env : Env mmio (hw E) := bus_env.

Abbreviation dev := (Some (mk_dev (Some base))).

Definition dma_ctrl (r : npu_dma_req) : Z := if dir r =? LGNPU_DMA_FROM_DEVICE then 3 else 1.

Lemma dma_start_run r h :
  exists tr, run (npu_dma_start dev (Some r)) h =
    (tr, Ok 0, tick gap (programs uapi_reg (ext_addr r) (loc_addr r) (len r) (dma_ctrl r) h)).
Proof.
  eexists. eapply exec_replay_run; [by apply dma_start_calls|].
  unfold wr. rewrite !(replay_store (C := C) base gap late). done.
Qed.

Lemma dma_poll_exec t tr o :
  fits 32 t ->
  exec (npu_dma_poll dev t) tr o <->
  exists found, poll_trace dma_ready (fun v => [rd base R_DMA_STATUS v]) (fun v => [rd base R_DMA_STATUS v]) t tr found /\
    o = Ok (if found then 0 else -1).
Proof. apply (poll_reads_iff base R_DMA_STATUS dma_ready). Qed.

Lemma request_fits r :
  dma_req_wf r -> wrap 20 (loc_addr r) = loc_addr r /\ ~ in_window (wrap 20 (loc_addr r)).
Proof.
  intros (_ & Hl & _). assert (Hw : wrap 20 (loc_addr r) = loc_addr r) by (apply wrap_small; by apply (fits_mono 16)).
  split; [done|]. rewrite Hw. rewrite fits16_iff in Hl. unfold in_window. cbn [rtl_region]. lia.
Qed.

(** An engine that looks idle in the clock of its start only. *)
Lemma stuck_poll t h :
  fits 32 t -> (forall k, dma_busy (u_dma (h_mem (sample h k))) = negb (gap + k * S gap + (if late then 1 else 0) =? 0)%nat) ->
  exists tr h', run (npu_dma_poll dev t) h =
    (tr, Ok (if (gap =? 0)%nat && negb late && (0 <? t) then 0 else -1), h').
Proof.
  intros Ht Hs. assert (Hexec := fun tr o => dma_poll_exec t tr o Ht).
  destruct ((gap =? 0)%nat && negb late && (0 <? t)) eqn:Hearly.
  - apply andb_true_iff in Hearly as [[Hg%Nat.eqb_eq Hlate%negb_true_iff]%andb_true_iff Hpos%Z.ltb_lt].
    destruct (poll_run base gap late R_DMA_STATUS dma_ready _ t Hexec dma_status_fits 0 h)
      as [tr Hrun]; [lia|lia|by rewrite dma_status, Hs, Hg, Hlate|by eexists _, _].
  - destruct (poll_timeout base gap late R_DMA_STATUS dma_ready _ t Hexec dma_status_fits h)
      as [tr Hrun]; [apply Ht| |by eexists _, _].
    intros k Hk. rewrite dma_status, Hs, negb_involutive. apply Nat.eqb_neq. intros H0.
    destruct gap, late; [lia| |lia..]. by rewrite (proj2 (Z.ltb_lt 0 t)) in Hearly by lia.
Qed.

(** C15. No DMA started by the library moves a byte. [struct npu_dma_req] holds
    a 16-bit local address, and the buffer windows begin at 0x10000: every
    request, run on an idle machine, is accepted by [npu_dma_start] and then
    occupies the engine for ever with both memories unchanged, so that STATUS
    never shows IDLE again. [npu_dma_poll] returns -1 whatever the limit,
    except on a host that reads DMA_STATUS in the very clock after the store to
    DMA_CTRL, where it returns 0 at once: the engine does not show BUSY yet. *)
Theorem library_dma_never_moves M h r t :
  resting M h -> dma_req_wf r -> fits 32 t ->
  exists tr1 h1 tr2 h2,
    run (npu_dma_start dev (Some r)) h = (tr1, Ok 0, h1) /\
    run (npu_dma_poll dev t) h1 = (tr2, Ok (if (gap =? 0)%nat && negb late && (0 <? t) then 0 else -1), h2) /\
    forall k, let h' := tick (S k) h1 in
      dma_busy (u_dma (h_mem h')) = true /\ memories (memory h') = M /\ core_idle h' = false.
Proof.
  intros Hr Hwf Ht. destruct (dma_start_run r h) as [tr1 Hrun].
  set (h4 := programs uapi_reg (ext_addr r) (loc_addr r) (len r) (dma_ctrl r) h) in Hrun.
  set (c := mk_cfg (ext_addr r) (wrap 20 (loc_addr r)) (wrap 16 (len r)) true (Z.testbit (dma_ctrl r) 1)).
  assert (Hl : launched c M h4).
  { apply programmed_launched; [apply reg_at_uapi|done|apply Hwf|]. unfold dma_ctrl. by destruct (_ =? _). }
  assert (Hout : ~ in_window (loc_at c 0)).
  { unfold loc_at. cbn [c c_loc Z.of_nat]. rewrite Z.add_0_r. destruct (request_fits r Hwf) as [He Hn].
    unfold MMIO_ADDR_W. by rewrite !He in *. }
  assert (Hstuck : forall T, dma_busy (u_dma (h_mem (tick (S T) h4))) = true /\ memories (memory (tick (S T) h4)) = M).
  { intros T. assert (Hn : (0 < elements (c_len c))%nat) by (unfold elements; lia).
    destruct (stuck_view _ M h4 Hl _ _ (launched_stuck _ M h4 Hl 0 T Hn Hout)) as (Hb & _ & Hm). auto. }
  destruct (stuck_poll t (tick gap h4) Ht) as (tr2 & h2 & Hpoll).
  { intros k. rewrite sample_at. destruct (_ + _)%nat as [|T]; [|by rewrite (proj1 (Hstuck T))].
    destruct Hl as (_ & Hrest & _). exact (proj1 (dma_idle_view (u_dma (h_mem h4)) (proj1 Hrest))). }
  exists tr1, (tick gap h4), tr2, h2. split_and!; [done|done|].
  intros k h'. unfold h'. rewrite <- tick_add. replace (gap + S k)%nat with (S (gap + k)) by lia.
  destruct (Hstuck (gap + k)%nat) as [Hb Hm]. split_and!; [done|done|].
  rewrite calm_idle, Hb by (apply calm_ticks, Hl). done.
Qed.
End library.

(** ** The driver *)

Section driver.
Context `{K : Kernel} (delay : Z -> nat).

(** The kernel services [lgnpu_dma_transfer] calls, for its only caller:
    register accesses take the bus as above, [udelay] lets so many clocks pass,
    locks and messages do not reach the device. *)
Definition kernel_answer (c : kcall) (h : hw E) : Z * hw E :=
  match c with
  | Readl a => mmio_answer base gap late (Load a) h
  | Writel v a => mmio_answer base gap late (Store a (u32 v)) h
  | Udelay us => (0, tick (delay us) h)
  | _ => (0, h)
  end.

#[local] Instance kernel_env : Env kcall (hw E) := kernel_answer.

Context (npu : lgnpu_device).
Hypothesis Hbase : regs npu = base.

Lemma drv_reg_at r : reg_at (drv_reg r) = Some r.
Proof. by destruct r. Qed.

Lemma replay_kw r v tr h :
  fits 32 v -> replay (kw npu r v :: tr) h = replay tr (tick gap (step h (Some (drv_reg r, v)))).
Proof using Hbase.
  intros Hv. cbn -[ticks hw_step wrap]. rewrite Hbase, wrap_small by done.
  by replace (base + drv_reg r - base) with (drv_reg r) by lia.
Qed.

Lemma replay_kr r tr h :
  replay (kr npu r (reg_rdata (if late then step h None else h) (drv_reg r)) :: tr) h = replay tr (tick (S gap) h).
Proof using Hbase.
  cbn -[ticks hw_step reg_rdata]. rewrite Hbase.
  replace (base + drv_reg r - base) with (drv_reg r) by lia. by rewrite decide_True.
Qed.

Lemma replay_void c tr h : kernel_answer c h = (0, h) -> replay (void c :: tr) h = replay tr h.
Proof. intros Hc. cbn [replay void]. change (answer c h) with (kernel_answer c h). rewrite Hc. done. Qed.

(** The clocks of one turn of the polling loop that finds the engine busy, and
    the state its read shows. *)
Definition period : nat := (S gap + delay LGNPU_DMA_POLL_US)%nat.
Definition polled (h : hw E) (k : nat) : hw E := tick (k * period + if late then 1 else 0) h.

Lemma driver_status h : dma_ready (reg_rdata h (drv_reg R_DMA_STATUS)) = negb (dma_busy (u_dma (h_mem h))).
Proof. rewrite <- uapi_drv. apply dma_status. Qed.

Lemma driver_misses n h tr :
  (forall k, (k < n)%nat -> dma_busy (u_dma (h_mem (polled h k))) = true) ->
  exists pre, Forall (fun v => fits 32 v /\ dma_ready v = false) pre /\ length pre = n /\
    replay (concat (dma_miss npu <$> pre) ++ tr) h = replay tr (tick (n * period) h).
Proof using Hbase.
  revert h. induction n as [|n IH]; intros h Hbusy; [by exists []|].
  set (v := reg_rdata (if late then step h None else h) (drv_reg R_DMA_STATUS)).
  destruct (IH (tick period h)) as (pre & Hpre & Hlen & Hrep).
  { intros k Hk. unfold polled. rewrite <- tick_add, Nat.add_assoc. change (period + k * period)%nat with (S k * period)%nat.
    apply (Hbusy (S k)). lia. }
  exists (v :: pre). split_and!; [|cbn; by rewrite Hlen|].
  - constructor; [|done]. split; [unfold v; rewrite <- uapi_drv; apply dma_status_fits|].
    unfold v. rewrite driver_status. specialize (Hbusy 0%nat ltac:(lia)). unfold polled in Hbusy. cbn [Nat.mul Nat.add] in Hbusy.
    destruct late; cbn [ticks] in Hbusy; by rewrite Hbusy.
  - rewrite fmap_cons. cbn [concat dma_miss app]. unfold v. rewrite replay_kr. cbn [replay void].
    change (answer (Udelay LGNPU_DMA_POLL_US) (tick (S gap) h)) with (0, tick (delay LGNPU_DMA_POLL_US) (tick (S gap) h)).
    cbn [fst snd]. rewrite decide_True by done. rewrite <- tick_add. fold period. rewrite Hrep, <- tick_add. done.
Qed.

Lemma driver_start ea la ln d h tr :
  fits 32 ea -> fits 32 la -> fits 32 ln ->
  replay ([void MutexLock; kw npu R_DMA_EXT_ADDR ea; kw npu R_DMA_LOC_ADDR la;
           kw npu R_DMA_LEN ln; kw npu R_DMA_CTRL (dma_ctl d)] ++ tr) h =
  replay tr (tick gap (programs drv_reg ea la ln (dma_ctl d) h)).
Proof using Hbase.
  intros Hea Hla Hln. cbn [app]. rewrite replay_void by done. rewrite !replay_kw by (done || (unfold dma_ctl; destruct (_ =? _); by apply fits32_iff)). done.
Qed.

Section transfer.
Context (ea la ln d : Z) (h : hw E).
Hypothesis Hea : fits 32 ea.
Hypothesis Hla : fits 32 la.
Hypothesis Hln : fits 32 ln.

Abbreviation launch := (programs drv_reg ea la ln (dma_ctl d) h).
Abbreviation first_poll := (tick gap launch).
Abbreviation transfer_run := (run (lgnpu_dma_transfer npu ea la ln d) h).

Lemma driver_found m :
  Z.of_nat m < LGNPU_DMA_POLL_ITERS ->
  (forall k, (k < m)%nat -> dma_busy (u_dma (h_mem (polled first_poll k))) = true) ->
  dma_busy (u_dma (h_mem (polled first_poll m))) = false ->
  exists tr, transfer_run =
    (tr, Ok 0, tick gap (step (tick (m * period + S gap) first_poll) (Some (drv_reg R_IRQ_CLEAR, 1)))).
Proof using Hbase Hea Hla Hln.
  intros Hm Hbusy Hdone. set (g := first_poll) in *.
  set (v := reg_rdata (if late then step (tick (m * period) g) None else tick (m * period) g) (drv_reg R_DMA_STATUS)).
  destruct (driver_misses m g (dma_hit npu v ++ []) Hbusy) as (pre & Hpre & Hlen & Hrep).
  assert (Hready : dma_ready v = true).
  { unfold v. rewrite driver_status. unfold polled in Hdone. destruct late.
    - rewrite Nat.add_1_r, tick_S_r in Hdone. by rewrite Hdone.
    - rewrite Nat.add_0_r in Hdone. by rewrite Hdone. }
  assert (Hv : fits 32 v) by (unfold v; rewrite <- uapi_drv; apply dma_status_fits).
  eexists. eapply exec_replay_run.
  - apply dma_transfer_calls. exists true, (concat (dma_miss npu <$> pre) ++ dma_hit npu v). split_and!; [|reflexivity|done].
    exists pre. split; [done|]. exists v. by rewrite Hlen.
  - rewrite driver_start by done. rewrite app_nil_r. rewrite app_nil_r in Hrep. fold g. rewrite Hrep.
    unfold dma_hit, v. rewrite replay_kr, replay_kw by done. rewrite tick_add. done.
Qed.

Lemma driver_not_found :
  (forall k, Z.of_nat k < LGNPU_DMA_POLL_ITERS -> dma_busy (u_dma (h_mem (polled first_poll k))) = true) ->
  exists tr, transfer_run = (tr, Ok (- ETIMEDOUT), tick (Z.to_nat LGNPU_DMA_POLL_ITERS * period) first_poll).
Proof using Hbase Hea Hla Hln.
  intros Hbusy. set (g := first_poll) in *.
  destruct (driver_misses (Z.to_nat LGNPU_DMA_POLL_ITERS) g [void MutexUnlock; void (DevErr "DMA transfer timed out" [])])
    as (pre & Hpre & Hlen & Hrep); [intros k Hk; apply Hbusy; lia|].
  eexists. eapply exec_replay_run.
  - apply dma_transfer_calls. exists false, (concat (dma_miss npu <$> pre)). split_and!; [|reflexivity|done].
    exists pre. split_and!; [done|rewrite Hlen; by rewrite Z2Nat.id|done].
  - rewrite driver_start by done. fold g. by rewrite Hrep.
Qed.

(** The transfer the four stores ask for: the registers keep 20 bits of the
    local address and 16 of the length. *)
Definition asked : dma_cfg := mk_cfg ea (wrap 20 la) (wrap 16 ln) true (d =? drv_DMA_FROM_DEVICE).

Abbreviation n := (elements (c_len asked)).

(** Clocks from the store to DMA_CTRL to the state the [k]-th read shows. *)
Definition seen (k : nat) : nat := gap + k * period + if late then 1 else 0.

Lemma launch_asked M : resting M h -> launched asked M launch.
Proof using Hea.
  intros Hr. assert (Hb : Z.testbit (dma_ctl d) 0 = true /\ Z.testbit (dma_ctl d) 1 = (d =? drv_DMA_FROM_DEVICE))
    by (unfold dma_ctl; by destruct (_ =? _)).
  unfold asked. rewrite <- (proj2 Hb). apply programmed_launched; [by apply drv_reg_at|done|done|apply Hb].
Qed.

Lemma polled_busy M k :
  resting M h -> windows_ok asked ->
  dma_busy (u_dma (h_mem (polled first_poll k))) = bool_decide (1 <= seen k <= 3 * n)%nat.
Proof using Hea.
  intros Hr Hwin. unfold polled. rewrite <- tick_add, Nat.add_assoc.
  exact (launched_busy _ M _ (launch_asked M Hr) (seen k) Hwin).
Qed.

(** The store to IRQ_CLEAR behind a read that was made [T] clocks after the
    start, and what comes after it. *)
Lemma launch_acknowledged M T :
  resting M h -> windows_ok asked -> (1 <= T)%nat ->
  let h2 := step (tick T launch) (Some (drv_reg R_IRQ_CLEAR, 1)) in
  (forall k, (3 * n < T + k)%nat -> resting (transferred (c_dir asked) asked M n) (tick k h2)) /\
  ((T < 3)%nat -> memories (memory h2) = M) /\
  forall k, h_pending (tick (S k) h2) = bool_decide (S T <= 3 * n < S T + k)%nat.
Proof using Hea.
  intros Hr Hwin HT h2. assert (Hl := launch_asked M Hr). destruct T as [|T]; [lia|].
  assert (Hu := launched_phase _ M launch Hl T Hwin). destruct Hl as (_ & _ & HM & _ & Hfit & _).
  destruct (under_way_ack _ _ _ _ _ _ 1 Hfit Hwin Hu (drv_reg_at R_IRQ_CLEAR)) as (Hu3 & Hp & Hi). fold h2 in Hu3, Hp, Hi.
  assert (Hu2 : under_way (c_dir asked) asked (memory launch) (S T) h2).
  { apply under_way_clock; [done..|by apply (inert_write _ R_IRQ_CLEAR)|done]. }
  split_and!.
  - intros k Hk. rewrite <- HM. apply (under_way_over _ _ _ (S T + k)); [by apply under_way_ticks|lia].
  - intros Hlt. rewrite (phase_early _ _ _ _ _ (proj1 Hu2)) by lia. done.
  - intros k. cbn [ticks]. by rewrite (under_way_pending _ _ _ _ _ k Hfit Hwin Hu3 Hi), Hp.
Qed.
End transfer.

Definition last_poll : nat := Z.to_nat (LGNPU_DMA_POLL_ITERS - 1).

(** Into or out of the windows, unless DMA_STATUS is read in the very clock
    after the store to DMA_CTRL. *)
Lemma driver_dma_completes ea la ln d h M :
  fits 32 ea -> fits 32 la -> fits 32 ln -> resting M h ->
  let c := asked ea la ln d in
  windows_ok c -> (1 <= seen 0)%nat ->
  let n := elements (c_len c) in
  let result := transferred (c_dir c) c M n in
  exists tr r h2, run (lgnpu_dma_transfer npu ea la ln d) h = (tr, Ok r, h2) /\
    if decide (3 * n < seen last_poll)%nat
    then r = 0 /\ resting result h2 /\ forall k, h_pending (tick (S k) h2) = false
    else r = - ETIMEDOUT /\ exists k, resting result (tick k h2) /\ h_pending (tick k h2) = true.
Proof using Hbase.
  intros Hea Hla Hln Hr c Hwin Hseen n result.
  set (launch := programs drv_reg ea la ln (dma_ctl d) h).
  assert (Hbusy := fun k => polled_busy ea la ln d h Hea M k Hr Hwin). fold launch c n in Hbusy.
  assert (Hge : forall k, (seen 0 <= seen k)%nat) by (intros k; unfold seen; cbn [Nat.mul]; destruct late; lia). case_decide as Hlast.
  - destruct (first_true (fun k => negb (dma_busy (u_dma (h_mem (polled (tick gap launch) k))))) last_poll)
      as (m & Hm & Hfound & Hmin).
    { rewrite Hbusy, bool_decide_eq_false_2 by lia. done. }
    rewrite Hbusy in Hfound. apply negb_true_iff, bool_decide_eq_false in Hfound. specialize (Hge m).
    destruct (driver_found ea la ln d h Hea Hla Hln m) as [tr Hrun];
      [unfold last_poll, LGNPU_DMA_POLL_ITERS in *; lia|intros k Hk; by apply negb_false_iff, Hmin|rewrite Hbusy; by apply bool_decide_eq_false_2|].
    rewrite <- tick_add in Hrun. eexists tr, 0, _. split; [exact Hrun|].
    destruct (launch_acknowledged ea la ln d h Hea M (gap + (m * period + S gap)) Hr Hwin ltac:(lia)) as (Hover & _ & Hpend).
    fold c n in Hover, Hpend. split_and!; [done|apply Hover; unfold seen in *; destruct late; lia|].
    intros k. rewrite <- tick_add, Nat.add_succ_r, Hpend. apply bool_decide_eq_false_2.
    unfold seen in *. destruct late; lia.
  - destruct (driver_not_found ea la ln d h Hea Hla Hln) as [tr Hrun].
    { intros k Hk. rewrite Hbusy. apply bool_decide_eq_true_2. specialize (Hge k).
      assert (k * period <= last_poll * period)%nat by (apply Nat.mul_le_mono_r; unfold last_poll, LGNPU_DMA_POLL_ITERS in *; lia). unfold seen in *. lia. }
    eexists tr, _, _. split; [exact Hrun|]. split; [done|]. exists (3 * n + 2)%nat. rewrite <- !tick_add.
    assert (Hl := launch_asked ea la ln d h Hea M Hr). split.
    + apply (launched_over c M launch Hl); [done|fold n; lia].
    + rewrite (launched_pending c M launch Hl _ Hwin).
      rewrite bool_decide_eq_true_2 by (fold n; lia). by rewrite orb_true_r.
Qed.

(** The same when it is. *)
Lemma driver_dma_too_early ea la ln d h M :
  gap = 0%nat -> late = false ->
  fits 32 ea -> fits 32 la -> fits 32 ln -> resting M h ->
  let c := asked ea la ln d in
  windows_ok c ->
  let n := elements (c_len c) in
  exists tr h2, run (lgnpu_dma_transfer npu ea la ln d) h = (tr, Ok 0, h2) /\
    memories (memory h2) = M /\
    resting (transferred (c_dir c) c M n) (tick (3 * n) h2) /\ h_pending (tick (3 * n) h2) = true.
Proof using Hbase.
  intros Hgap Hlate Hea Hla Hln Hr c Hwin n.
  assert (Hbusy := polled_busy ea la ln d h Hea M 0 Hr Hwin).
  rewrite bool_decide_eq_false_2 in Hbusy by (unfold seen; rewrite Hgap, Hlate; lia).
  destruct (driver_found ea la ln d h Hea Hla Hln 0) as [tr Hrun]; [done|lia|exact Hbusy|].
  rewrite <- tick_add in Hrun. eexists tr, _. split; [exact Hrun|]. rewrite Hgap.
  change (0 + (0 * period + 1))%nat with 1%nat. change (tick 0 ?x) with x.
  destruct (launch_acknowledged ea la ln d h Hea M 1 Hr Hwin ltac:(lia)) as (Hover & Hearly & Hpend).
  rewrite Hgap in Hover, Hearly, Hpend.
  fold c n in Hover, Hearly, Hpend. assert (1 <= n)%nat by (unfold n, elements; lia). split_and!.
  - apply Hearly. lia.
  - apply Hover. lia.
  - replace (3 * n)%nat with (S (3 * n - 1)) by lia. rewrite Hpend. apply bool_decide_eq_true_2. lia.
Qed.
(** With a local address outside the windows. *)
Lemma driver_dma_stuck ea la ln d h M i0 :
  fits 32 ea -> fits 32 la -> fits 32 ln -> resting M h ->
  let c := asked ea la ln d in
  (i0 < elements (c_len c))%nat -> ~ in_window (loc_at c i0) ->
  exists tr h2, run (lgnpu_dma_transfer npu ea la ln d) h = (tr, Ok (if decide (seen 0 = 0)%nat then 0 else - ETIMEDOUT), h2) /\
    forall k, dma_busy (u_dma (h_mem (tick k h2))) = true /\ core_idle (tick k h2) = false.
Proof using Hbase.
  intros Hea Hla Hln Hr c Hi0 Hout. set (launch := programs drv_reg ea la ln (dma_ctl d) h).
  assert (Hl := launch_asked ea la ln d h Hea M Hr). fold c launch in Hl.
  assert (Hstuck := fun T => launched_stuck c M launch Hl i0 T Hi0 Hout).
  assert (Hkept : forall k g, stuck c launch i0 g -> stuck c launch i0 (tick k g)).
  { induction k as [|k IH]; intros g Hg; [done|]. cbn [ticks]. apply IH. by apply (stuck_clock c M launch Hl). }
  assert (Hview := fun g Hg => stuck_view c M launch Hl i0 g Hg).
  assert (Hpolled : forall k, dma_busy (u_dma (h_mem (polled (tick gap launch) k))) = negb (seen k =? 0)%nat).
  { intros k. unfold polled. rewrite <- tick_add, Nat.add_assoc. change (gap + k * period + (if late then 1 else 0))%nat with (seen k).
    destruct (seen k) as [|T]; [|apply Hview, Hstuck].
    destruct Hl as (_ & Hrest & _). exact (proj1 (dma_idle_view (u_dma (h_mem launch)) (proj1 Hrest))). }
  assert (Hseen : forall k, (seen 0 <= seen k)%nat) by (intros k; unfold seen; cbn [Nat.mul]; destruct late; lia).
  case_decide as Hz.
  - destruct (driver_found ea la ln d h Hea Hla Hln 0) as [tr Hrun];
      [done|lia|fold launch; by rewrite Hpolled, Hz|]. fold launch in Hrun. rewrite <- tick_add in Hrun. eexists tr, _. split; [exact Hrun|].
    intros k. rewrite <- tick_add. destruct (Hview _ (Hkept (gap + k)%nat _ (stuck_clock c M launch Hl i0 _ (Some (drv_reg R_IRQ_CLEAR, 1)) None
      Hi0 Hout (inert_write _ R_IRQ_CLEAR _ (drv_reg_at _) ltac:(done) ltac:(done)) (Hstuck (gap + (0 * period + gap))%nat)))) as (Hb & Hi & _).
    replace (gap + (0 * period + S gap))%nat with (S (gap + (0 * period + gap))) by lia. split; [exact Hb|exact Hi].
  - destruct (driver_not_found ea la ln d h Hea Hla Hln) as [tr Hrun].
    { intros k _. fold launch. rewrite Hpolled. specialize (Hseen k). apply negb_true_iff, Nat.eqb_neq. lia. }
    fold launch in Hrun. rewrite <- tick_add in Hrun. eexists tr, _. split; [exact Hrun|]. intros k. rewrite <- tick_add.
    assert (Hpos : (1 <= period)%nat) by (unfold period; lia).
    destruct (gap + Z.to_nat LGNPU_DMA_POLL_ITERS * period + k)%nat as [|T] eqn:HT; [|split; apply Hview, Hstuck].
    exfalso. assert (1 <= Z.to_nat LGNPU_DMA_POLL_ITERS)%nat by (unfold LGNPU_DMA_POLL_ITERS; lia). nia.
Qed.

(** C16. Every DMA transfer by the driver, on a machine between transfers. The
    device keeps 20 bits of the local address and 16 of the length, and moves
    one element for length 0; [asked] is the transfer it is left with, [n] its
    elements, and [seen k] counts the clocks from its start to the state that the
    [k]-th read of DMA_STATUS shows.
    Into or out of the buffer windows: if the first read shows the very clock of
    the start ([seen 0 = 0], a host with one access per clock), the driver
    returns 0 with nothing moved, and the transfer runs on, its interrupt pending
    in the end. Else, if the last of the 10000 reads comes late enough for three
    clocks per element, it returns 0 with exactly the elements across, the engine
    at rest and the interrupt acknowledged for good. Else it returns -ETIMEDOUT
    with the engine running: the transfer completes later and leaves the
    interrupt pending.
    With an address outside the windows the engine stays busy for ever, and the
    driver returns 0 in the first case and -ETIMEDOUT in any other. *)
Theorem driver_dma_outcome ea la ln d h M :
  fits 32 ea -> fits 32 la -> fits 32 ln -> resting M h ->
  let c := asked ea la ln d in
  let n := elements (c_len c) in
  let result := transferred (c_dir c) c M n in
  (windows_ok c ->
   exists tr r h2, run (lgnpu_dma_transfer npu ea la ln d) h = (tr, Ok r, h2) /\
     if decide (seen 0 = 0)%nat
     then r = 0 /\ memories (memory h2) = M /\ resting result (tick (3 * n) h2) /\ h_pending (tick (3 * n) h2) = true
     else if decide (3 * n < seen last_poll)%nat
     then r = 0 /\ resting result h2 /\ forall k, h_pending (tick (S k) h2) = false
     else r = - ETIMEDOUT /\ exists k, resting result (tick k h2) /\ h_pending (tick k h2) = true) /\
  ((exists i, (i < n)%nat /\ ~ in_window (loc_at c i)) ->
   exists tr h2, run (lgnpu_dma_transfer npu ea la ln d) h = (tr, Ok (if decide (seen 0 = 0)%nat then 0 else - ETIMEDOUT), h2) /\
     forall k, dma_busy (u_dma (h_mem (tick k h2))) = true /\ core_idle (tick k h2) = false).
Proof using Hbase.
  intros Hea Hla Hln Hr c n result. split.
  - intros Hwin. destruct (decide (seen 0 = 0)%nat) as [Hz|Hz].
    + assert (Hg : gap = 0%nat /\ late = false) by (unfold seen in Hz; destruct late; lia). destruct Hg as [Hg Hlate].
      destruct (driver_dma_too_early ea la ln d h M Hg Hlate Hea Hla Hln Hr Hwin) as (tr & h2 & Hrun & H1 & H2 & H3).
      by exists tr, 0, h2.
    + apply (driver_dma_completes ea la ln d h M Hea Hla Hln Hr Hwin). lia.
  - intros (i & Hi & Hout). by apply (driver_dma_stuck ea la ln d h M i).
Qed.
End driver.
End dma_submit.

(** ** Witnesses: a machine after reset *)

#[local] Existing Instances linux ex_core ex_laws.

Lemma resting_reset : resting (memories (memory hw_reset)) hw_reset.
Proof. by apply (quiet_resting (replicate 16 0)); [apply quiet_reset|]. Qed.

Theorem library_dma_never_moves_witness :
  exists h1, snd (run (H := library_env 0x40000000 3 true)
      (npu_dma_start (Some (mk_dev (Some 0x40000000))) (Some (mk_dma_req 0x1000 0 64 LGNPU_DMA_TO_DEVICE))) hw_reset) = h1 /\
    dma_busy (u_dma (h_mem (ticks 1000 h1))) = true.
Proof.
  destruct (library_dma_never_moves (L := ex_laws) 0x40000000 3 true _ hw_reset
    (mk_dma_req 0x1000 0 64 LGNPU_DMA_TO_DEVICE) 100000 resting_reset
    ltac:(apply (bool_decide_unpack _); by vm_compute) ltac:(by apply fits32_iff))
    as (tr1 & h1 & tr2 & h2 & Hrun & _ & Hk).
  exists h1. split; [by rewrite Hrun|]. exact (proj1 (Hk 999%nat)).
Defined.

Definition ex_npu : lgnpu_device := mk_npu 0x40000000 5 0 "lgnpu" 1.

Lemma ex_windows : windows_ok (asked 0x1000 0x20000 64 0).
Proof. apply (inside_windows _ ACT_BUF 0). by split_and!. Qed.

(** One access in four clocks, 100 clocks to the microsecond; 64 elements to
    the activation buffer. *)
Theorem driver_dma_outcome_witness :
  exists tr h2, run (H := kernel_env 0x40000000 3 false (fun us => Z.to_nat (100 * us)))
    (lgnpu_dma_transfer ex_npu 0x1000 0x20000 64 0) hw_reset = (tr, Ok 0, h2) /\ h_pending (hw_step h2 None) = false.
Proof.
  destruct (driver_dma_outcome (L := ex_laws) 0x40000000 3 false (fun us => Z.to_nat (100 * us)) ex_npu eq_refl
    0x1000 0x20000 64 0 hw_reset _ ltac:(by apply fits32_iff) ltac:(by apply fits32_iff) ltac:(by apply fits32_iff)
    resting_reset) as [Hcase _]. destruct (Hcase ex_windows) as (tr & r & h2 & Hrun & Hend). clear Hcase.
  rewrite decide_False in Hend by (unfold seen; lia). rewrite decide_True in Hend.
  - destruct Hend as (-> & _ & Hp). exists tr, h2. split; [exact Hrun|exact (Hp 0%nat)].
  - unfold seen, period, last_poll, LGNPU_DMA_POLL_ITERS, LGNPU_DMA_POLL_US.
    assert (Hn : (elements (c_len (asked 0x1000 0x20000 64 0)) = 64)%nat) by done. rewrite Hn. lia.
Defined.
