(* ===== verification/Tb.v ===== *)
(** * The testbench driver

    Class [NpuTb] of [tb/integration/npu_tb.h]: the bus functional model, the
    helpers that load operands, submit commands and wait, and the six
    end-to-end tests with their verdicts, as programs over the bus accesses,
    clock ticks and messages they perform. [TestResult] closes the file. *)

From S2P Require Import Prelude Regs Prog Command TbDesc CArith Golden GoldenRows ExtMem.
From stdpp Require Import gmap strings.

Open Scope Z_scope.

(** ** What the testbench does to its surroundings *)

(** Messages, by the format string that prints them. *)
Inductive report :=
| Timeout (name what : string)                    (* [FAIL] %s: ... TIMEOUT ... *)
| Mismatch (name : string) (i expected got : Z)   (* [FAIL] %s: output[%d] expected %d, got %d *)
| Passed (name : string) (n : Z).                 (* [PASS] %s (%d ... verified) *)

(** Bus accesses, free clocks, accesses to the external memory model, output. *)
Inductive tb_call :=
| Write (addr data : Z) | Read (addr : Z) | Tick
| ExtStore (addr data : Z) | ExtLoad (addr : Z) | Printf (r : report).

#[export] Instance tb_returns : Calls tb_call := fun c v =>
  match c with Read _ | ExtLoad _ => fits 32 v | _ => v = 0 end.

(** ** The bus functional model

    [mmio_write] and [mmio_read] at the pins: the inputs are held while the
    clock ticks until the design is ready; data is sampled after that edge. *)

Record pins := mk_pins { mmio_addr : Z; mmio_wdata : Z; mmio_wr : bool; mmio_valid : bool }.

Section pins.
Context {S : Type} (tick : pins -> S -> S) (mmio_ready : pins -> S -> bool) (mmio_rdata : pins -> S -> Z).

(** [do tick(); while (!dut->mmio_ready);] *)
Fixpoint until_ready (fuel : nat) (p : pins) (s : S) : option S :=
  match fuel with
  | O => None
  | Datatypes.S f => let s' := tick p s in if mmio_ready p s' then Some s' else until_ready f p s'
  end.

Definition mmio_write (fuel : nat) (addr data : Z) (s : S) : option S :=
  until_ready fuel (mk_pins addr data true true) s.

(** [mmio_wdata] keeps the value of the last write, here [w]. *)
Definition mmio_read (fuel : nat) (addr w : Z) (s : S) : option (Z * S) :=
  let p := mk_pins addr w false true in
  s' ← until_ready fuel p s; Some (mmio_rdata p s', s').
End pins.

(** ** Helpers *)

Definition enable : prog tb_call unit := do_ (Write (tb_reg R_CTRL) (1 ≪ 1)).

Definition run_clocks (n : Z) : prog tb_call unit := for_prog n (fun _ _ => do_ Tick) tt.

Definition soft_reset_pulse : prog tb_call unit :=
  do_ (Write (tb_reg R_CTRL) (1 ≪ 0));;
  for_prog 5 (fun _ _ => do_ Tick) tt;;
  do_ (Write (tb_reg R_CTRL) (1 ≪ 1)).

Definition read_status : prog tb_call Z := call (Read (tb_reg R_STATUS)).

(** [(read_status() >> BIT) & 1] *)
Definition status_bit (bit : Z) : prog tb_call bool :=
  v ← read_status; mret (negb (Z.land (v ≫ bit) 1 =? 0)).

Definition is_idle : prog tb_call bool := status_bit 0.
Definition is_busy : prog tb_call bool := status_bit 1.
Definition is_queue_full : prog tb_call bool := status_bit 2.

(** [int count = static_cast<int>(data.size())] *)
Definition size (data : list Z) : Z := i32 (Z.of_nat (length data)).

(** [static_cast<uint32_t>(static_cast<uint8_t>(data[i]))] *)
Definition load_bytes (mmio_base : Z) (data : list Z) : prog tb_call unit :=
  for_prog (size data) (fun i _ =>
    x ← lift (load data i);
    do_ (Write (u32 (mmio_base + i)) (u8 x))) tt.

Definition read_bytes (mmio_base count : Z) : prog tb_call (list Z) :=
  out ← lift (vector_i8 count);
  for_prog count (fun i out =>
    raw ← call (Read (u32 (mmio_base + i)));
    lift (store out i (i8 (Z.land raw 0xFF)))) out.

(** The common body of [submit_conv] to [submit_pool], after [to_words]. *)
Definition submit_words (words : list Z) : prog tb_call unit :=
  for_prog 16 (fun i _ =>
    w ← lift (load words i);
    do_ (Write (u32 (tb_region CMD_QUEUE + u32 (i * 4))) w)) tt;;
  do_ (Write (tb_reg R_DOORBELL) 1);;
  run_clocks 2000.

Definition submit_conv (desc : ConvDesc) : prog tb_call unit := submit_words (ConvDesc_to_words desc).
Definition submit_gemm (desc : GemmDesc) : prog tb_call unit := submit_words (GemmDesc_to_words desc).
Definition submit_softmax (desc : SoftmaxDesc) : prog tb_call unit := submit_words (SoftmaxDesc_to_words desc).
Definition submit_vec (desc : VecDesc) : prog tb_call unit := submit_words (VecDesc_to_words desc).
Definition submit_lnorm (desc : LnormDesc) : prog tb_call unit := submit_words (LnormDesc_to_words desc).
Definition submit_pool (desc : PoolDesc) : prog tb_call unit := submit_words (PoolDesc_to_words desc).

Definition wait_idle (max_polls : Z) : prog tb_call bool :=
  o ← for_ret max_polls (fun _ _ =>
    b ← is_idle;
    if (b : bool) then mret (inr true) else mret (inl tt)) tt;
  mret (match o with inl _ => false | inr b => b end).

Definition MAX_POLLS : Z := 200000.

(** ** The end of every test: compare what was read with what was expected *)

Definition compare_turn (name : string) (expected got : list Z) (i : Z) (pass : bool) : prog tb_call bool :=
  g ← lift (load got i);
  e ← lift (load expected i);
  if g =? e then mret pass
  else do_ (Printf (Mismatch name i e g));; mret false.

Definition compare (name : string) (expected got : list Z) (n : Z) : prog tb_call bool :=
  pass ← for_prog n (compare_turn name expected got) true;
  (if (pass : bool) then do_ (Printf (Passed name n)) else mret tt);;
  mret pass.

Definition wait_and_compare (name : string) (expected : list Z) (out_base : Z) : prog tb_call bool :=
  idle ← wait_idle MAX_POLLS;
  if negb idle then do_ (Printf (Timeout name "waiting for idle"));; mret false
  else
    got ← read_bytes out_base (size expected);
    compare name expected got (size expected).

(** ** The tests *)

Record conv_test := mk_conv_test {
  ct_act : list Z; ct_wt : list Z; ct_bias : list Z;
  ct_H : Z; ct_W : Z; ct_C : Z; ct_K : Z; ct_R : Z; ct_S : Z; ct_sh : Z; ct_sw : Z; ct_ph : Z; ct_pw : Z;
  ct_qshift : Z; ct_act_mode : Z;
  ct_act_in_addr : Z; ct_wt_addr : Z; ct_bias_addr : Z; ct_act_out_addr : Z }.

(** [for (int i = 0; i < K; ++i) mmio_write(base + i, 0)] *)
Definition zero_fill (base n : Z) : prog tb_call unit :=
  for_prog n (fun i _ => do_ (Write (u32 (base + i)) 0)) tt.

(** Hardware always reads bias values: zeros stand in for an empty vector. *)
Definition load_bias (base : Z) (bias : list Z) (n : Z) : prog tb_call unit :=
  match bias with [] => zero_fill base n | _ => load_bytes base bias end.

(** The address the bias ends up at, after the weights when there is none. *)
Definition conv_bias_addr (t : conv_test) : Z :=
  match ct_bias t with
  | [] => u32 (ct_wt_addr t + u32 (Z.of_nat (length (ct_wt t))))
  | _ => ct_bias_addr t
  end.

Definition run_conv_test (name : string) (t : conv_test) : prog tb_call bool :=
  expected ← lift (ref_conv (ct_act t) (ct_wt t) (ct_bias t) (ct_H t) (ct_W t) (ct_C t) (ct_K t)
    (ct_R t) (ct_S t) (ct_sh t) (ct_sw t) (ct_ph t) (ct_pw t) (ct_qshift t) (ct_act_mode t));
  load_bytes (u32 (tb_region WEIGHT_BUF + ct_wt_addr t)) (ct_wt t);;
  load_bias (u32 (tb_region WEIGHT_BUF + conv_bias_addr t)) (ct_bias t) (ct_K t);;
  load_bytes (u32 (tb_region ACT_BUF + ct_act_in_addr t)) (ct_act t);;
  submit_conv (mk_ConvDesc 1 (ct_act_in_addr t) (ct_act_out_addr t) (ct_wt_addr t) (conv_bias_addr t)
    (u32 (ct_H t)) (u32 (ct_W t)) (u32 (ct_C t)) (u32 (ct_K t)) (u32 (ct_R t)) (u32 (ct_S t))
    (u32 (ct_sh t)) (u32 (ct_sw t)) (u32 (ct_ph t)) (u32 (ct_pw t)) 0 0
    (u32 (ct_qshift t)) (ct_act_mode t));;
  wait_and_compare name expected (u32 (tb_region ACT_BUF + ct_act_out_addr t)).

Record gemm_test := mk_gemm_test {
  gt_a : list Z; gt_b : list Z; gt_bias : list Z; gt_M : Z; gt_N : Z; gt_K : Z;
  gt_qshift : Z; gt_act_mode : Z; gt_a_addr : Z; gt_b_addr : Z; gt_c_addr : Z }.

(** The [bias_addr] argument is overwritten before it is used. *)
Definition gemm_bias_addr (t : gemm_test) : Z := u32 (gt_b_addr t + u32 (Z.of_nat (length (gt_b t)))).

Definition run_gemm_test (name : string) (t : gemm_test) : prog tb_call bool :=
  expected ← lift (ref_gemm (gt_a t) (gt_b t) (gt_bias t) (gt_M t) (gt_N t) (gt_K t)
    (gt_qshift t) (gt_act_mode t));
  load_bytes (u32 (tb_region WEIGHT_BUF + gt_b_addr t)) (gt_b t);;
  load_bias (u32 (tb_region WEIGHT_BUF + gemm_bias_addr t)) (gt_bias t) (gt_N t);;
  load_bytes (u32 (tb_region ACT_BUF + gt_a_addr t)) (gt_a t);;
  submit_gemm (mk_GemmDesc 2 (gt_a_addr t) (gt_c_addr t) (gt_b_addr t) (gemm_bias_addr t)
    (u32 (gt_M t)) (u32 (gt_N t)) (u32 (gt_K t)) (u32 (gt_qshift t)) (gt_act_mode t));;
  wait_and_compare name expected (u32 (tb_region ACT_BUF + gt_c_addr t)).

Record softmax_test := mk_softmax_test {
  st_input : list Z; st_num_rows : Z; st_row_len : Z; st_in_addr : Z; st_out_addr : Z }.

Definition run_softmax_test (name : string) (t : softmax_test) : prog tb_call bool :=
  expected ← lift (ref_softmax (st_input t) (st_num_rows t) (st_row_len t));
  load_bytes (u32 (tb_region ACT_BUF + st_in_addr t)) (st_input t);;
  submit_softmax (mk_SoftmaxDesc 3 (st_in_addr t) (st_out_addr t) (u32 (st_num_rows t)) (u32 (st_row_len t)));;
  wait_and_compare name expected (u32 (tb_region ACT_BUF + st_out_addr t)).

Record vec_test := mk_vec_test {
  vt_a : list Z; vt_b : list Z; vt_length : Z; vt_vec_op : Z; vt_qshift : Z; vt_act_mode : Z;
  vt_a_addr : Z; vt_b_addr : Z; vt_out_addr : Z }.

Definition run_vec_test (name : string) (t : vec_test) : prog tb_call bool :=
  expected ← lift (ref_vec (vt_a t) (vt_b t) (vt_length t) (vt_vec_op t) (vt_qshift t) (vt_act_mode t));
  load_bytes (u32 (tb_region ACT_BUF + vt_a_addr t)) (vt_a t);;
  load_bytes (u32 (tb_region WEIGHT_BUF + vt_b_addr t)) (vt_b t);;
  submit_vec (mk_VecDesc 4 (vt_a_addr t) (vt_out_addr t) (vt_b_addr t) (u32 (vt_length t))
    (vt_vec_op t) (u32 (vt_qshift t)) (vt_act_mode t));;
  wait_and_compare name expected (u32 (tb_region ACT_BUF + vt_out_addr t)).

Record lnorm_test := mk_lnorm_test {
  lt_input : list Z; lt_num_rows : Z; lt_row_len : Z; lt_norm_shift : Z; lt_in_addr : Z; lt_out_addr : Z }.

Definition run_lnorm_test (name : string) (t : lnorm_test) : prog tb_call bool :=
  expected ← lift (ref_lnorm (lt_input t) (lt_num_rows t) (lt_row_len t) (lt_norm_shift t));
  load_bytes (u32 (tb_region ACT_BUF + lt_in_addr t)) (lt_input t);;
  submit_lnorm (mk_LnormDesc 5 (lt_in_addr t) (lt_out_addr t) (u32 (lt_num_rows t))
    (u32 (lt_row_len t)) (u32 (lt_norm_shift t)));;
  wait_and_compare name expected (u32 (tb_region ACT_BUF + lt_out_addr t)).

Record pool_test := mk_pool_test {
  pt_input : list Z; pt_H : Z; pt_W : Z; pt_C : Z; pt_pool_r : Z; pt_pool_s : Z; pt_sh : Z; pt_sw : Z;
  pt_ph : Z; pt_pw : Z; pt_pool_mode : Z; pt_in_addr : Z; pt_out_addr : Z }.

Definition run_pool_test (name : string) (t : pool_test) : prog tb_call bool :=
  expected ← lift (ref_pool (pt_input t) (pt_H t) (pt_W t) (pt_C t) (pt_pool_r t) (pt_pool_s t)
    (pt_sh t) (pt_sw t) (pt_ph t) (pt_pw t) (pt_pool_mode t));
  load_bytes (u32 (tb_region ACT_BUF + pt_in_addr t)) (pt_input t);;
  submit_pool (mk_PoolDesc 6 (pt_in_addr t) (pt_out_addr t) (u32 (pt_H t)) (u32 (pt_W t)) (u32 (pt_C t))
    (u32 (pt_pool_r t)) (u32 (pt_pool_s t)) (u32 (pt_sh t)) (u32 (pt_sw t)) (u32 (pt_ph t)) (u32 (pt_pw t))
    0 0 (u32 (pt_pool_mode t)));;
  wait_and_compare name expected (u32 (tb_region ACT_BUF + pt_out_addr t)).

(** ** The DMA tests, over the external memory of [ExtMem] *)

Definition ext_load_bytes (base : Z) (data : list Z) : prog tb_call unit :=
  for_prog (size data) (fun i _ =>
    x ← lift (load data i);
    do_ (ExtStore (u32 (base + i)) (u8 x))) tt.

Definition ext_read_bytes (base count : Z) : prog tb_call (list Z) :=
  out ← lift (vector_i8 count);
  for_prog count (fun i out =>
    raw ← call (ExtLoad (u32 (base + i)));
    lift (store out i (i8 (Z.land raw 0xFF)))) out.

Definition dma_transfer (ext_addr loc_addr len dir max_polls : Z) : prog tb_call bool :=
  do_ (Write (tb_reg R_DMA_EXT_ADDR) ext_addr);;
  do_ (Write (tb_reg R_DMA_LOC_ADDR) loc_addr);;
  do_ (Write (tb_reg R_DMA_LEN) len);;
  do_ (Write (tb_reg R_DMA_CTRL) (Z.lor (1 ≪ 0) (Z.land dir 1 ≪ 1)));;
  run_clocks 4;;
  wait_idle max_polls.

Definition run_dma_read_test (name : string) (data : list Z) (ext_addr loc_mmio_addr : Z) : prog tb_call bool :=
  let count := size data in
  ext_load_bytes ext_addr data;;
  ok ← dma_transfer ext_addr loc_mmio_addr (u32 count) 0 MAX_POLLS;
  if negb ok then do_ (Printf (Timeout name "DMA read"));; mret false
  else
    do_ (Write (tb_reg R_IRQ_CLEAR) 1);;
    got ← read_bytes loc_mmio_addr count;
    compare name data got count.

Definition run_dma_write_test (name : string) (data : list Z) (loc_mmio_addr ext_addr : Z) : prog tb_call bool :=
  let count := size data in
  load_bytes loc_mmio_addr data;;
  ok ← dma_transfer ext_addr loc_mmio_addr (u32 count) 1 MAX_POLLS;
  if negb ok then do_ (Printf (Timeout name "DMA write"));; mret false
  else
    do_ (Write (tb_reg R_IRQ_CLEAR) 1);;
    got ← ext_read_bytes ext_addr count;
    compare name data got count.

(** ** TestResult *)

Record TestResult := mk_TestResult { total : Z; passed : Z; failed : Z }.

Definition record (r : TestResult) (pass : bool) : res TestResult :=
  t ← iadd (total r) 1;
  if pass then p ← iadd (passed r) 1; Ok (mk_TestResult t p (failed r))
  else f ← iadd (failed r) 1; Ok (mk_TestResult t (passed r) f).

Definition exit_code (r : TestResult) : Z := if 0 <? failed r then 1 else 0.

(** ** Traces of the helpers *)

(** [p] performs exactly the calls [t]. *)
Definition straight (p : prog tb_call unit) (t : trace tb_call) : Prop :=
  forall tr o, exec p tr o <-> tr = t /\ o = Ok tt.

Lemma straight_seq {R} p t (k : prog tb_call R) tr o :
  straight p t -> exec (p;; k) tr o <-> exists tr', tr = t ++ tr' /\ exec k tr' o.
Proof.
  intros Hp. rewrite exec_bind_iff. split.
  - intros [([] & t1 & t2 & -> & [-> _]%Hp & Hk)|(u & -> & [_ [=]]%Hp)]. by exists t2.
  - intros (tr' & -> & Hk). left. exists tt, t, tr'. split_and!; [done|by apply Hp|done].
Qed.

Lemma straight_bind p1 t1 p2 t2 : straight p1 t1 -> straight p2 t2 -> straight (p1;; p2) (t1 ++ t2).
Proof.
  intros H1 H2 tr o. rewrite (straight_seq _ _ _ _ _ H1). split.
  - by intros (tr' & -> & [-> ->]%H2).
  - intros [-> ->]. exists t2. by rewrite (H2 t2 (Ok tt)).
Qed.

Lemma straight_do c : (forall v, returns c v <-> v = 0) -> straight (do_ c) [(c, 0)].
Proof.
  intros Hc tr o. unfold do_. rewrite (exec_do_iff c 0) by done. setoid_rewrite exec_ret_iff. split.
  - by intros (tr' & -> & -> & ->).
  - intros [-> ->]. by exists [].
Qed.

Lemma straight_write a d : straight (do_ (Write a d)) [(Write a d, 0)].
Proof. by apply straight_do. Qed.

Lemma straight_loop n (ev : Z -> tb_call) (body : Z -> unit -> prog tb_call unit) :
  (forall i, 0 <= i < n -> straight (body i tt) [(ev i, 0)]) ->
  straight (for_prog n body tt) ((fun i => (ev i, 0)) <$> seqZ 0 n).
Proof.
  intros Hb tr o. rewrite (for_prog_fixed (fun i => [(ev i, 0)])).
  - assert (Hc : forall l : list Z, concat ((fun i => [(ev i, 0)]) <$> l) = (fun i => (ev i, 0)) <$> l)
      by (induction l as [|x l IH]; [done|cbn; by f_equal]).
    by rewrite Hc.
  - intros j t o' Hj. by apply Hb.
Qed.

Lemma straight_clocks n : straight (run_clocks n) (replicate (Z.to_nat n) (Tick, 0)).
Proof.
  assert (Hr : (fun _ => (Tick, 0)) <$> seqZ 0 n = replicate (Z.to_nat n) (Tick, 0)).
  { rewrite <- (length_seqZ 0 n). generalize (seqZ 0 n). by induction l as [|x l IH]; [|cbn; f_equal]. }
  rewrite <- Hr. apply (straight_loop n (fun _ => Tick)). intros i Hi. by apply straight_do.
Qed.

Lemma size_id data : Z.of_nat (length data) <= INT_MAX -> size data = Z.of_nat (length data).
Proof. intros Hl. unfold size. apply i32_id. unfold INT_MIN, INT_MAX in *. lia. Qed.

(** The writes of a row of values through [f]. *)
Definition row (call : Z -> Z -> tb_call) (base : Z) (data : list Z) : trace tb_call :=
  (fun i => (call (u32 (base + i)) (u8 (data !!! Z.to_nat i)), 0)) <$> seqZ 0 (Z.of_nat (length data)).

Lemma straight_row call base data (body : Z -> unit -> prog tb_call unit) :
  Z.of_nat (length data) <= INT_MAX -> (forall a d v, returns (call a d) v <-> v = 0) ->
  (forall i, body i tt = x ← lift (load data i); do_ (call (u32 (base + i)) (u8 x))) ->
  straight (for_prog (size data) body tt) (row call base data).
Proof.
  intros Hl Hc Hb. rewrite size_id by done. apply (straight_loop _ (fun i => call (u32 (base + i)) (u8 (data !!! Z.to_nat i)))).
  intros i Hi. rewrite Hb, load_total by lia. by apply straight_do.
Qed.

Lemma straight_load_bytes base data :
  Z.of_nat (length data) <= INT_MAX -> straight (load_bytes base data) (row Write base data).
Proof. intros. by apply straight_row. Qed.

Lemma straight_ext_load_bytes base data :
  Z.of_nat (length data) <= INT_MAX -> straight (ext_load_bytes base data) (row ExtStore base data).
Proof. intros. by apply straight_row. Qed.

Lemma straight_zero_fill base n :
  straight (zero_fill base n) ((fun i => (Write (u32 (base + i)) 0, 0)) <$> seqZ 0 n).
Proof. apply (straight_loop n (fun i => Write (u32 (base + i)) 0)). intros. by apply straight_do. Qed.

(** The sixteen words, the doorbell, the free clocks. *)
Definition command (words : list Z) : trace tb_call :=
  ((fun i => (Write (tb_region CMD_QUEUE + 4 * i) (words !!! Z.to_nat i), 0)) <$> seqZ 0 16) ++
  (Write (tb_reg R_DOORBELL) 1, 0) :: replicate 2000 (Tick, 0).

Lemma straight_submit words : length words = 16%nat -> straight (submit_words words) (command words).
Proof.
  intros Hl. unfold submit_words, command. apply straight_bind.
  - apply (straight_loop 16 (fun i => Write (tb_region CMD_QUEUE + 4 * i) (words !!! Z.to_nat i))).
    intros i Hi. rewrite load_total by lia. cbn [lift mbind prog_mbind prog_bind].
    replace (u32 (tb_region CMD_QUEUE + u32 (i * 4))) with (tb_region CMD_QUEUE + 4 * i); [by apply straight_do|].
    change (tb_region CMD_QUEUE) with 4096. unfold u32, wrap. change (2 ^ 32) with 4294967296.
    rewrite !Z.mod_small by (rewrite ?Z.mod_small by lia; lia). lia.
  - apply (straight_bind _ [_]); [apply straight_write|]. apply (straight_clocks 2000).
Qed.

Create HintDb tb.
#[export] Hint Resolve straight_write straight_clocks straight_load_bytes straight_ext_load_bytes
  straight_zero_fill straight_submit : tb.

(** ** Polling, reading back, comparing *)

Definition status_ready (v : Z) : bool := negb (Z.land (v ≫ 0) 1 =? 0).
Definition status_read (v : Z) : trace tb_call := [(Read (tb_reg R_STATUS), v)].

(** The reads of a [wait_idle] that polls at most [n] times. *)
Definition polls (n : Z) (tr : trace tb_call) (idle : bool) : Prop :=
  poll_trace status_ready status_read status_read n tr idle.

Lemma is_idle_body tr (o : res (unit + bool)) :
  exec (b ← is_idle; if (b : bool) then mret (inr true) else mret (inl tt)) tr o <->
  exists v, fits 32 v /\
    if status_ready v then tr = status_read v /\ o = Ok (inr true)
    else tr = status_read v /\ o = Ok (inl tt).
Proof.
  unfold is_idle, status_bit, read_status. cbn [mbind prog_mbind prog_bind call mret prog_mret].
  rewrite exec_call_iff. unfold status_ready. split.
  - intros (v & t' & -> & Hv & Hk). exists v. split; [exact Hv|].
    destruct (negb _); by apply exec_ret_iff in Hk as [-> ->].
  - intros (v & Hv & Hr). exists v, []. split; [by destruct (negb _), Hr|]. split; [exact Hv|].
    destruct (negb _); destruct Hr as [_ ->]; by apply exec_ret_iff.
Qed.

Lemma wait_idle_iff n tr o :
  fits 32 n -> exec (wait_idle n) tr o <-> exists idle, polls n tr idle /\ o = Ok idle.
Proof.
  intros Hn. unfold wait_idle. rewrite exec_bind_iff.
  pose proof (fun tr o => poll_iff status_ready status_read status_read true
    (fun _ _ => b ← is_idle; if (b : bool) then mret (inr true) else mret (inl tt))
    (fun _ => is_idle_body) n tr o Hn) as Hpoll. split.
  - intros [(a & t1 & t2 & -> & (idle & Hp & Ha)%Hpoll & [-> ->]%exec_ret_iff)|(u & _ & (idle & _ & [=])%Hpoll)].
    simplify_eq. exists idle. rewrite app_nil_r. split; [done|]. by destruct idle.
  - intros (idle & Hp & ->). left. eexists _, tr, []. rewrite app_nil_r.
    split_and!; [done|apply Hpoll; by exists idle|]. apply exec_ret_iff. by destruct idle.
Qed.

(** The reads of a row of values through [call], and the bytes they give. *)
Fixpoint read_row (call : Z -> tb_call) (base i : Z) (vs : list Z) : trace tb_call :=
  match vs with [] => [] | v :: vs' => (call (u32 (base + i)), v) :: read_row call base (i + 1) vs' end.

Definition byte_of (v : Z) : Z := i8 (Z.land v 0xFF).

Lemma read_row_iff call base n (body : Z -> list Z -> prog tb_call (list Z)) tr o :
  0 <= n -> (forall a v, returns (call a) v <-> fits 32 v) ->
  (forall i out, body i out = raw ← Prog.call (call (u32 (base + i))); lift (store out i (byte_of raw))) ->
  exec (out ← lift (vector_i8 n); for_prog n body out) tr o <->
  exists vs, Z.of_nat (length vs) = n /\ Forall (fits 32) vs /\
    tr = read_row call base 0 vs /\ o = Ok (byte_of <$> vs).
Proof.
  intros Hn Hc Hb. unfold vector_i8. rewrite (proj2 (Z.ltb_ge n 0)) by done.
  cbn [lift mbind prog_mbind prog_bind].
  rewrite (for_prog_iff (fits 32) (fun i v => [(call (u32 (base + i)), v)])
    (fun i out v => <[Z.to_nat i := byte_of v]> out) body (fun _ out => Z.of_nat (length out) = n)).
  - assert (Htr : forall vs i, turns (fun i v => [(call (u32 (base + i)), v)]) i vs = read_row call base i vs).
    { induction vs as [|v vs IH]; intros i; [done|]. cbn. by rewrite IH. }
    assert (Hout : forall vs i (pre : list Z) k, 0 <= i -> length pre = Z.to_nat i -> k = length vs ->
      after (fun i out v => <[Z.to_nat i := byte_of v]> out) i (pre ++ replicate k 0) vs = pre ++ (byte_of <$> vs)).
    { induction vs as [|v vs IH]; intros i pre k Hi Hpre ->; [done|]. cbn [after length replicate].
      rewrite insert_app_r_alt by lia. rewrite <- Hpre, Nat.sub_diag. cbn [insert list_insert].
      replace (pre ++ byte_of v :: replicate (length vs) 0) with ((pre ++ [byte_of v]) ++ replicate (length vs) 0)
        by by rewrite <- app_assoc.
      rewrite (IH (i + 1)); [by rewrite <- app_assoc|lia|rewrite length_app; simpl; lia|done]. }
    setoid_rewrite Htr. split.
    + intros (vs & Hl & HV & -> & ->). exists vs. split_and!; [lia|done|done|].
      f_equal. apply (Hout vs 0 []); [done|done|lia].
    + intros (vs & Hl & HV & -> & ->). exists vs. split_and!; [lia|done|done|].
      f_equal. symmetry. apply (Hout vs 0 []); [done|done|lia].
  - rewrite length_replicate. lia.
  - intros j out Hj Hout t o'. rewrite Hb. cbn [mbind prog_mbind prog_bind Prog.call].
    assert (Hst : forall x, store out j x = Ok (<[Z.to_nat j := x]> out))
      by (intros x; unfold store; by rewrite decide_True by lia).
    rewrite exec_call_iff. split.
    + intros (v & t' & -> & Hv%Hc & Hk). rewrite Hst in Hk. apply exec_ret_iff in Hk as [-> ->].
      by exists v.
    + intros (v & Hv & -> & ->). exists v, []. rewrite Hc, Hst. split_and!; [done|done|].
      by apply exec_ret_iff.
  - intros j out v Hj Hout _. by rewrite length_insert.
Qed.

Lemma read_bytes_iff base n tr o :
  0 <= n ->
  exec (read_bytes base n) tr o <->
  exists vs, Z.of_nat (length vs) = n /\ Forall (fits 32) vs /\
    tr = read_row Read base 0 vs /\ o = Ok (byte_of <$> vs).
Proof. intros Hn. by apply read_row_iff. Qed.

Lemma ext_read_bytes_iff base n tr o :
  0 <= n ->
  exec (ext_read_bytes base n) tr o <->
  exists vs, Z.of_nat (length vs) = n /\ Forall (fits 32) vs /\
    tr = read_row ExtLoad base 0 vs /\ o = Ok (byte_of <$> vs).
Proof. intros Hn. by apply read_row_iff. Qed.

(** The messages of a comparison, from index [i] on. *)
Fixpoint mismatches (name : string) (i : Z) (expected got : list Z) : trace tb_call :=
  match expected, got with
  | e :: es, g :: gs =>
      (if g =? e then [] else [(Printf (Mismatch name i e g), 0)]) ++ mismatches name (i + 1) es gs
  | _, _ => []
  end.

Definition verdict_report (name : string) (expected got : list Z) : trace tb_call :=
  mismatches name 0 expected got ++
  if decide (got = expected) then [(Printf (Passed name (Z.of_nat (length expected))), 0)] else [].

(** One turn of the comparison, by the values at its index. *)
Definition cmp_ev (name : string) (expected got : list Z) (i _ : Z) : trace tb_call :=
  let e := expected !!! Z.to_nat i in
  let g := got !!! Z.to_nat i in
  if g =? e then [] else [(Printf (Mismatch name i e g), 0)].

Definition cmp_next (expected got : list Z) (i : Z) (pass : bool) (_ : Z) : bool :=
  if got !!! Z.to_nat i =? expected !!! Z.to_nat i then pass else false.

Lemma cmp_turns name vs : forall i pass epre gpre es gs,
  length epre = Z.to_nat i -> length gpre = Z.to_nat i -> 0 <= i ->
  length es = length vs -> length gs = length vs ->
  turns (cmp_ev name (epre ++ es) (gpre ++ gs)) i vs = mismatches name i es gs /\
  after (cmp_next (epre ++ es) (gpre ++ gs)) i pass vs = pass && bool_decide (gs = es).
Proof.
  induction vs as [|v vs IH]; intros i pass epre gpre [|e es] [|g gs] He Hg Hi Hes Hgs; try done.
  { split; [done|]. by rewrite bool_decide_eq_true_2, andb_true_r. }
  assert (Hnth : forall (pre : list Z) x l, length pre = Z.to_nat i -> (pre ++ x :: l) !!! Z.to_nat i = x).
  { intros pre x l Hl. by rewrite lookup_total_app_r, Hl, Nat.sub_diag by lia. }
  specialize (IH (i + 1) (cmp_next (epre ++ e :: es) (gpre ++ g :: gs) i pass v)
    (epre ++ [e]) (gpre ++ [g]) es gs).
  rewrite <- !app_assoc in IH. cbn [app] in IH.
  destruct IH as [IH1 IH2]; [rewrite length_app; simpl; lia..|lia|simpl in *; lia|simpl in *; lia|].
  cbn [turns after mismatches]. rewrite IH1, IH2. unfold cmp_ev, cmp_next. rewrite !Hnth by done.
  split; [done|]. destruct (Z.eqb_spec g e) as [->|Hne].
  - f_equal. apply bool_decide_ext. split; [by intros ->|by intros [= ->]].
  - symmetry. rewrite bool_decide_eq_false_2 by congruence. by rewrite andb_false_r.
Qed.

Lemma compare_loop_iff name expected got n tr o :
  Z.of_nat (length expected) = n -> Z.of_nat (length got) = n ->
  exec (for_prog n (compare_turn name expected got) true) tr o <->
  tr = mismatches name 0 expected got /\ o = Ok (bool_decide (got = expected)).
Proof.
  intros He Hg.
  assert (Hvs : forall vs, length vs = Z.to_nat n ->
    turns (cmp_ev name expected got) 0 vs = mismatches name 0 expected got /\
    after (cmp_next expected got) 0 true vs = bool_decide (got = expected)).
  { intros vs Hvs. apply (cmp_turns name vs 0 true [] [] expected got); simpl; lia. }
  rewrite (for_prog_iff (fun v => v = 0) (cmp_ev name expected got) (cmp_next expected got) _ (fun _ _ => True)).
  - split.
    + intros (vs & Hlen & _ & -> & ->). by destruct (Hvs vs Hlen) as [-> ->].
    + intros [-> ->]. exists (replicate (Z.to_nat n) 0).
      destruct (Hvs (replicate (Z.to_nat n) 0)) as [-> ->]; [by rewrite length_replicate|].
      split_and!; [by rewrite length_replicate|by apply Forall_replicate|done|done].
  - done.
  - intros i pass Hi _ t1 o1. unfold compare_turn. rewrite !load_total by lia.
    cbn [lift mbind prog_mbind prog_bind]. unfold cmp_ev, cmp_next. destruct (_ =? _).
    + setoid_rewrite exec_ret_iff. split; [intros [-> ->]; by exists 0|by intros (v & _ & -> & ->)].
    + cbn. rewrite exec_call_iff. setoid_rewrite exec_ret_iff. split.
      * intros (v & t2 & -> & -> & -> & ->). by exists 0.
      * intros (v & _ & -> & ->). by exists 0, [].
  - done.
Qed.

Lemma compare_iff name expected got n tr o :
  Z.of_nat (length expected) = n -> Z.of_nat (length got) = n ->
  exec (compare name expected got n) tr o <->
  tr = verdict_report name expected got /\ o = Ok (bool_decide (got = expected)).
Proof.
  intros He Hg. unfold compare. rewrite exec_bind_iff. setoid_rewrite compare_loop_iff; [|done..].
  unfold verdict_report. split.
  - intros [(pass & t1 & t2 & -> & [-> Hp] & Hk)|(u & _ & _ & [=])]. simplify_eq Hp. intros ->.
    case_bool_decide; cbn in Hk.
    + apply exec_call_iff in Hk as (v & t3 & -> & -> & [-> ->]%exec_ret_iff). by rewrite decide_True, He.
    + apply exec_ret_iff in Hk as [-> ->]. by rewrite decide_False.
  - intros [-> ->]. left. eexists _, _, _. split_and!; [done..|].
    case_bool_decide; cbn.
    + rewrite decide_True by done. apply exec_call_iff. exists 0, []. rewrite He.
      split_and!; [done|done|by apply exec_ret_iff].
    + rewrite decide_False by done. by apply exec_ret_iff.
Qed.

(** The end of a test: the polls, and either the time-out message or what was
    read back with the messages about it. *)
Definition ending (name what : string) (between : trace tb_call) (read : Z -> tb_call)
    (expected : list Z) (base : Z) (tr : trace tb_call) (pass : bool) : Prop :=
  exists idle t1 t2, tr = t1 ++ t2 /\ polls MAX_POLLS t1 idle /\
    if idle then
      exists vs, length vs = length expected /\ Forall (fits 32) vs /\
        t2 = between ++ read_row read base 0 vs ++ verdict_report name expected (byte_of <$> vs) /\
        pass = bool_decide (byte_of <$> vs = expected)
    else t2 = [(Printf (Timeout name what), 0)] /\ pass = false.

Section finish.
Context (name what : string) (between : trace tb_call) (read : Z -> tb_call) (expected : list Z) (base : Z).
Context (pb : prog tb_call unit) (rb : prog tb_call (list Z)).
Hypothesis Hpb : straight pb between.
Hypothesis Hrb : forall tr o, exec rb tr o <->
  exists vs, Z.of_nat (length vs) = Z.of_nat (length expected) /\ Forall (fits 32) vs /\
    tr = read_row read base 0 vs /\ o = Ok (byte_of <$> vs).

Lemma read_and_compare_iff tr o :
  exec (pb;; got ← rb; compare name expected got (Z.of_nat (length expected))) tr o <->
  exists vs, length vs = length expected /\ Forall (fits 32) vs /\
    tr = between ++ read_row read base 0 vs ++ verdict_report name expected (byte_of <$> vs) /\
    o = Ok (bool_decide (byte_of <$> vs = expected)).
Proof using Hpb Hrb.
  rewrite (straight_seq _ _ _ _ _ Hpb). setoid_rewrite exec_bind_iff. setoid_rewrite Hrb. split.
  - intros (t & -> & [(got & t1 & t2 & -> & (vs & Hvs & HV & -> & Hg) & Hk)|(u & _ & vs & _ & _ & _ & [=])]).
    simplify_eq. apply compare_iff in Hk as [-> ->]; [|done|rewrite length_fmap; lia].
    exists vs. split_and!; [lia|done|done|done].
  - intros (vs & Hvs & HV & -> & ->). eexists. split; [done|]. left. eexists _, _, _. split_and!; [done| |].
    + exists vs. split_and!; [lia|done|done|done].
    + apply compare_iff; [done|rewrite length_fmap; lia|done].
Qed.

Lemma finish_iff tr o :
  exec (idle ← wait_idle MAX_POLLS;
        if negb idle then do_ (Printf (Timeout name what));; mret false
        else pb;; got ← rb; compare name expected got (Z.of_nat (length expected))) tr o <->
  exists pass, ending name what between read expected base tr pass /\ o = Ok pass.
Proof using Hpb Hrb.
  rewrite exec_bind_iff. setoid_rewrite wait_idle_iff; [|done..]. split.
  - intros [(idle & t1 & t2 & -> & (idle' & Hp & Hi) & Hk)|(u & _ & idle & _ & [=])]. simplify_eq.
    destruct idle'; cbn [negb] in Hk.
    + apply read_and_compare_iff in Hk as (vs & Hvs & HV & -> & ->). eexists. split; [|done].
      eexists true, t1, _. split_and!; [done|done|]. exists vs. by split_and!.
    + cbn in Hk. apply exec_call_iff in Hk as (v & t3 & -> & -> & [-> ->]%exec_ret_iff).
      exists false. split; [|done]. by eexists false, t1, _.
  - intros (pass & (idle & t1 & t2 & -> & Hp & Hk) & ->). left. exists idle, t1, t2.
    split_and!; [done|by exists idle|]. destruct idle; cbn [negb].
    + destruct Hk as (vs & Hvs & HV & -> & ->). apply read_and_compare_iff. by exists vs.
    + destruct Hk as [-> ->]. cbn. apply exec_call_iff. exists 0, []. split_and!; [done|done|].
      by apply exec_ret_iff.
Qed.
End finish.

Lemma wait_and_compare_iff name expected base tr o :
  Z.of_nat (length expected) <= INT_MAX ->
  exec (wait_and_compare name expected base) tr o <->
  exists pass, ending name "waiting for idle" [] Read expected base tr pass /\ o = Ok pass.
Proof.
  intros Hl. unfold wait_and_compare. rewrite size_id by done.
  assert (Hpb : straight (mret tt) []) by (intros t o'; apply exec_ret_iff).
  assert (Hrb := fun tr o => read_bytes_iff base (Z.of_nat (length expected)) tr o ltac:(lia)).
  exact (finish_iff name "waiting for idle" [] Read expected base (mret tt) _ Hpb Hrb tr o).
Qed.
