(* ===== verification/TbTests.v ===== *)
(** * What the testbench's tests check

    Every end-to-end test of [NpuTb] is characterised by its trace: the
    operands it loads, the command it submits, the polls, and a verdict that is
    [true] exactly when the bytes read back are those of the reference model. *)

From S2P Require Import Prelude Regs Prog Command Decode TbDesc CArith Golden GoldenRows ExtMem Tb.
From stdpp Require Import gmap strings.

Open Scope Z_scope.

(** ** One type for the six tests *)

Inductive tb_test :=
| TConv (t : conv_test) | TGemm (t : gemm_test) | TSoftmax (t : softmax_test)
| TVec (t : vec_test) | TLnorm (t : lnorm_test) | TPool (t : pool_test).

Definition run_test (name : string) (t : tb_test) : prog tb_call bool :=
  match t with
  | TConv t => run_conv_test name t | TGemm t => run_gemm_test name t
  | TSoftmax t => run_softmax_test name t | TVec t => run_vec_test name t
  | TLnorm t => run_lnorm_test name t | TPool t => run_pool_test name t
  end.

(** The reference model the test compares against. *)
Definition golden (t : tb_test) : res (list Z) :=
  match t with
  | TConv t => ref_conv (ct_act t) (ct_wt t) (ct_bias t) (ct_H t) (ct_W t) (ct_C t) (ct_K t)
      (ct_R t) (ct_S t) (ct_sh t) (ct_sw t) (ct_ph t) (ct_pw t) (ct_qshift t) (ct_act_mode t)
  | TGemm t => ref_gemm (gt_a t) (gt_b t) (gt_bias t) (gt_M t) (gt_N t) (gt_K t) (gt_qshift t) (gt_act_mode t)
  | TSoftmax t => ref_softmax (st_input t) (st_num_rows t) (st_row_len t)
  | TVec t => ref_vec (vt_a t) (vt_b t) (vt_length t) (vt_vec_op t) (vt_qshift t) (vt_act_mode t)
  | TLnorm t => ref_lnorm (lt_input t) (lt_num_rows t) (lt_row_len t) (lt_norm_shift t)
  | TPool t => ref_pool (pt_input t) (pt_H t) (pt_W t) (pt_C t) (pt_pool_r t) (pt_pool_s t)
      (pt_sh t) (pt_sw t) (pt_ph t) (pt_pw t) (pt_pool_mode t)
  end.

(** The same operation as a request to the C library. *)
Definition test_params (t : tb_test) : npu_params :=
  match t with
  | TConv t => PConv (mk_conv (ct_act_in_addr t) (ct_act_out_addr t) (ct_wt_addr t) (conv_bias_addr t)
      (ct_H t) (ct_W t) (ct_C t) (ct_K t) (ct_R t) (ct_S t) (ct_sh t) (ct_sw t) (ct_ph t) (ct_pw t) 0 0
      (ct_qshift t) (ct_act_mode t))
  | TGemm t => PGemm (mk_gemm (gt_a_addr t) (gt_c_addr t) (gt_b_addr t) (gemm_bias_addr t)
      (gt_M t) (gt_N t) (gt_K t) (gt_qshift t) (gt_act_mode t))
  | TSoftmax t => PSoftmax (mk_softmax (st_in_addr t) (st_out_addr t) (st_num_rows t) (st_row_len t))
  | TVec t => PVec (mk_vec (vt_a_addr t) (vt_out_addr t) (vt_b_addr t) (vt_length t) (vt_vec_op t)
      (vt_qshift t) (vt_act_mode t))
  | TLnorm t => PLnorm (mk_lnorm (lt_in_addr t) (lt_out_addr t) (lt_num_rows t) (lt_row_len t) (lt_norm_shift t))
  | TPool t => PPool (mk_pool (pt_in_addr t) (pt_out_addr t) (pt_H t) (pt_W t) (pt_C t) (pt_pool_r t)
      (pt_pool_s t) (pt_sh t) (pt_sw t) (pt_ph t) (pt_pw t) 0 0 (pt_pool_mode t))
  end.

(** Where the result is read. *)
Definition out_base (t : tb_test) : Z :=
  u32 (tb_region ACT_BUF + match t with
    | TConv t => ct_act_out_addr t | TGemm t => gt_c_addr t | TSoftmax t => st_out_addr t
    | TVec t => vt_out_addr t | TLnorm t => lt_out_addr t | TPool t => pt_out_addr t
    end).

Definition arrays (t : tb_test) : list (list Z) :=
  match t with
  | TConv t => [ct_act t; ct_wt t; ct_bias t] | TGemm t => [gt_a t; gt_b t; gt_bias t]
  | TSoftmax t => [st_input t] | TVec t => [vt_a t; vt_b t]
  | TLnorm t => [lt_input t] | TPool t => [pt_input t]
  end.

(** The operands fit their C types: [int] sizes, fields of the command. *)
Definition test_wf (t : tb_test) : Prop :=
  Forall (fun l => Z.of_nat (length l) <= INT_MAX) (arrays t) /\ params_wf (test_params t).

Definition weights (addr : Z) (data : list Z) : trace tb_call :=
  row Write (u32 (tb_region WEIGHT_BUF + addr)) data.
Definition activations (addr : Z) (data : list Z) : trace tb_call :=
  row Write (u32 (tb_region ACT_BUF + addr)) data.
Definition biases (addr : Z) (bias : list Z) (n : Z) : trace tb_call :=
  match bias with
  | [] => (fun i => (Write (u32 (u32 (tb_region WEIGHT_BUF + addr) + i)) 0, 0)) <$> seqZ 0 n
  | _ => weights addr bias
  end.

(** The operands a test puts into the buffers. *)
Definition loads (t : tb_test) : trace tb_call :=
  match t with
  | TConv t => weights (ct_wt_addr t) (ct_wt t) ++ biases (conv_bias_addr t) (ct_bias t) (ct_K t) ++
      activations (ct_act_in_addr t) (ct_act t)
  | TGemm t => weights (gt_b_addr t) (gt_b t) ++ biases (gemm_bias_addr t) (gt_bias t) (gt_N t) ++
      activations (gt_a_addr t) (gt_a t)
  | TSoftmax t => activations (st_in_addr t) (st_input t)
  | TVec t => activations (vt_a_addr t) (vt_a t) ++ weights (vt_b_addr t) (vt_b t)
  | TLnorm t => activations (lt_in_addr t) (lt_input t)
  | TPool t => activations (pt_in_addr t) (pt_input t)
  end.

Lemma straight_load_bias addr bias n :
  Z.of_nat (length bias) <= INT_MAX ->
  straight (load_bias (u32 (tb_region WEIGHT_BUF + addr)) bias n) (biases addr bias n).
Proof. intros Hl. destruct bias as [|x bias]; [apply straight_zero_fill|by apply straight_load_bytes]. Qed.

#[export] Hint Resolve straight_load_bias : tb.

Lemma u32_fits16 z : fits 16 z -> u32 z = z.
Proof. intros Hz. apply wrap_small. by apply (fits_mono 16). Qed.

Lemma u32_fits8 z : fits 8 z -> u32 z = z.
Proof. intros Hz. apply wrap_small. by apply (fits_mono 8). Qed.

(** [p] performs exactly [t] and goes on as [q]. *)
Definition leads {R} (p : prog tb_call R) (t : trace tb_call) (q : prog tb_call R) : Prop :=
  forall tr o, exec p tr o <-> exists tr', tr = t ++ tr' /\ exec q tr' o.

Lemma leads_iff {R} (p : prog tb_call R) t q tr o :
  leads p t q -> exec p tr o <-> exists tr', tr = t ++ tr' /\ exec q tr' o.
Proof. intros Hp. apply Hp. Qed.

Lemma leads_verdict (p q : prog tb_call bool) t1 t2 (E : trace tb_call -> bool -> Prop) tr o :
  leads p (t1 ++ t2) q ->
  (forall tr o, exec q tr o <-> exists pass, E tr pass /\ o = Ok pass) ->
  exec p tr o <-> exists tr' pass, o = Ok pass /\ tr = t1 ++ t2 ++ tr' /\ E tr' pass.
Proof.
  intros Hp Hq. rewrite (leads_iff _ _ _ tr o Hp). split.
  - intros (tr' & -> & (pass & He & ->)%Hq). exists tr', pass. by rewrite <- app_assoc.
  - intros (tr' & pass & -> & -> & He). exists tr'. rewrite app_assoc. split; [done|].
    apply Hq. by exists pass.
Qed.

Lemma leads_refl {R} (q : prog tb_call R) : leads q [] q.
Proof. intros tr o. split; [by exists tr|by intros (? & -> & ?)]. Qed.

Lemma leads_seq {R} p t t' (k q : prog tb_call R) :
  straight p t -> leads k t' q -> leads (p;; k) (t ++ t') q.
Proof.
  intros Hp Hk tr o. rewrite (straight_seq _ _ _ _ _ Hp). setoid_rewrite (Hk _ o). split.
  - intros (t1 & -> & t2 & -> & Hq). exists t2. by rewrite app_assoc.
  - intros (t2 & -> & Hq). exists (t' ++ t2). rewrite app_assoc. split; [done|]. by exists t2.
Qed.

(** Both sides of an equation of words, once the casts are known to be idle. *)
Ltac same_words :=
  repeat match goal with
  | H : fits 16 ?x |- context [wrap 32 ?x] => rewrite (u32_fits16 x H)
  | H : fits 8 ?x |- context [wrap 32 ?x] => rewrite (u32_fits8 x H)
  end; done.

(** The words a test submits are those the C library builds for it. *)
Lemma conv_words t : params_wf (test_params (TConv t)) ->
  ConvDesc_to_words (mk_ConvDesc 1 (ct_act_in_addr t) (ct_act_out_addr t) (ct_wt_addr t) (conv_bias_addr t)
    (u32 (ct_H t)) (u32 (ct_W t)) (u32 (ct_C t)) (u32 (ct_K t)) (u32 (ct_R t)) (u32 (ct_S t))
    (u32 (ct_sh t)) (u32 (ct_sw t)) (u32 (ct_ph t)) (u32 (ct_pw t)) 0 0
    (u32 (ct_qshift t)) (ct_act_mode t)) = desc_layout (test_params (TConv t)).
Proof.
  intros Hp. rewrite <- tb_words_layout by done. destruct Hp as [H16 H8]. simpl in H16, H8. field_bounds.
  same_words.
Qed.

Lemma gemm_words t : params_wf (test_params (TGemm t)) ->
  GemmDesc_to_words (mk_GemmDesc 2 (gt_a_addr t) (gt_c_addr t) (gt_b_addr t) (gemm_bias_addr t)
    (u32 (gt_M t)) (u32 (gt_N t)) (u32 (gt_K t)) (u32 (gt_qshift t)) (gt_act_mode t)) =
  desc_layout (test_params (TGemm t)).
Proof.
  intros Hp. rewrite <- tb_words_layout by done. destruct Hp as [H16 H8]. simpl in H16, H8. field_bounds.
  same_words.
Qed.

Lemma softmax_words t : params_wf (test_params (TSoftmax t)) ->
  SoftmaxDesc_to_words (mk_SoftmaxDesc 3 (st_in_addr t) (st_out_addr t) (u32 (st_num_rows t)) (u32 (st_row_len t))) =
  desc_layout (test_params (TSoftmax t)).
Proof.
  intros Hp. rewrite <- tb_words_layout by done. cbv [params_wf test_params softmax_wf] in Hp. simpl in Hp. field_bounds.
  same_words.
Qed.

Lemma vec_words t : params_wf (test_params (TVec t)) ->
  VecDesc_to_words (mk_VecDesc 4 (vt_a_addr t) (vt_out_addr t) (vt_b_addr t) (u32 (vt_length t))
    (vt_vec_op t) (u32 (vt_qshift t)) (vt_act_mode t)) = desc_layout (test_params (TVec t)).
Proof.
  intros Hp. rewrite <- tb_words_layout by done. destruct Hp as [H16 H8]. simpl in H16, H8. field_bounds.
  same_words.
Qed.

Lemma lnorm_words t : params_wf (test_params (TLnorm t)) ->
  LnormDesc_to_words (mk_LnormDesc 5 (lt_in_addr t) (lt_out_addr t) (u32 (lt_num_rows t))
    (u32 (lt_row_len t)) (u32 (lt_norm_shift t))) = desc_layout (test_params (TLnorm t)).
Proof.
  intros Hp. rewrite <- tb_words_layout by done. destruct Hp as [H16 H8]. simpl in H16, H8. field_bounds.
  same_words.
Qed.

Lemma pool_words t : params_wf (test_params (TPool t)) ->
  PoolDesc_to_words (mk_PoolDesc 6 (pt_in_addr t) (pt_out_addr t) (u32 (pt_H t)) (u32 (pt_W t)) (u32 (pt_C t))
    (u32 (pt_pool_r t)) (u32 (pt_pool_s t)) (u32 (pt_sh t)) (u32 (pt_sw t)) (u32 (pt_ph t)) (u32 (pt_pw t))
    0 0 (u32 (pt_pool_mode t))) = desc_layout (test_params (TPool t)).
Proof.
  intros Hp. rewrite <- tb_words_layout by done. destruct Hp as [H16 H8]. simpl in H16, H8. field_bounds.
  same_words.
Qed.

(** The straight part of every test. *)
Lemma run_test_leads name t expected :
  test_wf t -> golden t = Ok expected ->
  leads (run_test name t) (loads t ++ command (desc_layout (test_params t)))
    (wait_and_compare name expected (out_base t)).
Proof.
  intros [Hl Hp] Hg. destruct t as [t|t|t|t|t|t]; cbn [golden] in Hg; cbn [arrays] in Hl;
    repeat (apply Forall_cons_1 in Hl as [? Hl]);
    cbn [run_test loads]; cbv [run_conv_test run_gemm_test run_softmax_test run_vec_test run_lnorm_test
      run_pool_test submit_conv submit_gemm submit_softmax submit_vec submit_lnorm submit_pool];
    rewrite Hg; cbn [lift];
    change (Ret expected ≫= ?k) with (k expected); cbv beta;
    rewrite ?conv_words, ?gemm_words, ?softmax_words, ?vec_words, ?lnorm_words, ?pool_words by done;
    rewrite <- (app_nil_r (command _)), <- ?app_assoc;
    repeat (apply leads_seq; [by auto using length_desc_layout with tb|]); apply leads_refl.
Qed.

Lemma run_test_iff name t expected tr o :
  test_wf t -> golden t = Ok expected -> Z.of_nat (length expected) <= INT_MAX ->
  exec (run_test name t) tr o <->
  exists tr' pass, o = Ok pass /\
    tr = loads t ++ command (desc_layout (test_params t)) ++ tr' /\
    ending name "waiting for idle" [] Read expected (out_base t) tr' pass.
Proof.
  intros Hwf Hg Hl. apply (leads_verdict _ _ _ _ _ tr o (run_test_leads name t expected Hwf Hg)).
  intros tr' o'. by apply wait_and_compare_iff.
Qed.

(** Every end-to-end test performs exactly this: it loads its operands, then
    submits the descriptor that the C library builds for the same request (so
    the hardware decodes the requested command), polls STATUS at most 200000
    times, and either reports a time-out and fails, or reads one byte per
    expected output back and passes exactly when all of them are those of the
    reference model, reporting every difference. *)
Theorem run_test_verdict name t expected tr o :
  test_wf t -> golden t = Ok expected -> Z.of_nat (length expected) <= INT_MAX ->
  (exec (run_test name t) tr o <->
   exists tr' pass, o = Ok pass /\
     tr = loads t ++ command (desc_layout (test_params t)) ++ tr' /\
     ending name "waiting for idle" [] Read expected (out_base t) tr' pass) /\
  npu_dispatch <$> npu_cmd_decode (desc_layout (test_params t)) = Some (requested (test_params t)).
Proof.
  intros Hwf Hg Hl. split; [by apply run_test_iff|by apply decode_layout, Hwf].
Qed.

(** ** DMA tests *)

Lemma leads_bind {A B} (p q : prog tb_call A) t (k : A -> prog tb_call B) :
  leads p t q -> leads (p ≫= k) t (q ≫= k).
Proof.
  intros Hp tr o. setoid_rewrite exec_bind_iff. setoid_rewrite (fun tr o => leads_iff _ _ _ tr o Hp). split.
  - intros [(a & t1 & t2 & -> & (t1' & -> & Hq) & Hk)|(u & -> & t1' & -> & Hq)].
    + exists (t1' ++ t2). rewrite app_assoc. split; [done|]. left. by exists a, t1', t2.
    + exists t1'. split; [done|]. right. by exists u.
  - intros (tr' & -> & [(a & t1 & t2 & -> & Hq & Hk)|(u & -> & Hq)]).
    + left. exists a, (t ++ t1), t2. rewrite app_assoc. split_and!; [done| |done]. by exists t1.
    + right. exists u. split; [done|]. by exists tr'.
Qed.

(** The register writes that start a transfer and the clocks after them. *)
Definition dma_program (ext_addr loc_addr len dir : Z) : trace tb_call :=
  [(Write (tb_reg R_DMA_EXT_ADDR) ext_addr, 0)] ++ [(Write (tb_reg R_DMA_LOC_ADDR) loc_addr, 0)] ++
  [(Write (tb_reg R_DMA_LEN) len, 0)] ++
  [(Write (tb_reg R_DMA_CTRL) (if Z.odd dir then 3 else 1), 0)] ++ replicate 4 (Tick, 0).

Lemma dma_transfer_leads ea la ln dir n :
  leads (dma_transfer ea la ln dir n) (dma_program ea la ln dir) (wait_idle n).
Proof.
  unfold dma_transfer, dma_program.
  replace (if Z.odd dir then 3 else 1) with (Z.lor (1 ≪ 0) (Z.land dir 1 ≪ 1)).
  - rewrite <- (app_nil_r (replicate 4 _)).
    repeat (apply leads_seq; [first [apply straight_write|apply (straight_clocks 4)]|]). apply leads_refl.
  - rewrite (land_mask 1) by done. unfold wrap. change (2 ^ 1) with 2. rewrite Zmod_odd.
    by destruct (Z.odd dir).
Qed.

(** The two DMA tests: the data goes to the source memory, the engine is
    programmed with its two addresses, the length and the direction, and the
    verdict, after the interrupt is cleared, is whether the destination holds
    the data; a transfer that does not become idle is reported and fails. *)
Theorem dma_tests_verdict name data ext_addr loc_addr tr o :
  Z.of_nat (length data) <= INT_MAX ->
  let count := Z.of_nat (length data) in
  let clear := [(Write (tb_reg R_IRQ_CLEAR) 1, 0)] in
  (exec (run_dma_read_test name data ext_addr loc_addr) tr o <->
   exists tr' pass, o = Ok pass /\
     tr = row ExtStore ext_addr data ++ dma_program ext_addr loc_addr count 0 ++ tr' /\
     ending name "DMA read" clear Read data loc_addr tr' pass) /\
  (exec (run_dma_write_test name data loc_addr ext_addr) tr o <->
   exists tr' pass, o = Ok pass /\
     tr = row Write loc_addr data ++ dma_program ext_addr loc_addr count 1 ++ tr' /\
     ending name "DMA write" clear ExtLoad data ext_addr tr' pass).
Proof.
  intros Hl count clear. unfold run_dma_read_test, run_dma_write_test. rewrite size_id by done. fold count.
  replace (u32 count) with count by (symmetry; apply wrap_small; unfold fits, INT_MAX in *; lia).
  split.
  - apply (leads_verdict _ _ _ _ _ tr o (leads_seq _ _ _ _ _ (straight_ext_load_bytes ext_addr data Hl)
      (leads_bind _ _ _ _ (dma_transfer_leads _ _ _ _ _)))).
    apply (finish_iff name "DMA read" clear Read data loc_addr (do_ (Write (tb_reg R_IRQ_CLEAR) 1))
      (read_bytes loc_addr count)); [apply straight_write|intros; apply read_bytes_iff; lia].
  - apply (leads_verdict _ _ _ _ _ tr o (leads_seq _ _ _ _ _ (straight_load_bytes loc_addr data Hl)
      (leads_bind _ _ _ _ (dma_transfer_leads _ _ _ _ _)))).
    apply (finish_iff name "DMA write" clear ExtLoad data ext_addr (do_ (Write (tb_reg R_IRQ_CLEAR) 1))
      (ext_read_bytes ext_addr count)); [apply straight_write|intros; apply ext_read_bytes_iff; lia].
Qed.

(** ** Witnesses *)

Definition ex_vec_test : tb_test := TVec (mk_vec_test [100; -3] [100; 5] 2 0 0 0 0 0 2048).

Lemma ex_vec_golden : test_wf ex_vec_test /\ golden ex_vec_test = Ok [127; 2].
Proof. split; [split; by apply (bool_decide_unpack _); vm_compute|by vm_compute]. Qed.

Lemma ex_polls : polls MAX_POLLS [(Read 4, 0); (Read 4, 1)] true.
Proof.
  exists [0]. split; [by apply (bool_decide_unpack _); vm_compute|]. by exists 1.
Qed.

Theorem run_test_verdict_witness :
  exec (run_test "saturating add" ex_vec_test)
    (loads ex_vec_test ++ command (desc_layout (test_params ex_vec_test)) ++
     [(Read 4, 0); (Read 4, 1)] ++
     [(Read 0x20800, 127); (Read 0x20801, 3)] ++
     [(Printf (Mismatch "saturating add" 1 2 3), 0)]) (Ok false).
Proof.
  apply (run_test_verdict "saturating add" ex_vec_test [127; 2]);
    [exact (proj1 ex_vec_golden)|exact (proj2 ex_vec_golden)|done|].
  eexists _, false. split_and!; [done|done|]. eexists true, _, _. split_and!; [done|exact ex_polls|].
  exists [127; 3]. split_and!; [done|by apply (bool_decide_unpack _); vm_compute|by vm_compute|by vm_compute].
Defined.

Theorem dma_tests_verdict_witness :
  exec (run_dma_read_test "copy" [-1] 0x100 0x20000)
    (row ExtStore 0x100 [-1] ++ dma_program 0x100 0x20000 1 0 ++
     [(Read 4, 0); (Read 4, 1)] ++
     ([(Write 20 1, 0)] ++ [(Read 0x20000, 255)] ++ [(Printf (Passed "copy" 1), 0)])) (Ok true).
Proof.
  apply (proj1 (dma_tests_verdict "copy" [-1] 0x100 0x20000 _ _ ltac:(done))).
  eexists _, true. split_and!; [done|done|]. eexists true, _, _. split_and!; [done|exact ex_polls|].
  exists [255]. split_and!; [done|by apply (bool_decide_unpack _); vm_compute|by vm_compute|by vm_compute].
Defined.
