(* ===== verification/TbHw.v ===== *)
(** * The testbench on the hardware

    [NpuTb]'s bus functional model drives the clocked control path of [Hw]:
    its accesses are those of the late host of [mmio_answer], and its way to
    run a command (free clocks, then polling IDLE) returns only when the
    command is complete, unlike the runtime's ([HwSubmit]). *)

From stdpp Require Import gmap.
From S2P Require Import Prelude Regs Prog Command Decode Runtime TbDesc CArith Fifo ExtMem Mem Dma Hw HwPhases HwSubmit Tb.

Open Scope Z_scope.

Section tb.
Context {E : Type} {C : Core E} {L : CoreLaws C}.

Abbreviation step := hw_step.
Abbreviation tick := ticks.
Abbreviation held h := (contents (u_bufs (h_mem h))).

(** One clock with the pins held. Registers and the command window are always
    ready; a buffer window is when the write is granted or the data is there.
    [mmio_rdata] is the buffers' after a cycle with a buffer address. *)
Definition pins_bus (p : pins) : bus :=
  if mmio_valid p && mmio_wr p then Some (mmio_addr p, mmio_wdata p) else None.
Definition pins_read (p : pins) : option Z :=
  if mmio_valid p && negb (mmio_wr p) then Some (mmio_addr p) else None.
Definition pins_port (p : pins) : port := buf_passthrough (pins_bus p) (pins_read p).

Definition pins_step (p : pins) (h : hw E) : hw E :=
  hw_clock h (pins_bus p) (pins_read p).

Definition pins_ready (p : pins) (h : hw E) : bool :=
  if is_buf (mmio_addr p) then
    if mmio_wr p then host_gnt (buf_port (h_mem h) (pins_port p)) (be_act_wr h)
    else host_rvalid (u_bufs (h_mem h))
  else true.

Definition pins_rdata (p : pins) (h : hw E) : Z :=
  if is_buf (mmio_addr p) then host_rdata (u_bufs (h_mem h)) else reg_rdata h (mmio_addr p).

(** The external memory of the testbench is an object the tests use directly. *)
Definition with_ext (h : hw E) (m : gmap Z Z) : hw E :=
  mk_hw (h_regs h) (h_fetch h) (h_decode h) (h_queue h) (h_sched h) (h_backend h) (h_mem h)
    (mk_ext_mem m (ext_rd_pending (h_ext h)) (ext_rd_addr_pending (h_ext h))) (h_pending h) (h_perf h).

(** The accesses of the bus functional model as answers to its calls, for
    accesses that are ready after the first clock. *)
Definition tb_answer (c : tb_call) (h : hw E) : Z * hw E :=
  match c with
  | Write a d => (0, default h (mmio_write pins_step pins_ready 1 a d h))
  | Read a =>
      match mmio_read pins_step pins_ready pins_rdata 1 a 0 h with
      | Some (v, h') => (v, h')
      | None => (0, h)
      end
  | Tick => (0, step h None)
  | ExtStore a d => (0, with_ext h (<[a := d]> (ext_memory (h_ext h))))
  | ExtLoad a => (ext_load (ext_memory (h_ext h)) a, h)
  | Printf _ => (0, h)
  end.

#[local] Instance tb_env : Env tb_call (hw E) := tb_answer.

Lemma is_buf_below a : a < rtl_region WEIGHT_BUF -> is_buf a = false.
Proof. intros Ha. by apply Z.leb_gt. Qed.

(** Reading below the buffers asks them for nothing. *)
Lemma clock_read_below h a :
  a < rtl_region WEIGHT_BUF ->
  hw_clock h None (Some a) = step h None.
Proof.
  intros Ha. unfold step, hw_step, hw_clock.
  by rewrite (mem_step_no_request _ _ (buf_passthrough None (Some a))) by (by apply is_buf_below).
Qed.

(** An access below the buffers takes one clock and is the one of the late
    host without idle cycles; more fuel changes nothing. *)
Lemma tb_is_late_host a d fuel h :
  a < rtl_region WEIGHT_BUF ->
  mmio_write pins_step pins_ready (S fuel) a d h =
    Some (mmio_answer 0 0 true (Store a d) h).2 /\
  mmio_read pins_step pins_ready pins_rdata (S fuel) a d h =
    Some (mmio_answer 0 0 true (Load a) h).
Proof.
  intros Ha. unfold mmio_write, mmio_read, mmio_answer, until_ready, pins_ready, pins_step, pins_rdata, pins_bus, pins_read.
  cbn [mmio_addr mmio_wr mmio_valid mmio_wdata andb negb ticks]. rewrite is_buf_below, !Z.sub_0_r by done.
  split; [done|]. rewrite clock_read_below by done. done.
Qed.

Lemma replay_tb_write a d tr h :
  a < rtl_region WEIGHT_BUF ->
  replay ((Write a d, 0) :: tr) h = replay tr (step h (Some (a, d))).
Proof.
  intros Ha. cbn -[mmio_write hw_step]. rewrite (proj1 (tb_is_late_host a d 0 h Ha)). cbn -[hw_step].
  by rewrite Z.sub_0_r.
Qed.

Lemma tb_answer_read a h :
  a < rtl_region WEIGHT_BUF -> tb_answer (Read a) h = (reg_rdata (step h None) a, step h None).
Proof.
  intros Ha. unfold tb_answer. rewrite (proj2 (tb_is_late_host a 0 0 h Ha)).
  cbn -[hw_step reg_rdata]. by rewrite Z.sub_0_r.
Qed.

Lemma replay_tb_read a h :
  a < rtl_region WEIGHT_BUF ->
  replay [(Read a, reg_rdata (step h None) a)] h = Some (step h None).
Proof.
  intros Ha. unfold replay. change (answer (Read a) h) with (tb_answer (Read a) h).
  rewrite tb_answer_read by done. cbn [fst snd]. by rewrite decide_True.
Qed.

Lemma replay_tb_ticks n tr h : replay (replicate n (Tick, 0) ++ tr) h = replay tr (tick n h).
Proof. revert h. induction n as [|n IH]; intros h; [done|]. cbn -[hw_step]. apply IH. Qed.

(** The sixteen writes of a command fill the window. *)
Lemma replay_tb_window w0 ws h :
  length w0 = 16%nat -> length ws = 16%nat -> quiet w0 h ->
  exists h', (forall tr,
    replay (((fun i => (Write (tb_region CMD_QUEUE + 4 * i) (ws !!! Z.to_nat i), 0)) <$> seqZ 0 16) ++ tr) h = replay tr h') /\
    quiet ws h' /\ held h' = held h.
Proof.
  intros Hw0 Hws Hq.
  assert (Hgen : forall n k h, (k + n = 16)%nat -> quiet (mix k ws w0) h ->
    exists h', (forall tr, replay (((fun i => (Write (tb_region CMD_QUEUE + 4 * i) (ws !!! Z.to_nat i), 0)) <$>
      seqZ (Z.of_nat k) (Z.of_nat n)) ++ tr) h = replay tr h') /\ quiet ws h' /\ held h' = held h).
  { induction n as [|n IH]; intros k h1 Hk Hq1.
    - exists h1. split_and!; [done| |done]. rewrite <- (mix_all ws w0 16) by done. by replace 16%nat with k by lia.
    - destruct (lookup_lt_is_Some_2 ws k ltac:(lia)) as [w Hw].
      destruct (IH (S k) (step h1 (window_bus k w)) ltac:(lia)) as (h' & Hrep & Hq' & Hm').
      { rewrite <- (mix_S k _ _ w) by (done || lia). rewrite <- window_bus_mem by lia.
        exact (quiet_step _ _ (window_bus k w) Hq1 (window_bus_harmless k w)). }
      exists h'. split_and!; [|done|rewrite Hm'; apply (quiet_memory _ _ _ Hq1); intros a v [= <- _]; apply is_buf_window; lia].
      intros tr. rewrite seqZ_cons, fmap_cons by lia. cbn [app].
      rewrite replay_tb_write by (apply Z.leb_gt; apply is_buf_window; lia).
      rewrite Nat2Z.id, (list_lookup_total_correct _ _ _ Hw).
      replace (Z.succ (Z.of_nat k)) with (Z.of_nat (S k)) by lia.
      replace (Z.pred (Z.of_nat (S n))) with (Z.of_nat n) by lia. apply Hrep. }
  apply (Hgen 16%nat 0%nat h); [done|]. by rewrite mix_0.
Qed.

(** A command up to the end of the free clocks: [h'] is the hardware with the
    doorbell rung. *)
Lemma replay_tb_command w0 ws h :
  length w0 = 16%nat -> length ws = 16%nat -> quiet w0 h ->
  exists h', (forall tr, replay (command ws ++ tr) h = replay tr (tick 2000 h')) /\
    rung ws h' /\ held h' = held h.
Proof.
  intros Hw0 Hws Hq. destruct (replay_tb_window w0 ws h Hw0 Hws Hq) as (h1 & Hrep & Hq1 & Hm1).
  exists (step h1 (Some (tb_reg R_DOORBELL, 1))). split_and!; [|by apply quiet_ring|].
  - intros tr. unfold command. rewrite <- app_assoc, Hrep. cbn [app]. rewrite replay_tb_write by done.
    apply replay_tb_ticks.
  - rewrite <- Hm1. apply (quiet_memory _ _ _ Hq1). by intros a v [= <- _].
Qed.

(** ** Polling *)

Lemma tb_status_idle h : status_ready (reg_rdata h (tb_reg R_STATUS)) = core_idle h.
Proof.
  change (tb_reg R_STATUS) with (uapi_reg R_STATUS). unfold reg_rdata. rewrite reg_at_uapi.
  by destruct (core_idle h), (core_busy h), (Fifo.full _ _).
Qed.

Definition status_after (h : hw E) (k : nat) : Z := reg_rdata (tick (S k) h) (tb_reg R_STATUS).

Lemma replay_tb_polls n h :
  replay ((fun k => (Read (tb_reg R_STATUS), status_after h k)) <$> seq 0 n) h = Some (tick n h).
Proof.
  induction n as [|n IH]; [done|].
  rewrite seq_S, fmap_app, replay_app, IH. cbn [fmap list_fmap mbind option_bind Nat.add].
  unfold status_after. rewrite tick_S_r. by apply replay_tb_read.
Qed.

Lemma concat_reads (f : nat -> Z) l :
  concat (status_read <$> (f <$> l)) = (fun k => (Read (tb_reg R_STATUS), f k)) <$> l.
Proof. induction l as [|x l IH]; [done|]. cbn. by rewrite IH. Qed.

Lemma polls_prefix h n :
  (forall k, (k < n)%nat -> core_idle (tick (S k) h) = false) ->
  Forall (fun v => fits 32 v /\ status_ready v = false) (status_after h <$> seq 0 n).
Proof.
  intros Hb. apply Forall_fmap, Forall_forall. intros k Hk%in_seq. cbn [compose].
  split; [apply status_fits|]. unfold status_after. rewrite tb_status_idle. apply Hb. lia.
Qed.

(** [wait_idle] on the hardware: the first idle sample, or a time-out. *)
Lemma tb_polls_idle N m h :
  Z.of_nat m < N ->
  (forall k, (k < m)%nat -> core_idle (tick (S k) h) = false) -> core_idle (tick (S m) h) = true ->
  polls N ((fun k => (Read (tb_reg R_STATUS), status_after h k)) <$> seq 0 (S m)) true.
Proof.
  intros Hm Hbusy Hidle. exists (status_after h <$> seq 0 m). split; [by apply polls_prefix|].
  exists (status_after h m).
  split_and!; [by rewrite length_fmap, length_seq|apply status_fits|by unfold status_after; rewrite tb_status_idle|].
  by rewrite seq_S, fmap_app, concat_reads.
Qed.

Lemma tb_wait_idle_run N m h :
  fits 32 N -> Z.of_nat m < N ->
  (forall k, (k < m)%nat -> core_idle (tick (S k) h) = false) -> core_idle (tick (S m) h) = true ->
  exists tr, run (wait_idle N) h = (tr, Ok true, tick (S m) h).
Proof.
  intros HN Hm Hbusy Hidle. eexists. eapply exec_replay_run; [|apply replay_tb_polls].
  apply wait_idle_iff; [done|]. exists true. split; [by apply tb_polls_idle|done].
Qed.

Lemma tb_wait_idle_timeout N h :
  fits 32 N -> (forall k, Z.of_nat k < N -> core_idle (tick (S k) h) = false) ->
  exists tr, run (wait_idle N) h = (tr, Ok false, tick (Z.to_nat N) h).
Proof.
  intros HN Hbusy. assert (0 <= N) by apply HN.
  exists ((fun k => (Read (tb_reg R_STATUS), status_after h k)) <$> seq 0 (Z.to_nat N)).
  eapply exec_replay_run; [|apply replay_tb_polls]. apply wait_idle_iff; [done|].
  exists false. split; [|done]. exists (status_after h <$> seq 0 (Z.to_nat N)).
  split; [apply polls_prefix; intros; apply Hbusy; lia|].
  split; [rewrite length_fmap, length_seq; lia|by rewrite concat_reads].
Qed.

(** ** A command on the testbench's schedule *)

Lemma idle_from_37 ws c h k :
  length ws = 16%nat -> rung ws h -> npu_cmd_decode ws = Some c -> runnable c -> (37 <= k)%nat ->
  core_idle (tick k h) = bool_decide (38 + cycles c <= k)%nat /\
  ((38 + cycles c <= k)%nat -> quiet ws (tick k h)).
Proof.
  intros Hws Hr Hdec Hc Hk.
  destruct (rung_timeline _ _ _ Hws Hr Hdec) as (Hi & _ & _).
  pose proof (issuing_tick _ _ _ Hi Hc) as Hw. rewrite <- tick_S_r in Hw.
  assert (Hq : (38 + cycles c <= k)%nat -> quiet ws (tick k h)).
  { intros Hle. destruct (working_ticks _ _ _ _ Hw) as (_ & Hq & _).
    replace k with (37 + (S (cycles c) + (k - (38 + cycles c))))%nat by lia.
    rewrite tick_add, tick_add. by apply quiet_ticks. }
  split; [|done]. case_bool_decide as Hle.
  - by eapply quiet_idle, Hq.
  - replace k with (37 + (k - 37))%nat by lia. rewrite tick_add.
    rewrite (proj1 (working_view _ _ _ _ (k - 37) Hw ltac:(lia))). apply bool_decide_eq_false_2. lia.
Qed.

(** The samples of the polls after the free clocks. *)
Lemma tb_sample ws c h k :
  length ws = 16%nat -> rung ws h -> npu_cmd_decode ws = Some c -> runnable c ->
  core_idle (tick (S k) (tick 2000 h)) = bool_decide (38 + cycles c <= 2001 + k)%nat.
Proof.
  intros Hws Hr Hdec Hc. rewrite <- tick_add. replace (2000 + S k)%nat with (2001 + k)%nat by lia.
  apply (idle_from_37 ws c h); [done..|lia].
Qed.

(** The poll that finds the command completed. *)
Lemma tb_last_poll ws c h :
  length ws = 16%nat -> rung ws h -> npu_cmd_decode ws = Some c -> runnable c ->
  38 + Z.of_nat (cycles c) <= 2000 + MAX_POLLS ->
  exists m, Z.of_nat m < MAX_POLLS /\ (forall k, (k < m)%nat -> core_idle (tick (S k) (tick 2000 h)) = false) /\
    core_idle (tick (S m) (tick 2000 h)) = true /\ (38 + cycles c <= 2001 + m)%nat.
Proof.
  intros Hws Hr Hdec Hc Hle. exists (38 + cycles c - 2001)%nat. split_and!; [unfold MAX_POLLS in *; lia| | |lia].
  - intros k Hk. rewrite (tb_sample ws c) by done. apply bool_decide_eq_false_2. lia.
  - rewrite (tb_sample ws c) by done. apply bool_decide_eq_true_2. lia.
Qed.

(** The testbench's way to run a command: after sixteen writes and the
    doorbell it lets 2000 clocks pass before it polls IDLE, and then
    [wait_idle] returns [true] exactly when the command needs no more clocks
    than the free-running and the polls together allow, and only with the
    hardware idle again after the command. (Without the free clocks it would
    return early, see [HwSubmit.poll_idle_too_early].) *)
Theorem tb_wait_is_completion w0 h ws c :
  length w0 = 16%nat -> quiet w0 h -> length ws = 16%nat -> npu_cmd_decode ws = Some c -> runnable c ->
  let needed := 38 + Z.of_nat (cycles c) in
  exists tr h2,
    run (submit_words ws;; wait_idle MAX_POLLS) h =
      (tr, Ok (bool_decide (needed <= 2000 + MAX_POLLS)), h2) /\
    (needed <= 2000 + MAX_POLLS -> quiet ws h2).
Proof.
  intros Hw0 Hq Hws Hdec Hc needed.
  destruct (replay_tb_command w0 ws h Hw0 Hws Hq) as (h1 & Hrep & Hr & _).
  assert (Hrun1 : run (submit_words ws) h = (command ws, Ok tt, tick 2000 h1)).
  { eapply exec_replay_run;
      [exact (proj2 (straight_submit ws Hws (command ws) (Ok tt)) (conj eq_refl eq_refl))|].
    rewrite <- (app_nil_r (command ws)). apply Hrep. }
  assert (Hfit : fits 32 MAX_POLLS) by done.
  destruct (decide (needed <= 2000 + MAX_POLLS)) as [Hle|Hgt].
  - destruct (tb_last_poll ws c h1 Hws Hr Hdec Hc Hle) as (m & Hm & Hb & Hi & Hn).
    destruct (tb_wait_idle_run MAX_POLLS m _ Hfit Hm Hb Hi) as [tr Hrun2].
    exists (command ws ++ tr), (tick (S m) (tick 2000 h1)).
    rewrite run_bind, Hrun1, Hrun2, bool_decide_eq_true_2 by done. split; [reflexivity|]. intros _.
    rewrite <- tick_add. apply (idle_from_37 ws c h1); [done..|lia|lia].
  - destruct (tb_wait_idle_timeout MAX_POLLS (tick 2000 h1) Hfit) as [tr Hrun2].
    + intros k Hk. rewrite (tb_sample ws c) by done. apply bool_decide_eq_false_2. unfold needed, MAX_POLLS in *. lia.
    + exists (command ws ++ tr), (tick (Z.to_nat MAX_POLLS) (tick 2000 h1)).
      rewrite run_bind, Hrun1, Hrun2, bool_decide_eq_false_2 by done. split; [reflexivity|]. intros Hle. lia.
Qed.
End tb.

#[local] Existing Instances ex_core ex_laws.

Theorem tb_wait_is_completion_witness :
  exists h2, quiet (words (ex_desc 1 16)) h2 /\
    exists tr, run (H := tb_answer)
      (submit_words (words (ex_desc 1 16));; wait_idle MAX_POLLS) hw_reset = (tr, Ok true, h2).
Proof.
  destruct (tb_wait_is_completion (L := ex_laws) (replicate 16 0) hw_reset
    (words (ex_desc 1 16)) (ex_cmd 1 16) eq_refl quiet_reset eq_refl (proj1 ex_decode) I)
    as (tr & h2 & Hrun & Hq).
  exists h2. split; [apply Hq; done|]. exists tr. exact Hrun.
Defined.
