(* ===== verification/TbBuf.v ===== *)
(** * The testbench at the buffer windows

    The rows of writes and reads with which the tests of [NpuTb] load their
    operands and fetch their results, against the shell of [Hw]: what they leave
    in the buffers and what they return, for any description of the machine that
    survives a buffer access. *)

From stdpp Require Import gmap strings.
From S2P Require Import Prelude Regs Prog Command Decode Runtime TbDesc CArith Golden GoldenRows Fifo.
From S2P Require Import ExtMem Mem Dma Hw HwPhases HwSubmit HwDma Tb TbTests TbHw.

Open Scope Z_scope.

(** ** Messages and bytes *)

(** The messages a trace prints. *)
Definition messages (tr : trace tb_call) : list report :=
  omap (fun e => match e.1 with Printf r => Some r | _ => None end) tr.

Lemma messages_app tr1 tr2 : messages (tr1 ++ tr2) = messages tr1 ++ messages tr2.
Proof. apply omap_app. Qed.

Lemma messages_row {A} (f : A -> tb_call * Z) l :
  (forall a, match (f a).1 with Printf _ => False | _ => True end) -> messages (f <$> l) = [].
Proof.
  intros Hf. induction l as [|a l IH]; [done|]. cbn. specialize (Hf a). by destruct (f a) as [[] v].
Qed.

Lemma messages_reads (read : Z -> tb_call) base i vs :
  (forall a, match read a with Printf _ => False | _ => True end) -> messages (read_row read base i vs) = [].
Proof.
  intros Hf. revert i. induction vs as [|v vs IH]; intros i; [done|]. cbn. specialize (Hf (u32 (base + i))).
  unfold messages in IH. rewrite IH. by destruct (read _).
Qed.

Lemma byte_of_u8 x : fits_i8 x -> byte_of (u8 x) = x.
Proof.
  intros Hx. unfold byte_of. change 0xFF with (2 ^ 8 - 1). rewrite land_mask, wrap_wrap_le by lia.
  rewrite <- (i8_id x Hx) at 2. unfold i8, wrap. change (2 ^ 8) with 256. by rewrite Zplus_mod_idemp_l.
Qed.

Lemma verdict_passed name data :
  verdict_report name data data = [(Printf (Passed name (Z.of_nat (length data))), 0)].
Proof.
  unfold verdict_report. rewrite decide_True by done.
  assert (Hm : forall i, mismatches name i data data = []); [|by rewrite Hm].
  induction data as [|x data IH]; intros i; [done|]. cbn. by rewrite Z.eqb_refl, IH.
Qed.

Lemma kept_byte a x : kept a (u8 x) = u8 x.
Proof.
  unfold kept. assert (Hx : fits 8 (u8 x)) by by apply fits_wrap.
  destruct (host_sel_psum a); apply wrap_small; [by apply (fits_mono 8)|done].
Qed.

(** The values of a row of bytes. *)
Definition bytes (data : list Z) : list Z := u8 <$> data.

Lemma bytes_back data : Forall fits_i8 data -> byte_of <$> bytes data = data.
Proof.
  intros Hd. unfold bytes. rewrite <- list_fmap_compose. rewrite <- (list_fmap_id data) at 2.
  apply list_fmap_ext. intros i x Hx. apply byte_of_u8. by apply (Forall_lookup_1 _ _ _ _ Hd Hx).
Qed.

Lemma bytes_fit data : Forall (fits 32) (bytes data).
Proof.
  apply Forall_fmap, Forall_true. intros x. apply (fits_mono 8); [done|]. by apply fits_wrap.
Qed.

Lemma messages_ticks n : messages (replicate n (Tick, 0)) = [].
Proof. by induction n. Qed.

Lemma messages_command ws : messages (command ws) = [].
Proof. unfold command. rewrite messages_app, messages_row by done. apply (messages_ticks 2000). Qed.

(** The end of a test that has read what it expected. *)
Lemma ending_passed name what clear read data base t1 :
  polls MAX_POLLS t1 true -> Forall fits_i8 data ->
  ending name what clear read data base
    (t1 ++ clear ++ read_row read base 0 (bytes data) ++ [(Printf (Passed name (Z.of_nat (length data))), 0)]) true.
Proof.
  intros Hp Hd. eexists true, t1, _. split_and!; [done|done|]. exists (bytes data).
  split_and!; [by unfold bytes; rewrite length_fmap|apply bytes_fit|by rewrite bytes_back, verdict_passed|].
  rewrite bytes_back by done. by rewrite bool_decide_eq_true_2.
Qed.

(** ** Rows of bytes in a window *)

(** The buffers after a row of writes, at the given indices. *)
Definition buf_stored (base : Z) (data : list Z) (b : sram) (l : list Z) : sram :=
  foldl (fun b i => poke b (u32 (base + i)) (u8 (data !!! Z.to_nat i))) b l.

Section row.
Context (data : list Z) (r : region) (o : Z).

Abbreviation n := (Z.of_nat (length data)).

Hypothesis Ho : 0 <= o.
Hypothesis Hsize : o + n <= window_size r.

Lemma row_address i :
  0 <= i < n -> u32 (window_base r + o + i) = window_base r + (o + i) /\ in_window (window_base r + (o + i)).
Proof using Ho Hsize.
  intros Hi. pose proof (window_bounds r). split; [|apply window_in; lia].
  rewrite wrap_small; [lia|]. unfold fits, MMIO_ADDR_W in *. lia.
Qed.

Lemma row_stored b j :
  (j < length data)%nat ->
  peek (buf_stored (window_base r + o) data b (seqZ 0 n)) (window_base r + (o + Z.of_nat j)) = u8 (data !!! j).
Proof using Ho Hsize.
  intros Hj. assert (Hin : 0 <= Z.of_nat j < n) by lia. destruct (row_address _ Hin) as [<- _].
  transitivity (kept (u32 (window_base r + o + Z.of_nat j)) (u8 (data !!! Z.to_nat (Z.of_nat j)))); [|by rewrite kept_byte, Nat2Z.id].
  apply (peek_pokes (fun i => u32 (window_base r + o + i)) (fun i => u8 (data !!! Z.to_nat i)) _ _ (Z.of_nat j)).
  - apply elem_of_seqZ. lia.
  - intros k Hk%elem_of_seqZ. destruct (row_address k ltac:(lia)) as [-> Hw]. done.
  - intros k Hk%elem_of_seqZ Hc. destruct (row_address k ltac:(lia)) as [Hk' _], (row_address _ Hin) as [Hj' _].
    rewrite Hk', Hj', !cell_of_inside in Hc by lia. injection Hc as Hc. by replace k with (Z.of_nat j) by lia.
Qed.

Lemma row_stored_other b r' k :
  0 <= k < window_size r' -> r' <> r \/ k < o \/ o + n <= k ->
  peek (buf_stored (window_base r + o) data b (seqZ 0 n)) (window_base r' + k) = peek b (window_base r' + k).
Proof using Ho Hsize.
  intros Hk Hr. apply peek_pokes_other; [by apply window_in|]. intros i Hi%elem_of_seqZ.
  destruct (row_address i ltac:(lia)) as [-> Hw]. split; [done|].
  rewrite !cell_of_inside by lia. intros [= <- Heq]. destruct Hr as [Hr|Hr]; [done|lia].
Qed.
End row.

(** ** Accesses *)

Section tb_buf.
Context {E : Type} {C : Core E} {L : CoreLaws C}.

Abbreviation clock h b rd := (hw_clock h b rd).
Abbreviation step := hw_step.
Abbreviation replays := (replay (H := tb_env)).
Abbreviation held h := (contents (u_bufs (h_mem h))).

Lemma replay_call c v tr h h' :
  tb_answer c h = (v, h') -> replays ((c, v) :: tr) h = replays tr h'.
Proof.
  intros Ha. cbn [replay]. change (answer c h) with (tb_answer c h).
  rewrite Ha. cbn [fst snd]. by rewrite decide_True.
Qed.

(** The buffer port is the host's. *)
Definition serving (h : hw E) : Prop := dma_idle (u_dma (h_mem h)) /\ be_idle (h_backend h).

Lemma serving_step h b rd :
  serving h -> u_bufs (h_mem (clock h b rd)) = buffers_step (u_bufs (h_mem h)) (buf_passthrough b rd) None.
Proof.
  intros [Hd Hb]. cbn [hw_clock h_mem mem_step u_bufs]. unfold be_act_wr, buf_port.
  rewrite (proj1 (dma_idle_view _ Hd)). destruct (idle_view _ Hb) as (_ & _ & Hw). by rewrite (proj2 (Hw _)).
Qed.

Lemma serving_stores h a v :
  serving h -> in_window a -> held (step h (Some (a, v))) = poke (held h) a v.
Proof.
  intros Hs Ha. unfold step, hw_step. rewrite serving_step by done. cbn [buf_passthrough]. rewrite is_buf_in by done. apply write_edge.
Qed.

(** A buffer access takes one clock. *)
Lemma serving_write h a v :
  serving (step h (Some (a, v))) -> in_window a -> tb_answer (Write a v) h = (0, step h (Some (a, v))).
Proof.
  intros [Hd Hb] Ha. unfold step, hw_step in *. set (h' := clock h (Some (a, v)) None) in *.
  cbn [tb_answer]. unfold mmio_write, until_ready, pins_step, pins_ready, pins_port, pins_bus, pins_read.
  cbn [mmio_addr mmio_wdata mmio_wr mmio_valid andb negb]. fold h'. rewrite is_buf_in by done.
  unfold buf_port, be_act_wr. rewrite (proj1 (dma_idle_view _ Hd)).
  destruct (idle_view _ Hb) as (_ & _ & Hw). rewrite (proj2 (Hw _)). cbn [buf_passthrough].
  rewrite is_buf_in by done. by rewrite (proj2 (write_granted a v true)).
Qed.

Lemma serving_read h a :
  serving h -> in_window a ->
  tb_answer (Read a) h = (peek (held h) a, clock h None (Some a)) /\ held (clock h None (Some a)) = held h.
Proof.
  intros Hs Ha. set (h' := clock h None (Some a)).
  assert (Hb := serving_step h None (Some a) Hs). fold h' in Hb. cbn [buf_passthrough] in Hb. rewrite is_buf_in in Hb by done.
  destruct (read_edge (u_bufs (h_mem h)) a 0) as (Hc & _ & Hin & _). destruct (Hin Ha) as [Hv Hd].
  rewrite <- Hb in Hc, Hv, Hd. split; [|done].
  cbn [tb_answer]. unfold mmio_read, until_ready, pins_step, pins_ready, pins_rdata, pins_bus, pins_read.
  cbn [mmio_addr mmio_wdata mmio_wr mmio_valid andb negb]. fold h'.
  rewrite is_buf_in, Hv by done. cbn [mbind option_bind]. by rewrite Hd.
Qed.

(** A description of the machine, with what the buffers hold, that survives
    the accesses. *)
Class Buffered (I : sram -> hw E -> Prop) := {
  buffered_serving m h : I m h -> serving h /\ held h = m;
  buffered_write m h a v : I m h -> in_window a ->
    held (step h (Some (a, v))) = poke m a v -> I (poke m a v) (step h (Some (a, v)));
  buffered_read m h a : I m h -> in_window a -> held (clock h None (Some a)) = m -> I m (clock h None (Some a)) }.

Section rows.
Context (I : sram -> hw E -> Prop) {B : Buffered I}.

Lemma buf_write m h a v :
  I m h -> in_window a -> exists h', tb_answer (Write a v) h = (0, h') /\ I (poke m a v) h'.
Proof using B.
  intros Hi Ha. destruct (buffered_serving m h Hi) as [Hs Hm].
  assert (Hst := serving_stores h a v Hs Ha). rewrite Hm in Hst. assert (Hi' := buffered_write m h a v Hi Ha Hst).
  exists (step h (Some (a, v))). split; [|done]. apply serving_write; [|done]. by apply (buffered_serving _ _ Hi').
Qed.

Lemma buf_read m h a : I m h -> in_window a -> exists h', tb_answer (Read a) h = (peek m a, h') /\ I m h'.
Proof.
  intros Hi Ha. destruct (buffered_serving m h Hi) as [Hs Hm]. destruct (serving_read h a Hs Ha) as [Hr Hh].
  rewrite Hm in Hr, Hh. exists (clock h None (Some a)). split; [done|]. by apply buffered_read.
Qed.

Lemma replay_buf_stores base data l m h :
  I m h -> (forall i, i ∈ l -> in_window (u32 (base + i))) ->
  exists h', (forall tr, replays (((fun i => (Write (u32 (base + i)) (u8 (data !!! Z.to_nat i)), 0)) <$> l) ++ tr) h =
                replays tr h') /\ I (buf_stored base data m l) h'.
Proof.
  revert m h. induction l as [|i l IH]; intros m h Hi Hin; [by exists h|].
  destruct (buf_write m h (u32 (base + i)) (u8 (data !!! Z.to_nat i)) Hi) as (h1 & Ha & Hi1); [by apply Hin; left|].
  destruct (IH _ _ Hi1) as (h' & Hrep & Hi'); [intros; apply Hin; by right|].
  exists h'. split; [|done]. intros tr. rewrite fmap_cons. cbn [app]. by rewrite (replay_call _ _ _ _ _ Ha).
Qed.

Lemma replay_buf_reads base i vs m h :
  I m h ->
  (forall j v, vs !! j = Some v ->
     in_window (u32 (base + (i + Z.of_nat j))) /\ v = peek m (u32 (base + (i + Z.of_nat j)))) ->
  exists h', (forall tr, replays (read_row Read base i vs ++ tr) h = replays tr h') /\ I m h'.
Proof.
  revert i h. induction vs as [|v vs IH]; intros i h Hi Hvs; [by exists h|].
  destruct (Hvs 0%nat v eq_refl) as [Hin Hv]. cbn [Z.of_nat] in Hin, Hv. rewrite Z.add_0_r in Hin, Hv.
  destruct (buf_read m h _ Hi Hin) as (h1 & Ha & Hi1). rewrite <- Hv in Ha.
  destruct (IH (i + 1) h1 Hi1) as (h' & Hrep & Hi').
  { intros j w Hj. replace (i + 1 + Z.of_nat j) with (i + Z.of_nat (S j)) by lia. by apply Hvs. }
  exists h'. split; [|done]. intros tr. cbn [read_row app]. by rewrite (replay_call _ _ _ _ _ Ha).
Qed.
End rows.

(** ** The descriptions used: a machine at rest, and an idle one *)

#[export] Instance resting_buffered ext : Buffered (fun m h => resting (m, ext) h).
Proof.
  split.
  - intros m h (Hc & (Hd & _) & HM & _). split; [split; [done|apply Hc]|]. by injection HM.
  - intros m h a v (Hc & Hr & HM & Hs) Ha Hh. destruct (inert_window a v Ha) as [Hbell Hstart].
    destruct (at_rest_step _ (mk_cycle (dma_config (h_regs h)) (buf_passthrough (Some (a, v)) None) true true) Hr Hs)
      as (Hr' & He & _). rewrite <- memory_clock in Hr', He by done.
    split_and!; [by apply calm_clock|done| |done]. unfold memories, hw_step in *. rewrite He.
    injection HM as <- <-. by rewrite <- Hh.
  - intros m h a Hr _ _. by apply resting_inert.
Qed.

Lemma quiet_read ws h rd : quiet ws h -> quiet ws (clock h None rd).
Proof.
  intros Hq. pose proof (quiet_step ws h None Hq harmless_none) as ((Hic & Hds & Hm & _ & Hf) & H).
  destruct Hq as ((_ & Hds' & _ & Hd & _) & _). split; [|exact H].
  split_and!; [exact Hic|exact Hds|exact Hm|by apply dma_idle_step|apply Hf..].
Qed.

#[export] Instance quiet_buffered ws : Buffered (fun m h => quiet ws h /\ held h = m).
Proof.
  split.
  - intros m h [Hq Hm]. split; [|done]. split; [apply Hq|apply Hq].
  - intros m h a v [Hq Hm] Ha Hh. split; [|done].
    assert (Hst := quiet_step ws h (Some (a, v)) Hq). cbn [mem_after] in Hst.
    replace (is_cmd_queue a) with false in Hst; [apply Hst|].
    + unfold harmless, written. cbn -[reg_at]. by rewrite window_no_reg.
    + symmetry. unfold is_cmd_queue. apply andb_false_intro2, Z.ltb_ge, Ha.
  - intros m h a [Hq Hm] _ Hh. split; [|done]. by apply quiet_read.
Qed.
End tb_buf.
