(* ===== verification/TbDma.v ===== *)
(** * The DMA tests of the testbench on the hardware

    [run_dma_read_test] and [run_dma_write_test] of [NpuTb] against the shell
    of [Hw]: register block, DMA engine, buffers and the testbench's external
    memory, from the first store to the verdict. *)

From stdpp Require Import gmap strings.
From S2P Require Import Prelude Regs Prog Command Decode Runtime TbDesc CArith Golden GoldenRows Fifo.
From S2P Require Import ExtMem Mem Dma Hw HwPhases HwSubmit HwDma Tb TbTests TbHw TbBuf.

Open Scope Z_scope.

Section tb_dma.
Context {E : Type} {C : Core E} {L : CoreLaws C}.

Abbreviation clock h b rd := (hw_clock h b rd).
Abbreviation step := hw_step.
Abbreviation tick := ticks.

Abbreviation replays := (replay (H := tb_env)).
Abbreviation runs := (run (H := tb_env)).

Lemma tb_reg_at r : reg_at (tb_reg r) = Some r.
Proof. by destruct r. Qed.

Lemma tb_reg_below r : tb_reg r < rtl_region WEIGHT_BUF.
Proof. by destruct r. Qed.

Lemma replay_dma_writes ea la n dir M h :
  resting M h -> fits 20 la -> fits 16 n ->
  exists h', (forall tr, replays ([(Write (tb_reg R_DMA_EXT_ADDR) ea, 0); (Write (tb_reg R_DMA_LOC_ADDR) la, 0);
      (Write (tb_reg R_DMA_LEN) n, 0); (Write (tb_reg R_DMA_CTRL) (if Z.odd dir then 3 else 1), 0)] ++ tr) h =
      replays tr h') /\
    calm h' /\ at_rest (memory h') /\ memories (memory h') = M /\
    dma_config (h_regs h') = mk_cfg ea la n true (Z.odd dir).
Proof.
  intros Hr Hl Hn. eexists. split.
  { intros tr. cbn [app]. rewrite !replay_tb_write by apply tb_reg_below. by rewrite <- programmed_0. }
  destruct (programmed_ready tb_reg 0 tb_reg_at ea la n (if Z.odd dir then 3 else 1) M h Hr)
    as (Hcalm & Hrest & HM & ->). split_and!; [done..|]. rewrite !wrap_small by done. by destruct (Z.odd dir).
Qed.

Lemma replay_dma_program ea la n dir M h :
  resting M h -> fits 32 ea -> fits 20 la -> fits 16 n ->
  let c := mk_cfg ea la n true (Z.odd dir) in
  windows_ok c ->
  exists h' w1, (forall tr, replays (dma_program ea la n dir ++ tr) h = replays tr h') /\
    memories w1 = M /\ under_way (Z.odd dir) c w1 3 h'.
Proof.
  intros Hr He Hl Hn c Hwin.
  destruct (replay_dma_writes ea la n dir M h Hr Hl Hn) as (h4 & Hrep & Hcalm & Hrest & HM & Hc).
  exists (tick 3 (step h4 None)), (memory h4).
  assert (Hgo := started h4 Hcalm Hrest). rewrite Hc in Hgo. specialize (Hgo eq_refl).
  split_and!; [|done|].
  - intros tr. etransitivity; [apply (Hrep (replicate 4 (Tick, 0) ++ tr))|]. by rewrite replay_tb_ticks.
  - apply (under_way_ticks _ _ _ 0 _ 3); [done|done|]. by apply Hgo.
Qed.

(** ** Polling, and clearing the interrupt *)

(** The first poll that finds the core idle. *)
Definition idle_poll (n : Z) : nat := 3 * elements n - 4.

Lemma replay_transfer ea la n dir M h :
  resting M h -> fits 32 ea -> fits 20 la -> fits 16 n ->
  let c := mk_cfg ea la n true (Z.odd dir) in
  windows_ok c ->
  exists t1 h', (polls MAX_POLLS t1 true /\ messages t1 = []) /\
    (forall tr, replays (dma_program ea la n dir ++ t1 ++ [(Write (tb_reg R_IRQ_CLEAR) 1, 0)] ++ tr) h = replays tr h') /\
    resting (transferred (Z.odd dir) c M (elements n)) h'.
Proof.
  intros Hr He Hl Hn c Hwin.
  destruct (replay_dma_program ea la n dir M h Hr He Hl Hn Hwin) as (h5 & w1 & Hrep & <- & Hu). fold c in Hu.
  assert (Hfit : cfg_fits c) by done. set (m := idle_poll n).
  assert (Hlt : Z.of_nat m < MAX_POLLS).
  { unfold m, idle_poll, elements, MAX_POLLS. rewrite fits16_iff in Hn. lia. }
  assert (Hidle : forall k, core_idle (tick (S k) h5) = bool_decide (3 * elements n <= 4 + k)%nat).
  { intros k. replace (4 + k)%nat with (3 + S k)%nat by lia.
    exact (under_way_idle _ c w1 _ _ (under_way_ticks _ c w1 3 h5 (S k) Hfit Hwin Hu)). }
  exists ((fun k => (Read (tb_reg R_STATUS), status_after h5 k)) <$> seq 0 (S m)),
    (step (tick (S m) h5) (Some (tb_reg R_IRQ_CLEAR, 1))). split_and!; [|by apply messages_row| |].
  - apply tb_polls_idle; [done| |]; [intros k Hk|]; rewrite Hidle.
    + apply bool_decide_eq_false_2. unfold m, idle_poll in Hk. lia.
    + apply bool_decide_eq_true_2. unfold m, idle_poll. lia.
  - intros tr. rewrite Hrep, replay_app, replay_tb_polls. cbn [mbind option_bind app].
    by rewrite replay_tb_write by apply tb_reg_below.
  - apply (under_way_over _ c w1 (S (3 + S m))).
    + apply under_way_clock; [done|done|by apply under_way_ticks|by apply (inert_write _ _ _ (tb_reg_at R_IRQ_CLEAR))|].
      by apply is_buf_below, tb_reg_below.
    + unfold m, idle_poll, c. cbn [c_len]. lia.
Qed.

(** ** Loading the source and reading the destination *)

(** Rows of stores to the external memory and of writes to the buffers, at the
    given indices. *)
Definition ext_stored (base : Z) (data : list Z) (m : gmap Z Z) (l : list Z) : gmap Z Z :=
  foldl (fun m i => <[u32 (base + i) := u8 (data !!! Z.to_nat i)]> m) m l.
Lemma resting_with_ext M h m : resting M h -> resting (M.1, m) (with_ext h m).
Proof. intros (Hc & (Hd & Hp) & <- & Hs). by split_and!. Qed.

Lemma replay_ext_stores base data l M h :
  resting M h ->
  exists h', (forall tr, replays (((fun i => (ExtStore (u32 (base + i)) (u8 (data !!! Z.to_nat i)), 0)) <$> l) ++ tr) h =
                replays tr h') /\ resting (M.1, ext_stored base data M.2 l) h'.
Proof.
  revert M h. induction l as [|i l IH]; intros M h Hr; [exists h; by destruct M|].
  destruct (IH _ _ (resting_with_ext M h (<[u32 (base + i) := u8 (data !!! Z.to_nat i)]> M.2) Hr)) as (h' & Hrep & Hr').
  exists h'. split; [|done]. intros tr. rewrite fmap_cons. cbn [app]. rewrite <- Hrep.
  destruct Hr as (_ & _ & <- & _). done.
Qed.

Lemma replay_ext_reads base i vs h tr :
  (forall j v, vs !! j = Some v -> v = ext_load (ext_memory (h_ext h)) (u32 (base + (i + Z.of_nat j)))) ->
  replays (read_row ExtLoad base i vs ++ tr) h = replays tr h.
Proof.
  revert i. induction vs as [|v vs IH]; intros i Hvs; [done|]. cbn [read_row app].
  assert (Hv := Hvs 0%nat v eq_refl). cbn [Z.of_nat] in Hv. rewrite Z.add_0_r in Hv.
  rewrite (replay_call _ _ _ h h) by (cbn [tb_answer]; by rewrite <- Hv). apply IH.
  intros j w Hj. replace (i + 1 + Z.of_nat j) with (i + Z.of_nat (S j)) by lia. by apply Hvs.
Qed.

(** ** The tests *)

Section tests.
Context (name : string) (data : list Z) (ea : Z) (r : region) (o n la : Z).
Hypothesis Hlen : n = Z.of_nat (length data).
Hypothesis Hla : la = window_base r + o.
Hypothesis Hdata : Forall fits_i8 data.
Hypothesis Hn : 1 <= n.
Hypothesis Ho : 0 <= o.
Hypothesis Hsize : o + n <= window_size r.
Hypothesis Hea : fits 32 ea.

Definition transfer (dir : bool) : dma_cfg := mk_cfg ea la n true dir.

Lemma size_bound : n <= 8192.
Proof using Hlen Hla Hn Ho Hsize. clear Hla. destruct r; unfold window_size, SRAM_ADDR_W in Hsize; lia. Qed.

Lemma transfer_inside dir : inside (transfer dir) r o.
Proof using Hlen Hla Hn Ho Hsize. unfold inside, transfer, elements. cbn [c_loc c_len]. split_and!; [done|done|lia]. Qed.

Lemma elements_n : elements n = length data.
Proof using Hlen Hn. unfold elements. lia. Qed.

Lemma transfer_len dir : elements (c_len (transfer dir)) = length data.
Proof using Hlen Hn. apply elements_n. Qed.

Lemma loc_fits : fits 20 la.
Proof using Hlen Hla Hn Ho Hsize. pose proof (window_bounds r). unfold fits. fold MMIO_ADDR_W. lia. Qed.

Lemma local_address i : 0 <= i < n -> u32 (la + i) = window_base r + (o + i) /\ in_window (u32 (la + i)).
Proof using Hlen Hla Hn Ho Hsize.
  intros Hi. destruct (row_address data r o Ho ltac:(lia) i ltac:(lia)) as [Ha Hw]. rewrite Hla, Ha. by split.
Qed.

Lemma index_inj dir j k :
  0 <= k < n -> (j < length data)%nat -> ext_at (transfer dir) (Z.to_nat k) = ext_at (transfer dir) j -> k = Z.of_nat j.
Proof using Hlen Hla Hn Ho Hsize.
  intros Hk Hj Heq. pose proof size_bound. pose proof elements_n. enough (Z.to_nat k = j) by lia. apply (ext_at_inj (transfer dir)); [..|exact Heq];
    unfold transfer; cbn [c_len]; [lia..|]. apply fits16_iff. lia.
Qed.

(** The external memory after the row of stores. *)
Lemma ext_stored_at dir m j :
  (j < length data)%nat ->
  ext_load (ext_stored ea data m (seqZ 0 n)) (ext_at (transfer dir) j) = u8 (data !!! j).
Proof using Hlen Hla Hn Ho Hsize.
  intros Hj. rewrite <- (Nat2Z.id j) at 2.
  apply (load_inserts (fun i => u32 (ea + i)) (fun i => u8 (data !!! Z.to_nat i)) _ _ (Z.of_nat j));
    [apply elem_of_seqZ; lia|].
  intros k Hk%elem_of_seqZ Heq. rewrite (index_inj dir j k); [done|lia|done|].
  unfold ext_at, transfer. cbn [c_ext]. by rewrite Z2Nat.id by lia.
Qed.

(** The buffers after the row of writes. *)
Lemma buf_stored_at b j :
  (j < length data)%nat ->
  peek (buf_stored la data b (seqZ 0 n)) (window_base r + (o + Z.of_nat j)) = u8 (data !!! j).
Proof using Hlen Hla Hn Ho Hsize. rewrite Hlen, Hla. apply row_stored; lia. Qed.

Lemma windows_transfer dir : windows_ok (transfer dir).
Proof using Hlen Hla Hn Ho Hsize. apply (inside_windows _ r o), transfer_inside. Qed.

Lemma fits_n : fits 16 n.
Proof using Hlen Hla Hn Ho Hsize. pose proof size_bound. apply fits16_iff. lia. Qed.

(** The read test, up to the comparison. *)
Lemma read_test_replay M h :
  resting M h ->
  exists t1 h', (polls MAX_POLLS t1 true /\ messages t1 = []) /\ resting (transferred false (transfer false)
      (M.1, ext_stored ea data M.2 (seqZ 0 n)) (length data)) h' /\
    replays (row ExtStore ea data ++ dma_program ea la n 0 ++ t1 ++ [(Write (tb_reg R_IRQ_CLEAR) 1, 0)] ++
       read_row Read la 0 (bytes data) ++ [(Printf (Passed name n), 0)]) h = Some h'.
Proof using Hlen Hla Hn Ho Hsize Hea.
  intros Hr. destruct (replay_ext_stores ea data (seqZ 0 n) M h Hr) as (h1 & Hrep1 & Hr1).
  destruct (replay_transfer ea la n 0 _ h1 Hr1 Hea loc_fits fits_n (windows_transfer false))
    as (t1 & h2 & Hp & Hrep2 & Hr2). rewrite elements_n in Hr2.
  destruct (replay_buf_reads _ la 0 (bytes data) _ h2 Hr2) as (h3 & Hrep3 & Hr3).
  { intros j v Hj. unfold bytes in Hj. rewrite list_lookup_fmap in Hj.
    apply fmap_Some in Hj as (x & Hx & ->). assert (Hlt := lookup_lt_Some _ _ _ Hx).
    assert (Hin : 0 <= Z.of_nat j < n) by (lia). rewrite Z.add_0_l.
    destruct (local_address _ Hin) as [Heq Hw]. split; [done|]. rewrite Heq.
    unfold transferred. cbn [fst snd Z.odd].
    rewrite (peek_copied_in _ _ _ r o) by (apply (transfer_inside false) || lia || (rewrite transfer_len; lia)).
    rewrite decide_True by (split; [done|lia]).
    replace (Z.to_nat (o + Z.of_nat j - o)) with j by lia.
    change (mk_cfg ea la n true (Z.odd 0)) with (transfer false).
    rewrite ext_stored_at, kept_byte by done. by rewrite (list_lookup_total_correct _ _ _ Hx). }
  exists t1, h3. split; [done|]. split; [done|].
  unfold row. rewrite <- Hlen. rewrite Hrep1. rewrite Hrep2, Hrep3. done.
Qed.

(** The write test, up to the comparison. *)
Lemma write_test_replay M h :
  resting M h ->
  exists t1 h', (polls MAX_POLLS t1 true /\ messages t1 = []) /\ resting (transferred true (transfer true)
      (buf_stored la data M.1 (seqZ 0 n), M.2) (length data)) h' /\
    replays (row Write la data ++ dma_program ea la n 1 ++ t1 ++ [(Write (tb_reg R_IRQ_CLEAR) 1, 0)] ++
       read_row ExtLoad ea 0 (bytes data) ++ [(Printf (Passed name n), 0)]) h = Some h'.
Proof using Hlen Hla Hn Ho Hsize Hea.
  intros Hr. destruct M as [m ext]. destruct (replay_buf_stores _ la data (seqZ 0 n) m h Hr) as (h1 & Hrep1 & Hr1).
  { intros i Hi%elem_of_seqZ. apply local_address. lia. }
  destruct (replay_transfer ea la n 1 _ h1 Hr1 Hea loc_fits fits_n (windows_transfer true))
    as (t1 & h2 & Hp & Hrep2 & Hr2). rewrite elements_n in Hr2. exists t1, h2. split; [done|]. split; [done|].
  unfold row. rewrite <- Hlen, Hrep1, Hrep2. rewrite replay_ext_reads; [done|].
  intros j v Hj. unfold bytes in Hj. rewrite list_lookup_fmap in Hj.
  apply fmap_Some in Hj as (x & Hx & ->). assert (Hlt := lookup_lt_Some _ _ _ Hx).
  destruct Hr2 as (_ & _ & HM & _). apply (f_equal snd) in HM. cbn [memories memory snd] in HM.
  rewrite HM. unfold transferred. cbn [fst snd Z.odd].
  change (u32 (ea + (0 + Z.of_nat j))) with (ext_at (transfer true) j).
  change (mk_cfg ea la n true (Z.odd 1)) with (transfer true).
  rewrite (proj1 (load_copied_out (transfer true) _ _ _ (length data) fits_n ltac:(by rewrite transfer_len)) j) by done.
  rewrite (loc_at_inside _ r o) by (apply (transfer_inside true) || (rewrite transfer_len; lia)).
  rewrite buf_stored_at by done. by rewrite (list_lookup_total_correct _ _ _ Hx).
Qed.
End tests.

(** C14. The DMA tests of the testbench pass on this hardware: for every row of
    one or more bytes, every external address (rows that wrap at 32 bits
    included) and every place inside one of the three windows, both tests,
    started on an idle machine, end with [true] and the one message that says
    so, within the polls they allow. Afterwards the destination holds the data
    and everything else in the two memories is as the stores to the source left
    it. *)
Theorem dma_tests_pass name data ea r o ws h :
  quiet ws h -> ext_rd_pending (h_ext h) = false ->
  Forall fits_i8 data -> (1 <= length data)%nat -> fits 32 ea ->
  0 <= o -> o + Z.of_nat (length data) <= window_size r ->
  let la := window_base r + o in
  let n := Z.of_nat (length data) in
  let M := memories (memory h) in
  let passes p M' := exists tr h',
    runs p h = (tr, Ok true, h') /\ messages tr = [Passed name n] /\ resting M' h' in
  passes (run_dma_read_test name data ea la)
    (transferred false (mk_cfg ea la n true false) (M.1, ext_stored ea data M.2 (seqZ 0 n)) (length data)) /\
  passes (run_dma_write_test name data la ea)
    (transferred true (mk_cfg ea la n true true) (buf_stored la data M.1 (seqZ 0 n), M.2) (length data)).
Proof.
  intros Hq Hp Hd Hl Hea Ho Hs la n M passes.
  assert (Hr := quiet_resting _ _ Hq Hp : resting M h).
  assert (HINT : Z.of_nat (length data) <= INT_MAX).
  { pose proof (size_bound data r o n la eq_refl eq_refl ltac:(lia) Ho Hs). unfold INT_MAX. lia. }
  split.
  - destruct (read_test_replay name data ea r o n la eq_refl eq_refl ltac:(lia) Ho Hs Hea M h Hr)
      as (t1 & h' & [Hp1 Hm] & Hr' & Hrep).
    eexists _, h'. split_and!; [|clear Hrep|exact Hr'].
    + eapply exec_replay_run; [|exact Hrep].
      apply (proj1 (dma_tests_verdict name data ea la _ (Ok true) HINT)).
      eexists _, true. split_and!; [done|reflexivity|]. by apply ending_passed.
    + unfold row. rewrite !messages_app, Hm, messages_row, messages_reads by done. done.
  - destruct (write_test_replay name data ea r o n la eq_refl eq_refl ltac:(lia) Ho Hs Hea M h Hr)
      as (t1 & h' & [Hp1 Hm] & Hr' & Hrep).
    eexists _, h'. split_and!; [|clear Hrep|exact Hr'].
    + eapply exec_replay_run; [|exact Hrep].
      apply (proj2 (dma_tests_verdict name data ea la _ (Ok true) HINT)).
      eexists _, true. split_and!; [done|reflexivity|]. by apply ending_passed.
    + unfold row. rewrite !messages_app, Hm, messages_row, messages_reads by done. done.
Qed.

(** ** The host during a transfer *)

(** A host write to a buffer window during a transfer. The shell takes
    [mmio_ready] from the grant of whoever owns the buffer port, so a write that
    arrives while the reader waits for the external memory is acknowledged by
    the grant of the reader's own store one clock later: [mmio_write] of the
    testbench returns, but the memories are exactly those of a clock without
    the write. The value is lost without any sign of it. *)
Theorem host_write_lost c w0 i h a v fuel :
  cfg_fits c -> windows_ok c -> (i < elements (c_len c))%nat -> in_window a ->
  calm h -> dma_start_r (h_regs h) = false ->
  reading c (contents (u_bufs w0.1)) (ext_memory w0.2) i 1 (memory h) ->
  exists h', mmio_write pins_step pins_ready (S fuel) a v h = Some h' /\
    memory h' = memory (step h None) /\
    memories (memory h') = memories (memory h).
Proof.
  intros Hfit Hwin Hi Ha Hc Hs Hr. set (h' := clock h (Some (a, v)) None).
  destruct (inert_window a v Ha) as [Hbell Hstart].
  assert (Hc' : calm h') by by apply calm_clock.
  set (y := mk_cycle (dma_config (h_regs h)) (buf_passthrough (Some (a, v)) None) true true).
  assert (Hm : memory h' = world_step (memory h) y) by by apply memory_clock.
  assert (Hr' : reading c (contents (u_bufs w0.1)) (ext_memory w0.2) i 2 (memory h')).
  { rewrite Hm. exact (reading_step _ _ _ i 1 _ y Hfit Hi Hs Hr). }
  exists h'. split_and!.
  - unfold mmio_write, until_ready, pins_ready, pins_step, pins_port, pins_bus, pins_read.
    cbn [mmio_addr mmio_wdata mmio_wr mmio_valid andb negb]. fold h'. rewrite is_buf_in by done.
    rewrite calm_no_write by done.
    change (h_mem h') with (memory h').1. destruct Hr' as (_ & (_ & Hl & _) & Hst & _).
    unfold buf_port, dma_busy, dma_buf, rd_busy, rd_buf. rewrite Hst. cbn [orb p_addr p_wdata p_wr p_req].
    by rewrite Hl, (proj2 (write_granted _ _ _) (Hwin i Hi)).
  - rewrite Hm. unfold hw_step. rewrite memory_clock by done. unfold world_step, mem_step, buf_port.
    destruct Hr as (_ & _ & Hst & _). unfold dma_busy, rd_busy. by rewrite Hst.
  - destruct Hr as ((_ & Hb & He) & _), Hr' as ((_ & Hb' & He') & _). unfold memories.
    by rewrite Hb, Hb', He, He'.
Qed.
End tb_dma.

(** ** Witnesses *)

#[local] Existing Instances ex_core ex_laws.

Theorem dma_tests_pass_witness :
  exists tr h', run (H := tb_env)
      (run_dma_read_test "DMA" [100; -3] 0xFFFFFFFF (window_base ACT_BUF + 16)) hw_reset = (tr, Ok true, h') /\
    messages tr = [Passed "DMA" 2].
Proof.
  destruct (dma_tests_pass (L := ex_laws) "DMA" [100; -3] 0xFFFFFFFF ACT_BUF 16 (replicate 16 0) hw_reset
    quiet_reset eq_refl ltac:(by apply (bool_decide_unpack _); vm_compute) ltac:(cbn; lia)
    ltac:(by apply fits32_iff) ltac:(done) ltac:(done)) as [(tr & h' & Hrun & Hm & _) _].
  exists tr, h'. split; [exact Hrun|exact Hm].
Defined.

(** A transfer of four bytes, two clocks after its start. *)
Definition ex_transferring : hw engine :=
  ticks 2 (hw_step (hw_step
    (hw_step hw_reset (Some (tb_reg R_DMA_LOC_ADDR, 0x20000)))
    (Some (tb_reg R_DMA_LEN, 4))) (Some (tb_reg R_DMA_CTRL, 1))).

Theorem host_write_lost_witness :
  exists h', mmio_write pins_step pins_ready 1 0x10000 42 ex_transferring = Some h' /\
    peek (memories (memory h')).1 0x10000 = 0.
Proof.
  destruct (host_write_lost (L := ex_laws) (mk_cfg 0 0x20000 4 true false) (memory hw_reset) 0 ex_transferring
    0x10000 42 0) as (h' & Hw & _ & Hm); [done| |vm_compute; lia|done|done|done| |].
  - by apply (inside_windows _ ACT_BUF 0).
  - by split_and!.
  - exists h'. split; [exact Hw|]. rewrite Hm. by vm_compute.
Defined.
