(* ===== verification/TbBackend.v ===== *)
(** * The testbench's tests on a machine with backends

    The end-to-end tests of [NpuTb] against the shell of [Hw] around the core of
    [NpuCore]: whatever the backend, a test passes if the backend leaves the
    expected bytes where the test reads them. *)

From stdpp Require Import gmap strings.
From S2P Require Import Prelude Regs Prog Command Decode Runtime TbDesc CArith Golden GoldenRows Fifo.
From S2P Require Import ExtMem Mem Dma BackendMem Backend Hw HwPhases HwSubmit HwDma NpuCore HwBackend.
From S2P Require Import Tb TbTests TbHw TbBuf.

Open Scope Z_scope.

Abbreviation replays := (replay (S := chip) (H := tb_env)).
Abbreviation idle ws m h := (quiet ws h /\ held h = m).

Lemma replay_row ws r o data m (h : chip) :
  0 <= o -> o + Z.of_nat (length data) <= window_size r -> idle ws m h ->
  exists h', (forall tr, replays (row Write (window_base r + o) data ++ tr) h = replays tr h') /\
    idle ws (buf_stored (window_base r + o) data m (seqZ 0 (Z.of_nat (length data)))) h'.
Proof.
  intros Ho Hs Hi. apply (replay_buf_stores (fun m h => idle ws m h)); [done|].
  intros i Hin%elem_of_seqZ. destruct (row_address data r o Ho Hs i) as [-> Hw]; [lia|done].
Qed.

(** The output sizes the library derives are those of the testbench. *)
Lemma derived H pad R stride :
  window_wf H pad R stride -> fits 16 H -> fits 16 pad -> fits 16 R -> fits 16 stride -> positions H pad R stride <= 8192 ->
  derive_out_dim H pad R stride 0 = positions H pad R stride.
Proof.
  intros Hw HH Hp HR Hs Hb. pose proof (positions_bound _ _ _ _ Hw). destruct Hw as (_ & _ & HRs & Hst & _).
  rewrite derive_out_dim_small by (done || lia). apply wrap_small, fits16_iff. unfold positions in *. lia.
Qed.


(** ** A command

    Served if the polls after it find it completed, with the buffers [m']. *)
Definition serves (p : npu_params) (m m' : sram) : Prop :=
  forall ws (h : chip), length ws = 16%nat -> quiet ws h -> held h = m ->
  exists t1 h', polls MAX_POLLS t1 true /\ messages t1 = [] /\
    (forall tr, replays (command (desc_layout p) ++ t1 ++ tr) h = replays tr h') /\
    idle (desc_layout p) m' h'.

(** It is, if the machine is never quiet before the first quiet sample and is
    quiet from then on. *)
Lemma polled_serves p m m' :
  params_wf p ->
  (forall c h1, npu_cmd_decode (desc_layout p) = Some c -> npu_dispatch c = requested p ->
    rung (desc_layout p) h1 -> issuing (desc_layout p) c (ticks 36 h1) -> held (ticks 36 h1) = m ->
    exists n, Z.of_nat n < MAX_POLLS /\ (forall k, (k < n)%nat -> core_idle (ticks (S k) (ticks 2000 h1)) = false) /\
      idle (desc_layout p) m' (ticks (2000 + S n) h1)) ->
  serves p m m'.
Proof.
  intros Hwf Hserve ws h Hws Hq Hm0. assert (Hl16 : length (desc_layout p) = 16%nat) by apply length_desc_layout.
  destruct (replay_tb_command ws (desc_layout p) h Hws Hl16 Hq) as (h1 & Hrep & Hr & Hm).
  pose proof (decode_layout p Hwf) as Hdec. apply fmap_Some in Hdec as (c & Hdec & Hreq).
  destruct (rung_timeline (desc_layout p) c h1 Hl16 Hr Hdec) as (Hi & _).
  destruct (Hserve c h1 Hdec (eq_sym Hreq) Hr Hi) as (n & Hn & Hb & Hqn & Hmn);
    [rewrite <- Hm0, <- Hm; by apply (rung_memory (desc_layout p) c h1)|].
  exists ((fun j => (Read (tb_reg R_STATUS), status_after (ticks 2000 h1) j)) <$> seq 0 (S n)),
    (ticks (S n) (ticks 2000 h1)). rewrite <- tick_add. split_and!.
  - apply tb_polls_idle; [done|done|]. rewrite <- tick_add. by eapply quiet_idle.
  - by apply messages_row.
  - intros tr. rewrite Hrep, replay_app, replay_tb_polls, tick_add. done.
  - done.
  - done.
Qed.

(** A command for a backend that keeps the contract of [Backend]. *)
Lemma slot_serves p s (k : slot_cmd s) (EL : BackendEffect (slot_laws s)) m :
  params_wf p -> (forall c, npu_dispatch c = requested p -> owner c = s /\ cmd_for s true c = Some k) ->
  bk_runnable k -> 38 + Z.of_nat (bk_cycles k) <= 2000 + MAX_POLLS -> serves p m (bk_effect k m).
Proof.
  intros Hwf Hown Hrun Hlong. apply polled_serves; [done|]. intros c h1 Hdec Hreq Hr Hi Hm.
  assert (Hl16 : length (desc_layout p) = 16%nat) by apply length_desc_layout. destruct (Hown c Hreq) as [Ho Hk].
  assert (Hrun' : runnable c) by (cbn; unfold core_runnable; subst s; by rewrite Hk).
  assert (Hcyc : cycles c = bk_cycles k) by (cbn; unfold core_cycles; subst s; by rewrite Hk).
  destruct (tb_last_poll (desc_layout p) c h1 Hl16 Hr Hdec Hrun') as (n & Hn & Hb & _ & Hlast); [by rewrite Hcyc|].
  exists n. split_and!; [done|done|..];
    destruct (slot_executes (desc_layout p) c s k m Ho Hk EL (ticks 36 h1) Hrun Hi Hm) as (Hq' & Hp' & Hm');
    destruct (quiet_stays (desc_layout p) 36 (bk_cycles k + 2) (2000 + S n) h1 (conj Hq' Hp')) as (Hqn & _ & Hmn); [lia|done|lia|].
  by rewrite Hmn.
Qed.

(** ** A test *)

(** The run of a test whose operands have been loaded as [m]. *)
Lemma served_test_passes name t ws (h : chip) m m' out :
  test_wf t -> golden t = Ok out -> Forall fits_i8 out -> Z.of_nat (length out) <= INT_MAX ->
  serves (test_params t) m m' -> length ws = 16%nat ->
  (exists h1, (forall tr, replays (loads t ++ tr) h = replays tr h1) /\ idle ws m h1) -> messages (loads t) = [] ->
  (forall j x, out !! j = Some x -> in_window (u32 (out_base t + Z.of_nat j)) /\
    peek m' (u32 (out_base t + Z.of_nat j)) = u8 x) ->
  exists tr h',
    run (H := tb_env) (run_test name t) h = (tr, Ok true, h') /\ messages tr = [Passed name (Z.of_nat (length out))] /\
    idle (desc_layout (test_params t)) m' h'.
Proof.
  intros Hwf Hg Hfit Hlen Hserve Hws (h1 & Hrep1 & Hq1 & Hm1) Hload Hres.
  destruct (Hserve ws h1 Hws Hq1 Hm1) as (t1 & h2 & Hp & Hmsg & Hrep2 & Hi2).
  destruct (replay_buf_reads (fun m h => idle (desc_layout (test_params t)) m h) (out_base t) 0 (bytes out) _ h2 Hi2) as (h3 & Hrep3 & Hq3 & Hm3).
  { intros j v Hj. unfold bytes in Hj. rewrite list_lookup_fmap in Hj. apply fmap_Some in Hj as (x & Hx & ->).
    rewrite Z.add_0_l. by destruct (Hres j x Hx) as [Hin ->]. }
  eexists _, h3. split_and!; [| |done|done].
  - eapply exec_replay_run; [apply (run_test_iff name t out _ (Ok true) Hwf Hg Hlen)|].
    + eexists _, true. split_and!; [done|done|]. by apply (ending_passed _ _ [] Read).
    + rewrite Hrep1, Hrep2. cbn [app]. rewrite Hrep3. done.
  - rewrite !messages_app, messages_command, Hmsg, Hload. rewrite messages_reads by done. done.
Qed.

Lemma test_passes name t ws (h : chip) s (k : slot_cmd s) (EL : BackendEffect (slot_laws s)) m out :
  test_wf t -> golden t = Ok out -> Forall fits_i8 out -> Z.of_nat (length out) <= INT_MAX ->
  (forall c, npu_dispatch c = requested (test_params t) -> owner c = s /\ cmd_for s true c = Some k) ->
  bk_runnable k -> 38 + Z.of_nat (bk_cycles k) <= 2000 + MAX_POLLS -> length ws = 16%nat ->
  (exists h1, (forall tr, replays (loads t ++ tr) h = replays tr h1) /\ idle ws m h1) -> messages (loads t) = [] ->
  (forall j x, out !! j = Some x -> in_window (u32 (out_base t + Z.of_nat j)) /\
    peek (bk_effect k m) (u32 (out_base t + Z.of_nat j)) = u8 x) ->
  exists tr h',
    run (H := tb_env) (run_test name t) h = (tr, Ok true, h') /\ messages tr = [Passed name (Z.of_nat (length out))] /\
    idle (desc_layout (test_params t)) (bk_effect k m) h'.
Proof.
  intros Hwf Hg Hfit Hlen Hown Hrun Hlong Hws Hld Hload Hres.
  apply (served_test_passes name t ws h m); try done. by apply slot_serves; [apply Hwf|..].
Qed.
