(* ===== verification/TbVec.v ===== *)
(** * The vector tests of the testbench on the hardware

    [run_vec_test] of [NpuTb] against the whole machine: the shell of [Hw], the
    core of [NpuCore] and the vector backend behind it, from the first byte of
    the operands to the verdict. *)

From stdpp Require Import gmap strings.
From S2P Require Import Prelude Regs Prog Command Decode Runtime TbDesc CArith Golden GoldenRows Fifo.
From S2P Require Import ExtMem Mem Dma BackendMem Backend VecBackend Hw HwPhases HwSubmit HwDma NpuCore HwBackend HwVec.
From S2P Require Import Tb TbTests TbHw TbBuf TbBackend.

Open Scope Z_scope.

(** What [NpuTb] expects of a vector test: both operands have the announced
    length and lie in their buffers, so does the result, the parameters are
    in the range of their fields, and no result overwrites an operand that is
    still to be read (the result may lie before or on the first operand). *)
Definition vec_test_ok (t : vec_test) : Prop :=
  let n := vt_length t in
  i8_array (vt_a t) n /\ i8_array (vt_b t) n /\ 1 <= n /\
  fits 1 (vt_vec_op t) /\ fits 5 (vt_qshift t) /\ fits 2 (vt_act_mode t) /\
  (0 <= vt_a_addr t /\ vt_a_addr t + n <= window_size ACT_BUF) /\
  (0 <= vt_b_addr t /\ vt_b_addr t + n <= window_size WEIGHT_BUF) /\
  (0 <= vt_out_addr t /\ vt_out_addr t + n <= window_size ACT_BUF) /\
  (vt_out_addr t <= vt_a_addr t \/ vt_a_addr t + n <= vt_out_addr t).

Section test.
Context (t : vec_test).
Hypothesis Hok : vec_test_ok t.

Abbreviation n := (vt_length t).
Abbreviation len := (Z.to_nat (vt_length t)).
Abbreviation params := (mk_vec (vt_a_addr t) (vt_out_addr t) (vt_b_addr t) (vt_length t) (vt_vec_op t)
  (vt_qshift t) (vt_act_mode t)).
Abbreviation cmd := (vec_requested params).

Lemma vec_test_bounds :
  1 <= n <= 4096 /\ Z.of_nat (length (vt_a t)) = n /\ Z.of_nat (length (vt_b t)) = n /\
  0 <= vt_a_addr t < 8192 /\ 0 <= vt_b_addr t < 4096 /\ 0 <= vt_out_addr t < 8192.
Proof using Hok.
  destruct Hok as ([Ha _] & [Hb _] & Hn & _ & _ & _ & [Ha0 Ha1] & [Hb0 Hb1] & [Ho0 Ho1] & _).
  unfold window_size, SRAM_ADDR_W in *. lia.
Qed.

Lemma vec_test_wf : test_wf (TVec t).
Proof using Hok.
  pose proof vec_test_bounds. destruct Hok as (_ & _ & _ & Hop & Hq & Hm & _). split.
  - cbn [arrays]. rewrite !Forall_cons_iff. unfold INT_MAX. split_and!; [lia|lia|done].
  - split; rewrite !Forall_cons_iff; cbn; (split_and!; [..|done]); try (apply fits16_iff; lia).
    + by apply (fits_mono 1).
    + by apply (fits_mono 5).
    + by apply (fits_mono 2).
Qed.

Lemma vec_test_cmd :
  cmd = mk_vec_cmd (vt_a_addr t) (vt_out_addr t) (vt_b_addr t) n (vt_vec_op t) (vt_qshift t) (vt_act_mode t).
Proof using Hok.
  destruct Hok as (_ & _ & _ & Hop & Hq & Hm & _). unfold vec_requested.
  cbn [vc_a_addr vc_out_addr vc_b_addr vc_length vc_vec_op vc_quant_shift vc_act_mode]. by rewrite !wrap_small.
Qed.

(** The cells of the command are the bytes the testbench addresses. *)
Lemma vec_test_cells i :
  (i < len)%nat ->
  a_cell cmd i = vt_a_addr t + Z.of_nat i /\ b_cell cmd i = vt_b_addr t + Z.of_nat i /\
  out_cell cmd i = vt_out_addr t + Z.of_nat i.
Proof using Hok.
  intros Hi. pose proof vec_test_bounds.
  destruct Hok as (_ & _ & _ & _ & _ & _ & [_ Ha] & [_ Hb] & [_ Ho] & _).
  unfold window_size, SRAM_ADDR_W in *. rewrite vec_test_cmd. unfold a_cell, b_cell, out_cell, SRAM_ADDR_W.
  cbn [v_a_addr v_b_addr v_out_addr]. change (12 + 1) with 13. rewrite !cell_address by lia. done.
Qed.

(** The buffers once the operands are loaded. *)
Definition loaded (m : sram) : sram :=
  buf_stored (window_base WEIGHT_BUF + vt_b_addr t) (vt_b t)
    (buf_stored (window_base ACT_BUF + vt_a_addr t) (vt_a t) m (seqZ 0 (Z.of_nat (length (vt_a t)))))
    (seqZ 0 (Z.of_nat (length (vt_b t)))).

Lemma vec_test_operands m : vec_operands cmd (loaded m) (vt_a t) (vt_b t).
Proof using Hok.
  pose proof vec_test_bounds as (Hn & Hla & Hlb & _).
  assert (Hok' := Hok). destruct Hok' as (Ha & Hb & _ & _ & _ & _ & [Ha0 Ha1] & [Hb0 Hb1] & _ & Hfree).
  unfold vec_operands. change (v_length cmd) with n. split_and!; [done|done|..].
  - intros i Hi. rewrite (proj1 (vec_test_cells i Hi)).
    rewrite <- (peek_inside _ ACT_BUF) by lia. unfold loaded.
    rewrite row_stored_other by (lia || by left). rewrite row_stored by lia. unfold at_. by rewrite Nat2Z.id.
  - intros i Hi. rewrite (proj1 (proj2 (vec_test_cells i Hi))).
    rewrite <- (peek_inside _ WEIGHT_BUF) by lia. unfold loaded.
    rewrite row_stored by lia. unfold at_. by rewrite Nat2Z.id.
  - intros i j [Hj Hi]. destruct (vec_test_cells i Hi) as (-> & _ & ->), (vec_test_cells j ltac:(lia)) as (_ & _ & ->). lia.
Qed.

(** What is read back. *)
Lemma vec_test_result m m' out j :
  vec_results cmd m m' out -> (j < len)%nat ->
  peek m' (window_base ACT_BUF + (vt_out_addr t + Z.of_nat j)) = u8 (at_ out (Z.of_nat j)).
Proof using Hok.
  intros (Hout & _) Hj. rewrite <- Hout by done. rewrite (proj2 (proj2 (vec_test_cells j Hj))).
  assert (Hok' := Hok). destruct Hok' as (_ & _ & _ & _ & _ & _ & _ & _ & [H0 H1] & _). apply (peek_inside _ ACT_BUF). lia.
Qed.
End test.

(** ** The test on the machine *)

Abbreviation replays := (replay (S := chip) (H := tb_env)).

Section test.
Context (name : string) (t : vec_test).
Hypothesis Hok : vec_test_ok t.

Abbreviation n := (vt_length t).
Abbreviation cmd := (vec_requested (mk_vec (vt_a_addr t) (vt_out_addr t) (vt_b_addr t) (vt_length t) (vt_vec_op t)
  (vt_qshift t) (vt_act_mode t))).

Lemma replay_loads ws m (h : chip) :
  quiet ws h /\ held h = m ->
  exists h', (forall tr, replays (loads (TVec t) ++ tr) h = replays tr h') /\ (quiet ws h' /\ held h' = loaded t m).
Proof using Hok.
  intros Hi. pose proof (vec_test_bounds t Hok) as (Hn & Hla & Hlb & Hba & Hbb & Hbo).
  assert (Hok' := Hok). destruct Hok' as (_ & _ & _ & _ & _ & _ & [Ha0 Ha1] & [Hb0 Hb1] & _).
  destruct (replay_row ws ACT_BUF (vt_a_addr t) (vt_a t) m h) as (h1 & Hrep1 & Hi1); [lia|lia|done|].
  destruct (replay_row ws WEIGHT_BUF (vt_b_addr t) (vt_b t) (held h1) h1) as (h2 & Hrep2 & Hi2); [lia|lia|by split; [apply Hi1|]|].
  rewrite (proj2 Hi1) in Hi2. exists h2. split; [|done]. intros tr. cbn [loads]. unfold activations, weights.
  rewrite <- app_assoc, !wrap_small by (apply fits32_iff; cbn; lia).
  etransitivity; [apply Hrep1|apply Hrep2].
Qed.

(** C21. The vector test of the testbench passes on this hardware. For every
    test whose operands and result lie in their buffers, started on an idle
    machine, the run of [run_vec_test] (operands over the bus, sixteen words
    and the doorbell, 2000 clocks, polls, results over the bus) ends with
    [true] and the one message that says so; what the buffers hold differs from
    the loaded operands exactly by the reference model's result. *)
Theorem vec_test_passes ws (h : chip) :
  length ws = 16%nat -> quiet ws h ->
  exists out tr h',
    golden (TVec t) = Ok out /\
    run (H := tb_env) (run_test name (TVec t)) h = (tr, Ok true, h') /\ messages tr = [Passed name n] /\
    quiet (desc_layout (test_params (TVec t))) h' /\ vec_results cmd (loaded t (held h)) (held h') out.
Proof using All.
  intros Hws Hq. pose proof (vec_test_bounds t Hok) as (Hn & Hla & Hlb & _ & _ & Hout0). pose proof (vec_test_wf t Hok) as Hwf.
  assert (Hfits : vec_cmd_fits cmd) by apply vec_requested_fits, Hwf.
  destruct (vec_reference cmd (loaded t (held h)) (vt_a t) (vt_b t)) as (out & Hout & [Hlen Hfit] & Hres);
    [done|exact (fits_wrap 5 (vt_qshift t) ltac:(done))|by apply vec_test_operands|].
  change (v_length cmd) with n in Hlen, Hres.
  assert (Hg : golden (TVec t) = Ok out) by (rewrite <- Hout; by rewrite (vec_test_cmd t Hok)).
  destruct (test_passes name (TVec t) ws h Vec cmd vec_backend_effect (loaded t (held h)) out Hwf Hg Hfit)
    as (tr & h' & Hrun & Hmsg & Hq' & Hm'); [unfold INT_MAX; lia|..|done| | | |].
  - intros c. apply vec_owner.
  - split; [done|cbn; lia].
  - change (38 + Z.of_nat (3 * Z.to_nat n + 1) <= 2000 + MAX_POLLS). unfold MAX_POLLS. lia.
  - by apply replay_loads.
  - cbn [loads]. unfold activations, weights, row. by rewrite messages_app, !messages_row.
  - intros j x Hx. assert (Hlt := lookup_lt_Some _ _ _ Hx). assert (Hok' := Hok).
    destruct Hok' as (_ & _ & _ & _ & _ & _ & _ & _ & [Ho0 Ho1] & _).
    assert (Hbase : out_base (TVec t) = window_base ACT_BUF + vt_out_addr t)
      by (apply wrap_small, fits32_iff; cbn; lia). rewrite Hbase.
    destruct (row_address out ACT_BUF (vt_out_addr t) Ho0 ltac:(lia) (Z.of_nat j) ltac:(lia)) as [Ha Hin].
    rewrite Ha. split; [done|]. etransitivity; [exact (vec_test_result t Hok _ _ out j Hres ltac:(lia))|]. f_equal. unfold at_. rewrite Nat2Z.id.
    by rewrite (list_lookup_total_correct _ _ _ Hx).
  - rewrite Hlen in Hmsg. exists out, tr, h'. split_and!; [done..|]. by rewrite Hm'.
Qed.
End test.

(** ** Witness *)

(** The product of [HwVec], with the result after the operands. *)
Definition ex_product : vec_test := mk_vec_test [100; -100] [7; -3] 2 1 2 1 0 0 2048.

Lemma ex_product_ok : vec_test_ok ex_product.
Proof. split_and!; try done; by repeat constructor. Qed.

Theorem vec_test_passes_witness :
  exists tr h', run (H := tb_env) (run_test "product" (TVec ex_product)) ex_chip = (tr, Ok true, h') /\
    messages tr = [Passed "product" 2].
Proof.
  destruct (vec_test_passes "product" ex_product ex_product_ok
    (replicate 16 0) ex_chip eq_refl (ex_quiet _)) as (out & tr & h' & _ & Hrun & Hm & _).
  exists tr, h'. split; [exact Hrun|exact Hm].
Defined.
