(* ===== verification/TbPool.v ===== *)
(** * The pooling tests of the testbench on the hardware

    [run_pool_test] of [NpuTb] against the whole machine: the shell of [Hw], the
    core of [NpuCore] and the pooling backend behind it, from the first byte of
    the input to the verdict. *)

From stdpp Require Import gmap strings.
From S2P Require Import Prelude Regs Prog Command Decode Runtime TbDesc CArith Golden GoldenRows Fifo.
From S2P Require Import ExtMem Mem Dma BackendMem Backend PoolBackend PoolData Hw HwPhases HwSubmit HwDma NpuCore HwBackend HwPool.
From S2P Require Import Tb TbTests TbHw TbBuf TbBackend.

Open Scope Z_scope.

(** What [NpuTb] expects of a pooling test: the reference model is defined, the
    sizes are fields of the command, an average has sides of at most 255, the
    input and the result lie apart in the activation buffer, and the testbench
    waits long enough. *)
Definition pool_test_ok (t : pool_test) : Prop :=
  let OH := positions (pt_H t) (pt_ph t) (pt_pool_r t) (pt_sh t) in
  let OW := positions (pt_W t) (pt_pw t) (pt_pool_s t) (pt_sw t) in
  let n_in := pt_H t * pt_W t * pt_C t in
  let n_out := OH * OW * pt_C t in
  pool_defined (pt_input t) (pt_H t) (pt_W t) (pt_C t) (pt_pool_r t) (pt_pool_s t) (pt_sh t) (pt_sw t) (pt_ph t) (pt_pw t) /\
  Forall (fits 16) [pt_H t; pt_W t; pt_C t; pt_pool_r t; pt_pool_s t; pt_sh t; pt_sw t; pt_ph t; pt_pw t] /\ 1 <= pt_C t /\
  fits 1 (pt_pool_mode t) /\ (pt_pool_mode t = 0 \/ pt_pool_r t <= 255 /\ pt_pool_s t <= 255) /\
  (0 <= pt_in_addr t /\ pt_in_addr t + n_in <= window_size ACT_BUF) /\
  (0 <= pt_out_addr t /\ pt_out_addr t + n_out <= window_size ACT_BUF) /\
  (pt_out_addr t + n_out <= pt_in_addr t \/ pt_in_addr t + n_in <= pt_out_addr t) /\
  39 + n_out * (3 * (pt_pool_r t * pt_pool_s t) + 33) <= 2000 + MAX_POLLS.

Section test.
Context (t : pool_test).
Hypothesis Hok : pool_test_ok t.

Abbreviation OH := (positions (pt_H t) (pt_ph t) (pt_pool_r t) (pt_sh t)).
Abbreviation OW := (positions (pt_W t) (pt_pw t) (pt_pool_s t) (pt_sw t)).
Abbreviation n_in := (pt_H t * pt_W t * pt_C t).
Abbreviation n_out := (OH * OW * pt_C t).
Abbreviation params := (mk_pool (pt_in_addr t) (pt_out_addr t) (pt_H t) (pt_W t) (pt_C t) (pt_pool_r t)
  (pt_pool_s t) (pt_sh t) (pt_sw t) (pt_ph t) (pt_pw t) 0 0 (pt_pool_mode t)).
Abbreviation cmd := (pool_requested params).

Lemma pool_test_bounds :
  1 <= OH <= 8192 /\ 1 <= OW <= 8192 /\ 1 <= n_out <= 8192 /\ 0 <= n_in <= 8192 /\ Z.of_nat (length (pt_input t)) = n_in /\
  0 <= pt_in_addr t <= 8192 /\ 0 <= pt_out_addr t < 8192.
Proof using Hok.
  destruct Hok as ((Hh & Hw & _ & _ & _ & _ & [Hl _] & _) & Hf & HC & _ & _ & [Hi0 Hi1] & [Ho0 Ho1] & _).
  pose proof (positions_bound _ _ _ _ Hh) as [HOH _]. pose proof (positions_bound _ _ _ _ Hw) as [HOW _].
  unfold window_size, SRAM_ADDR_W in *. rewrite !Forall_cons_iff, !fits16_iff in Hf.
  assert (1 <= OH * OW) by nia. assert (OH <= OH * OW) by nia. assert (OW <= OH * OW) by nia.
  assert (OH * OW <= n_out) by nia. assert (0 <= n_in) by (apply Z.mul_nonneg_nonneg; [apply Z.mul_nonneg_nonneg|]; lia).
  cbn in *. lia.
Qed.

Lemma pool_test_wf : test_wf (TPool t).
Proof using Hok.
  pose proof pool_test_bounds. destruct Hok as (_ & Hf & _ & Hm & _). rewrite !Forall_cons_iff in Hf. split.
  - cbn [arrays]. rewrite !Forall_cons_iff. unfold INT_MAX. split_and!; [lia|done].
  - split; [rewrite !Forall_cons_iff; cbn; split_and!; first [done|apply Hf|apply fits16_iff; lia]|].
    by apply (fits_mono 1).
Qed.

(** The command, with its derived sizes. *)
Lemma pool_test_cmd :
  cmd = mk_pool_cmd (pt_in_addr t) (pt_out_addr t) (pt_H t) (pt_W t) (pt_C t) (pt_pool_r t) (pt_pool_s t) (pt_sh t)
    (pt_sw t) (pt_ph t) (pt_pw t) OH OW (pt_pool_mode t).
Proof using Hok.
  pose proof pool_test_bounds as (HOH & HOW & _). destruct Hok as ((Hh & Hw & _) & Hf & _ & Hm & _).
  rewrite !Forall_cons_iff in Hf. unfold pool_requested.
  cbn [pl_in_addr pl_out_addr pl_in_h pl_in_w pl_in_c pl_pool_r pl_pool_s pl_stride_h pl_stride_w pl_pad_h pl_pad_w pl_out_h pl_out_w pl_pool_mode].
  rewrite !derived, wrap_small; try done; first [apply Hf|lia].
Qed.

Lemma pool_test_cmd_ok : pool_cmd_ok cmd.
Proof using Hok.
  pose proof pool_test_bounds as (HOH & HOW & _). pose proof (proj2 pool_test_wf) as Hwf.
  apply pool_requested_ok; [exact Hwf|..]; try (rewrite pool_test_cmd; cbn; lia);
    destruct Hok as ((_ & _ & _ & HR & HS & _) & _ & HC & _); done.
Qed.

Lemma pool_test_elems : Z.of_nat (elems cmd) = n_out.
Proof using Hok. pose proof pool_test_bounds. rewrite pool_test_cmd. unfold elems. cbn. lia. Qed.

(** The cells of the command are the bytes the testbench addresses. *)
Lemma pool_test_input i : 0 <= i < n_in -> input_cell cmd i = pt_in_addr t + i.
Proof using Hok.
  intros Hi. destruct Hok as (_ & _ & _ & _ & _ & [Hi0 Hi1] & _). unfold window_size, SRAM_ADDR_W in *.
  rewrite pool_test_cmd. unfold input_cell, SRAM_ADDR_W. cbn [p_in_addr]. apply cell_address; [cbn in *; lia|lia].
Qed.

Lemma pool_test_output e : (e < elems cmd)%nat -> output_cell cmd e = pt_out_addr t + Z.of_nat e.
Proof using Hok.
  intros He. pose proof pool_test_elems. destruct Hok as (_ & _ & _ & _ & _ & _ & [Hi0 Hi1] & _). unfold window_size, SRAM_ADDR_W in *.
  rewrite pool_test_cmd. unfold output_cell, SRAM_ADDR_W. cbn [p_out_addr]. apply cell_address; [cbn in *; lia|lia].
Qed.

(** The buffers once the input is loaded. *)
Definition pool_loaded (m : sram) : sram :=
  buf_stored (window_base ACT_BUF + pt_in_addr t) (pt_input t) m (seqZ 0 (Z.of_nat (length (pt_input t)))).

Lemma pool_test_operands m : pool_operands cmd (pool_loaded m) (pt_input t).
Proof using Hok.
  pose proof pool_test_bounds as (_ & _ & _ & Hn & Hl & _). pose proof pool_test_elems as Hel.
  assert (Hok' := Hok). destruct Hok' as (Hd & _ & _ & _ & Hmode & [Hi0 Hi1] & [Ho0 Ho1] & Hapart & _).
  pose proof pool_test_input as Hin. pose proof pool_test_output as Hout.
  unfold pool_operands. rewrite pool_test_cmd in *. cbn [p_in_h p_in_w p_in_c p_pool_r p_pool_s p_stride_h p_stride_w p_pad_h p_pad_w p_out_h p_out_w p_pool_mode].
  split_and!; [exact Hd|done|done|exact Hmode|..].
  - intros i Hi. rewrite Hin by done. rewrite <- (peek_inside _ ACT_BUF) by lia. unfold pool_loaded.
    replace i with (Z.of_nat (Z.to_nat i)) at 1 by lia. rewrite row_stored by lia. done.
  - intros e i He Hi. rewrite Hin, Hout by done. lia.
  - intros e e' He. rewrite !Hout by lia. lia.
Qed.

(** What is read back. *)
Lemma pool_test_result m m' out j :
  pool_results cmd m m' out -> (j < elems cmd)%nat ->
  peek m' (window_base ACT_BUF + (pt_out_addr t + Z.of_nat j)) = u8 (at_ out (Z.of_nat j)).
Proof using Hok.
  intros (Hout & _) Hj. rewrite <- Hout by done. rewrite pool_test_output by done.
  pose proof pool_test_elems. assert (Hok' := Hok). destruct Hok' as (_ & _ & _ & _ & _ & _ & [H0 H1] & _). apply (peek_inside _ ACT_BUF). lia.
Qed.

Lemma pool_test_time : 38 + Z.of_nat (pool_clocks cmd) <= 2000 + MAX_POLLS.
Proof using Hok.
  pose proof (pool_clocks_le cmd) as Hle. pose proof pool_test_elems as He. pose proof (taps_flat cmd pool_test_cmd_ok) as Ht.
  destruct Hok as (_ & _ & _ & _ & _ & _ & _ & _ & Htime). rewrite pool_test_cmd in Ht at 2 3. cbn in Ht.
  apply inj_le in Hle. rewrite Nat2Z.inj_add, Nat2Z.inj_mul, He, Nat2Z.inj_add, Nat2Z.inj_mul, Ht in Hle. lia.
Qed.
End test.

(** ** The test on the machine *)

Abbreviation replays := (replay (S := chip) (H := tb_env)).

Section test.
Context (name : string) (t : pool_test).
Hypothesis Hok : pool_test_ok t.

Abbreviation cmd := (pool_requested (mk_pool (pt_in_addr t) (pt_out_addr t) (pt_H t) (pt_W t) (pt_C t) (pt_pool_r t)
  (pt_pool_s t) (pt_sh t) (pt_sw t) (pt_ph t) (pt_pw t) 0 0 (pt_pool_mode t))).

Lemma replay_pool_loads ws m (h : chip) :
  quiet ws h /\ held h = m ->
  exists h', (forall tr, replays (loads (TPool t) ++ tr) h = replays tr h') /\ (quiet ws h' /\ held h' = pool_loaded t m).
Proof using Hok.
  intros Hi. pose proof (pool_test_bounds t Hok) as (_ & _ & _ & Hn & Hl & Hba & _).
  assert (Hok' := Hok). destruct Hok' as (_ & _ & _ & _ & _ & [Hi0 Hi1] & _).
  destruct (replay_row ws ACT_BUF (pt_in_addr t) (pt_input t) m h) as (h1 & Hrep & Hi'); [lia|lia|done|].
  exists h1. split; [|done]. intros tr. cbn [loads]. unfold activations.
  rewrite wrap_small by (apply fits32_iff; cbn; lia). apply Hrep.
Qed.

(** C22. The pooling test of the testbench passes on this hardware. For every
    test whose input and result lie apart in the activation buffer, maximum or
    average, started on an idle machine, the run of [run_pool_test] (the input
    over the bus, sixteen words and the doorbell, 2000 clocks, polls, the result
    over the bus) ends with [true] and the one message that says so; what the
    buffers hold differs from the loaded input exactly by the reference model's
    result. *)
Theorem pool_test_passes ws (h : chip) :
  length ws = 16%nat -> quiet ws h ->
  exists out tr h',
    golden (TPool t) = Ok out /\
    run (H := tb_env) (run_test name (TPool t)) h = (tr, Ok true, h') /\
    messages tr = [Passed name (Z.of_nat (length out))] /\
    quiet (desc_layout (test_params (TPool t))) h' /\ pool_results cmd (pool_loaded t (held h)) (held h') out.
Proof using All.
  intros Hws Hq. pose proof (pool_test_bounds t Hok) as (_ & _ & Hno & _ & _ & _ & Hout0). pose proof (pool_test_wf t Hok) as Hwf.
  pose proof (pool_test_cmd_ok t Hok) as Hcok. pose proof (pool_test_elems t Hok) as Hel.
  destruct (pool_reference cmd (pool_loaded t (held h)) (pt_input t) Hcok (pool_test_operands t Hok _)) as (out & Hout & Hlen & Hfit & Hres).
  assert (Hg : golden (TPool t) = Ok out) by (rewrite <- Hout; by rewrite (pool_test_cmd t Hok)).
  destruct (test_passes name (TPool t) ws h Pool cmd pool_backend_effect (pool_loaded t (held h)) out Hwf Hg Hfit)
    as (tr & h' & Hrun & Hmsg & Hq' & Hm'); [unfold INT_MAX; lia|..|done| | | |].
  - intros c. apply pool_owner.
  - exact Hcok.
  - by apply pool_test_time.
  - by apply replay_pool_loads.
  - cbn [loads]. unfold activations, row. by rewrite messages_row.
  - intros j x Hx. assert (Hlt := lookup_lt_Some _ _ _ Hx). assert (Hok' := Hok).
    destruct Hok' as (_ & _ & _ & _ & _ & _ & [Ho0 Ho1] & _).
    assert (Hbase : out_base (TPool t) = window_base ACT_BUF + pt_out_addr t)
      by (apply wrap_small, fits32_iff; cbn; lia). rewrite Hbase.
    destruct (row_address out ACT_BUF (pt_out_addr t) Ho0 ltac:(lia) (Z.of_nat j) ltac:(lia)) as [Ha Hin].
    rewrite Ha. split; [done|]. etransitivity; [exact (pool_test_result t Hok _ _ out j Hres ltac:(lia))|]. f_equal.
    unfold at_. rewrite Nat2Z.id. by rewrite (list_lookup_total_correct _ _ _ Hx).
  - exists out, tr, h'. split_and!; [done..|]. by rewrite Hm'.
Qed.
End test.

(** ** Witness *)

(** The average of [HwPool]. *)
Definition ex_average : pool_test := mk_pool_test [1; 2; -3; -8] 2 2 1 2 2 1 1 0 0 1 0 2048.

Lemma ex_average_ok : pool_test_ok ex_average.
Proof. by apply (bool_decide_unpack _); vm_compute. Qed.

Theorem pool_test_passes_witness :
  exists (out : list Z) tr h', run (H := tb_env) (run_test "average" (TPool ex_average)) (ex_machine ex_pool_mem) = (tr, Ok true, h') /\
    messages tr = [Passed "average" (Z.of_nat (length out))].
Proof.
  destruct (pool_test_passes "average" ex_average ex_average_ok
    (replicate 16 0) (ex_machine ex_pool_mem) eq_refl (ex_quiet _)) as (out & tr & h' & _ & Hrun & Hm & _).
  exists out, tr, h'. split; [exact Hrun|exact Hm].
Defined.
