(* ===== verification/TbRows.v ===== *)
(** * The softmax and layer normalisation tests of the testbench on the hardware

    [run_softmax_test] and [run_lnorm_test] of [NpuTb] against the whole machine:
    the shell of [Hw], the core of [NpuCore] and the backend behind it, from the
    first byte of the rows to the verdict. *)

From stdpp Require Import gmap strings.
From S2P Require Import Prelude Regs Prog Command Decode Runtime TbDesc CArith Golden GoldenRows Fifo ExtMem Mem Dma BackendMem Backend.
From S2P Require Import RowBlocks SoftmaxBackend SoftmaxData LnormBackend LnormData Hw HwPhases HwSubmit HwDma NpuCore HwBackend HwRows.
From S2P Require Import Tb TbTests TbHw TbBuf TbBackend.

Open Scope Z_scope.

(** The rows are in the activation buffer, and so is the result, apart from
    them or not above. *)
Definition rows_placed (input : list Z) (in_addr out_addr num_rows len : Z) : Prop :=
  let total := num_rows * len in
  rows_wf input num_rows len /\ 1 <= num_rows /\ 1 <= len /\
  (0 <= in_addr /\ in_addr + total <= window_size ACT_BUF) /\ (0 <= out_addr /\ out_addr + total <= window_size ACT_BUF) /\
  (out_addr <= in_addr \/ in_addr + total <= out_addr).

Definition rows_loaded (input : list Z) (in_addr : Z) (m : sram) : sram :=
  buf_stored (window_base ACT_BUF + in_addr) input m (seqZ 0 (Z.of_nat (length input))).

Section rows.
Context (input : list Z) (in_addr out_addr num_rows len : Z).
Hypothesis Hok : rows_placed input in_addr out_addr num_rows len.

Abbreviation total := (num_rows * len).

Lemma rows_bounds :
  Z.of_nat (length input) = total /\ 1 <= total <= 8192 /\ 1 <= num_rows <= 8192 /\ 1 <= len <= 8192 /\
  0 <= in_addr < 8192 /\ in_addr + total <= 8192 /\ 0 <= out_addr < 8192 /\ out_addr + total <= 8192.
Proof using Hok.
  destruct Hok as ((_ & _ & _ & Hl & _) & HM & HN & [Hi0 Hi1] & [Ho0 Ho1] & _). unfold window_size, SRAM_ADDR_W in *.
  assert (1 <= total) by nia. assert (num_rows <= total) by nia. assert (len <= total) by nia. cbn in *. lia.
Qed.

Lemma rows_fit : Forall (fits 16) [in_addr; out_addr; num_rows; len].
Proof using Hok. pose proof rows_bounds. rewrite !Forall_cons_iff, !fits16_iff. split_and!; (done || lia). Qed.

Lemma rows_loaded_operands m : rows_operands in_addr out_addr num_rows len (rows_loaded input in_addr m) input.
Proof using Hok.
  pose proof rows_bounds as (Hl & _ & _ & _ & Hi & Hi' & Ho & Ho'). destruct Hok as (Hwf & _ & _ & [Hi0 Hi1] & _ & Hap).
  apply rows_operands_inside; [done|lia|lia|done|]. intros k Hk.
  rewrite <- (peek_inside _ ACT_BUF) by lia. unfold rows_loaded.
  replace k with (Z.of_nat (Z.to_nat k)) at 1 by lia. rewrite row_stored by lia. done.
Qed.

(** What is read back. *)
Lemma rows_read m m' out j x :
  Z.of_nat (length out) = total -> rows_results out_addr m m' out -> out !! j = Some x ->
  let addr := u32 (window_base ACT_BUF + out_addr + Z.of_nat j) in in_window addr /\ peek m' addr = u8 x.
Proof using Hok.
  intros Hl (Hout & _) Hx addr. pose proof rows_bounds as (_ & _ & _ & _ & _ & _ & Ho & Ho').
  assert (Hlt := lookup_lt_Some _ _ _ Hx). destruct Hok as (_ & _ & _ & _ & [Ho0 Ho1] & _).
  destruct (row_address out ACT_BUF out_addr Ho0 ltac:(lia) (Z.of_nat j) ltac:(lia)) as [Ha Hin].
  unfold addr. rewrite Ha. split; [done|]. rewrite (peek_inside _ ACT_BUF) by lia.
  specialize (Hout (Z.of_nat j) ltac:(lia)). unfold act_cell in Hout.
  rewrite cell_address in Hout by (done || change (2 ^ (SRAM_ADDR_W + 1)) with 8192; lia).
  unfold at_ in Hout. rewrite Nat2Z.id, (list_lookup_total_correct _ _ _ Hx) in Hout. done.
Qed.
End rows.

(** What [NpuTb] expects of the tests: rows in place, a shift of five bits, and
    a testbench that waits long enough. *)
Definition softmax_test_ok (t : softmax_test) : Prop :=
  rows_placed (st_input t) (st_in_addr t) (st_out_addr t) (st_num_rows t) (st_row_len t) /\
  39 + st_num_rows t * (29 * st_row_len t + 3) <= 2000 + MAX_POLLS.

Definition lnorm_test_ok (t : lnorm_test) : Prop :=
  rows_placed (lt_input t) (lt_in_addr t) (lt_out_addr t) (lt_num_rows t) (lt_row_len t) /\ 0 <= lt_norm_shift t < 32 /\
  39 + lt_num_rows t * (39 * lt_row_len t + 80) <= 2000 + MAX_POLLS.

(** ** A test of either kind on the machine *)

Abbreviation replays := (replay (S := chip) (H := tb_env)).

Section test.
Context (name : string) (t : tb_test) (input : list Z) (in_addr out_addr num_rows len : Z).
Context (s : slot) (k : slot_cmd s) (EL : BackendEffect (slot_laws s)) (out : list Z) (ws : list Z) (h : chip).
Abbreviation loaded := (rows_loaded input in_addr (held h)).
Hypothesis Hplaced : rows_placed input in_addr out_addr num_rows len.
Hypothesis Hloads : loads t = activations in_addr input.
Hypothesis Hbase : out_base t = u32 (tb_region ACT_BUF + out_addr).
Hypothesis Hwf : test_wf t.
Hypothesis Hown : forall c, npu_dispatch c = requested (test_params t) -> owner c = s /\ cmd_for s true c = Some k.
Hypothesis Hrun : bk_runnable k.
Hypothesis Hlong : 38 + Z.of_nat (bk_cycles k) <= 2000 + MAX_POLLS.
Hypothesis Hgolden : golden t = Ok out.
Hypothesis Hlen : Z.of_nat (length out) = num_rows * len.
Hypothesis Hfit : Forall fits_i8 out.
Hypothesis Hres : rows_results out_addr loaded (bk_effect k loaded) out.

Lemma rows_test_passes :
  length ws = 16%nat -> quiet ws h ->
  exists tr h',
    run (H := tb_env) (run_test name t) h = (tr, Ok true, h') /\ messages tr = [Passed name (Z.of_nat (length out))] /\
    quiet (desc_layout (test_params t)) h' /\ rows_results out_addr loaded (held h') out.
Proof using All.
  intros Hws Hq. pose proof (rows_bounds _ _ _ _ _ Hplaced) as (Hil & Ht & _ & _ & Hi & Hi' & Ho & Ho').
  assert (Hu : forall a, 0 <= a < 8192 -> u32 (tb_region ACT_BUF + a) = window_base ACT_BUF + a)
    by (intros a Ha; apply wrap_small, fits32_iff; cbn; lia).
  destruct (test_passes name t ws h s k EL loaded out Hwf Hgolden Hfit) as (tr & h' & Hrn & Hmsg & Hq' & Hm');
    [unfold INT_MAX; lia|done|done|done|done| | | |].
  - destruct (replay_row ws ACT_BUF in_addr input (held h) h) as (h1 & Hrep & Hi1); [lia|unfold window_size, SRAM_ADDR_W; cbn; lia|done|].
    exists h1. split; [|done]. intros tr. rewrite Hloads. unfold activations. rewrite Hu by done. apply Hrep.
  - rewrite Hloads. unfold activations, row. by rewrite messages_row.
  - intros j x Hx. rewrite Hbase, Hu by done. by apply (rows_read input in_addr out_addr num_rows len Hplaced loaded _ out j x Hlen Hres).
  - exists tr, h'. split_and!; [done..|]. by rewrite Hm'.
Qed.
End test.

(** ** The tests *)

(** C19. The softmax test of the testbench passes on this hardware. For every
    test whose rows and result lie in the activation buffer, the result apart
    from the rows or not above them, started on an idle machine, the run of
    [run_softmax_test] (the rows over the bus, sixteen words and the doorbell,
    2000 clocks, polls, the result over the bus) ends with [true] and the one
    message that says so; what the buffers hold differs from the loaded rows
    exactly by the reference model's result. *)
Theorem softmax_test_passes name t ws (h : chip) :
  softmax_test_ok t -> length ws = 16%nat -> quiet ws h ->
  exists out tr h',
    golden (TSoftmax t) = Ok out /\
    run (H := tb_env) (run_test name (TSoftmax t)) h = (tr, Ok true, h') /\
    messages tr = [Passed name (Z.of_nat (length out))] /\
    quiet (desc_layout (test_params (TSoftmax t))) h' /\
    rows_results (st_out_addr t) (rows_loaded (st_input t) (st_in_addr t) (held h)) (held h') out.
Proof using Type.
  intros [Hp Htime] Hws Hq. pose proof (rows_fit _ _ _ _ _ Hp) as Hf. pose proof (rows_bounds _ _ _ _ _ Hp) as (Hl & Hb & HM & HN & _).
  set (p := mk_softmax (st_in_addr t) (st_out_addr t) (st_num_rows t) (st_row_len t)).
  assert (Hc : softmax_cmd_ok (softmax_requested p)) by (apply softmax_requested_ok; [done|cbn; lia..]).
  destruct (softmax_reference (softmax_requested p) _ (st_input t) Hc (rows_loaded_operands _ _ _ _ _ Hp (held h))) as (out & Hg & Hres & Hol & Hof).
  destruct (rows_test_passes name (TSoftmax t) (st_input t) (st_in_addr t) (st_out_addr t) (st_num_rows t) (st_row_len t) Softmax
    (softmax_requested p) softmax_backend_effect out ws h) as (tr & h' & Hrest); try done.
  - split; [|done]. cbn [arrays]. rewrite Forall_singleton. unfold INT_MAX. lia.
  - intros c. apply softmax_owner.
  - cbn [bk_cycles slot_laws softmax_backend_laws]. unfold softmax_clocks, row_clocks. cbn [s_num_rows s_row_len softmax_requested sm_num_rows sm_row_len p]. nia.
  - by exists out, tr, h'.
Qed.

(** C20. The layer normalisation test of the testbench passes on this
    hardware. For every test whose rows and result lie in the activation buffer,
    the result apart from the rows or not above them, started on an idle
    machine, the run of [run_lnorm_test] ends with [true] and the one message
    that says so; what the buffers hold differs from the loaded rows exactly by
    the reference model's result. *)
Theorem lnorm_test_passes name t ws (h : chip) :
  lnorm_test_ok t -> length ws = 16%nat -> quiet ws h ->
  exists out tr h',
    golden (TLnorm t) = Ok out /\
    run (H := tb_env) (run_test name (TLnorm t)) h = (tr, Ok true, h') /\
    messages tr = [Passed name (Z.of_nat (length out))] /\
    quiet (desc_layout (test_params (TLnorm t))) h' /\
    rows_results (lt_out_addr t) (rows_loaded (lt_input t) (lt_in_addr t) (held h)) (held h') out.
Proof using Type.
  intros (Hp & Hshift & Htime) Hws Hq. pose proof (rows_fit _ _ _ _ _ Hp) as Hf. pose proof (rows_bounds _ _ _ _ _ Hp) as (Hl & Hb & HM & HN & _).
  set (p := mk_lnorm (lt_in_addr t) (lt_out_addr t) (lt_num_rows t) (lt_row_len t) (lt_norm_shift t)).
  assert (Hwf : lnorm_wf p) by (split; [done|unfold fits; cbn; lia]).
  assert (Hs5 : wrap 5 (lt_norm_shift t) = lt_norm_shift t) by by apply wrap_small.
  assert (Hc : lnorm_cmd_ok (lnorm_requested p)) by (apply lnorm_requested_ok; [done|cbn; lia..]).
  destruct (lnorm_reference (lnorm_requested p) _ (lt_input t) Hc (rows_loaded_operands _ _ _ _ _ Hp (held h))) as (out & Hg & Hres & Hol & Hof).
  assert (Hgold : golden (TLnorm t) = Ok out) by (rewrite <- Hg; cbn; by rewrite Hs5).
  destruct (rows_test_passes name (TLnorm t) (lt_input t) (lt_in_addr t) (lt_out_addr t) (lt_num_rows t) (lt_row_len t) Lnorm
    (lnorm_requested p) lnorm_backend_effect out ws h) as (tr & h' & Hrest); try done.
  - split; [|done]. cbn [arrays]. rewrite Forall_singleton. unfold INT_MAX. lia.
  - intros c. apply lnorm_owner.
  - cbn [bk_cycles slot_laws lnorm_backend_laws]. unfold lnorm_clocks, ln_row_clocks. cbn [l_num_rows l_row_len lnorm_requested ln_num_rows ln_row_len p]. nia.
  - by exists out, tr, h'.
Qed.

(** ** Witnesses *)

Theorem softmax_test_passes_witness :
  exists (out : list Z) tr h',
    run (H := tb_env) (run_test "softmax" (TSoftmax (mk_softmax_test [1; 2; 3; 100] 1 4 0 0))) (ex_machine ex_softmax_mem) = (tr, Ok true, h') /\
    messages tr = [Passed "softmax" (Z.of_nat (length out))].
Proof.
  destruct (softmax_test_passes "softmax" (mk_softmax_test [1; 2; 3; 100] 1 4 0 0)
    (replicate 16 0) (ex_machine ex_softmax_mem) ltac:(by apply (bool_decide_unpack _); vm_compute) eq_refl (ex_quiet _))
    as (out & tr & h' & _ & Hrun & Hm & _).
  exists out, tr, h'. split; [exact Hrun|exact Hm].
Defined.

Theorem lnorm_test_passes_witness :
  exists (out : list Z) tr h',
    run (H := tb_env) (run_test "lnorm" (TLnorm (mk_lnorm_test [1; 2; 3; 10] 1 4 4 0 4096))) (ex_machine ex_lnorm_mem) = (tr, Ok true, h') /\
    messages tr = [Passed "lnorm" (Z.of_nat (length out))].
Proof.
  destruct (lnorm_test_passes "lnorm" (mk_lnorm_test [1; 2; 3; 10] 1 4 4 0 4096)
    (replicate 16 0) (ex_machine ex_lnorm_mem) ltac:(by apply (bool_decide_unpack _); vm_compute) eq_refl (ex_quiet _))
    as (out & tr & h' & _ & Hrun & Hm & _).
  exists out, tr, h'. split; [exact Hrun|exact Hm].
Defined.
