(* ===== verification/TbMac.v ===== *)
(** * The matrix tests of the testbench on the hardware

    [run_gemm_test] and [run_conv_test] of [NpuTb] against the whole machine:
    the shell of [Hw], the core of [NpuCore] and the matrix backends behind it,
    from the first byte of the operands to the verdict. That these backends are
    [done] too early does not show: the testbench lets 2000 clocks pass before it
    polls, and the tests are over by then. *)

From stdpp Require Import gmap strings.
From S2P Require Import Prelude Regs Prog Command Decode Runtime TbDesc CArith Golden GoldenRows Fifo ExtMem Mem Dma BackendMem Backend.
From S2P Require Import ConvBlocks MacPath MacFront GemmBackend GemmData ConvBackend ConvData Hw HwPhases HwSubmit HwDma NpuCore HwBackend HwMac.
From S2P Require Import Tb TbTests TbHw TbBuf TbBackend.

Open Scope Z_scope.

(** ** The operands *)

(** A bias that is not given is loaded as zeros. *)
Definition bias_bytes (bias : list Z) (n : Z) : list Z := match bias with [] => replicate (Z.to_nat n) 0 | _ => bias end.

Lemma bias_bytes_wf bias n : 0 <= n -> bias_wf bias n ->
  Z.of_nat (length (bias_bytes bias n)) = n /\ forall x, 0 <= x < n -> u8 (bias_bytes bias n !!! Z.to_nat x) = u8 (bias_at bias x).
Proof.
  intros Hn Hb. unfold bias_bytes, bias_at. destruct bias as [|y bias].
  - rewrite length_replicate. split; [lia|]. intros x Hx. rewrite bool_decide_eq_true_2 by done.
    by rewrite lookup_total_replicate_2 by lia.
  - destruct Hb as [Hb|[Hb _]]; [done|]. split; [done|]. intros x Hx. by rewrite bool_decide_eq_false_2.
Qed.

Lemma biases_bytes addr bias n : 0 <= n -> biases addr bias n = weights addr (bias_bytes bias n).
Proof.
  intros Hn. destruct bias as [|y bias]; [|done]. unfold biases, weights, row, bias_bytes. rewrite length_replicate, Z2Nat.id by done.
  apply list_fmap_ext. intros j i Hi%lookup_seqZ. by rewrite lookup_total_replicate_2 by lia.
Qed.

Abbreviation replays := (replay (S := chip) (H := tb_env)).

Section operands.
Context (wt bias act : list Z) (wa ba aa : Z).

Abbreviation len l := (Z.of_nat (length l)).

(** Weights and bias apart in their buffer, the activations in theirs. *)
Definition operands_placed : Prop :=
  (0 <= wa /\ wa + len wt <= window_size WEIGHT_BUF) /\ (0 <= ba /\ ba + len bias <= window_size WEIGHT_BUF) /\
  (0 <= aa /\ aa + len act <= window_size ACT_BUF) /\ (wa + len wt <= ba \/ ba + len bias <= wa).

Hypothesis Hok : operands_placed.

Definition operand_trace : trace tb_call := weights wa wt ++ weights ba bias ++ activations aa act.

Definition mac_loaded (m : sram) : sram :=
  buf_stored (window_base ACT_BUF + aa) act
    (buf_stored (window_base WEIGHT_BUF + ba) bias
       (buf_stored (window_base WEIGHT_BUF + wa) wt m (seqZ 0 (len wt))) (seqZ 0 (len bias))) (seqZ 0 (len act)).

Lemma loaded_act m j : 0 <= j < len act -> cell (act_mem (mac_loaded m)) (aa + j) = u8 (act !!! Z.to_nat j).
Proof using Hok.
  intros Hj. destruct Hok as (_ & _ & [Ha0 Ha1] & _). rewrite <- (peek_inside _ ACT_BUF) by lia. unfold mac_loaded.
  replace j with (Z.of_nat (Z.to_nat j)) at 1 by lia. by rewrite row_stored by lia.
Qed.

Lemma loaded_bias m j : 0 <= j < len bias -> cell (wt_mem (mac_loaded m)) (ba + j) = u8 (bias !!! Z.to_nat j).
Proof using Hok.
  intros Hj. destruct Hok as (_ & [Hb0 Hb1] & [Ha0 Ha1] & _). rewrite <- (peek_inside _ WEIGHT_BUF) by lia. unfold mac_loaded.
  rewrite row_stored_other by (lia || by left). replace j with (Z.of_nat (Z.to_nat j)) at 1 by lia. by rewrite row_stored by lia.
Qed.

Lemma loaded_wt m j : 0 <= j < len wt -> cell (wt_mem (mac_loaded m)) (wa + j) = u8 (wt !!! Z.to_nat j).
Proof using Hok.
  intros Hj. destruct Hok as ([Hw0 Hw1] & [Hb0 Hb1] & [Ha0 Ha1] & Hap). rewrite <- (peek_inside _ WEIGHT_BUF) by lia. unfold mac_loaded.
  rewrite row_stored_other by (lia || by left). rewrite row_stored_other by (lia || (right; lia)).
  replace j with (Z.of_nat (Z.to_nat j)) at 1 by lia. by rewrite row_stored by lia.
Qed.

Lemma region_address r a : 0 <= a <= 8192 -> u32 (tb_region r + a) = window_base r + a.
Proof using Type. intros Ha. apply wrap_small, fits32_iff. destruct r; cbn; lia. Qed.

(** The rows over the bus. *)
Lemma replay_operands ws m (h : chip) :
  quiet ws h /\ held h = m ->
  exists h', (forall tr, replays (operand_trace ++ tr) h = replays tr h') /\ quiet ws h' /\ held h' = mac_loaded m.
Proof using Hok.
  intros Hi. destruct Hok as ([Hw0 Hw1] & [Hb0 Hb1] & [Ha0 Ha1] & _). assert (Hsize : window_size WEIGHT_BUF <= 8192 /\ window_size ACT_BUF <= 8192) by done.
  destruct (replay_row ws WEIGHT_BUF wa wt m h) as (h1 & Hrep1 & Hi1); [lia|lia|done|].
  destruct (replay_row ws WEIGHT_BUF ba bias _ h1 Hb0 Hb1 (conj (proj1 Hi1) eq_refl)) as (h2 & Hrep2 & Hi2). rewrite (proj2 Hi1) in Hi2.
  destruct (replay_row ws ACT_BUF aa act _ h2 Ha0 Ha1 (conj (proj1 Hi2) eq_refl)) as (h3 & Hrep3 & Hi3). rewrite (proj2 Hi2) in Hi3.
  exists h3. split; [|exact Hi3]. intros tr. unfold operand_trace, weights, activations. rewrite !region_address by lia.
  rewrite <- !app_assoc. etransitivity; [apply Hrep1|]. etransitivity; [apply Hrep2|apply Hrep3].
Qed.

Lemma messages_operands : messages operand_trace = [].
Proof using Type. unfold operand_trace, weights, activations, row. by rewrite !messages_app, !messages_row. Qed.
End operands.

(** ** A command that passes is served *)

Lemma passing_serves p s (k : slot_cmd s) m m' D N :
  params_wf p -> (forall c, npu_dispatch c = requested p -> owner c = s /\ cmd_for s true c = Some k) ->
  passes s k m D N -> (37 + N <= 2001)%nat ->
  (forall w : slot_state s * router * buffers, at_rest w.1 -> contents w.2 = m ->
    contents (bk_run (world_step w (Some k) no_request) (clocks N)).2 = m') ->
  serves p m m'.
Proof.
  intros Hwf Hown (HDN & Hd & Hend & _) HN Hmem. apply polled_serves; [done|]. intros c h1 Hdec Hreq Hr Hi Hm.
  destruct (Hown c Hreq) as [Ho Hk]. exists 0%nat. split; [done|]. split; [lia|].
  destruct (slot_issued (desc_layout p) c s k m Ho Hk _ Hi Hm) as (_ & _ & Hrest & Hmw).
  destruct (slot_passes (desc_layout p) c s k m Ho Hk _ D N Hi Hm HDN Hd Hend) as [Hrun Hq].
  destruct (Hrun N (le_n _)) as (Hs & _ & Hp). rewrite (proj2 (Nat.ltb_lt D N) HDN), orb_true_r in Hp.
  destruct (quiet_stays (desc_layout p) 36 (S N) (2000 + 1) h1 (conj Hq Hp) ltac:(lia)) as (Hqn & _ & Hmn). split; [done|].
  rewrite Hmn. change (contents (slot_of s (ticks (S N) (ticks 36 h1))).2 = m'). rewrite Hs. by apply Hmem.
Qed.

(** A test whose operands are those of such a command. *)
Lemma mac_test_passes name t wt bias act wa ba aa oa ws (h : chip) s (k : slot_cmd s) D N m' out :
  let m := mac_loaded wt bias act wa ba aa (held h) in
  operands_placed wt bias act wa ba aa -> loads t = operand_trace wt bias act wa ba aa -> out_base t = u32 (tb_region ACT_BUF + oa) ->
  0 <= oa -> oa + Z.of_nat (length out) <= window_size ACT_BUF -> test_wf t -> golden t = Ok out -> Forall fits_i8 out ->
  (forall c, npu_dispatch c = requested (test_params t) -> owner c = s /\ cmd_for s true c = Some k) ->
  passes s k m D N -> (37 + N <= 2001)%nat ->
  (forall w : slot_state s * router * buffers, at_rest w.1 -> contents w.2 = m ->
    contents (bk_run (world_step w (Some k) no_request) (clocks N)).2 = m') ->
  (forall x, 0 <= x < Z.of_nat (length out) -> cell (act_mem m') (oa + x) = u8 (at_ out x)) ->
  length ws = 16%nat -> quiet ws h ->
  exists tr h',
    run (H := tb_env) (run_test name t) h = (tr, Ok true, h') /\ messages tr = [Passed name (Z.of_nat (length out))] /\
    quiet (desc_layout (test_params t)) h' /\ held h' = m'.
Proof.
  intros m Hpl Hload Hbase Ho0 Ho1 Hwf Hg Hfit Hown Hpass HN Hmem Hres Hws Hq.
  apply (served_test_passes name t ws h m m' out); try done.
  - unfold window_size, SRAM_ADDR_W in Ho1. unfold INT_MAX. lia.
  - eapply passing_serves; [apply Hwf|exact Hown|exact Hpass|exact HN|exact Hmem].
  - rewrite Hload. by apply (replay_operands _ _ _ _ _ _ Hpl ws (held h) h).
  - by rewrite Hload, messages_operands.
  - intros j x Hx. assert (Hlt := lookup_lt_Some _ _ _ Hx). rewrite Hbase, region_address by (unfold window_size, SRAM_ADDR_W in Ho1; lia).
    destruct (row_address out ACT_BUF oa Ho0 Ho1 (Z.of_nat j) ltac:(lia)) as [-> Hin]. split; [done|].
    rewrite (peek_inside _ ACT_BUF) by lia. etransitivity; [apply Hres; lia|]. f_equal. unfold at_. rewrite Nat2Z.id.
    by rewrite (list_lookup_total_correct _ _ _ Hx).
Qed.

(** ** The matrix test *)

(** What [NpuTb] expects of a matrix test: int8 matrices and a bias or none, the
    weights and the bias behind them in their buffer, [A] and the product apart in
    theirs, the parameters in the range of their fields, and the product ready
    by the first poll. *)
Definition gemm_test_ok (t : gemm_test) : Prop :=
  let '(M, N, K) := (gt_M t, gt_N t, gt_K t) in
  1 <= M /\ 1 <= N /\ 1 <= K /\ i8_array (gt_a t) (M * K) /\ i8_array (gt_b t) (K * N) /\ bias_wf (gt_bias t) N /\
  fits 5 (gt_qshift t) /\ 0 <= gt_act_mode t <= 2 /\
  (0 <= gt_b_addr t /\ gt_b_addr t + K * N + N <= window_size WEIGHT_BUF) /\
  (0 <= gt_a_addr t /\ gt_a_addr t + M * K <= window_size ACT_BUF) /\
  (0 <= gt_c_addr t /\ gt_c_addr t + M * N <= window_size ACT_BUF) /\
  (gt_c_addr t + M * N <= gt_a_addr t \/ gt_a_addr t + M * K <= gt_c_addr t) /\
  49 + 5 * (M * N * K) <= 2001.

Section gemm.
Context (t : gemm_test).
Hypothesis Hok : gemm_test_ok t.

Abbreviation M := (gt_M t).
Abbreviation N := (gt_N t).
Abbreviation K := (gt_K t).
Abbreviation bias_addr := (gt_b_addr t + K * N).
Abbreviation params := (mk_gemm (gt_a_addr t) (gt_c_addr t) (gt_b_addr t) (gemm_bias_addr t) M N K (gt_qshift t) (gt_act_mode t)).
Abbreviation cmd := (gemm_requested params).
Abbreviation loaded := (mac_loaded (gt_b t) (bias_bytes (gt_bias t) N) (gt_a t) (gt_b_addr t) bias_addr (gt_a_addr t)).

Lemma gemm_test_bounds :
  1 <= M * K <= 8192 /\ 1 <= K * N <= 4096 /\ 1 <= M * N <= 8192 /\ 1 <= M <= 8192 /\ 1 <= N <= 4096 /\ 1 <= K <= 4096 /\
  Z.of_nat (length (gt_a t)) = M * K /\ Z.of_nat (length (gt_b t)) = K * N /\ gemm_bias_addr t = bias_addr.
Proof using Hok.
  destruct Hok as (HM & HN & HK & [Ha _] & [Hb _] & _ & _ & _ & [Hb0 Hb1] & [Ha0 Ha1] & [Hc0 Hc1] & _).
  unfold window_size, SRAM_ADDR_W in *. cbn in Hb1, Ha1, Hc1.
  assert (1 <= M * K /\ 1 <= K * N /\ 1 <= M * N /\ M <= M * N /\ N <= K * N /\ K <= K * N) by nia.
  split_and?; try lia. unfold gemm_bias_addr. rewrite Hb, (wrap_small 32 (K * N)) by (apply fits32_iff; lia).
  apply wrap_small, fits32_iff. lia.
Qed.

Lemma gemm_test_wf : test_wf (TGemm t).
Proof using Hok.
  pose proof gemm_test_bounds as (? & ? & ? & ? & ? & ? & Hla & Hlb & Hba).
  destruct Hok as (_ & _ & _ & _ & _ & Hbi & Hq & Hact & [Hb0 Hb1] & [Ha0 Ha1] & [Hc0 Hc1] & _).
  unfold window_size, SRAM_ADDR_W in *. cbn in Hb1, Ha1, Hc1. split.
  - cbn [arrays]. rewrite !Forall_cons_iff. unfold INT_MAX. split_and!; [lia|lia| |done]. destruct Hbi as [->|[Hl _]]; cbn; lia.
  - split; rewrite !Forall_cons_iff; cbn [gm_a_addr gm_c_addr gm_b_addr gm_bias_addr gm_M gm_N gm_K gm_quant_shift gm_act_mode];
      (split_and!; [..|done]); try (apply fits16_iff; lia).
    + by apply (fits_mono 5).
    + unfold fits. lia.
Qed.

Lemma gemm_test_cmd :
  cmd = mk_gemm_cmd (gt_a_addr t) (gt_c_addr t) (gt_b_addr t) bias_addr M N K (gt_qshift t) (gt_act_mode t).
Proof using Hok.
  pose proof gemm_test_bounds as (_ & _ & _ & _ & _ & _ & _ & _ & Hba). destruct Hok as (_ & _ & _ & _ & _ & _ & Hq & Hact & _).
  unfold gemm_requested. cbn [gm_a_addr gm_c_addr gm_b_addr gm_bias_addr gm_M gm_N gm_K gm_quant_shift gm_act_mode].
  rewrite Hba, !wrap_small; [done|unfold fits; lia|done].
Qed.

(** The cells of the command are the bytes the testbench addresses. *)
Lemma gemm_test_cells :
  (forall x, 0 <= x < M * K -> gemm_a_cell cmd x = gt_a_addr t + x) /\
  (forall x, 0 <= x < K * N -> gemm_b_cell cmd x = gt_b_addr t + x) /\
  (forall x, 0 <= x < N -> gemm_bias_cell cmd x = bias_addr + x) /\
  (forall x, 0 <= x < M * N -> gemm_c_cell cmd x = gt_c_addr t + x).
Proof using Hok.
  pose proof gemm_test_bounds as (? & ? & ? & _). destruct Hok as (_ & HN & _ & _ & _ & _ & _ & _ & [Hb0 Hb1] & [Ha0 Ha1] & [Hc0 Hc1] & _).
  unfold window_size, SRAM_ADDR_W in *. cbn in Hb1, Ha1, Hc1. rewrite gemm_test_cmd.
  unfold gemm_a_cell, gemm_b_cell, gemm_bias_cell, gemm_c_cell, SRAM_ADDR_W. cbn [g_a_addr g_b_addr g_bias_addr g_c_addr].
  split_and!; intros x Hx; apply cell_address; lia.
Qed.

Lemma gemm_test_runs : gemm_runs cmd.
Proof using Hok.
  pose proof gemm_test_bounds as (? & ? & ? & ? & ? & ? & _). destruct Hok as (_ & _ & _ & _ & _ & _ & Hq & Hact & [Hb0 Hb1] & [Ha0 Ha1] & [Hc0 Hc1] & _).
  unfold window_size, SRAM_ADDR_W in *. cbn in Hb1, Ha1, Hc1. rewrite gemm_test_cmd. unfold gemm_runs, gemm_cmd_fits, INT_MAX.
  cbn [g_a_addr g_b_addr g_bias_addr g_c_addr g_m_dim g_n_dim g_k_dim g_quant_shift g_act_mode]. rewrite !fits16_iff. split_and!; (lia || apply Hq || idtac).
Qed.

Lemma gemm_test_apart : gemm_apart cmd.
Proof using Hok.
  destruct gemm_test_cells as (Ha & _ & _ & Hc). destruct Hok as (_ & _ & _ & _ & _ & _ & _ & _ & _ & _ & _ & Hap & _).
  unfold gemm_apart. change (g_m_dim cmd) with M. change (g_n_dim cmd) with N. change (g_k_dim cmd) with K.
  split; intros x y Hx Hy; rewrite ?Hc, ?Ha by lia; lia.
Qed.

Lemma gemm_test_placed : operands_placed (gt_b t) (bias_bytes (gt_bias t) N) (gt_a t) (gt_b_addr t) bias_addr (gt_a_addr t).
Proof using Hok.
  pose proof gemm_test_bounds as (? & ? & ? & ? & ? & ? & Hla & Hlb & _). destruct Hok as (_ & HN & _ & _ & _ & Hbi & _ & _ & [Hb0 Hb1] & [Ha0 Ha1] & _).
  destruct (bias_bytes_wf (gt_bias t) N ltac:(lia) Hbi) as [Hl _]. unfold operands_placed. lia.
Qed.

Lemma gemm_test_operands m : gemm_operands cmd (loaded m) (gt_a t) (gt_b t) (gt_bias t).
Proof using Hok.
  destruct gemm_test_cells as (Ha & Hb & Hbias & _). pose proof gemm_test_placed as Hpl. pose proof gemm_test_bounds as (_ & _ & _ & _ & _ & _ & Hla & Hlb & _).
  destruct Hok as (_ & HN & _ & Haa & Hab & Hbi & _). destruct (bias_bytes_wf (gt_bias t) N ltac:(lia) Hbi) as [Hl Hz].
  unfold gemm_operands. change (g_m_dim cmd) with M. change (g_n_dim cmd) with N. change (g_k_dim cmd) with K.
  split_and!; [done..| | |]; intros x Hx.
  - rewrite Ha by done. apply loaded_act; [done|lia].
  - rewrite Hb by done. apply loaded_wt; [done|lia].
  - rewrite Hbias by done. rewrite loaded_bias by (done || lia). by apply Hz.
Qed.

(** C18. The matrix test of the testbench passes on this hardware, although
    [done] is early: the 2000 clocks of the testbench are long enough. For every
    test within these bounds, with a bias or without, the run on an idle machine
    ends with [true] and the one message that says so, and the buffers differ from
    the loaded operands exactly by the product of the reference model. *)
Theorem gemm_test_passes name ws (h : chip) :
  length ws = 16%nat -> quiet ws h ->
  exists out tr h',
    golden (TGemm t) = Ok out /\
    run (H := tb_env) (run_test name (TGemm t)) h = (tr, Ok true, h') /\ messages tr = [Passed name (M * N)] /\
    quiet (desc_layout (test_params (TGemm t))) h' /\ gemm_results cmd (loaded (held h)) (held h') out.
Proof using All.
  intros Hws Hq. pose proof gemm_test_bounds as (? & ? & ? & ? & ? & ? & Hla & Hlb & Hba). pose proof gemm_test_runs as Hg. pose proof gemm_test_apart as Hap.
  destruct (gemm_reference cmd (loaded (held h)) Hg Hap _ _ _ (gemm_test_operands _)) as (out & Hout & Hres & [Hol Hof]).
  change (g_m_dim cmd * g_n_dim cmd) with (M * N) in Hol. assert (Hgold : golden (TGemm t) = Ok out) by (rewrite <- Hout, gemm_test_cmd; done).
  destruct (gemm_passes cmd (loaded (held h)) Hg Hap) as (D & Hpass & _).
  assert (Hn : iterations cmd = Z.to_nat (M * N * K)) by done. assert (Hok' := Hok). destruct Hok' as (_ & _ & _ & _ & _ & _ & _ & _ & _ & _ & [Hc0 Hc1] & _ & Htime).
  assert (0 <= M * N * K) by nia.
  destruct (mac_test_passes name (TGemm t) (gt_b t) (bias_bytes (gt_bias t) N) (gt_a t) (gt_b_addr t) bias_addr (gt_a_addr t) (gt_c_addr t)
    ws h Gemm cmd D (5 * iterations cmd + 12)
    (stored (gemm_iter cmd) (g_quant_shift cmd) (g_act_mode cmd) (loaded (held h)) (iterations cmd)) out gemm_test_placed)
    as (tr & h' & Hrun & Hmsg & Hq' & Hm'); [|done|done|lia|exact gemm_test_wf|exact Hgold|done| |exact Hpass|lia| | |done|done|].
  - cbn [loads]. by rewrite Hba, biases_bytes by lia.
  - intros c. apply gemm_owner.
  - intros w Hr Hw. apply (gemm_memory cmd _ w); [done|done|done|exact Hw|lia].
  - intros x Hx. destruct Hres as (Hc & _). rewrite <- (proj2 (proj2 (proj2 gemm_test_cells))) by lia. apply Hc. change (0 <= x < M * N). lia.
  - exists out, tr, h'. rewrite Hm', <- Hol. by split_and!.
Qed.
End gemm.

(** ** The convolution test *)

(** Where the bias is loaded: without one the test puts zeros after the weights. *)
Definition bias_base (t : conv_test) : Z :=
  match ct_bias t with
  | [] => ct_wt_addr t + ct_K t * ct_R t * ct_S t * ct_C t
  | _ => ct_bias_addr t
  end.

(** What [NpuTb] expects of a convolution test: int8 tensors of sizes for which the
    reference model is defined, weights and bias apart in their buffer, the
    input and the result apart in theirs, coordinates of 17 bits, parameters in the
    range of their fields, and the result ready by the first poll. *)
Definition conv_test_ok (t : conv_test) : Prop :=
  let OH := positions (ct_H t) (ct_ph t) (ct_R t) (ct_sh t) in
  let OW := positions (ct_W t) (ct_pw t) (ct_S t) (ct_sw t) in
  let n_in := ct_H t * ct_W t * ct_C t in
  let n_wt := ct_K t * ct_R t * ct_S t * ct_C t in
  let n_out := OH * OW * ct_K t in
  conv_defined (ct_act t) (ct_wt t) (ct_bias t) (ct_H t) (ct_W t) (ct_C t) (ct_K t) (ct_R t) (ct_S t)
    (ct_sh t) (ct_sw t) (ct_ph t) (ct_pw t) (ct_qshift t) /\
  Forall (fits 16) [ct_H t; ct_W t; ct_sh t; ct_sw t; ct_ph t; ct_pw t] /\
  1 <= ct_C t /\ 1 <= ct_K t /\ 1 <= ct_R t /\ 1 <= ct_S t /\
  ct_H t + ct_ph t <= 2 ^ 16 /\ ct_W t + ct_pw t <= 2 ^ 16 /\ 0 <= ct_act_mode t <= 2 /\
  (0 <= ct_wt_addr t /\ ct_wt_addr t + n_wt <= window_size WEIGHT_BUF) /\
  (0 <= bias_base t /\ bias_base t + ct_K t <= window_size WEIGHT_BUF) /\
  (ct_wt_addr t + n_wt <= bias_base t \/ bias_base t + ct_K t <= ct_wt_addr t) /\
  (0 <= ct_act_in_addr t /\ ct_act_in_addr t + n_in <= window_size ACT_BUF) /\
  (0 <= ct_act_out_addr t /\ ct_act_out_addr t + n_out <= window_size ACT_BUF) /\
  (ct_act_out_addr t + n_out <= ct_act_in_addr t \/ ct_act_in_addr t + n_in <= ct_act_out_addr t) /\
  51 + 5 * (n_out * ct_R t * ct_S t * ct_C t) <= 2001.

Section conv.
Context (t : conv_test).
Hypothesis Hok : conv_test_ok t.

Abbreviation OH := (positions (ct_H t) (ct_ph t) (ct_R t) (ct_sh t)).
Abbreviation OW := (positions (ct_W t) (ct_pw t) (ct_S t) (ct_sw t)).
Abbreviation n_in := (ct_H t * ct_W t * ct_C t).
Abbreviation n_wt := (ct_K t * ct_R t * ct_S t * ct_C t).
Abbreviation n_out := (OH * OW * ct_K t).
Abbreviation params := (mk_conv (ct_act_in_addr t) (ct_act_out_addr t) (ct_wt_addr t) (conv_bias_addr t)
  (ct_H t) (ct_W t) (ct_C t) (ct_K t) (ct_R t) (ct_S t) (ct_sh t) (ct_sw t) (ct_ph t) (ct_pw t) 0 0 (ct_qshift t) (ct_act_mode t)).
Abbreviation cmd := (conv_requested params).
Abbreviation loaded := (mac_loaded (ct_wt t) (bias_bytes (ct_bias t) (ct_K t)) (ct_act t) (ct_wt_addr t) (bias_base t) (ct_act_in_addr t)).

Lemma conv_test_bounds :
  1 <= OH <= 8192 /\ 1 <= OW <= 8192 /\ 1 <= n_out <= 8192 /\ 0 <= n_in <= 8192 /\ 1 <= n_wt <= 4096 /\
  Z.of_nat (length (ct_act t)) = n_in /\ Z.of_nat (length (ct_wt t)) = n_wt /\ conv_bias_addr t = bias_base t.
Proof using Hok.
  destruct Hok as ((Hh & Hw & _ & _ & [Hla _] & [Hlw _] & _) & Hf & HC & HK & HR & HS & _ & _ & _ & [Hw0 Hw1] & [Hb0 Hb1] & _ & [Hi0 Hi1] & [Ho0 Ho1] & _).
  pose proof (positions_bound _ _ _ _ Hh) as [HOH _]. pose proof (positions_bound _ _ _ _ Hw) as [HOW _].
  unfold window_size, SRAM_ADDR_W in *. cbn [Z.of_nat] in *. cbn -[Z.mul Z.add positions bias_base] in Hw1, Hb1, Hi1, Ho1.
  assert (1 <= OH * OW) by nia. assert (OH <= OH * OW) by nia. assert (OW <= OH * OW) by nia.
  assert (OH * OW <= n_out) by nia. assert (1 <= n_wt) by (repeat apply (Z.mul_le_mono_nonneg 1 _ 1); lia).
  assert (0 <= n_in) by lia. split_and?; try lia.
  unfold conv_bias_addr, bias_base in *. destruct (ct_bias t) as [|y bias]; [|done].
  rewrite Hlw, (wrap_small 32 n_wt) by (apply fits32_iff; lia). apply wrap_small, fits32_iff. lia.
Qed.

(** Sizes are at most the product of sizes. *)
Lemma conv_test_sizes : 1 <= ct_C t <= 4096 /\ 1 <= ct_K t <= 4096 /\ 1 <= ct_R t <= 4096 /\ 1 <= ct_S t <= 4096.
Proof using Hok.
  pose proof conv_test_bounds as (_ & _ & _ & _ & Hn & _). destruct Hok as (_ & _ & HC & HK & HR & HS & _).
  assert (ct_K t <= ct_K t * ct_R t) by nia. assert (ct_R t <= ct_K t * ct_R t) by nia.
  assert (ct_K t * ct_R t <= ct_K t * ct_R t * ct_S t) by nia. assert (ct_S t <= ct_K t * ct_R t * ct_S t) by nia.
  assert (ct_K t * ct_R t * ct_S t <= n_wt) by nia. assert (ct_C t <= n_wt) by nia. lia.
Qed.

Lemma conv_test_wf : test_wf (TConv t).
Proof using Hok.
  pose proof conv_test_bounds as (? & ? & ? & ? & ? & Hla & Hlw & Hba). pose proof conv_test_sizes as (? & ? & ? & ?).
  destruct Hok as ((_ & _ & _ & _ & _ & _ & Hbi & _ & _ & _ & _ & _ & _ & Hq) & Hf & _ & _ & _ & _ & _ & _ & Hact & [Hw0 Hw1] & [Hb0 Hb1] & _ & [Hi0 Hi1] & [Ho0 Ho1] & _).
  unfold window_size, SRAM_ADDR_W in *. cbn -[Z.mul Z.add positions bias_base] in Hw1, Hb1, Hi1, Ho1. rewrite !Forall_cons_iff in Hf. split.
  - cbn [arrays]. rewrite !Forall_cons_iff. unfold INT_MAX. split_and!; [lia|lia| |done]. destruct Hbi as [->|[Hl _]]; cbn; lia.
  - split; rewrite !Forall_cons_iff; cbn [cv_act_in_addr cv_act_out_addr cv_weight_addr cv_bias_addr cv_in_h cv_in_w cv_in_c cv_out_k cv_filt_r cv_filt_s
      cv_stride_h cv_stride_w cv_pad_h cv_pad_w cv_out_h cv_out_w cv_quant_shift cv_act_mode];
      (split_and!; [..|done]); first [apply Hf|apply fits16_iff; lia|unfold fits; lia].
Qed.

Lemma conv_test_cmd :
  cmd = mk_conv_cmd (opcode_val LGNPU_OP_CONV) (ct_act_in_addr t) (ct_act_out_addr t) (ct_wt_addr t) (bias_base t)
    (ct_H t) (ct_W t) (ct_C t) (ct_K t) (ct_R t) (ct_S t) (ct_sh t) (ct_sw t) (ct_ph t) (ct_pw t) OH OW (ct_qshift t) (ct_act_mode t).
Proof using Hok.
  pose proof conv_test_bounds as (? & ? & _ & _ & _ & _ & _ & Hba). pose proof conv_test_sizes as (? & ? & ? & ?).
  destruct Hok as ((Hh & Hw & _ & _ & _ & _ & _ & _ & _ & _ & _ & _ & _ & Hq) & Hf & _ & _ & _ & _ & _ & _ & Hact & _). rewrite !Forall_cons_iff in Hf.
  unfold conv_requested. cbn [cv_act_in_addr cv_act_out_addr cv_weight_addr cv_bias_addr cv_in_h cv_in_w cv_in_c cv_out_k cv_filt_r cv_filt_s
      cv_stride_h cv_stride_w cv_pad_h cv_pad_w cv_out_h cv_out_w cv_quant_shift cv_act_mode].
  rewrite Hba, !derived, !wrap_small; try done; first [apply Hf|apply fits16_iff; lia|unfold fits; lia|lia].
Qed.

(** The cells of the command are the bytes the testbench addresses. *)
Lemma conv_test_cells :
  (forall x, 0 <= x < n_in -> conv_act_cell cmd x = ct_act_in_addr t + x) /\
  (forall x, 0 <= x < n_wt -> conv_wt_cell cmd x = ct_wt_addr t + x) /\
  (forall x, 0 <= x < ct_K t -> conv_bias_cell cmd x = bias_base t + x) /\
  (forall x, 0 <= x < n_out -> conv_out_cell cmd x = ct_act_out_addr t + x).
Proof using Hok.
  destruct Hok as (_ & _ & _ & _ & _ & _ & _ & _ & _ & [Hw0 Hw1] & [Hb0 Hb1] & _ & [Hi0 Hi1] & [Ho0 Ho1] & _).
  unfold window_size, SRAM_ADDR_W in *. cbn -[Z.mul Z.add positions bias_base] in Hw1, Hb1, Hi1, Ho1. rewrite conv_test_cmd.
  unfold conv_act_cell, conv_wt_cell, conv_bias_cell, conv_out_cell, SRAM_ADDR_W. cbn [c_act_in_addr c_weight_addr c_bias_addr c_act_out_addr].
  split_and!; intros x Hx; apply cell_address; lia.
Qed.

Lemma conv_test_runs : conv_runs cmd.
Proof using Hok.
  pose proof conv_test_bounds as (? & ? & ? & ? & ? & _). pose proof conv_test_sizes as (? & ? & ? & ?). assert (Hdef := Hok).
  destruct Hdef as ((Hh & Hw & _) & Hf & HC & HK & HR & HS & Bh & Bw & Hact & [Hw0 Hw1] & [Hb0 Hb1] & _ & [Hi0 Hi1] & [Ho0 Ho1] & _).
  unfold window_size, SRAM_ADDR_W in *. cbn -[Z.mul Z.add positions bias_base] in Hw1, Hb1, Hi1, Ho1. rewrite !Forall_cons_iff in Hf.
  rewrite conv_test_cmd. unfold conv_runs, conv_cmd_fits.
  cbn [c_act_in_addr c_act_out_addr c_weight_addr c_bias_addr c_in_h c_in_w c_in_c c_out_k c_filt_r c_filt_s
    c_stride_h c_stride_w c_pad_h c_pad_w c_out_h c_out_w c_quant_shift c_act_mode].
  split_and!; first [done|lia|apply Hf|apply Hh|apply Hw|apply fits16_iff; lia].
Qed.

Lemma conv_test_apart : conv_apart cmd.
Proof using Hok.
  destruct conv_test_cells as (Ha & _ & _ & Hc). destruct Hok as (_ & _ & _ & _ & _ & _ & _ & _ & _ & _ & _ & _ & _ & _ & Hap & _).
  assert (Ho : out_count cmd = n_out) by (by rewrite conv_test_cmd). unfold conv_apart. rewrite Ho. change (in_size cmd) with n_in.
  split; intros x y Hx Hy; rewrite ?Hc, ?Ha by lia; lia.
Qed.

Lemma conv_test_placed : operands_placed (ct_wt t) (bias_bytes (ct_bias t) (ct_K t)) (ct_act t) (ct_wt_addr t) (bias_base t) (ct_act_in_addr t).
Proof using Hok.
  pose proof conv_test_bounds as (_ & _ & _ & _ & _ & Hla & Hlw & _).
  destruct Hok as ((_ & _ & _ & _ & _ & _ & Hbi & _) & _ & _ & HK & _ & _ & _ & _ & _ & [Hw0 Hw1] & [Hb0 Hb1] & Hap & [Hi0 Hi1] & _).
  destruct (bias_bytes_wf (ct_bias t) (ct_K t) ltac:(lia) Hbi) as [Hl _]. unfold operands_placed. lia.
Qed.

Lemma conv_test_operands m : conv_operands cmd (loaded m) (ct_act t) (ct_wt t) (ct_bias t).
Proof using Hok.
  destruct conv_test_cells as (Ha & Hb & Hbias & _). pose proof conv_test_placed as Hpl. pose proof conv_test_bounds as (_ & _ & _ & _ & _ & Hla & Hlw & _).
  assert (Hdef := proj1 Hok). destruct Hok as ((_ & _ & _ & _ & _ & _ & Hbi & _) & _ & _ & HK & _). destruct (bias_bytes_wf (ct_bias t) (ct_K t) ltac:(lia) Hbi) as [Hl Hz].
  split; [by rewrite conv_test_cmd|]. change (in_size cmd) with n_in. change (wt_size cmd) with n_wt. change (c_out_k cmd) with (ct_K t).
  split_and!; intros x Hx.
  - rewrite Ha by done. apply loaded_act; [done|lia].
  - rewrite Hb by done. apply loaded_wt; [done|lia].
  - rewrite Hbias by done. rewrite loaded_bias by (done || lia). by apply Hz.
Qed.

(** C17. So does the convolution test, for any stride and padding, with a bias or
    without: in these bounds the run on an idle machine ends with [true] and the
    one message that says so, and the buffers differ from the loaded operands
    exactly by the result of the reference model. *)
Theorem conv_test_passes name ws (h : chip) :
  length ws = 16%nat -> quiet ws h ->
  exists out tr h',
    golden (TConv t) = Ok out /\
    run (H := tb_env) (run_test name (TConv t)) h = (tr, Ok true, h') /\ messages tr = [Passed name n_out] /\
    quiet (desc_layout (test_params (TConv t))) h' /\ conv_results cmd (loaded (held h)) (held h') out.
Proof using All.
  intros Hws Hq. pose proof conv_test_bounds as (? & ? & ? & ? & ? & Hla & Hlw & Hba). pose proof conv_test_runs as Hv. pose proof conv_test_apart as Hap.
  assert (Hcount : out_count cmd = n_out) by (by rewrite conv_test_cmd).
  destruct (conv_reference cmd (loaded (held h)) Hv _ _ _ (conv_test_operands _) Hap) as (out & Hout & Hres & [Hol Hof]). rewrite Hcount in Hol.
  assert (Hgold : golden (TConv t) = Ok out) by (rewrite <- Hout, conv_test_cmd; done).
  destruct (conv_passes cmd (loaded (held h)) Hv Hap) as (D & Hpass & _).
  assert (Hn : conv_iterations cmd = Z.to_nat (n_out * ct_R t * ct_S t * ct_C t)) by (by rewrite conv_test_cmd).
  assert (Hok' := Hok). destruct Hok' as (_ & _ & ? & ? & ? & ? & _ & _ & _ & _ & _ & _ & _ & [Ho0 Ho1] & _ & Htime).
  assert (0 <= n_out * ct_R t * ct_S t * ct_C t) by (repeat apply Z.mul_nonneg_nonneg; lia).
  destruct (mac_test_passes name (TConv t) (ct_wt t) (bias_bytes (ct_bias t) (ct_K t)) (ct_act t) (ct_wt_addr t) (bias_base t) (ct_act_in_addr t) (ct_act_out_addr t)
    ws h Conv cmd D (5 * conv_iterations cmd + 14)
    (stored (conv_iter cmd) (c_quant_shift cmd) (c_act_mode cmd) (loaded (held h)) (conv_iterations cmd)) out conv_test_placed)
    as (tr & h' & Hrun & Hmsg & Hq' & Hm'); [|done|done|lia|exact conv_test_wf|exact Hgold|done| |exact Hpass|lia| | |done|done|].
  - cbn [loads]. by rewrite Hba, biases_bytes by lia.
  - intros c. apply conv_owner.
  - intros w Hr Hw. apply (conv_memory cmd _ w); [done|done|done|exact Hw|lia].
  - intros x Hx. destruct Hres as (Hc & _). rewrite <- (proj2 (proj2 (proj2 conv_test_cells))) by lia. apply Hc. rewrite Hcount. lia.
  - exists out, tr, h'. rewrite Hm', <- Hol. by split_and!.
Qed.
End conv.

(** ** Witnesses *)

(** A 2x2 product of depth 2 with a bias, and a 2x2 filter over a padded 2x2 input without. *)
Definition ex_gemm_test : gemm_test := mk_gemm_test [1; 2; 3; -4] [5; 6; 7; 8] [1; -1] 2 2 2 1 1 0 0 2048.
Definition ex_conv_test : conv_test := mk_conv_test [1; 2; 3; 4] [1; 1; 1; 1] [] 2 2 1 1 2 2 1 1 1 1 0 0 0 0 100 2048.

Lemma ex_gemm_test_ok : gemm_test_ok ex_gemm_test.
Proof. apply (bool_decide_unpack _). vm_compute. done. Qed.

Lemma ex_conv_test_ok : conv_test_ok ex_conv_test.
Proof. apply (bool_decide_unpack _). vm_compute. done. Qed.

Theorem gemm_test_passes_witness :
  exists tr h', run (H := tb_env) (run_test "gemm" (TGemm ex_gemm_test)) (ex_machine ex_gemm_mem) = (tr, Ok true, h') /\
    messages tr = [Passed "gemm" 4].
Proof.
  destruct (gemm_test_passes ex_gemm_test ex_gemm_test_ok "gemm"
    (replicate 16 0) (ex_machine ex_gemm_mem) eq_refl (ex_quiet _)) as (out & tr & h' & _ & Hrun & Hm & _).
  exists tr, h'. split; [exact Hrun|exact Hm].
Defined.

Theorem conv_test_passes_witness :
  exists tr h', run (H := tb_env) (run_test "conv" (TConv ex_conv_test)) (ex_machine ex_conv_mem) = (tr, Ok true, h') /\
    messages tr = [Passed "conv" 9].
Proof.
  destruct (conv_test_passes ex_conv_test ex_conv_test_ok "conv"
    (replicate 16 0) (ex_machine ex_conv_mem) eq_refl (ex_quiet _)) as (out & tr & h' & _ & Hrun & Hm & _).
  exists tr, h'. split; [exact Hrun|exact Hm].
Defined.
