(* ===== verification/Reset.v ===== *)
(** * Reset

    [npu_reset_ctrl] with its [reset_sync] around the control path of [Hw]:
    the soft reset of CTRL, the hard reset of the pin, and what the host, the
    testbench and the registers see of them. *)

From S2P Require Import Prelude Regs Command Decode Prog Runtime Fifo ExtMem Mem Dma Hw HwPhases Tb TbHw.

Open Scope Z_scope.

(** The two stages of [reset_sync], the two of the soft reset, and the rest of
    the chip. *)
Record chip (E : Type) := mk_chip {
  sync_chain : bool * bool; soft_reset_sync1 : bool; soft_reset_sync2 : bool; core : hw E }.
Arguments mk_chip {E}.
Arguments sync_chain {E}.
Arguments soft_reset_sync1 {E}.
Arguments soft_reset_sync2 {E}.
Arguments core {E}.

Section chip.
Context {E : Type} {C : Core E} {L : CoreLaws C}.

Definition hard_rst_n (c : chip E) : bool := (sync_chain c).2.
Definition rst_n (c : chip E) : bool := hard_rst_n c && negb (soft_reset_sync2 c).

Definition regs_zero (ws : list Z) : reg_block := mk_regs 0 0 false false 0 0 0 false false ws false 0.

(** What every [if (!rst_n)] assigns. The command window, the queue's memory
    and the buffers have no reset, and the external memory is outside. *)
Definition reset_core (h : hw E) : hw E :=
  mk_hw (regs_zero (cmd_mem (h_regs h)))
        (mk_fetch F_IDLE 0)
        (mk_decode (replicate 16 0) D_IDLE zero_cmd false)
        (Fifo.fifo_reset (h_queue h))
        (mk_sched S_IDLE zero_cmd) (be_reset (h_backend h)) (mem_reset (h_mem h)) (h_ext h) false perf_zero.

(** A clock edge with [rst_n] low: only the command window, the buffers behind
    the host's port and the external memory are clocked. *)
Definition held_core (h : hw E) (b : bus) : hw E :=
  let h := reset_core h in
  let answer := update_ext_mem (h_ext h) (dma_ext (u_dma (h_mem h))) in
  reset_core (mk_hw (regs_zero (mem_after (cmd_mem (h_regs h)) b))
    (h_fetch h) (h_decode h) (h_queue h) (h_sched h) (h_backend h)
    (mem_step (h_mem h) (dma_config (h_regs h)) (buf_passthrough b None) None answer.2) answer.1 (h_pending h) (h_perf h)).

Abbreviation step := hw_step.

(** A clock edge with the pin at [rst_async_n]. [rst_n] acts at once, so a
    core whose reset is low after the edge is already cleared. *)
Definition chip_step (rst_async_n : bool) (c : chip E) (b : bus) : chip E :=
  if rst_async_n then
    let chain := (true, (sync_chain c).1) in
    if hard_rst_n c then
      let h := if soft_reset_sync2 c then held_core (core c) b else step (core c) b in
      mk_chip chain (soft_reset (core c)) (soft_reset_sync1 c)
        (if soft_reset_sync1 c then reset_core h else h)
    else mk_chip chain false false (held_core (core c) b)
  else mk_chip (false, false) false false (held_core (core c) b).

Fixpoint chip_run (c : chip E) (bs : list bus) : chip E :=
  match bs with [] => c | b :: bs => chip_run (chip_step true c b) bs end.

(** Out of reset, with none on its way. *)
Definition released (h : hw E) : chip E := mk_chip (true, true) false false h.

Definition window_after (h : hw E) (bs : list bus) : list Z := fold_left mem_after bs (cmd_mem (h_regs h)).

(** The core after a reset, with this command window and a queue of [len]
    entries. *)
Definition cleared (ws : list Z) (len : nat) (h : hw E) : Prop :=
  exists q e m x, length (mem q) = len /\ be_idle e /\
    h = mk_hw (regs_zero ws) (mk_fetch F_IDLE 0) (mk_decode (replicate 16 0) D_IDLE zero_cmd false)
          (Fifo.fifo_reset q) (mk_sched S_IDLE zero_cmd) e (mem_reset m) x false perf_zero.

Lemma reset_cleared h : cleared (cmd_mem (h_regs h)) (length (mem (h_queue h))) (reset_core h).
Proof. exists (h_queue h), (be_reset (h_backend h)), (h_mem h), (h_ext h). split_and!; [done|apply reset_idle|done]. Qed.

Lemma held_cleared h b : cleared (mem_after (cmd_mem (h_regs h)) b) (length (mem (h_queue h))) (held_core h b).
Proof.
  eexists (Fifo.fifo_reset (h_queue h)), (be_reset _), _, _. split_and!; [done|apply reset_idle|reflexivity].
Qed.

Lemma cleared_view ws len h :
  cleared ws len h ->
  cmd_mem (h_regs h) = ws /\ length (mem (h_queue h)) = len /\ ctrl_reg (h_regs h) = 0 /\
  irq_en_reg (h_regs h) = 0 /\ h_pending h = false /\ soft_reset h = false /\
  reg_rdata h (rtl_reg R_STATUS) = 1.
Proof.
  intros (q & e & m & x & <- & He & ->). split_and!; try done.
  unfold reg_rdata, core_idle, core_busy. cbn. by rewrite (proj1 (idle_view _ He)).
Qed.

(** Every register reads its reset value. *)
Lemma cleared_reads ws len h :
  cleared ws len h ->
  forall r, reg_rdata h (rtl_reg r) = match r with R_STATUS => 1 | R_FEATURE_ID => FEATURE_ID | _ => 0 end.
Proof.
  intros Hcl r. destruct (decide (r = R_STATUS)) as [->|Hne]; [by destruct (cleared_view _ _ _ Hcl) as (_ & _ & _ & _ & _ & _ & Hs)|].
  destruct Hcl as (q & e & m & x & _ & _ & ->). by destruct r.
Qed.

(** A cleared core is idle, whatever its window and its memories hold. *)
Lemma cleared_quiet ws h : cleared ws 4 h -> quiet ws h.
Proof.
  intros (q & e & m & x & Hq & He & ->). unfold quiet, others, fetch_is. cbn.
  split_and!; try done. unfold fifo_wf, fits, DEPTH, CMD_QUEUE_DEPTH_LOG. cbn. by rewrite Hq.
Qed.

Lemma step_window h b : cmd_mem (h_regs (step h b)) = mem_after (cmd_mem (h_regs h)) b.
Proof. unfold mem_after. simpl. by destruct b as [[a v]|]. Qed.

(** An edge of a chip out of reset is an edge of its core. *)
Lemma released_step h b :
  soft_reset h = false -> chip_step true (released h) b = released (step h b).
Proof.
  intros Hs. unfold chip_step, released.
  cbn [hard_rst_n sync_chain snd fst soft_reset_sync1 soft_reset_sync2 core]. by rewrite Hs.
Qed.

Lemma step_queue_length h b : length (mem (h_queue (step h b))) = length (mem (h_queue h)).
Proof. simpl. by case_match; rewrite ?length_insert. Qed.

Lemma chip_run_app c bs1 bs2 : chip_run c (bs1 ++ bs2) = chip_run (chip_run c bs1) bs2.
Proof. revert c. induction bs1 as [|b bs1 IH]; intros c; [done|]. apply IH. Qed.

(** How many cycles [rst_n] is low after a write of CTRL bit 0: two, or one if
    the very next cycle takes the bit back. *)
Definition reset_cycles (b1 : bus) : nat :=
  match written b1 with Some (R_CTRL, v) => if Z.testbit v 0 then 2 else 1 | _ => 2 end.

Lemma reset_cycles_plain b1 : writes_ctrl b1 = false -> reset_cycles b1 = 2%nat.
Proof. unfold writes_ctrl, reset_cycles. by destruct (written b1) as [[[] v]|]. Qed.

Lemma reset_cycles_step h b1 :
  soft_reset h = true -> soft_reset (step h b1) = bool_decide (reset_cycles b1 = 2%nat).
Proof.
  intros Hs. unfold soft_reset, reset_cycles in *. rewrite step_ctrl.
  destruct (written b1) as [[[] v]|]; try done. by destruct (Z.testbit v 0).
Qed.

(** The first three edges: the reset is on its way, then low. *)
Lemma soft_reset_begins h v b1 b2 :
  soft_reset h = false -> Z.testbit v 0 = true ->
  let bs := [Some (rtl_reg R_CTRL, v); b1; b2] in
  let h2 := step (step h (Some (rtl_reg R_CTRL, v))) b1 in
  chip_run (released h) (take 1 bs) = released (step h (Some (rtl_reg R_CTRL, v))) /\
  chip_run (released h) (take 2 bs) = mk_chip (true, true) true false h2 /\
  chip_run (released h) bs = mk_chip (true, true) (bool_decide (reset_cycles b1 = 2%nat)) true (reset_core (step h2 b2)).
Proof.
  intros Hh Hv bs h2. set (h1 := step h (Some (rtl_reg R_CTRL, v))).
  assert (Hs1 : soft_reset h1 = true) by (unfold soft_reset, h1; by rewrite step_ctrl).
  assert (Hs2 := reset_cycles_step h1 b1 Hs1). fold h1 in h2. fold h2 in Hs2.
  unfold bs. cbn [take chip_run]. rewrite released_step by done. fold h1.
  assert (Hc2 : chip_step true (released h1) b1 = mk_chip (true, true) true false h2).
  { unfold chip_step, released. cbn [hard_rst_n sync_chain snd fst soft_reset_sync1 soft_reset_sync2 core]. by rewrite Hs1. }
  rewrite Hc2. split_and!; [done|done|].
  unfold chip_step. cbn [hard_rst_n sync_chain snd fst soft_reset_sync1 soft_reset_sync2 core]. by rewrite Hs2.
Qed.

(** All edges of a soft reset. *)
Lemma soft_reset_edges h v b1 b2 b3 b4 :
  soft_reset h = false -> Z.testbit v 0 = true ->
  let low := reset_cycles b1 in
  let bs := take (3 + low) [Some (rtl_reg R_CTRL, v); b1; b2; b3; b4] in
  let c n := chip_run (released h) (take n bs) in
  (rst_n ∘ c) <$> seq 0 (4 + low) = replicate 3 true ++ replicate low false ++ [true] /\
  exists h', c (3 + low)%nat = released h' /\ cleared (window_after h bs) (length (mem (h_queue h))) h'.
Proof.
  intros Hh Hv low bs c. destruct (soft_reset_begins h v b1 b2 Hh Hv) as (H1 & H2 & H3).
  set (h2 := step (step h (Some (rtl_reg R_CTRL, v))) b1) in *. set (h3 := step h2 b2) in *.
  assert (Hw : cmd_mem (h_regs (reset_core h3)) = window_after h [Some (rtl_reg R_CTRL, v); b1; b2] /\
    length (mem (h_queue (reset_core h3))) = length (mem (h_queue h))).
  { unfold window_after. cbn [fold_left]. split.
    - change (cmd_mem (h_regs (reset_core h3))) with (cmd_mem (h_regs h3)). unfold h3, h2. by rewrite !step_window.
    - change (length (mem (h_queue (reset_core h3)))) with (length (mem (h_queue h3))). unfold h3, h2. by rewrite !step_queue_length. }
  destruct Hw as [Hwin Hlen]. pose proof (held_cleared (reset_core h3) b3) as Hc3. rewrite Hwin, Hlen in Hc3.
  assert (Hlow : low = 1%nat \/ low = 2%nat) by (unfold low, reset_cycles; repeat case_match; auto).
  unfold c, bs. fold low in H3. destruct Hlow as [Hl|Hl]; rewrite Hl in *; cbn [Nat.add seq take fmap list_fmap compose] in *.
  - assert (H4 : chip_run (released h) [Some (rtl_reg R_CTRL, v); b1; b2; b3] = released (held_core (reset_core h3) b3)).
    { change (_ :: _) with ([Some (rtl_reg R_CTRL, v); b1; b2] ++ [b3]). rewrite chip_run_app, H3. done. }
    split; [by rewrite H1, H2, H3, H4|]. eexists. split; [exact H4|exact Hc3].
  - assert (H4 : chip_run (released h) [Some (rtl_reg R_CTRL, v); b1; b2; b3] =
      mk_chip (true, true) false true (reset_core (held_core (reset_core h3) b3))).
    { change (_ :: _) with ([Some (rtl_reg R_CTRL, v); b1; b2] ++ [b3]). rewrite chip_run_app, H3. done. }
    assert (H5 : chip_run (released h) [Some (rtl_reg R_CTRL, v); b1; b2; b3; b4] =
      released (held_core (reset_core (held_core (reset_core h3) b3)) b4)).
    { change (_ :: _) with ([Some (rtl_reg R_CTRL, v); b1; b2; b3] ++ [b4]). rewrite chip_run_app, H4. done. }
    split; [by rewrite H1, H2, H3, H4, H5|]. eexists. split; [exact H5|].
    pose proof (held_cleared (reset_core (held_core (reset_core h3) b3)) b4) as Hc4.
    destruct (cleared_view _ _ _ Hc3) as (Hw3 & Hl3 & _).
    change (cmd_mem (h_regs (reset_core (held_core (reset_core h3) b3)))) with (cmd_mem (h_regs (held_core (reset_core h3) b3))) in Hc4.
    change (length (mem (h_queue (reset_core (held_core (reset_core h3) b3))))) with (length (mem (h_queue (held_core (reset_core h3) b3)))) in Hc4.
    by rewrite Hw3, Hl3 in Hc4.
Qed.

(** *** Runs of a chip out of reset *)

Lemma released_ticks h n :
  soft_reset h = false ->
  chip_run (released h) (replicate n None) = released (ticks n h) /\
  ctrl_reg (h_regs (ticks n h)) = ctrl_reg (h_regs h).
Proof.
  revert h. induction n as [|n IH]; intros h Hs; [done|].
  assert (Hc : ctrl_reg (h_regs (step h None)) = ctrl_reg (h_regs h)) by (by rewrite step_ctrl).
  cbn [replicate chip_run ticks]. rewrite released_step by done. rewrite <- Hc.
  apply IH. unfold soft_reset in *. by rewrite Hc.
Qed.

(** ENABLE written in the cycle after the reset shortens the reset by one
    cycle and is cleared by it. *)
Lemma reset_enable_edges h :
  soft_reset h = false ->
  exists ws h', chip_run (released h) [Some (rtl_reg R_CTRL, 1); Some (rtl_reg R_CTRL, 2); None; None] = released h' /\
    cleared ws (length (mem (h_queue h))) h'.
Proof.
  intros Hh. destruct (soft_reset_edges h 1 (Some (rtl_reg R_CTRL, 2)) None None None Hh eq_refl) as (_ & h' & Hc & Hcl).
  eexists _, h'. split; [exact Hc|exact Hcl].
Qed.
End chip.

(** ** The soft reset *)

Section soft_reset.
Context {E : Type} {C : Core E} {L : CoreLaws C}.

(** C31. Soft reset from any state out of reset, in the middle of a fetch, of a
    command or of a transfer, whatever the bus does meanwhile. After the write of
    CTRL bit 0, [rst_n] stays high for two more edges and is low for exactly two
    cycles, or for one if the very next cycle writes CTRL with bit 0 clear. When
    it rises nothing is left of the old state but the command window, which keeps
    every store, those of the reset cycles included, and the memories: every
    register reads its reset value, so every register write up to then is lost,
    also one made while the reset was on its way or low; no DMA start is latched,
    the queue is empty, the fetch, the decoder, the scheduler, the backends and the
    DMA engine are idle. *)
Theorem soft_reset_recovers h v b1 b2 b3 b4 :
  soft_reset h = false -> length (mem (h_queue h)) = 4%nat -> Z.testbit v 0 = true ->
  let low := reset_cycles b1 in
  let bs := take (3 + low) [Some (rtl_reg R_CTRL, v); b1; b2; b3; b4] in
  let c n := chip_run (released h) (take n bs) in
  (rst_n ∘ c) <$> seq 0 (4 + low) = replicate 3 true ++ replicate low false ++ [true] /\
  exists h', c (3 + low)%nat = released h' /\ quiet (window_after h bs) h' /\
    (forall r, reg_rdata h' (rtl_reg r) = match r with R_STATUS => 1 | R_FEATURE_ID => FEATURE_ID | _ => 0 end) /\
    dma_config (h_regs h') = mk_cfg 0 0 0 false false.
Proof.
  intros Hh Hq Hv low bs c.
  destruct (soft_reset_edges h v b1 b2 b3 b4 Hh Hv) as [Hrst (h' & Hc & Hcl)]. rewrite Hq in Hcl.
  split; [exact Hrst|]. exists h'. split_and!; [exact Hc|by apply cleared_quiet|by eapply cleared_reads|].
  by destruct Hcl as (q & e & m & x & _ & _ & ->).
Qed.

(** A host whose accesses take one cycle, with [gap] idle cycles after each. *)
Definition chip_answer (base : Z) (gap : nat) (late : bool) (c : mmio) (ch : chip E) : Z * chip E :=
  match c with
  | Load a => (reg_rdata (core (if late then chip_step true ch None else ch)) (a - base),
               chip_run ch (None :: replicate gap None))
  | Store a v => (0, chip_run ch (Some (a - base, v) :: replicate gap None))
  end.

#[local] Instance chip_env (base : Z) (gap : nat) (late : bool) : Env mmio (chip E) := chip_answer base gap late.

(** The access asks for a soft reset. *)
Definition asks_reset (base : Z) (c : mmio) : bool :=
  match c with
  | Store a v => match reg_at (a - base) with Some R_CTRL => Z.testbit v 0 | _ => false end
  | Load _ => false
  end.

Lemma released_access base gap late c h :
  soft_reset h = false -> asks_reset base c = false ->
  let a := mmio_answer base gap late c h in
  chip_answer base gap late c (released h) = (a.1, released a.2) /\ soft_reset a.2 = false.
Proof.
  intros Hs Hc. assert (Hrun : forall b, (match c with Store a v => b = Some (a - base, v) | Load _ => b = None end) ->
    soft_reset (hw_step h b) = false /\ chip_run (released h) (b :: replicate gap None) = released (ticks gap (hw_step h b)) /\
    soft_reset (ticks gap (hw_step h b)) = false).
  { intros b Hb. assert (Hs' : soft_reset (hw_step h b) = false).
    { unfold soft_reset. rewrite step_ctrl. unfold written. destruct c as [a|a v]; subst b; [done|].
      cbn [asks_reset mbind option_bind] in *. destruct (reg_at (a - base)) as [r|]; [|exact Hs]. by destruct r. }
    destruct (released_ticks (hw_step h b) gap Hs') as [Hr Hctrl]. split; [done|]. cbn [chip_run]. rewrite released_step by done.
    split; [done|]. unfold soft_reset. by rewrite Hctrl. }
  destruct c as [a|a v]; cbn -[chip_run chip_step ticks hw_step reg_rdata] in *.
  - destruct (Hrun None eq_refl) as (_ & -> & Ht). split; [|done]. destruct late; [by rewrite released_step|done].
  - destruct (Hrun _ eq_refl) as (_ & -> & Ht). done.
Qed.

(** C32. The reset controller is transparent. A chip out of reset, with
    [npu_reset_ctrl] and its synchroniser around the core, shows any program
    that never writes CTRL with bit 0 set what the core of [Hw] alone shows it:
    the same calls with the same answers, the same result, and in the end the
    same core, out of reset still. So what is proved of programs on [hw_env]
    holds of the whole chip. *)
Theorem out_of_reset_refines {R} base gap late (p : prog mmio R) h tr o h' :
  soft_reset h = false ->
  run (H := hw_env base gap late) p h = (tr, o, h') ->
  Forall (fun e => asks_reset base e.1 = false) tr ->
  run (H := chip_env base gap late) p (released h) = (tr, o, released h') /\ soft_reset h' = false.
Proof.
  revert h tr o h'. induction p as [r|u|c k IH]; intros h tr o h' Hs; cbn [run].
  - by intros [= <- <- <-] _.
  - by intros [= <- <- <-] _.
  - change (@answer _ _ (hw_env base gap late) c h) with (mmio_answer base gap late c h).
    change (@answer _ _ (chip_env base gap late) c (released h)) with (chip_answer base gap late c (released h)).
    destruct (run (H := hw_env base gap late) (k (mmio_answer base gap late c h).1) (mmio_answer base gap late c h).2) as [[tr1 o1] s2] eqn:Hr.
    rewrite (surjective_pairing (mmio_answer base gap late c h)), Hr.
    intros [= <- <- <-] [Hc Htr]%Forall_cons_iff. cbn [fst] in Hc.
    destruct (released_access base gap late c h Hs Hc) as [Hac Hs1].
    destruct (IH _ _ tr1 o1 s2 Hs1 Hr Htr) as [Hrun Hs2]. split; [|done]. by rewrite Hac, Hrun.
Qed.

Lemma reset_enable_run base gap late c :
  run (H := chip_env base gap late)
    (npu_reset (Some (mk_dev (Some base)));; npu_enable (Some (mk_dev (Some base)))) c =
  ([(Store (base + uapi_reg R_CTRL) 1, 0); (Store (base + uapi_reg R_CTRL) 2, 0)], Ok 0,
   chip_run c
     ((Some (rtl_reg R_CTRL, 1) :: replicate gap None) ++ (Some (rtl_reg R_CTRL, 2) :: replicate gap None))).
Proof.
  rewrite chip_run_app. unfold npu_reset, npu_enable, npu_mmio_write. cbn -[chip_run Z.add].
  rewrite !Z.add_simpl_l. done.
Qed.

(** The five edges of the reset, and idle cycles after them. *)
Lemma reset_then_idle h b1 b2 b3 b4 n :
  soft_reset h = false -> writes_ctrl b1 = false ->
  exists h', chip_run (released h)
    ([Some (rtl_reg R_CTRL, 1); b1; b2; b3; b4] ++ replicate n None) = released h' /\
    ctrl_reg (h_regs h') = 0.
Proof.
  intros Hh Hb1.
  destruct (soft_reset_edges h 1 b1 b2 b3 b4 Hh eq_refl) as (_ & h' & Hc & Hcl). rewrite (reset_cycles_plain b1 Hb1) in *.
  destruct (cleared_view _ _ _ Hcl) as (_ & _ & Hctrl0 & _ & _ & Hs & _).
  cbn [take Nat.add] in Hc. rewrite chip_run_app, Hc.
  destruct (released_ticks h' n Hs) as [Hr Hctrl].
  rewrite Hr. eexists. split; [done|]. by rewrite Hctrl.
Qed.

(** C37. [npu_reset] directly followed by [npu_enable]: the ENABLE bit survives
    exactly when the host leaves at least four idle cycles between the two
    stores; a faster host's write is swallowed by the reset that is still to
    come or under way, without any error. *)
Theorem enable_after_reset base gap late h :
  soft_reset h = false ->
  exists tr c h',
    run (H := chip_env base gap late)
      (npu_reset (Some (mk_dev (Some base)));; npu_enable (Some (mk_dev (Some base)))) (released h) =
      (tr, Ok 0, c) /\
    chip_run c (replicate 4 None) = released h' /\
    reg_rdata h' (rtl_reg R_CTRL) = if (4 <=? gap)%nat then 2 else 0.
Proof.
  intros Hh. rewrite reset_enable_run.
  enough (exists h', chip_run (released h)
     ((Some (rtl_reg R_CTRL, 1) :: replicate gap None) ++ (Some (rtl_reg R_CTRL, 2) :: replicate (gap + 4) None)) =
     released h' /\ ctrl_reg (h_regs h') = if (4 <=? gap)%nat then 2 else 0) as (h' & Hr & Hc).
  { eexists _, _, h'. split; [done|]. split; [|exact Hc].
    rewrite <- Hr, replicate_add. rewrite !chip_run_app. cbn [chip_run]. by rewrite chip_run_app. }
  assert (Hnone : writes_ctrl None = false) by done.
  destruct gap as [|[|[|[|gap]]]]; cbn [Nat.leb].
  - destruct (reset_enable_edges h Hh) as (ws & h' & Hc & Hcl).
    destruct (cleared_view _ _ _ Hcl) as (_ & _ & Hctrl0 & _ & _ & Hs & _).
    change (_ ++ _) with ([Some (rtl_reg R_CTRL, 1); Some (rtl_reg R_CTRL, 2); None; None] ++ replicate 2 None).
    rewrite chip_run_app, Hc. eexists.
    destruct (released_ticks h' 2 Hs) as [Hr Hctrl].
    split; [exact Hr|]. by rewrite Hctrl.
  - apply (reset_then_idle h None (Some (rtl_reg R_CTRL, 2)) None None 3 Hh Hnone).
  - apply (reset_then_idle h None None (Some (rtl_reg R_CTRL, 2)) None 5 Hh Hnone).
  - apply (reset_then_idle h None None None (Some (rtl_reg R_CTRL, 2)) 7 Hh Hnone).
  - destruct (reset_then_idle h None None None None gap Hh Hnone) as (h1 & Hr & Hc).
    change (Some (rtl_reg R_CTRL, 1) :: replicate (S (S (S (S gap)))) None) with
      ([Some (rtl_reg R_CTRL, 1); None; None; None; None] ++ replicate gap None).
    rewrite chip_run_app, Hr. cbn [chip_run].
    rewrite released_step by (unfold soft_reset; by rewrite Hc).
    set (h2 := hw_step h1 _).
    assert (Hc2 : ctrl_reg (h_regs h2) = 2) by (unfold h2; by rewrite step_ctrl).
    destruct (released_ticks h2 (S (S (S (S gap))) + 4)) as [Hr2 Hctrl];
      [unfold soft_reset; by rewrite Hc2|].
    rewrite Hr2. eexists. split; [done|]. by rewrite Hctrl.
Qed.

(** ** The testbench *)

(** The bus functional model drives the chip as [TbHw] drives the core. *)
Definition chip_pins_step (p : pins) (c : chip E) : chip E :=
  chip_step true c (pins_bus p).

Definition tb_chip_answer (t : tb_call) (c : chip E) : Z * chip E :=
  match t with
  | Write a d => (0, default c (mmio_write chip_pins_step (fun p c => pins_ready p (core c)) 1 a d c))
  | Tick => (0, chip_step true c None)
  | Read a =>
      match mmio_read chip_pins_step (fun p c => pins_ready p (core c))
              (fun p c => reg_rdata (core c) (mmio_addr p)) 1 a 0 c with
      | Some (v, c') => (v, c')
      | None => (0, c)
      end
  | _ => (0, c)
  end.

#[local] Instance tb_chip_env : Env tb_call (chip E) := tb_chip_answer.

(** [NpuTb::reset]: the pin low for [cycles] clocks, then two with it high. *)
Definition tb_reset (cycles : nat) (c : chip E) : chip E :=
  let c := Nat.iter cycles (fun c => chip_step false c None) c in
  chip_step true (chip_step true c None) None.

Lemma soft_reset_pulse_run c :
  exists tr, run soft_reset_pulse c = (tr, Ok tt,
    chip_run c
      ([Some (rtl_reg R_CTRL, 1); None; None; None; None] ++ [None; Some (rtl_reg R_CTRL, 2)])).
Proof. eexists. unfold soft_reset_pulse, for_prog. cbn -[chip_step]. reflexivity. Qed.

(** After the five edges of the soft reset: one idle cycle and ENABLE. *)
Lemma enable_cleared ws h0 :
  cleared ws 4 h0 ->
  exists h', chip_run (released h0) [None; Some (rtl_reg R_CTRL, 2)] = released h' /\
    quiet ws h' /\ ctrl_reg (h_regs h') = 2 /\ h_pending h' = false.
Proof.
  intros Hcl. destruct (cleared_view _ _ _ Hcl) as (_ & _ & Hctrl0 & _ & Hp & Hs & _).
  assert (Hq0 : quiet ws h0) by by apply cleared_quiet.
  set (h1 := hw_step h0 None).
  assert (Hq1 : quiet ws h1) by (by apply (quiet_step ws h0 None)).
  cbn [chip_run]. rewrite released_step by done. fold h1.
  rewrite released_step by (unfold soft_reset, h1; by rewrite step_ctrl).
  eexists. split; [done|]. split_and!.
  - by apply (quiet_step ws h1 (Some (rtl_reg R_CTRL, 2))).
  - by rewrite step_ctrl.
  - rewrite pending_step by (by eapply quiet_uneventful).
    unfold h1. by rewrite pending_step by (by eapply quiet_uneventful).
Qed.

(** Low clocks of the pin clear everything at once. *)
Lemma pin_low c n :
  exists s1 s2 h', Nat.iter (S n) (fun c => chip_step false c None) c =
    mk_chip (false, false) s1 s2 h' /\ cleared (cmd_mem (h_regs (core c))) (length (mem (h_queue (core c)))) h'.
Proof.
  induction n as [|n (s1 & s2 & h' & IH & Hcl)].
  - exists false, false, (held_core (core c) None). split; [done|]. exact (held_cleared (core c) None).
  - exists false, false, (held_core h' None).
    change (Nat.iter (S (S n)) ?f c) with (f (Nat.iter (S n) f c)). cbn beta. rewrite IH. split; [done|].
    destruct (cleared_view _ _ _ Hcl) as (<- & <- & _). exact (held_cleared h' None).
Qed.

(** The resets of the testbench. [soft_reset_pulse], started in any state
    out of reset, leaves the control path cleared with ENABLE set: its five
    clocks are enough. [reset] does so from any state at all, even from the
    middle of another reset; [rst_n] rises with the second clock after the
    pin. *)
Theorem testbench_resets h c cycles :
  soft_reset h = false -> length (mem (h_queue h)) = 4%nat -> length (mem (h_queue (core c))) = 4%nat ->
  (exists tr h', run soft_reset_pulse (released h) = (tr, Ok tt, released h') /\
     quiet (cmd_mem (h_regs h)) h' /\ ctrl_reg (h_regs h') = 2 /\ h_pending h' = false) /\
  (let low := Nat.iter (S cycles) (fun c => chip_step false c None) c in
   let high := chip_step true low None in
   rst_n low = false /\ rst_n high = false /\
   exists h', tb_reset (S cycles) c = released h' /\ quiet (cmd_mem (h_regs (core c))) h' /\
     ctrl_reg (h_regs h') = 0 /\ h_pending h' = false).
Proof.
  intros Hh Hq Hqc. split.
  - destruct (soft_reset_pulse_run (released h)) as [tr Hrun].
    destruct (soft_reset_edges h 1 None None None None Hh eq_refl)
      as (_ & h1 & Hc & Hcl). cbn [take Nat.add reset_cycles written mbind option_bind] in Hc. rewrite chip_run_app, Hc in Hrun. rewrite Hq in Hcl.
    destruct (enable_cleared _ _ Hcl) as (h' & Hr & Hquiet & Hctrl & Hp).
    rewrite Hr in Hrun. exists tr, h'. done.
  - destruct (pin_low c cycles) as (s1 & s2 & h1 & Hlow & Hcl). unfold tb_reset. rewrite Hlow.
    rewrite Hqc in Hcl. destruct (cleared_view _ _ _ Hcl) as (Hws & Hlen & _).
    pose proof (held_cleared h1 None) as Hcl2. cbn [mem_after] in Hcl2.
    rewrite Hws, Hlen in Hcl2. pose proof (held_cleared (held_core h1 None) None) as Hcl3.
    destruct (cleared_view _ _ _ Hcl2) as (Hws2 & Hlen2 & _). cbn [mem_after] in Hcl3. rewrite Hws2, Hlen2 in Hcl3.
    destruct (cleared_view _ _ _ Hcl3) as (_ & _ & Hctrl & _ & Hp & _).
    split_and!; [done|done|]. eexists. split; [reflexivity|].
    split_and!; [by apply cleared_quiet|done|done].
Qed.
End soft_reset.

(** ** Witnesses *)

Definition no_cycles (c : conv_cmd_t) : nat := 3.
Definition no_writes (c : conv_cmd_t) (n : nat) : option (Z * Z) := None.
#[local] Instance fast_core : Core engine := latency no_cycles no_writes.
#[local] Instance fast_laws : CoreLaws fast_core := latency_laws no_cycles no_writes.

Lemma hw_reset_shape : soft_reset (hw_reset (C := fast_core)) = false /\ length (mem (h_queue (hw_reset (C := fast_core)))) = 4%nat.
Proof. done. Qed.

Theorem soft_reset_recovers_witness :
  exists h', chip_run (released hw_reset)
    [Some (rtl_reg R_CTRL, 1); Some (uapi_reg R_DOORBELL, 1); Some (uapi_reg R_DMA_LEN, 7); None; Some (0x1000, 7)] = released h' /\
    reg_rdata h' (rtl_reg R_STATUS) = 1 /\ reg_rdata h' (rtl_reg R_DMA_LEN) = 0.
Proof.
  destruct (soft_reset_recovers (L := fast_laws) hw_reset 1 (Some (uapi_reg R_DOORBELL, 1)) (Some (uapi_reg R_DMA_LEN, 7)) None
    (Some (0x1000, 7)) (proj1 hw_reset_shape) (proj2 hw_reset_shape) eq_refl)
    as (_ & h' & Hr & _ & Hs & _). exists h'. split; [exact Hr|]. split; [exact (Hs R_STATUS)|exact (Hs R_DMA_LEN)].
Defined.

(** [npu_submit] with a host that takes one cycle per access. *)
Definition ex_submission : prog mmio Z := npu_submit (Some (mk_dev (Some 0x40000000))) (Some (mk_desc (1 :: replicate 15 1))).

Theorem out_of_reset_refines_witness :
  exists h', run (H := chip_env (C := fast_core) 0x40000000 0 false) ex_submission (released hw_reset) =
      ((run (H := hw_env (C := fast_core) 0x40000000 0 false) ex_submission hw_reset).1.1, Ok 0, released h').
Proof.
  destruct (run (H := hw_env (C := fast_core) 0x40000000 0 false) ex_submission hw_reset) as [[tr o] h'] eqn:Hrun.
  assert (Hok : o = Ok 0 /\ forallb (fun e => negb (asks_reset 0x40000000 e.1)) tr = true).
  { assert (Heval : (fun x : trace mmio * res Z * hw engine => match x.1.2 with Ok r => r =? 0 | _ => false end &&
        forallb (fun e => negb (asks_reset 0x40000000 e.1)) x.1.1)
      (run (H := hw_env (C := fast_core) 0x40000000 0 false) ex_submission hw_reset) = true) by by vm_compute.
    rewrite Hrun in Heval. cbn [fst snd] in Heval. apply andb_true_iff in Heval as [Ho ?].
    split; [|done]. destruct o as [r|]; [|done]. by apply Z.eqb_eq in Ho as ->. }
  destruct Hok as [-> Htr]. exists h'. cbn [fst].
  apply (out_of_reset_refines 0x40000000 0 false ex_submission hw_reset tr (Ok 0) h' (proj1 hw_reset_shape) Hrun).
  pose proof (proj1 (forallb_forall _ _) Htr) as Hall. apply List.Forall_forall. intros e He. by apply negb_true_iff, Hall.
Defined.

Theorem enable_after_reset_witness :
  exists c h', chip_run c (replicate 4 None) = released h' /\
    reg_rdata h' (rtl_reg R_CTRL) = 0.
Proof.
  destruct (enable_after_reset (L := fast_laws) 0x40000000 3 false hw_reset (proj1 hw_reset_shape))
    as (_ & c & h' & _ & Hr & Hc). by exists c, h'.
Defined.

Theorem testbench_resets_witness :
  exists h', tb_reset 10 (mk_chip (true, true) true true hw_reset) = released h' /\
    ctrl_reg (h_regs h') = 0.
Proof.
  destruct (testbench_resets (L := fast_laws) hw_reset (mk_chip (true, true) true true hw_reset) 9
    (proj1 hw_reset_shape) (proj2 hw_reset_shape) (proj2 hw_reset_shape))
    as (_ & _ & _ & h' & Hr & _ & Hc & _). by exists h'.
Defined.
