(* ===== verification/Interleave.v ===== *)
(** * Threads of effectful programs over a shared machine

    What concurrent executions of [prog]s need, whatever the calls: a logic
    that bounds every single call of a program by what the program did before
    it ([guarded]), the traces of a pool of threads and the part of each thread
    in it ([own]), and the accesses a critical section has made so far
    ([burst]). *)

From S2P Require Import Prelude Prog.

Open Scope Z_scope.

(** ** Every call of a program, seen from its past

    [guarded P Q past p]: whatever the documented results, each call [c] that
    [p] makes satisfies [P h c], [h] being all calls made so far, [past]
    included; [p] never faults, and it ends with a result in [Q]. Unlike
    [exec] it speaks of unfinished executions, which is what a scheduler
    produces. *)
Fixpoint guarded {C R} `{Calls C} (P : trace C -> C -> Prop) (Q : trace C -> R -> Prop)
    (past : trace C) (p : prog C R) : Prop :=
  match p with
  | Ret r => Q past r
  | Fault _ => False
  | Call c k => P past c /\ forall v, returns c v -> guarded P Q (past ++ [(c, v)]) (k v)
  end.

Section guarded.
Context {C : Type} `{HC : Calls C} (P : trace C -> C -> Prop).

Lemma guarded_mono {R} (Q Q' : trace C -> R -> Prop) past p :
  (forall h r, Q h r -> Q' h r) -> guarded P Q past p -> guarded P Q' past p.
Proof.
  intros HQ. revert past. induction p as [r|u|c k IH]; intros past; simpl; [apply HQ|done|].
  intros [Hc Hk]. split; [done|]. intros v Hv. by apply IH, Hk.
Qed.

(** The bind rule. *)
Lemma guarded_bind {A B} (Q : trace C -> B -> Prop) past (p : prog C A) (f : A -> prog C B) :
  guarded P (fun h a => guarded P Q h (f a)) past p -> guarded P Q past (p ≫= f).
Proof.
  unfold mbind, prog_mbind. revert past.
  induction p as [r|u|c k IH]; intros past; simpl; [done|done|].
  intros [Hc Hk]. split; [done|]. intros v Hv. by apply IH, Hk.
Qed.

(** The rule of the loops with an early return: [I] holds of the past at the
    start of every turn. *)
Lemma guarded_for_ret {R} (I : trace C -> Prop) (Q : trace C -> unit + R -> Prop)
    (body : Z -> unit -> prog C (unit + R)) hi past :
  fits 32 hi -> I past ->
  (forall i h, I h -> guarded P (fun h' o => match o with inl _ => I h' | inr r => Q h' (inr r) end)
                        h (body i tt)) ->
  (forall h, I h -> Q h (inl tt)) ->
  guarded P Q past (for_ret hi body tt).
Proof.
  intros Hhi HI Hbody Hend. unfold for_ret.
  assert (Hgen : forall fuel i h, 0 <= i <= hi -> (Z.to_nat (hi - i) < fuel)%nat -> I h ->
    guarded P Q h (for_ret_fuel fuel i hi body tt)); [|apply Hgen; unfold fits in *; (lia || done)].
  induction fuel as [|fuel IH]; intros i h Hi Hf Hh; [lia|]. simpl.
  destruct (Z.ltb_spec i hi); [|by apply Hend].
  apply guarded_bind. eapply guarded_mono; [|by apply Hbody].
  intros h' [[]|r] Hh'; [|done].
  rewrite (wrap_small 32 (i + 1)) by (unfold fits in *; lia). apply IH; [lia|lia|done].
Qed.

(** A complete execution of a guarded program makes guarded calls and ends. *)
Lemma guarded_exec {R} (Q : trace C -> R -> Prop) past p tr o :
  guarded P Q past p -> exec p tr o ->
  (forall t1 c v t2, tr = t1 ++ (c, v) :: t2 -> P (past ++ t1) c) /\
  exists r, o = Ok r /\ Q (past ++ tr) r.
Proof.
  intros Hg Hex. revert past Hg. induction Hex as [r|u|c k v tr o Hv Hk IH]; intros past; simpl.
  - intros Hq. split; [by intros [|]|]. exists r. by rewrite app_nil_r.
  - done.
  - intros [Hc Hg]. specialize (Hg v Hv). apply IH in Hg as (Hcalls & r & -> & Hq).
    rewrite <- app_assoc in Hq. split; [|eauto].
    intros [|[c1 v1] t1] c' v' t2 [= -> -> Heq]; [by rewrite app_nil_r|].
    apply Hcalls in Heq. by rewrite <- app_assoc in Heq.
Qed.
End guarded.

Lemma guarded_impl {C R} `{Calls C} (P P' : trace C -> C -> Prop) (Q : trace C -> R -> Prop) past p :
  (forall h c, P h c -> P' h c) -> guarded P Q past p -> guarded P' Q past p.
Proof.
  intros HP. revert past. induction p as [r|u|c k IH]; intros past; simpl; [done|done|].
  intros [Hc Hk]. split; [by apply HP|]. intros v Hv. by apply IH, Hk.
Qed.

(** ** Traces of a pool of threads *)

(** One call of a thread with its result. *)
Abbreviation events C := (list (nat * (C * Z))).

Section pool.
Context {C : Type}.

(** The calls of thread [t]. *)
Definition own (t : nat) (tr : events C) : trace C := omap (fun e => if decide (e.1 = t) then Some e.2 else None) tr.

Lemma own_app t tr1 tr2 : own t (tr1 ++ tr2) = own t tr1 ++ own t tr2.
Proof. apply omap_app. Qed.

Lemma own_self t e : own t [(t, e)] = [e].
Proof. unfold own. simpl. by rewrite decide_True. Qed.

Lemma own_other t u e : u <> t -> own t [(u, e)] = [].
Proof. intros. unfold own. simpl. by rewrite decide_False. Qed.

(** *** Critical sections

    [opens] takes the lock; a [section] call belongs to the section. The
    burst of a history is what the latest section has done so far. *)
Context (opens section : C -> bool).

Definition burst_step (acc : list C) (c : C) : list C :=
  if opens c then [] else if section c then acc ++ [c] else acc.

Definition burst (h : trace C) : list C := fold_left (fun acc e => burst_step acc e.1) h [].

(** The same over the whole pool, each call with the thread that made it. *)
Definition pool_step (acc : list (nat * C)) (e : nat * (C * Z)) : list (nat * C) :=
  if opens e.2.1 then [] else if section e.2.1 then acc ++ [(e.1, e.2.1)] else acc.

Definition pool_burst (tr : events C) : list (nat * C) := fold_left pool_step tr [].

Lemma burst_snoc h c v : burst (h ++ [(c, v)]) = burst_step (burst h) c.
Proof. unfold burst. by rewrite fold_left_app. Qed.

Lemma pool_burst_snoc tr e : pool_burst (tr ++ [e]) = pool_step (pool_burst tr) e.
Proof. unfold pool_burst. by rewrite fold_left_app. Qed.

(** All section calls of the pool, in order. *)
Definition sections (tr : events C) : list (nat * C) :=
  omap (fun e => if section e.2.1 then Some (e.1, e.2.1) else None) tr.

Lemma sections_app tr1 tr2 : sections (tr1 ++ tr2) = sections tr1 ++ sections tr2.
Proof. apply omap_app. Qed.

Lemma sections_snoc tr t c v :
  sections (tr ++ [(t, (c, v))]) = sections tr ++ (if section c then [(t, c)] else []).
Proof.
  unfold sections. rewrite omap_app. f_equal. simpl. by destruct (section c).
Qed.

(** The burst is the latest of them. *)
Lemma pool_burst_suffix tr :
  exists before, sections tr = before ++ pool_burst tr.
Proof.
  induction tr as [|[t [c v]] tr IH] using rev_ind; [by exists []|].
  destruct IH as [before IH]. rewrite sections_snoc, pool_burst_snoc, IH. unfold pool_step. simpl.
  destruct (opens c) eqn:Ho; [|destruct (section c)].
  - eexists. by rewrite app_nil_r.
  - exists before. by rewrite app_assoc.
  - exists before. by rewrite app_nil_r.
Qed.

(** A call of the burst splits the history there: what follows it in the
    burst is all the section calls made since, by any thread. *)
Lemma pool_burst_split tr b1 t c b2 :
  pool_burst tr = b1 ++ (t, c) :: b2 ->
  exists pre v mid, tr = pre ++ (t, (c, v)) :: mid /\ pool_burst pre = b1 /\ sections mid = b2.
Proof.
  revert b2. induction tr as [|[u [d w]] tr IH] using rev_ind; intros b2; [by destruct b1|].
  rewrite pool_burst_snoc. unfold pool_step. cbn [fst snd].
  destruct (opens d) eqn:Ho; [by destruct b1|]. destruct (section d) eqn:Hs.
  - destruct b2 as [|e b2 _] using rev_ind.
    + intros [Hb [= -> ->]]%app_inj_tail. exists tr, w, []. done.
    + rewrite app_comm_cons, app_assoc. intros [Hb <-]%app_inj_tail.
      destruct (IH _ Hb) as (pre & v & mid & -> & Hpre & Hmid).
      exists pre, v, (mid ++ [(u, (d, w))]). split_and!; [by rewrite <- app_assoc|done|].
      by rewrite sections_snoc, Hs, Hmid.
  - intros (pre & v & mid & -> & Hpre & Hmid)%IH.
    exists pre, v, (mid ++ [(u, (d, w))]). split_and!; [by rewrite <- app_assoc|done|].
    by rewrite sections_snoc, Hs, app_nil_r.
Qed.
End pool.
