(* ===== verification/Concurrent.v ===== *)
(** * Concurrent callers of the driver

    The system calls of [Driver] run by any number of threads, interrupted by
    its handler, over one machine: the kernel's locks and completion and the
    device. A scheduler picks any thread that can go on; the threads run the
    very programs of [Driver], call by call. The machine is an interface
    ([Machine], [MachineLaws]); [ConcurrentHw] gives one with the clocked
    hardware in it. *)

From Stdlib Require Import String.
From S2P Require Import Prelude Regs Prog Runtime Driver Interleave.

Open Scope Z_scope.

(** ** The machine under the threads *)

(** [cmd_owner] holds [cmd_lock]; [irq_owner] holds [irq_lock], with [true]
    when it took it with its interrupts off. [mstep t m c v m']: in [m], call
    [c] of thread [t] can return [v] and leave [m']. [mtick]: the device and
    the clock go on by themselves. *)
Class Machine (M : Type) := {
  cmd_owner : M -> option nat;
  irq_owner : M -> option (nat * bool);
  mstep : nat -> M -> kcall -> Z -> M -> Prop;
  mtick : M -> M -> Prop;
}.

Definition owners := (option nat * option (nat * bool))%type.

Definition owners_of {M} `{Machine M} (m : M) : owners := (cmd_owner m, irq_owner m).

(** What [linux/mutex.h] and [linux/spinlock.h] document: a lock is taken when
    nobody has it and released by the thread that has it; other calls leave
    the locks alone. *)
Definition lock_effect (t : nat) (c : kcall) (l l' : owners) : Prop :=
  match c with
  | MutexLock => l.1 = None /\ l' = (Some t, l.2)
  | MutexUnlock => l.1 = Some t /\ l' = (None, l.2)
  | SpinLock => l.2 = None /\ l' = (l.1, Some (t, false))
  | SpinLockIrqsave => l.2 = None /\ l' = (l.1, Some (t, true))
  | SpinUnlock => l.2 = Some (t, false) /\ l' = (l.1, None)
  | SpinUnlockIrqrestore => l.2 = Some (t, true) /\ l' = (l.1, None)
  | _ => l' = l
  end.

Class MachineLaws (M : Type) `{Kernel} `{Machine M} : Prop := {
  mstep_returns t m c v m' : mstep t m c v m' -> returns c v;
  mstep_locks t m c v m' : mstep t m c v m' -> lock_effect t c (owners_of m) (owners_of m');
  mstep_enabled t m c l' :
    lock_effect t c (owners_of m) l' -> (exists v, returns c v) -> exists v m', mstep t m c v m';
  mtick_locks m m' : mtick m m' -> owners_of m' = owners_of m;
}.

(** The completion [cmd_done] as [linux/completion.h] documents it: re-arming
    forgets what was signalled, [complete] adds one, a wait that is satisfied
    takes one, and a wait is satisfied at once when there is one to take. *)
Definition completion_after (c : kcall) (v n : Z) : Z :=
  match c with
  | InitCompletion | ReinitCompletion => 0
  | Complete => n + 1
  | WaitCompletion _ => if 0 <? v then n - 1 else n
  | _ => n
  end.

Class CompletionLaws (M : Type) `{Machine M} := {
  completions : M -> Z;
  mstep_completions t m c v m' : mstep t m c v m' -> completions m' = completion_after c v (completions m);
  mtick_completions m m' : mtick m m' -> completions m' = completions m;
  wait_satisfied t m j : 0 < completions m -> exists v m', 0 < v /\ mstep t m (WaitCompletion j) v m';
}.

(** ** Threads *)

(** A system call with its command and argument, or a run of the interrupt
    handler on the processor of the system call it interrupts ([None]: on a
    processor that runs none). *)
Inductive origin := Caller (cmd arg : Z) | Handler (victim : option nat).

Record sys (M : Type) := mk_sys { pool : list (origin * prog kcall Z); mach : M }.
Arguments mk_sys {M} pool mach.
Arguments pool {M} s.
Arguments mach {M} s.

Section concurrent.
Context {M : Type} `{K : Kernel} `{U : UserMem} `{HM : Machine M}.
Context (npu : lgnpu_device).

(** The processor of [t] is running the handler. *)
Definition interrupted (s : sys M) (t : nat) : Prop :=
  exists h c k, pool s !! h = Some (Handler (Some t), Call c k).

(** An interrupt may come at any time (the line is shared), on a processor
    that has its interrupts on. *)
Definition interruptible (s : sys M) (victim : option nat) : Prop :=
  match victim with
  | None => True
  | Some t => (exists cmd arg p, pool s !! t = Some (Caller cmd arg, p)) /\
              irq_owner (mach s) <> Some (t, true)
  end.

Inductive sys_step : sys M -> events kcall -> sys M -> Prop :=
| step_call s t o c k v m' :
    pool s !! t = Some (o, Call c k) -> ~ interrupted s t -> mstep t (mach s) c v m' ->
    sys_step s [(t, (c, v))] (mk_sys (<[t := (o, k v)]> (pool s)) m')
| step_ioctl s cmd arg :
    sys_step s [] (mk_sys (pool s ++ [(Caller cmd arg, lgnpu_ioctl npu cmd arg)]) (mach s))
| step_interrupt s victim :
    interruptible s victim ->
    sys_step s [] (mk_sys (pool s ++ [(Handler victim, lgnpu_irq_handler npu)]) (mach s))
| step_device s m' :
    mtick (mach s) m' -> sys_step s [] (mk_sys (pool s) m').

(** The states the driver can reach after a successful probe, with the calls
    made on the way. *)
Inductive reach (m0 : M) : events kcall -> sys M -> Prop :=
| reach_start : reach m0 [] (mk_sys [] m0)
| reach_step tr s ev s' : reach m0 tr s -> sys_step s ev s' -> reach m0 (tr ++ ev) s'.

(** ** What each thread does by itself *)

(** The calls that belong to the command mutex: the command window, DOORBELL,
    the DMA registers, and arming and waiting on the completion. *)
Definition in_section (c : kcall) : bool :=
  match c with
  | MemcpyToio _ _ | InitCompletion | ReinitCompletion | WaitCompletion _ => true
  | Writel _ a =>
      match reg_at (a - regs npu) with
      | Some (R_DOORBELL | R_DMA_EXT_ADDR | R_DMA_LOC_ADDR | R_DMA_LEN | R_DMA_CTRL) => true
      | _ => false
      end
  | _ => false
  end.

Definition takes_mutex (c : kcall) : bool := match c with MutexLock => true | _ => false end.

Abbreviation since_lock := (burst takes_mutex in_section).

(** What a thread may do without the command mutex: read registers, take and
    release the spinlock, copy, wait and report; write CTRL, which only the
    system calls RESET and ENABLE do; and, in a handler, write IRQ_CLEAR and
    signal the completion. *)
Definition bystander (o : origin) (c : kcall) : Prop :=
  match c with
  | Readl _ | MutexLock | SpinLock | SpinUnlock | SpinLockIrqsave | SpinUnlockIrqrestore | Udelay _ | DevErr _ _
  | CopyToUser _ _ _ | CopyFromUser _ _ => True
  | Complete => exists victim, o = Handler victim
  | Writel v a =>
      match reg_at (a - regs npu) with
      | Some R_CTRL => exists cmd arg, o = Caller cmd arg /\
          (cmd = LGNPU_IOCTL_RESET /\ v = drv_CTRL_SOFT_RESET \/ cmd = LGNPU_IOCTL_ENABLE /\ v = drv_CTRL_ENABLE)
      | Some R_IRQ_CLEAR => exists victim, o = Handler victim
      | _ => False
      end
  | _ => False
  end.

(** The call keeps the locking discipline of [Driver], with everything but
    what a bystander may do under the mutex. *)
Definition lawful (o : origin) (h : trace kcall) (c : kcall) : Prop :=
  exists l l', lock_run npu unlocked h = Some l /\ lock_step npu l c = Some l' /\
    (cmd_held l = true \/ bystander o c).

Definition submit_window (arg : Z) : list kcall :=
  [MemcpyToio (regs npu + drv_region CMD_QUEUE) (take 16 (user_submit arg)); ReinitCompletion].

Definition ring : kcall := Writel 1 (regs npu + drv_reg R_DOORBELL).

Definition dma_setup (r : lgnpu_ioctl_dma) : list kcall :=
  [Writel (id_ext_addr r) (regs npu + drv_reg R_DMA_EXT_ADDR);
   Writel (id_loc_addr r) (regs npu + drv_reg R_DMA_LOC_ADDR);
   Writel (id_len r) (regs npu + drv_reg R_DMA_LEN)].

(** A doorbell or a DMA start comes from the matching command, after the
    request's own words and registers and nothing else; the wait comes after
    the doorbell. *)
Definition starts_own_work (cmd arg : Z) (done : list kcall) (c : kcall) : Prop :=
  match c with
  | Writel v a =>
      match reg_at (a - regs npu) with
      | Some R_DOORBELL => cmd = LGNPU_IOCTL_SUBMIT /\ v = 1 /\ done = submit_window arg
      | Some R_DMA_CTRL =>
          cmd = LGNPU_IOCTL_DMA_XFER /\ v = dma_ctl (id_dir (user_dma arg)) /\
          done = dma_setup (user_dma arg)
      | _ => True
      end
  | WaitCompletion _ => cmd = LGNPU_IOCTL_SUBMIT /\ done = submit_window arg ++ [ring]
  | _ => True
  end.

Definition guard (o : origin) (h : trace kcall) (c : kcall) : Prop :=
  lawful o h c /\ (exists v, returns c v) /\
  match o with
  | Caller cmd arg => c <> SpinLock /\ starts_own_work cmd arg (since_lock h) c
  | Handler _ => may_sleep c = false /\ in_section c = false
  end.

Definition ended (h : trace kcall) (r : Z) : Prop := lock_run npu unlocked h = Some unlocked.

(** *** The system calls and the handler keep these rules *)

Lemma bystander_section o c : bystander o c -> in_section c = false.
Proof.
  destruct c; simpl; try done. by destruct (reg_at (addr - regs npu)) as [[]|].
Qed.

Lemma bystander_write o r v :
  bystander o (Writel v (regs npu + drv_reg r)) <->
  match r with
  | R_CTRL => exists cmd arg, o = Caller cmd arg /\
      (cmd = LGNPU_IOCTL_RESET /\ v = drv_CTRL_SOFT_RESET \/ cmd = LGNPU_IOCTL_ENABLE /\ v = drv_CTRL_ENABLE)
  | R_IRQ_CLEAR => exists victim, o = Handler victim
  | _ => False
  end.
Proof. simpl. rewrite reg_at_offset. by destruct r. Qed.

Lemma in_section_write r v :
  in_section (Writel v (regs npu + drv_reg r)) =
  match r with R_DOORBELL | R_DMA_EXT_ADDR | R_DMA_LOC_ADDR | R_DMA_LEN | R_DMA_CTRL => true | _ => false end.
Proof. simpl. rewrite reg_at_offset. by destruct r. Qed.

Lemma lock_step_write l r v :
  lock_step npu l (Writel v (regs npu + drv_reg r)) = if reg_allowed l r then Some l else None.
Proof. simpl. unfold write_allowed. by rewrite reg_at_offset. Qed.

Lemma starts_own_work_write cmd arg b r v :
  starts_own_work cmd arg b (Writel v (regs npu + drv_reg r)) <->
  match r with
  | R_DOORBELL => cmd = LGNPU_IOCTL_SUBMIT /\ v = 1 /\ b = submit_window arg
  | R_DMA_CTRL => cmd = LGNPU_IOCTL_DMA_XFER /\ v = dma_ctl (id_dir (user_dma arg)) /\
                  b = dma_setup (user_dma arg)
  | _ => True
  end.
Proof. unfold starts_own_work. rewrite reg_at_offset. by destruct r. Qed.

Lemma lock_run_snoc l h c v :
  lock_run npu l (h ++ [(c, v)]) = (l' ← lock_run npu l h; lock_step npu l' c).
Proof.
  rewrite lock_run_app. destruct (lock_run npu l h) as [l'|]; [|done]. simpl.
  by destruct (lock_step npu l' c).
Qed.

(** One call of a system call or of the handler, from what the locks and the
    section are before it. *)
Lemma caller_call {R} (Q : trace kcall -> R -> Prop) cmd arg h l b c k l' :
  lock_run npu unlocked h = Some l -> since_lock h = b ->
  lock_step npu l c = Some l' -> cmd_held l = true \/ bystander (Caller cmd arg) c ->
  (exists v, returns c v) -> c <> SpinLock -> starts_own_work cmd arg b c ->
  (forall h' v, returns c v -> lock_run npu unlocked h' = Some l' ->
     since_lock h' = burst_step takes_mutex in_section b c ->
     guarded (guard (Caller cmd arg)) Q h' (k v)) ->
  guarded (guard (Caller cmd arg)) Q h (Call c k).
Proof.
  intros Hl Hb Hstep Hsec Hres Hspin Hown Hk. simpl. split.
  - split; [by exists l, l'|]. split; [done|]. by rewrite Hb.
  - intros v Hv. apply Hk; [done|by rewrite lock_run_snoc, Hl|by rewrite burst_snoc, Hb].
Qed.

Lemma handler_call o h l c k l' :
  lock_run npu unlocked h = Some l -> lock_step npu l c = Some l' -> bystander (Handler o) c ->
  (exists v, returns c v) -> may_sleep c = false ->
  (forall h' v, returns c v -> lock_run npu unlocked h' = Some l' ->
     guarded (guard (Handler o)) ended h' (k v)) ->
  guarded (guard (Handler o)) ended h (Call c k).
Proof.
  intros Hl Hstep Hsec Hres Hsleep Hk. simpl. split.
  - split; [exists l, l'; by split_and!; [..|right]|]. split_and!; [done..|by eapply bystander_section].
  - intros v Hv. apply Hk; [done|by rewrite lock_run_snoc, Hl].
Qed.

Lemma result_exists `{!KernelLaws} c :
  match c with CopyToUser _ _ n | CopyFromUser _ n => 0 <= n | _ => True end ->
  exists v, returns c v.
Proof.
  destruct c; intros Hn; unfold returns, kernel_returns; eauto.
  all: exists 0; unfold fits, INT_MIN, INT_MAX; lia.
Qed.

Ltac progs :=
  unfold lgnpu_hw_reset, lgnpu_hw_enable, lgnpu_irq_enable, lgnpu_irq_disable, lgnpu_buf_write,
    lgnpu_reg_write, lgnpu_reg_read, mbind, prog_mbind, mret, prog_mret, call, do_;
  cbn [prog_bind].

Ltac side :=
  first [ assumption | discriminate | reflexivity
        | rewrite lock_step_write; reflexivity
        | left; reflexivity
        | right; exact I
        | right; apply bystander_write; eauto 10
        | apply bystander_write; eauto 10
        | eexists; reflexivity
        | rewrite starts_own_work_write; done
        | apply result_exists; done
        | done ].

(** Run a system call to its next branch. *)
Ltac run_caller :=
  repeat (
    lazymatch goal with
    | |- guarded _ _ _ (Call _ _) =>
        eapply caller_call; [eassumption|eassumption|side..|];
        let h := fresh "h" in let v := fresh "v" in let Hv := fresh "Hv" in
        let Hl := fresh "Hl" in let Hb := fresh "Hb" in
        intros h v Hv Hl Hb; unfold burst_step in Hb; rewrite ?in_section_write in Hb;
        cbn [takes_mutex in_section app] in Hb
    | |- guarded _ _ _ (Ret _) => assumption
    | |- guarded _ _ _ (if ?b then _ else _) => destruct b
    end; cbn [prog_bind]).

Lemma cmd_submit_guarded `{!KernelLaws} arg h b :
  lock_run npu unlocked h = Some unlocked -> since_lock h = b ->
  guarded (guard (Caller LGNPU_IOCTL_SUBMIT arg)) ended h (lgnpu_cmd_submit npu (user_submit arg)).
Proof. intros Hh Hb. unfold lgnpu_cmd_submit. progs. run_caller. Qed.

Lemma dma_transfer_guarded `{!KernelLaws} arg h b :
  lock_run npu unlocked h = Some unlocked -> since_lock h = b ->
  let r := user_dma arg in
  guarded (guard (Caller LGNPU_IOCTL_DMA_XFER arg)) ended h
    (lgnpu_dma_transfer npu (id_ext_addr r) (id_loc_addr r) (id_len r) (id_dir r)).
Proof.
  intros Hh Hb r. unfold lgnpu_dma_transfer. progs. run_caller.
  apply guarded_bind.
  apply (guarded_for_ret _ (fun h => lock_run npu unlocked h = Some (mk_locks true SpinFree))).
  - done.
  - done.
  - intros _ h' Hl'. assert (Hb' := eq_refl (since_lock h')). run_caller.
  - intros h' Hl'. assert (Hb' := eq_refl (since_lock h')). run_caller.
Qed.

Lemma ioctl_guarded `{!KernelLaws} cmd arg :
  guarded (guard (Caller cmd arg)) ended [] (lgnpu_ioctl npu cmd arg).
Proof.
  assert (Hl : lock_run npu unlocked [] = Some unlocked) by done.
  assert (Hb : since_lock [] = []) by done.
  unfold lgnpu_ioctl.
  destruct (Z.eqb_spec cmd LGNPU_IOCTL_RESET) as [->|_]; [progs; run_caller|].
  destruct (Z.eqb_spec cmd LGNPU_IOCTL_ENABLE) as [->|_]; [progs; run_caller|].
  destruct (cmd =? LGNPU_IOCTL_STATUS); [progs; run_caller|].
  destruct (cmd =? LGNPU_IOCTL_INFO); [progs; run_caller|].
  destruct (Z.eqb_spec cmd LGNPU_IOCTL_SUBMIT) as [->|_].
  { progs. run_caller. by eapply cmd_submit_guarded. }
  destruct (Z.eqb_spec cmd LGNPU_IOCTL_DMA_XFER) as [->|_].
  { progs. run_caller. by eapply dma_transfer_guarded. }
  destruct (cmd =? LGNPU_IOCTL_PERF); [progs; run_caller|]. progs. run_caller.
Qed.

Lemma handler_guarded `{!KernelLaws} o :
  guarded (guard (Handler o)) ended [] (lgnpu_irq_handler npu).
Proof.
  assert (Hl : lock_run npu unlocked [] = Some unlocked) by done.
  unfold lgnpu_irq_handler. progs.
  repeat (
    lazymatch goal with
    | |- guarded _ _ _ (Call _ _) =>
        eapply handler_call; [eassumption|side..|];
        let h := fresh "h" in let v := fresh "v" in let Hv := fresh "Hv" in
        let Hl := fresh "Hl" in intros h v Hv Hl
    | |- guarded _ _ _ (Ret _) => assumption
    | |- guarded _ _ _ (if ?b then _ else _) => destruct b
    end; cbn [prog_bind]).
Qed.

(** ** The invariant of the whole system *)

(** The locks thread [t] has in a machine. *)
Definition view (l : owners) (t : nat) : locks :=
  mk_locks (bool_decide (l.1 = Some t))
    (match l.2 with
     | Some (u, b) => if decide (u = t) then (if b then SpinIrqsave else SpinPlain) else SpinFree
     | None => SpinFree
     end).

(** The event is [t]'s, or what a bystander may do. *)
Definition others_stand_by (t : nat) (s : sys M) (e : nat * (kcall * Z)) : Prop :=
  e.1 = t \/ exists o p, pool s !! e.1 = Some (o, p) /\ bystander o e.2.1.

Record coherent (tr : events kcall) (s : sys M) : Prop := {
  threads_guarded t o p :
    pool s !! t = Some (o, p) -> guarded (guard o) ended (own t tr) p;
  own_locks t : lock_run npu unlocked (own t tr) = Some (view (owners_of (mach s)) t);
  own_fresh t : (length (pool s) <= t)%nat -> own t tr = [];
  callers_irqsave t cmd arg p :
    pool s !! t = Some (Caller cmd arg, p) -> spin (view (owners_of (mach s)) t) <> SpinPlain;
  victims_unlocked t : interrupted s t ->
    spin (view (owners_of (mach s)) t) = SpinFree /\
    exists cmd arg p, pool s !! t = Some (Caller cmd arg, p);
  section_own t : cmd_owner (mach s) = Some t ->
    pool_burst takes_mutex in_section tr = (t,.) <$> since_lock (own t tr);
  bystanders t : cmd_owner (mach s) = Some t ->
    exists before w mid, tr = before ++ (t, (MutexLock, w)) :: mid /\
      Forall (fun e => takes_mutex e.2.1 = false) mid /\ Forall (others_stand_by t s) mid;
}.

(** The effect on the owners and the discipline of [Driver] agree. *)
Lemma lock_effect_view t c l l' ls :
  lock_effect t c l l' -> lock_step npu (view l t) c = Some ls ->
  view l' t = ls /\ forall u, u <> t -> view l' u = view l u.
Proof.
  destruct c; cbn [lock_effect]; intros He Hs;
    try (subst l'; split; [cbn [lock_step] in Hs; repeat case_match; by simplify_eq|done]);
    destruct l as [o1 o2], He as [Ho ->]; cbn [fst snd] in *; subst;
    unfold view, lock_step, spin_free in *; cbn [fst snd cmd_held spin] in *;
    (split; [|intros u Hu]);
    repeat first [case_bool_decide | case_decide | case_match]; simplify_eq/=; try done.
Qed.

Lemma lock_effect_cmd t c l l' u :
  lock_effect t c l l' -> takes_mutex c = false -> l'.1 = Some u -> l.1 = Some u.
Proof.
  destruct c; cbn [lock_effect takes_mutex]; intros He Hm; try done; try (by subst l');
    by destruct He as [_ ->].
Qed.

Lemma lock_step_plain l c l' :
  lock_step npu l c = Some l' -> c <> SpinLock -> spin l <> SpinPlain -> spin l' <> SpinPlain.
Proof. destruct c; cbn [lock_step]; intros Hs; repeat case_match; simplify_eq/=; done. Qed.

Lemma own_snoc {C} u t (e : C * Z) tr :
  own u (tr ++ [(t, e)]) = own u tr ++ (if decide (t = u) then [e] else []).
Proof.
  rewrite own_app. f_equal. destruct (decide (t = u)) as [->|]; [apply own_self|by apply own_other].
Qed.

Context `{HL : !MachineLaws M} `{KL : !KernelLaws}.

(** A thread stays what it is. *)
Lemma origin_stays s ev s' t o p :
  sys_step s ev s' -> pool s !! t = Some (o, p) -> exists p', pool s' !! t = Some (o, p').
Proof.
  intros Hstep Ht. destruct Hstep as [s u o' c k v m' Hu _ _|s cmd arg|s victim Hv|s m' Hm]; cbn [pool].
  - destruct (decide (u = t)) as [->|Hne].
    + rewrite Hu in Ht. simplify_eq. eexists.
      by rewrite list_lookup_insert_eq by (by eapply lookup_lt_Some).
    + exists p. by rewrite list_lookup_insert_ne.
  - exists p. by apply lookup_app_l_Some.
  - exists p. by apply lookup_app_l_Some.
  - by exists p.
Qed.

Lemma stand_by_step s ev s' t e : sys_step s ev s' -> others_stand_by t s e -> others_stand_by t s' e.
Proof.
  intros Hstep [He|(o & p & He & Hb)]; [by left|right].
  destruct (origin_stays _ _ _ _ _ _ Hstep He) as [p' Hp']. by exists o, p'.
Qed.

(** What coherence says of the thread that makes the next call. *)
Lemma coherent_next tr s t o c k v m' :
  coherent tr s -> pool s !! t = Some (o, Call c k) -> mstep t (mach s) c v m' ->
  guard o (own t tr) c /\ guarded (guard o) ended (own t tr ++ [(c, v)]) (k v) /\
  lock_step npu (view (owners_of (mach s)) t) c = Some (view (owners_of m') t) /\
  (in_section c = true -> cmd_owner (mach s) = Some t) /\
  (cmd_owner (mach s) = Some t \/ bystander o c) /\
  forall u, u <> t -> view (owners_of m') u = view (owners_of (mach s)) u.
Proof.
  intros Hc Ht Hstep. destruct (threads_guarded _ _ Hc _ _ _ Ht) as [Hg Hk].
  destruct (Hg) as ((l & l' & Hl & Hls & Hsec) & _ & _).
  rewrite (own_locks _ _ Hc t) in Hl. injection Hl as <-.
  destruct (lock_effect_view _ _ _ _ _ (mstep_locks _ _ _ _ _ Hstep) Hls) as [<- Hother].
  assert (Hby : cmd_owner (mach s) = Some t \/ bystander o c)
    by (destruct Hsec as [Hl'%bool_decide_eq_true|]; [by left|by right]).
  split_and!; [done|eapply Hk, mstep_returns, Hstep|done| |done|done].
  intros Hin. destruct Hby as [|Hb%bystander_section]; [done|congruence].
Qed.

Lemma coherent_call tr s t o c k v m' :
  coherent tr s -> pool s !! t = Some (o, Call c k) -> ~ interrupted s t ->
  mstep t (mach s) c v m' ->
  coherent (tr ++ [(t, (c, v))]) (mk_sys (<[t := (o, k v)]> (pool s)) m').
Proof.
  intros Hc Ht Hni Hstep.
  destruct (coherent_next _ _ _ _ _ _ _ _ Hc Ht Hstep) as (Hg & Hk & Hls & Hsec & Hby & Hother).
  assert (Hlt := lookup_lt_Some _ _ _ Ht). split; cbn [pool mach].
  - intros u o' p Hu. rewrite own_snoc. destruct (decide (t = u)) as [<-|Hne].
    + rewrite list_lookup_insert_eq in Hu by done. by simplify_eq.
    + rewrite list_lookup_insert_ne in Hu by done. rewrite app_nil_r. by apply (threads_guarded _ _ Hc).
  - intros u. rewrite own_snoc. destruct (decide (t = u)) as [<-|Hne].
    + by rewrite lock_run_snoc, (own_locks _ _ Hc).
    + rewrite app_nil_r, (own_locks _ _ Hc). by rewrite Hother.
  - intros u Hu. rewrite length_insert in Hu. rewrite own_snoc, decide_False by lia.
    rewrite app_nil_r. by apply (own_fresh _ _ Hc).
  - intros u cmd arg p Hu. destruct (decide (t = u)) as [<-|Hne].
    + rewrite list_lookup_insert_eq in Hu by done. simplify_eq.
      eapply lock_step_plain; [done|apply Hg|by eapply (callers_irqsave _ _ Hc)].
    + rewrite list_lookup_insert_ne in Hu by done. rewrite Hother by done.
      by eapply (callers_irqsave _ _ Hc).
  - intros u (h & c' & k' & Hh). cbn [pool] in Hh.
    assert (Hi : interrupted s u).
    { destruct (decide (t = h)) as [<-|Hne].
      - rewrite list_lookup_insert_eq in Hh by done. simplify_eq. by exists t, c, k.
      - rewrite list_lookup_insert_ne in Hh by done. by exists h, c', k'. }
    assert (u <> t) by (by intros ->). rewrite Hother by done.
    rewrite list_lookup_insert_ne by done. by apply (victims_unlocked _ _ Hc).
  - intros u Hu. rewrite pool_burst_snoc, own_snoc. unfold pool_step. cbn [fst snd].
    destruct (takes_mutex c) eqn:Hm.
    + destruct c; try done. pose proof (mstep_locks _ _ _ _ _ Hstep) as [_ Heq].
      injection Heq as Hm' _. rewrite Hu in Hm'. injection Hm' as ->.
      by rewrite decide_True, burst_snoc by done.
    + assert (Hu' : cmd_owner (mach s) = Some u).
      { by apply (lock_effect_cmd _ _ _ _ _ (mstep_locks _ _ _ _ _ Hstep)). }
      rewrite (section_own _ _ Hc u Hu'). destruct (in_section c) eqn:Hin.
      * rewrite (Hsec eq_refl) in Hu'. injection Hu' as <-. rewrite decide_True, burst_snoc by done.
        unfold burst_step. by rewrite Hm, Hin, fmap_app.
      * destruct (decide (t = u)); [|by rewrite app_nil_r].
        rewrite burst_snoc. unfold burst_step. by rewrite Hm, Hin.
  - intros u Hu. destruct (takes_mutex c) eqn:Hm.
    + destruct c; try done. pose proof (mstep_locks _ _ _ _ _ Hstep) as [_ Heq].
      injection Heq as Hm' _. rewrite Hu in Hm'. injection Hm' as ->. by exists tr, v, [].
    + assert (Hu' : cmd_owner (mach s) = Some u) by by apply (lock_effect_cmd _ _ _ _ _ (mstep_locks _ _ _ _ _ Hstep)).
      destruct (bystanders _ _ Hc u Hu') as (before & w & mid & -> & Hno & Hmid).
      exists before, w, (mid ++ [(t, (c, v))]). split_and!; [by rewrite <- app_assoc|apply Forall_app; by split; [|constructor]|].
      apply Forall_app. split.
      * eapply Forall_impl, Hmid. intros e. exact (stand_by_step _ _ _ _ _ (step_call s t o c k v m' Ht Hni Hstep)).
      * constructor; [|done]. destruct (decide (t = u)) as [->|Hne]; [by left|]. right. exists o, (k v). cbn [fst snd pool].
        rewrite list_lookup_insert_eq by done. split; [done|]. destruct Hby; [congruence|done].
Qed.

Lemma coherent_spawn tr s o p :
  coherent tr s -> guarded (guard o) ended [] p ->
  match o with Handler v => interruptible s v | _ => True end ->
  coherent tr (mk_sys (pool s ++ [(o, p)]) (mach s)).
Proof.
  intros Hc Hp Ho. split; cbn [pool mach].
  - intros t o' p' [Ht|[Hge Ht]]%lookup_app_Some; [by apply (threads_guarded _ _ Hc)|].
    apply list_lookup_singleton_Some in Ht as [_ [= <- <-]]. by rewrite (own_fresh _ _ Hc).
  - apply (own_locks _ _ Hc).
  - intros t Ht. rewrite length_app in Ht. apply (own_fresh _ _ Hc). lia.
  - intros t cmd arg p' [Ht|[Hge Ht]]%lookup_app_Some; [by eapply (callers_irqsave _ _ Hc)|].
    pose proof (own_locks _ _ Hc t) as Hl. rewrite (own_fresh _ _ Hc) in Hl by done.
    change (Some unlocked = Some (view (owners_of (mach s)) t)) in Hl.
    by replace (view (owners_of (mach s)) t) with unlocked by congruence.
  - intros t (h & c & k & Hh). cbn [pool] in Hh.
    assert (interrupted s t \/ o = Handler (Some t)) as [Hi| ->].
    { apply lookup_app_Some in Hh as [Hh|[_ Hh]]; [left; by exists h, c, k|].
      apply list_lookup_singleton_Some in Hh as [_ [= -> _]]. by right. }
    + destruct (victims_unlocked _ _ Hc t Hi) as (Hs & cmd & arg & p' & Ht).
      split; [done|]. exists cmd, arg, p'. by apply lookup_app_l_Some.
    + destruct Ho as ((cmd & arg & p' & Ht) & Hirq). split.
      * pose proof (callers_irqsave _ _ Hc _ _ _ _ Ht) as Hplain.
        unfold view in *. cbn [owners_of snd spin] in *.
        destruct (irq_owner (mach s)) as [[u []]|]; [|by case_decide|done].
        case_decide; [by subst|done].
      * exists cmd, arg, p'. by apply lookup_app_l_Some.
  - apply (section_own _ _ Hc).
  - intros t Ht. destruct (bystanders _ _ Hc t Ht) as (before & w & mid & Htr & Hno & Hmid).
    exists before, w, mid. split_and!; [done..|]. eapply Forall_impl, Hmid.
    intros e [He|(o' & p' & He & Hb)]; [by left|right]. exists o', p'. split; [by apply lookup_app_l_Some|done].
Qed.

Lemma coherent_device tr s m' :
  coherent tr s -> mtick (mach s) m' -> coherent tr (mk_sys (pool s) m').
Proof.
  intros Hc Hm. assert (Ho := mtick_locks _ _ Hm).
  assert (Hcmd : cmd_owner m' = cmd_owner (mach s)) by (by injection Ho).
  destruct Hc as [H1 H2 H3 H4 H5 H6 H7]. split; cbn [pool mach]; rewrite ?Ho, ?Hcmd; done.
Qed.

(** Coherence holds in every reachable state. *)
Lemma reach_coherent m0 tr s : owners_of m0 = (None, None) -> reach m0 tr s -> coherent tr s.
Proof.
  intros Hm0. induction 1 as [|tr s ev s' _ IH Hstep].
  - split; cbn [pool mach].
    + done.
    + intros t. by rewrite Hm0.
    + done.
    + done.
    + intros t (h & c & k & Hh). done.
    + intros t Ht. unfold owners_of in Hm0. congruence.
    + intros t Ht. unfold owners_of in Hm0. congruence.
  - destruct Hstep as [s t o c k v m' Ht Hni Hm|s cmd arg|s victim Hv|s m' Hm].
    + by eapply coherent_call.
    + rewrite app_nil_r. by apply coherent_spawn; [|apply ioctl_guarded|].
    + rewrite app_nil_r. by apply coherent_spawn; [|apply handler_guarded|].
    + rewrite app_nil_r. by apply coherent_device.
Qed.


(** ** Where an event of the history came from *)

Lemma reach_event m0 tr s : reach m0 tr s -> forall pre t c v post, tr = pre ++ (t, (c, v)) :: post ->
  exists s1 o k m', reach m0 pre s1 /\ pool s1 !! t = Some (o, Call c k) /\
    mstep t (mach s1) c v m' /\ forall u o p, pool s1 !! u = Some (o, p) -> exists p', pool s !! u = Some (o, p').
Proof.
  induction 1 as [|tr s ev s' Hr IH Hstep]; intros pre t c v post Heq; [by destruct pre|].
  assert (Hold : forall post', tr = pre ++ (t, (c, v)) :: post' -> exists s1 o k m',
    reach m0 pre s1 /\ pool s1 !! t = Some (o, Call c k) /\ mstep t (mach s1) c v m' /\
    forall u o p, pool s1 !! u = Some (o, p) -> exists p', pool s' !! u = Some (o, p')).
  { intros post' (s1 & o & k & m' & H1 & H2 & H3 & Hp)%IH. exists s1, o, k, m'. split_and!; [done..|].
    intros u o' p (p1 & Hp1)%Hp. exact (origin_stays _ _ _ _ _ _ Hstep Hp1). }
  inversion Hstep as [s0 u o c' k v' m' Hu Hni Hm| | |]; subst; rewrite ?app_nil_r in Heq; eauto.
  destruct post as [|e post] using rev_ind.
  - apply app_inj_tail in Heq as [-> [= -> -> ->]]. exists s, o, k, m'. split_and!; [done..|].
    intros w o' p. exact (origin_stays _ _ _ _ _ _ Hstep).
  - rewrite app_comm_cons, app_assoc in Heq. apply app_inj_tail in Heq as [Heq _]. eauto.
Qed.

(** ** Mutual exclusion *)

(** C3. Whatever system calls run together, interrupted at any time: in every
    reachable state, each thread's own calls have kept the locking
    discipline, at most one thread is between [mutex_lock] and [mutex_unlock]
    and at most one holds the spinlock. A thread that ended holds no lock,
    none has faulted, and the next call of every other one keeps the
    discipline. *)
Theorem mutual_exclusion m0 tr s :
  owners_of m0 = (None, None) -> reach m0 tr s ->
  exists held : nat -> locks,
    (forall t, lock_run npu unlocked (own t tr) = Some (held t)) /\
    (forall t u, cmd_held (held t) = true -> cmd_held (held u) = true -> t = u) /\
    (forall t u, spin (held t) <> SpinFree -> spin (held u) <> SpinFree -> t = u) /\
    (forall t o p, pool s !! t = Some (o, p) ->
       match p with
       | Ret _ => held t = unlocked
       | Fault _ => False
       | Call c _ => exists l', lock_step npu (held t) c = Some l'
       end).
Proof.
  intros Hm0 Hr. pose proof (reach_coherent _ _ _ Hm0 Hr) as Hc.
  exists (view (owners_of (mach s))). split_and!.
  - apply (own_locks _ _ Hc).
  - intros t u Ht%bool_decide_eq_true Hu%bool_decide_eq_true. congruence.
  - intros t u. unfold view. cbn [owners_of snd spin].
    destruct (irq_owner (mach s)) as [[w b]|]; [|done]. by repeat case_decide; subst.
  - intros t o p Hp. pose proof (threads_guarded _ _ Hc _ _ _ Hp) as Hg.
    pose proof (own_locks _ _ Hc t) as Hl. destruct p as [r|u|c k]; [|done|].
    + unfold ended, guarded in Hg. congruence.
    + destruct Hg as [((l & l' & Hl' & Hs & _) & _) _]. exists l'. congruence.
Qed.

(** Since a lock was last taken the burst is all section calls. *)
Lemma burst_since before w mid t :
  Forall (fun e => takes_mutex e.2.1 = false) mid ->
  pool_burst takes_mutex in_section (before ++ (t, (MutexLock, w)) :: mid) = sections in_section mid.
Proof.
  intros Hmid. induction mid as [|[u [c v]] mid IH] using rev_ind.
  - unfold pool_burst. by rewrite fold_left_app.
  - apply Forall_app in Hmid as [Hmid [Hc _]%Forall_cons_iff]. cbn [fst snd] in Hc.
    rewrite app_comm_cons, app_assoc, pool_burst_snoc, IH, sections_snoc by done. unfold pool_step. cbn [fst snd]. rewrite Hc.
    by destruct (in_section c); rewrite ?app_nil_r.
Qed.

(** C2. A doorbell or a DMA start launches the request of the system call that
    performs it. It comes after that call's own [mutex_lock]; the accesses to
    the command window, the doorbell, the DMA registers and the arming of the
    completion since then, of all threads, are this call's own sixteen words and
    re-armed completion (its own three DMA registers). What the other threads
    did since then is no more than a [bystander] may: register reads, user
    copies, the spinlock, the handler's IRQ_CLEAR and [complete], and the CTRL
    write of LGNPU_IOCTL_RESET and LGNPU_IOCTL_ENABLE, which take no lock. So
    only a reset can come between a request and its start. *)
Theorem starts_are_own m0 tr s pre t v r post :
  owners_of m0 = (None, None) -> reach m0 tr s ->
  tr = pre ++ (t, (Writel v (regs npu + drv_reg r), 0)) :: post ->
  r = R_DOORBELL \/ r = R_DMA_CTRL ->
  exists cmd arg p before w mid done,
    pool s !! t = Some (Caller cmd arg, p) /\
    pre = before ++ (t, (MutexLock, w)) :: mid /\
    sections in_section mid = (t,.) <$> done /\
    match r with
    | R_DOORBELL => cmd = LGNPU_IOCTL_SUBMIT /\ v = 1 /\ done = submit_window arg
    | _ => cmd = LGNPU_IOCTL_DMA_XFER /\ v = dma_ctl (id_dir (user_dma arg)) /\
           done = dma_setup (user_dma arg)
    end /\
    forall u c x, (u, (c, x)) ∈ mid -> u <> t -> exists o q, pool s !! u = Some (o, q) /\ bystander o c.
Proof.
  intros Hm0 Hr Htr Hkind.
  destruct (reach_event _ _ _ Hr _ _ _ _ _ Htr) as (s1 & o & k & m' & Hr1 & Ht & Hm & Hlater).
  pose proof (reach_coherent _ _ _ Hm0 Hr1) as Hc.
  destruct (coherent_next _ _ _ _ _ _ _ _ Hc Ht Hm) as ((_ & _ & Hg) & _ & _ & Hsec & _).
  rewrite in_section_write in Hsec.
  assert (Ho : cmd_owner (mach s1) = Some t) by (by destruct Hkind; subst r; apply Hsec).
  destruct (bystanders _ _ Hc _ Ho) as (before & w & mid & Hpre & Hno & Hmid).
  assert (Hsince : sections in_section mid = (t,.) <$> since_lock (own t pre))
    by (rewrite <- (section_own _ _ Hc _ Ho), Hpre; symmetry; by apply burst_since).
  destruct o as [cmd arg|victim].
  - destruct Hg as [_ Hown]. rewrite starts_own_work_write in Hown. destruct (Hlater _ _ _ Ht) as [p Hp].
    exists cmd, arg, p, before, w, mid, (since_lock (own t pre)).
    split_and!; [done..|by destruct Hkind; subst r|].
    intros u c x Hin Hne. rewrite Forall_forall in Hmid. destruct (Hmid _ (proj1 (list_elem_of_In _ _) Hin)) as [He|(o & q & Hq & Hb)]; [done|].
    destruct (Hlater _ _ _ Hq) as [q' Hq']. by exists o, q'.
  - destruct Hg as [_ Hg]. rewrite in_section_write in Hg. by destruct Hkind; subst r.
Qed.

(** ** Progress *)

(** A lawful call of a running thread can be made unless it waits for a lock. *)
Lemma can_step tr s t o c k :
  coherent tr s -> pool s !! t = Some (o, Call c k) -> ~ interrupted s t ->
  (c = MutexLock -> cmd_owner (mach s) = None) ->
  (c = SpinLock \/ c = SpinLockIrqsave -> irq_owner (mach s) = None) ->
  exists v s', sys_step s [(t, (c, v))] s'.
Proof.
  intros Hc Ht Hni Hmut Hspin.
  destruct (threads_guarded _ _ Hc _ _ _ Ht) as [((l & l' & Hl & Hls & _) & Hres & _) _].
  rewrite (own_locks _ _ Hc) in Hl. injection Hl as <-.
  assert (exists ls, lock_effect t c (owners_of (mach s)) ls) as [ls Hls'].
  { unfold view, owners_of, spin_free in *.
    destruct c; cbn [lock_effect lock_step fst snd cmd_held spin] in *; eauto;
      repeat case_match; simplify_eq;
      repeat match goal with
      | H : _ && _ = true |- _ => apply andb_true_iff in H as [? ?]
      | H : bool_decide _ = true |- _ => apply bool_decide_eq_true in H
      end; eauto 10. }
  destruct (mstep_enabled _ _ _ _ Hls' Hres) as (v & m' & Hm).
  exists v. eexists. by econstructor.
Qed.

(** A thread that holds a lock is there and has a next call. *)
Lemma holder_lives tr s t :
  coherent tr s -> view (owners_of (mach s)) t <> unlocked ->
  exists o c k, pool s !! t = Some (o, Call c k).
Proof.
  intros Hc Hv. pose proof (own_locks _ _ Hc t) as Hl.
  destruct (pool s !! t) as [[o p]|] eqn:Hp.
  - pose proof (threads_guarded _ _ Hc _ _ _ Hp) as Hg. destruct p as [r|u|c k]; [|done|eauto].
    unfold guarded, ended in Hg. congruence.
  - apply lookup_ge_None in Hp. rewrite (own_fresh _ _ Hc) in Hl by done.
    change (Some unlocked = Some (view (owners_of (mach s)) t)) in Hl. congruence.
Qed.

(** The lock step of a holder is not one that waits. *)
Lemma spin_holder_next l c l' :
  lock_step npu l c = Some l' -> spin l <> SpinFree ->
  c <> MutexLock /\ c <> SpinLock /\ c <> SpinLockIrqsave.
Proof.
  intros Hs Hl. split_and!; intros ->; cbn [lock_step] in Hs; unfold spin_free in Hs;
    destruct (spin l); try done; by rewrite andb_false_r in Hs.
Qed.

Lemma next_lawful tr s t o c k :
  coherent tr s -> pool s !! t = Some (o, Call c k) ->
  exists l', lock_step npu (view (owners_of (mach s)) t) c = Some l'.
Proof.
  intros Hc Ht. destruct (threads_guarded _ _ Hc _ _ _ Ht) as [((l & l' & Hl & Hls & _) & _) _].
  rewrite (own_locks _ _ Hc) in Hl. injection Hl as <-. eauto.
Qed.

(** Who goes on, first of all: the thread with the spinlock; else a running
    handler; else the thread with the mutex; else anyone. *)
Lemma spin_holder_steps tr s u b :
  coherent tr s -> irq_owner (mach s) = Some (u, b) ->
  exists c v s', sys_step s [(u, (c, v))] s'.
Proof.
  intros Hc Hirq.
  assert (Hv : spin (view (owners_of (mach s)) u) <> SpinFree).
  { unfold view, owners_of. rewrite Hirq. simpl. rewrite decide_True by done. by destruct b. }
  destruct (holder_lives _ _ u Hc) as (o & c & k & Hu); [by intros He; rewrite He in Hv|].
  destruct (next_lawful _ _ _ _ _ _ Hc Hu) as [l' Hl'].
  destruct (spin_holder_next _ _ _ Hl' Hv) as (H1 & H2 & H3).
  exists c. eapply can_step; [done..| | |]; [|done|by intros [?|?]].
  intros Hi. by destruct (victims_unlocked _ _ Hc _ Hi) as [? _].
Qed.

Definition running_handler (e : origin * prog kcall Z) : bool :=
  match e with (Handler _, Call _ _) => true | _ => false end.

Lemma handler_steps tr s h victim c k :
  coherent tr s -> irq_owner (mach s) = None -> pool s !! h = Some (Handler victim, Call c k) ->
  exists v s', sys_step s [(h, (c, v))] s'.
Proof.
  intros Hc Hirq Hh. destruct (threads_guarded _ _ Hc _ _ _ Hh) as [(_ & _ & Hsleep & _) _].
  eapply can_step; [done..| | |done]; [|by intros ->].
  intros Hi. destruct (victims_unlocked _ _ Hc _ Hi) as (_ & cmd & arg & p & Hp). congruence.
Qed.

Lemma mutex_holder_steps tr s u :
  coherent tr s -> irq_owner (mach s) = None -> (forall t, ~ interrupted s t) ->
  cmd_owner (mach s) = Some u -> exists c v s', sys_step s [(u, (c, v))] s'.
Proof.
  intros Hc Hirq Hni Hcmd.
  assert (Hv : cmd_held (view (owners_of (mach s)) u) = true) by (by apply bool_decide_eq_true).
  destruct (holder_lives _ _ u Hc) as (o & c & k & Hu); [by intros He; rewrite He in Hv|].
  destruct (next_lawful _ _ _ _ _ _ Hc Hu) as [l' Hl'].
  exists c. eapply can_step; [done..| |done]. intros ->.
  cbn [lock_step] in Hl'. by rewrite Hv in Hl'.
Qed.

(** C29. No deadlock: as long as some system call or handler run has not
    finished, some thread can make its next call, whatever the device
    answers. In particular a handler never waits for a spinlock held by the
    very processor it interrupted. *)
Theorem no_deadlock m0 tr s t o c k :
  owners_of m0 = (None, None) -> reach m0 tr s -> pool s !! t = Some (o, Call c k) ->
  exists u c' v s', sys_step s [(u, (c', v))] s'.
Proof.
  intros Hm0 Hr Ht. pose proof (reach_coherent _ _ _ Hm0 Hr) as Hc.
  destruct (irq_owner (mach s)) as [[u b]|] eqn:Hirq.
  { exists u. by eapply spin_holder_steps. }
  destruct (decide (Exists (fun e => running_handler e = true) (pool s))) as [Hh|Hno].
  { apply Exists_exists in Hh as ([o' p'] & [h Hh]%list_elem_of_In%list_elem_of_lookup & Hcase).
    destruct o' as [|victim], p' as [| |c' k']; try done.
    exists h, c'. by eapply handler_steps. }
  assert (Hni : forall u, ~ interrupted s u).
  { intros u (h & c' & k' & Hu). apply Hno, Exists_exists. exists (Handler (Some u), Call c' k').
    split; [by eapply list_elem_of_In, list_elem_of_lookup_2|done]. }
  destruct (cmd_owner (mach s)) as [u|] eqn:Hcmd.
  - exists u. by eapply mutex_holder_steps.
  - exists t, c. by eapply can_step.
Qed.

(** ** No lost wake-up *)

Context `{HCL : !CompletionLaws M}.

Definition signalled (n : Z) (tr : events kcall) : Z :=
  fold_left (fun n e => completion_after e.2.1 e.2.2 n) tr n.

Lemma reach_completions m0 tr s :
  reach m0 tr s -> completions (mach s) = signalled (completions m0) tr.
Proof.
  induction 1 as [|tr s ev s' _ IH Hstep]; [done|]. unfold signalled in *.
  rewrite fold_left_app, <- IH. destruct Hstep as [s t o c k v m' _ _ Hm| | |s m' Hm]; [|done..|].
  - by apply (mstep_completions t).
  - by apply mtick_completions.
Qed.

(** As long as nobody re-arms or waits, nothing signalled is forgotten. *)
Lemma signalled_grows tr n :
  (forall u c, (u, c) ∈ sections in_section tr -> c = ring) -> n <= signalled n tr.
Proof.
  revert n. induction tr as [|[u [c v]] tr IH]; intros n Hs; [done|].
  unfold signalled. cbn [fold_left fst snd].
  assert (Htail : forall w d, (w, d) ∈ sections in_section tr -> d = ring).
  { intros w d Hd. apply (Hs w). unfold sections. simpl. case_match; [|done].
    apply list_elem_of_further. exact Hd. }
  etransitivity; [|apply IH, Htail].
  destruct c; cbn [completion_after]; try lia;
    (exfalso; specialize (Hs u _ (list_elem_of_here _ _)); discriminate Hs).
Qed.

(** C30. When a submission is about to wait, nothing has touched the
    completion since it re-armed it except [complete]: the only section call
    of any thread since then is its own doorbell. So a completion signalled
    at any time after the re-arming, even before the wait begins, satisfies
    the wait. *)
Theorem no_lost_wakeup m0 tr s t o j k :
  owners_of m0 = (None, None) -> reach m0 tr s ->
  pool s !! t = Some (o, Call (WaitCompletion j) k) ->
  exists pre v0 mid, tr = pre ++ (t, (ReinitCompletion, v0)) :: mid /\
    sections in_section mid = [(t, ring)] /\
    ((exists u v, (u, (Complete, v)) ∈ mid) -> ~ interrupted s t ->
     exists v s', 0 < v /\ sys_step s [(t, (WaitCompletion j, v))] s').
Proof.
  intros Hm0 Hr Ht. pose proof (reach_coherent _ _ _ Hm0 Hr) as Hc.
  destruct (threads_guarded _ _ Hc _ _ _ Ht) as [((l & l' & Hl & _ & Hsec) & _ & Hg) _].
  rewrite (own_locks _ _ Hc) in Hl. injection Hl as <-.
  destruct Hsec as [Hsec|[]]. apply bool_decide_eq_true in Hsec.
  destruct o as [cmd arg|]; [|by destruct Hg]. destruct Hg as (_ & -> & Hdone).
  pose proof (section_own _ _ Hc _ Hsec) as Hb. rewrite Hdone in Hb.
  apply (pool_burst_split _ _ _ [_] _ _ [_]) in Hb as (pre & v0 & mid & -> & _ & Hmid).
  exists pre, v0, mid. split_and!; [done|done|]. intros (u & v & Hin) Hni.
  apply list_elem_of_split in Hin as (a & b & ->).
  assert (Hlt : 0 < completions (mach s)).
  { rewrite (reach_completions _ _ _ Hr). unfold signalled.
    rewrite fold_left_app. cbn [fold_left fst snd completion_after].
    rewrite fold_left_app. cbn [fold_left fst snd completion_after].
    assert (Hsub : forall w d, (w, d) ∈ sections in_section a \/ (w, d) ∈ sections in_section b -> d = ring).
    { intros w d Hd. rewrite sections_app in Hmid.
      change (sections in_section a ++ sections in_section b = [(t, ring)]) in Hmid.
      rewrite <- elem_of_app, Hmid in Hd. by apply list_elem_of_singleton in Hd as [= -> ->]. }
    pose proof (signalled_grows a 0 ltac:(eauto)). pose proof (signalled_grows b (signalled 0 a + 1) ltac:(eauto)).
    unfold signalled in *. lia. }
  destruct (wait_satisfied t _ j Hlt) as (w & m' & Hw & Hm). exists w. eexists. split; [done|].
  by econstructor.
Qed.

(** ** Executing a schedule *)

Inductive choice :=
| Ioctl (cmd arg : Z) | Interrupt (victim : option nat)
| Run (t : nat) (v : Z)              (* the next call of [t] returns [v] *)
| Ticks (n : nat).
End concurrent.

(** A machine that computes its steps, given the result wanted of a call. *)
Class MachineRun (M : Type) `{Machine M} := {
  mcall : nat -> M -> kcall -> Z -> option M;
  mnext : M -> M;
  mcall_sound t m c v m' : mcall t m c v = Some m' -> mstep t m c v m';
  mnext_sound m : mtick m (mnext m);
}.

Section schedule.
Context {M : Type} `{K : Kernel} `{U : UserMem} `{HM : Machine M} `{HR : !MachineRun M}.
Context (npu : lgnpu_device).

Definition interruptedb (s : sys M) (t : nat) : bool :=
  existsb (fun e => match e with (Handler (Some u), Call _ _) => Nat.eqb u t | _ => false end) (pool s).

Definition interruptibleb (s : sys M) (victim : option nat) : bool :=
  match victim with
  | None => true
  | Some t =>
      match pool s !! t with Some (Caller _ _, _) => true | _ => false end &&
      negb (bool_decide (irq_owner (mach s) = Some (t, true)))
  end.

Definition choose (ch : choice) (s : sys M) : option (events kcall * sys M) :=
  match ch with
  | Ioctl cmd arg => Some ([], mk_sys (pool s ++ [(Caller cmd arg, lgnpu_ioctl npu cmd arg)]) (mach s))
  | Interrupt victim =>
      if interruptibleb s victim
      then Some ([], mk_sys (pool s ++ [(Handler victim, lgnpu_irq_handler npu)]) (mach s)) else None
  | Run t v =>
      match pool s !! t with
      | Some (o, Call c k) =>
          if interruptedb s t then None
          else match mcall t (mach s) c v with
               | Some m' => Some ([(t, (c, v))], mk_sys (<[t := (o, k v)]> (pool s)) m')
               | None => None
               end
      | _ => None
      end
  | Ticks n => Some ([], mk_sys (pool s) (Nat.iter n mnext (mach s)))
  end.

Fixpoint schedule (chs : list choice) (s : sys M) : option (events kcall * sys M) :=
  match chs with
  | [] => Some ([], s)
  | ch :: chs =>
      match choose ch s with
      | Some (ev, s1) =>
          match schedule chs s1 with Some (tr, s2) => Some (ev ++ tr, s2) | None => None end
      | None => None
      end
  end.

Lemma interruptedb_spec s t : interrupted s t -> interruptedb s t = true.
Proof.
  intros (h & c & k & Hh). apply existsb_exists. eexists.
  split; [by eapply list_elem_of_In, list_elem_of_lookup_2|]. apply Nat.eqb_refl.
Qed.

Lemma reach_ticks m0 tr s n :
  reach npu m0 tr s -> reach npu m0 tr (mk_sys (pool s) (Nat.iter n mnext (mach s))).
Proof.
  intros Hr. induction n as [|n IH]; [by destruct s|].
  rewrite <- (app_nil_r tr). eapply reach_step; [exact IH|].
  apply (step_device npu (mk_sys (pool s) (Nat.iter n mnext (mach s)))), mnext_sound.
Qed.

Lemma choose_reach m0 tr s ch ev s' :
  reach npu m0 tr s -> choose ch s = Some (ev, s') -> reach npu m0 (tr ++ ev) s'.
Proof.
  intros Hr. destruct ch as [cmd arg|victim|t v|n]; simpl.
  - intros [= <- <-]. eapply reach_step; [done|constructor].
  - destruct (interruptibleb s victim) eqn:Hi; [|done]. intros [= <- <-].
    eapply reach_step; [done|]. constructor. destruct victim as [t|]; [|done].
    apply andb_true_iff in Hi as [Ht Hirq]. apply negb_true_iff, bool_decide_eq_false in Hirq.
    split; [|done]. destruct (pool s !! t) as [[[cmd arg|] p]|]; try done. by exists cmd, arg, p.
  - destruct (pool s !! t) as [[o [| |c k]]|] eqn:Ht; try done.
    destruct (interruptedb s t) eqn:Hi; [done|].
    destruct (mcall t (mach s) c v) as [m'|] eqn:Hm; [|done]. intros [= <- <-].
    eapply reach_step; [done|]. apply (step_call _ _ _ _ _ _ _ _ Ht); [|by apply mcall_sound].
    intros Hint%interruptedb_spec. congruence.
  - intros [= <- <-]. rewrite app_nil_r. by apply reach_ticks.
Qed.

Lemma schedule_reach m0 tr s chs tr' s' :
  reach npu m0 tr s -> schedule chs s = Some (tr', s') -> reach npu m0 (tr ++ tr') s'.
Proof.
  revert tr s tr'. induction chs as [|ch chs IH]; intros tr s tr' Hr; simpl.
  - intros [= <- <-]. by rewrite app_nil_r.
  - destruct (choose ch s) as [[ev s1]|] eqn:Hch; [|done].
    destruct (schedule chs s1) as [[tr1 s2]|] eqn:Hsch; [|done]. intros [= <- <-].
    rewrite app_assoc. eapply IH; [|done]. by eapply choose_reach.
Qed.

(** What a schedule reaches, from a check of its outcome. *)
Lemma schedule_check m0 chs (check : events kcall -> sys M -> bool) :
  match schedule chs (mk_sys [] m0) with Some (tr, s) => check tr s | None => false end = true ->
  exists tr s, reach npu m0 tr s /\ check tr s = true.
Proof.
  destruct (schedule chs _) as [[tr s]|] eqn:Hs; [|done]. intros Hc. exists tr, s. split; [|done].
  eapply (schedule_reach _ []); [constructor|done].
Qed.

(** The same in two parts, with a check of the calls and the state of each. *)
Lemma schedule_check_twice m0 chs1 chs2 (check1 check2 : events kcall -> sys M -> bool) :
  match schedule chs1 (mk_sys [] m0) with
  | Some (tr1, s1) =>
      check1 tr1 s1 && match schedule chs2 s1 with Some (tr2, s2) => check2 tr2 s2 | None => false end
  | None => false
  end = true ->
  exists tr1 s1 tr2 s2, reach npu m0 tr1 s1 /\ check1 tr1 s1 = true /\
    reach npu m0 (tr1 ++ tr2) s2 /\ check2 tr2 s2 = true.
Proof.
  destruct (schedule chs1 _) as [[tr1 s1]|] eqn:H1; [|done]. intros [Hc1 Hc]%andb_true_iff.
  destruct (schedule chs2 s1) as [[tr2 s2]|] eqn:H2; [|done].
  assert (Hr1 : reach npu m0 tr1 s1) by (eapply (schedule_reach _ []); [constructor|done]).
  exists tr1, s1, tr2, s2. split_and!; [done|done| |done]. by eapply schedule_reach.
Qed.
End schedule.

(** ** The kernel objects alone

    The machine of the two locks and the completion whose device gives any
    documented answer. *)

Definition lock_after (t : nat) (c : kcall) (l : owners) : option owners :=
  match c with
  | MutexLock => if decide (l.1 = None) then Some (Some t, l.2) else None
  | MutexUnlock => if decide (l.1 = Some t) then Some (None, l.2) else None
  | SpinLock => if decide (l.2 = None) then Some (l.1, Some (t, false)) else None
  | SpinLockIrqsave => if decide (l.2 = None) then Some (l.1, Some (t, true)) else None
  | SpinUnlock => if decide (l.2 = Some (t, false)) then Some (l.1, None) else None
  | SpinUnlockIrqrestore => if decide (l.2 = Some (t, true)) then Some (l.1, None) else None
  | _ => Some l
  end.

Lemma lock_after_effect t c l l' : lock_after t c l = Some l' <-> lock_effect t c l l'.
Proof.
  destruct c; cbn [lock_after lock_effect];
    try (split; [by intros [= ->]|by intros ->]);
    (destruct (decide _) as [Hd|Hd]; [|split; [done|by intros [? ?]]]);
    (split; [by intros [= <-]|by intros [_ ->]]).
Qed.

#[export] Instance returns_dec `{Kernel} c v : Decision (returns (C:=kcall) c v).
Proof. unfold returns, kernel_returns, fits. destruct c; apply _. Defined.

(** The locks and what [cmd_done] has been signalled. *)
Record kobj := mk_kobj { k_owners : owners; k_done : Z }.

Definition kobj_free : kobj := mk_kobj (None, None) 0.

(** A wait is only satisfied by a completion there is. *)
Definition may_return (c : kcall) (v n : Z) : bool :=
  match c with WaitCompletion _ => negb (0 <? v) || (0 <? n) | _ => true end.

Section kernel_objects.
Context `{K : Kernel}.

Definition kobj_after (t : nat) (c : kcall) (v : Z) (m : kobj) : option kobj :=
  if bool_decide (returns c v) && may_return c v (k_done m) then
    match lock_after t c (k_owners m) with
    | Some l => Some (mk_kobj l (completion_after c v (k_done m)))
    | None => None
    end
  else None.

Lemma kobj_after_inv t c v m m' :
  kobj_after t c v m = Some m' ->
  returns c v /\ lock_effect t c (k_owners m) (k_owners m') /\
  k_done m' = completion_after c v (k_done m).
Proof.
  unfold kobj_after. destruct (_ && _) eqn:Hb; [|done].
  apply andb_true_iff in Hb as [Hv%bool_decide_eq_true _].
  destruct (lock_after t c (k_owners m)) as [l|] eqn:Hl; [|done]. intros [= <-].
  by apply lock_after_effect in Hl.
Qed.

(** A call that no lock holds up can return: with any documented result, but
    for a wait, which can always time out. *)
Lemma kobj_after_enabled t c v m l :
  lock_effect t c (k_owners m) l -> returns c v ->
  exists w m', kobj_after t c w m = Some m' /\ match c with WaitCompletion _ => True | _ => w = v end.
Proof.
  intros Hl%lock_after_effect Hv. unfold kobj_after.
  exists (match c with WaitCompletion _ => 0 | _ => v end).
  assert (Hw : returns c (match c with WaitCompletion _ => 0 | _ => v end)).
  { destruct c; try done. right. lia. }
  rewrite (bool_decide_eq_true_2 _ Hw), Hl. by destruct c; eauto.
Qed.

#[export] Instance kobj_machine : Machine kobj := {|
  cmd_owner m := (k_owners m).1; irq_owner m := (k_owners m).2;
  mstep t m c v m' := kobj_after t c v m = Some m';
  mtick m m' := m' = m;
|}.

Lemma kobj_owners (m : kobj) : owners_of m = k_owners m.
Proof. unfold owners_of. simpl. by destruct (k_owners m). Qed.

#[export] Instance kobj_machine_laws : MachineLaws kobj.
Proof.
  split.
  - by intros t m c v m' [? _]%kobj_after_inv.
  - intros t m c v m' (_ & He & _)%kobj_after_inv. by rewrite !kobj_owners.
  - intros t m c l' He [v Hv]. rewrite kobj_owners in He.
    destruct (kobj_after_enabled _ _ _ _ _ He Hv) as (w & m' & Hm & _). by exists w, m'.
  - intros m m' Hm. by rewrite Hm.
Qed.

#[export] Instance kobj_completion_laws : CompletionLaws kobj.
Proof.
  refine {| completions := k_done |}.
  - by intros t m c v m' (_ & _ & ->)%kobj_after_inv.
  - by intros m m' ->.
  - intros t m j Hm. exists 1. eexists. split; [done|]. unfold mstep, kobj_machine, kobj_after.
    rewrite bool_decide_eq_true_2 by (right; lia). simpl. by rewrite (proj2 (Z.ltb_lt _ _) Hm).
Defined.

#[export] Instance kobj_machine_run : MachineRun kobj :=
  {| mcall t m c v := kobj_after t c v m; mnext m := m;
     mcall_sound t m c v m' H := H; mnext_sound m := eq_refl |}.
End kernel_objects.

(** ** A schedule with two callers and the handler *)

#[local] Existing Instance linux.
#[local] Existing Instance linux_laws.
#[local] Existing Instance user_example.

(** A submission and a DMA transfer start; the handler interrupts the one
    that waits for the mutex, finds the interrupt pending and completes; the
    submission rings in the middle of it. *)
Definition two_callers : list choice :=
  [Ioctl LGNPU_IOCTL_SUBMIT 0x7000; Ioctl LGNPU_IOCTL_DMA_XFER 8; Run 0 0; Run 1 0; Run 0 0;
   Interrupt (Some 1%nat); Run 0 1; Run 2 0; Run 2 1; Run 0 0; Run 2 0; Run 0 0; Run 2 0;
   Run 0 0; Run 0 0; Run 0 0; Run 0 0; Run 2 0].

Definition two_callers_before : events kcall :=
  [(0%nat, (CopyFromUser 0x7000 64, 0)); (1%nat, (CopyFromUser 8 16, 0)); (0%nat, (MutexLock, 0));
   (0%nat, (Readl 0x40000004, 1)); (2%nat, (SpinLock, 0)); (2%nat, (Readl 0x4000000C, 1));
   (0%nat, (MemcpyToio 0x40001000 (Z.of_nat <$> seq 0 16), 0)); (2%nat, (Writel 1 0x40000014, 0));
   (0%nat, (ReinitCompletion, 0)); (2%nat, (SpinUnlock, 0)); (0%nat, (SpinLockIrqsave, 0));
   (0%nat, (Writel 1 0x40000010, 0)); (0%nat, (SpinUnlockIrqrestore, 0))].

Definition two_callers_trace : events kcall :=
  two_callers_before ++ [(0%nat, (Writel 1 (regs npu_example + drv_reg R_DOORBELL), 0)); (2%nat, (Complete, 0))].

Lemma two_callers_reach :
  exists s, reach npu_example kobj_free two_callers_trace s /\
  exists k, pool s !! 0%nat = Some (Caller LGNPU_IOCTL_SUBMIT 0x7000, Call (WaitCompletion 1250) k).
Proof.
  destruct (schedule_check npu_example kobj_free two_callers (fun tr s =>
    bool_decide (tr = two_callers_trace) &&
    match pool s !! 0%nat with
    | Some (Caller cmd arg, Call (WaitCompletion j) _) =>
        (cmd =? LGNPU_IOCTL_SUBMIT) && (arg =? 0x7000) && (j =? 1250)
    | _ => false end))
    as (tr & s & Hr & Hc); [by vm_compute|].
  apply andb_true_iff in Hc as [->%bool_decide_eq_true Hp]. exists s. split; [done|].
  destruct (pool s !! 0%nat) as [[[cmd arg|] [| |[] k]]|]; try done.
  apply andb_true_iff in Hp as [[->%Z.eqb_eq ->%Z.eqb_eq]%andb_true_iff ->%Z.eqb_eq]. eauto.
Qed.

Lemma kobj_free_owners : owners_of kobj_free = (None, None).
Proof. done. Qed.

Theorem mutual_exclusion_witness :
  exists tr s, reach npu_example kobj_free tr s /\ exists held : nat -> locks,
    lock_run npu_example unlocked (own 0 tr) = Some (held 0%nat) /\
    (cmd_held (held 0%nat) = true -> cmd_held (held 1%nat) = true -> 0%nat = 1%nat).
Proof.
  destruct two_callers_reach as (s & Hr & _).
  destruct (mutual_exclusion npu_example _ _ _ kobj_free_owners Hr) as (held & H1 & H2 & _).
  eexists _, s. split; [exact Hr|]. exists held. split; [apply H1|apply H2].
Defined.

Theorem starts_are_own_witness :
  exists tr s, reach npu_example kobj_free tr s /\
    exists cmd arg p before w mid done,
      pool s !! 0%nat = Some (Caller cmd arg, p) /\
      two_callers_before = before ++ (0%nat, (MutexLock, w)) :: mid /\
      sections (in_section npu_example) mid = (0%nat,.) <$> done /\
      (cmd = LGNPU_IOCTL_SUBMIT /\ 1 = 1 /\ done = submit_window npu_example arg) /\
      forall u c x, (u, (c, x)) ∈ mid -> u <> 0%nat -> exists o q, pool s !! u = Some (o, q) /\ bystander npu_example o c.
Proof.
  destruct two_callers_reach as (s & Hr & _). eexists _, s. split; [exact Hr|].
  exact (starts_are_own npu_example _ _ _ _ _ _ R_DOORBELL _ kobj_free_owners Hr eq_refl (or_introl eq_refl)).
Defined.

Theorem no_deadlock_witness :
  exists tr s, reach npu_example kobj_free tr s /\
    exists u c' v s', sys_step npu_example s [(u, (c', v))] s'.
Proof.
  destruct two_callers_reach as (s & Hr & k & Ht).
  eexists _, s. split; [exact Hr|]. exact (no_deadlock npu_example _ _ _ _ _ _ _ kobj_free_owners Hr Ht).
Defined.

Theorem no_lost_wakeup_witness :
  exists s, reach npu_example kobj_free two_callers_trace s /\
    exists pre v0 mid, two_callers_trace = pre ++ (0%nat, (ReinitCompletion, v0)) :: mid /\
      sections (in_section npu_example) mid = [(0%nat, ring npu_example)].
Proof.
  destruct two_callers_reach as (s & Hr & k & Ht). exists s. split; [exact Hr|].
  destruct (no_lost_wakeup npu_example _ _ _ _ _ _ _ kobj_free_owners Hr Ht)
    as (pre & v0 & mid & H1 & H2 & _).
  by exists pre, v0, mid.
Defined.
