(* ===== verification/ConcurrentHw.v ===== *)
(** * Concurrent callers of the driver on the clocked hardware

    The machine of [Concurrent] with the kernel objects and the hardware of
    [Hw] behind the register window, and what the driver and this hardware do
    to a submission that follows an abandoned one. *)

From Stdlib Require Import String.
From S2P Require Import Prelude Regs Command Decode Prog Runtime Driver Fifo Hw Interleave Concurrent.

Open Scope Z_scope.

Record machine (E : Type) := mk_machine { objects : kobj; device : hw E }.
Arguments mk_machine {E}.
Arguments objects {E}.
Arguments device {E}.

Section machine.
Context `{K : Kernel}.
Context {E : Type} {C : Core E} (base : Z).

(** The device's part of a call: its answer and its state after. A register
    access takes one clock; [memcpy_toio] stores one word per clock, in
    ascending order. The data lines have 32 bits. *)
Definition bus_access (c : mmio) (h : hw E) : Z * hw E :=
  mmio_answer base 0 false c h.

Fixpoint store_words (a : Z) (ws : list Z) (h : hw E) : hw E :=
  match ws with
  | [] => h
  | w :: ws => store_words (a + 4) ws (bus_access (Store a (u32 w)) h).2
  end.

Definition device_after (c : kcall) (h : hw E) : option Z * hw E :=
  match c with
  | Readl a => let '(v, h') := bus_access (Load a) h in (Some (u32 v), h')
  | Writel v a => (None, (bus_access (Store a (u32 v)) h).2)
  | MemcpyToio a data => (None, store_words a data h)
  | _ => (None, h)
  end.

(** A register read returns what the device answers. *)
Definition machine_call (t : nat) (m : machine E) (c : kcall) (v : Z) : option (machine E) :=
  let '(w, h) := device_after c (device m) in
  if match w with Some w => v =? w | None => true end then
    match kobj_after t c v (objects m) with Some k => Some (mk_machine k h) | None => None end
  else None.

Definition machine_tick (m : machine E) : machine E :=
  mk_machine (objects m) (hw_step (device m) None).

Instance hw_machine : Machine (machine E) := {|
  cmd_owner m := (k_owners (objects m)).1; irq_owner m := (k_owners (objects m)).2;
  mstep t m c v m' := machine_call t m c v = Some m';
  mtick m m' := m' = machine_tick m;
|}.

Lemma machine_owners m : owners_of m = k_owners (objects m).
Proof. unfold owners_of. simpl. by destruct (k_owners (objects m)). Qed.

Lemma machine_call_objects t m c v m' :
  machine_call t m c v = Some m' -> kobj_after t c v (objects m) = Some (objects m').
Proof.
  unfold machine_call. destruct (device_after c (device m)) as [w h]. intros Hm.
  destruct (match w with Some w => v =? w | None => true end); [|done].
  destruct (kobj_after _ _ _ _) as [k|]; [|done]. by injection Hm as <-.
Qed.

Lemma machine_call_enabled t m c v k :
  kobj_after t c v (objects m) = Some k ->
  match (device_after c (device m)).1 with Some w => v = w | None => True end ->
  exists m', machine_call t m c v = Some m'.
Proof.
  intros Hk Hw. unfold machine_call. destruct (device_after c (device m)) as [[w|] h]; simpl in Hw.
  - subst w. rewrite Z.eqb_refl, Hk. eauto.
  - rewrite Hk. eauto.
Qed.

(** Only register reads take their value from the device. *)
Lemma device_answers c h w : (device_after c h).1 = Some w -> fits 32 w /\ exists a, c = Readl a.
Proof. destruct c; try done. intros [= <-]. split; [by apply fits_wrap|eauto]. Qed.

Instance hw_machine_laws : MachineLaws (machine E).
Proof.
  split.
  - by intros t m c v m' [? _]%machine_call_objects%kobj_after_inv.
  - intros t m c v m' (_ & He & _)%machine_call_objects%kobj_after_inv. by rewrite !machine_owners.
  - intros t m c l' He [v Hv]. rewrite machine_owners in He.
    destruct ((device_after c (device m)).1) as [w|] eqn:Hw.
    + destruct (device_answers _ _ _ Hw) as [Hfit [a ->]].
      destruct (kobj_after_enabled t (Readl a) w (objects m) l' He Hfit) as (w' & k & Hk & ->).
      exists w. eapply machine_call_enabled; [exact Hk|]. by rewrite Hw.
    + destruct (kobj_after_enabled _ _ _ _ _ He Hv) as (w' & k & Hk & _).
      exists w'. eapply machine_call_enabled; [exact Hk|]. by rewrite Hw.
  - intros m m' ->. by rewrite !machine_owners.
Qed.

Instance hw_completion_laws : CompletionLaws (machine E).
Proof.
  refine {| completions m := k_done (objects m) |}.
  - by intros t m c v m' (_ & _ & ->)%machine_call_objects%kobj_after_inv.
  - by intros m m' ->.
  - intros t m j Hm. assert (Hobj : 0 < completions (objects m)) by exact Hm.
    destruct (wait_satisfied t (objects m) j Hobj) as (v & k & Hv & Hk).
    destruct (machine_call_enabled t m _ v k Hk) as [m' Hm']; [done|]. by exists v, m'.
Defined.

Instance hw_machine_run : MachineRun (machine E) :=
  {| mcall := machine_call; mnext := machine_tick;
     mcall_sound t m c v m' H := H; mnext_sound m := eq_refl |}.
End machine.

(** ** An abandoned submission completes the next one *)

#[local] Existing Instance linux.
#[local] Existing Instance linux_laws.

Definition word_of (op addr : Z) : list Z := op :: addr :: replicate 14 1.

(** Two processes, each with its own descriptor in memory. *)
Definition two_users : UserMem := {|
  user_submit arg := if arg =? 1 then word_of 1 16 else word_of 2 32;
  user_dma arg := mk_idma 0 0 0 0;
|}.

#[local] Existing Instance two_users.

(** Every command takes 50 cycles in the backend. *)
Definition slow : conv_cmd_t -> nat := fun _ => 50%nat.
Definition no_writes : conv_cmd_t -> nat -> option (Z * Z) := fun _ _ => None.
#[local] Instance slow_core : Core engine := latency slow no_writes.
Abbreviation example := (machine engine).

#[local] Instance example_machine : Machine example := hw_machine 0x40000000.
#[local] Instance example_laws : MachineLaws example := hw_machine_laws 0x40000000.
#[local] Instance example_completion : CompletionLaws example := hw_completion_laws 0x40000000.
#[local] Instance example_run : MachineRun example := hw_machine_run 0x40000000.

Definition after_probe : example := mk_machine kobj_free hw_reset.

(** The calls of a submission up to the enabled interrupt, and from the
    doorbell on, when the wait returns [w]. *)
Definition until_enabled (t : nat) : list choice :=
  [Run t 0; Run t 0; Run t 1; Run t 0; Run t 0; Run t 0; Run t 0; Run t 0].
Definition ring_and_wait (t : nat) (w : Z) : list choice :=
  [Run t 0; Run t w; Run t 0; Run t 0; Run t 0; Run t 0].

(** A signal ends the first submission at once; its command goes on and
    completes; the second submission enables the interrupt. *)
Definition abandoned : list choice :=
  [Ioctl LGNPU_IOCTL_SUBMIT 1] ++ until_enabled 0 ++ ring_and_wait 0 (- ERESTARTSYS) ++
  [Ticks 100; Ioctl LGNPU_IOCTL_SUBMIT 2] ++ until_enabled 1.

(** The handler answers the interrupt; the second submission rings and waits. *)
Definition answered : list choice :=
  [Interrupt None; Run 2 0; Run 2 1; Run 2 0; Run 2 0; Run 2 0] ++ ring_and_wait 1 1250.

(** The system call of thread [t] and its result. *)
Definition result (s : sys example) (t : nat) : option (Z * Z * Z) :=
  match pool s !! t with Some (Caller cmd arg, Ret r) => Some (cmd, arg, r) | _ => None end.

(** The doorbells and the signals of the completion, and whose they are. *)
Inductive landmark := Doorbell (t : nat) | Completed (t : nat).

Instance landmark_eq_dec : EqDecision landmark.
Proof. solve_decision. Defined.

Definition landmarks (tr : events kcall) : list landmark :=
  omap (fun '(t, (c, _)) =>
    match c with
    | Complete => Some (Completed t)
    | Writel _ a => if a =? regs npu_example + drv_reg R_DOORBELL then Some (Doorbell t) else None
    | _ => None
    end) tr.

(** A submission that gives up leaves its command running; when that command
    completes, the pending interrupt stays latched, because neither the
    abandoned submission nor the next one acknowledges it. The next submission
    enables the interrupt and the line rises at once; the handler completes the
    re-armed completion before the second doorbell, no completion comes after
    it, and yet the second system call returns success, its own descriptor still
    being fetched. One schedule of the calls, run on the machine. *)
Example stale_completion :
  exists tr1 s1 tr2 s2,
    reach npu_example after_probe tr1 s1 /\
    landmarks tr1 = [Doorbell 0] /\ irq_out (device (mach s1)) = true /\
    reach npu_example after_probe (tr1 ++ tr2) s2 /\
    landmarks tr2 = [Completed 2; Doorbell 1] /\
    result s2 0 = Some (LGNPU_IOCTL_SUBMIT, 1, - ERESTARTSYS) /\ result s2 1 = Some (LGNPU_IOCTL_SUBMIT, 2, 0) /\
    fetch_busy (h_fetch (device (mach s2))) = true /\ be_busy (h_backend (device (mach s2))) = false.
Proof.
  destruct (schedule_check_twice npu_example after_probe abandoned answered
    (fun tr s => bool_decide (landmarks tr = [Doorbell 0]) && irq_out (device (mach s)))
    (fun tr s => bool_decide (landmarks tr = [Completed 2; Doorbell 1]) &&
      (bool_decide (result s 0 = Some (LGNPU_IOCTL_SUBMIT, 1, - ERESTARTSYS)) &&
        (bool_decide (result s 1 = Some (LGNPU_IOCTL_SUBMIT, 2, 0)) &&
          (fetch_busy (h_fetch (device (mach s))) && negb (be_busy (h_backend (device (mach s)))))))))
    as (tr1 & s1 & tr2 & s2 & Hr1 & [Hl1%bool_decide_eq_true Hirq]%andb_true_iff & Hr2 & Hc); [by vm_compute|].
  apply andb_true_iff in Hc as [Hl2%bool_decide_eq_true Hc].
  apply andb_true_iff in Hc as [H0%bool_decide_eq_true Hc]. apply andb_true_iff in Hc as [H1%bool_decide_eq_true Hc].
  apply andb_true_iff in Hc as [Hf He%negb_true_iff]. by exists tr1, s1, tr2, s2.
Qed.
